(** * goggins-ai: the conversational orchestration core

    A shallow embedding of
      - electron/WhisperCppClient.ts   (transcript accumulation, silence commit),
      - electron/ConversationManager.ts (the conversation state machine),
      - electron/ProductivityMonitor.ts (the intervention policy, callout dedup),
      - electron/ChatHistory.ts and electron/config.ts (what the above read),
      - electron/ActivityLog.ts, electron/CoachHistory.ts,
        electron/ConversationMemory.ts (the logs and the memory they keep),
      - electron/QwenClient.ts and electron/LlamaClient.ts (how the answers of
        the models are validated),
    and the properties the specification states about them, with further
    properties of the same code.

    Conventions of the embedding.
      - JavaScript is single-threaded: every callback runs to its next [await]
        without interruption.  A handler is therefore a function [World -> World];
        an [async] method is cut at its awaits into the part that runs when it is
        called and one continuation per awaited result, and the suspended
        activations are kept in the world.  The event [Start] takes [start()]
        and the continuation after its await as one step; the module
        [SuspendedStart] cuts it at the await.
      - [Date.now()] is the field [now]; [setTimeout] adds to the field [timers].
      - What leaves the orchestrator (IPC sends, calls of the language model and of
        the speech synthesiser, audio handed to the transcriber, transcript events
        the transcriber emits) is appended to the field [trace].
      - Strings are sequences of code units below 256; timestamps are clock
        readings in milliseconds.
      - The Whisper inference, the language model and the speech synthesiser are
        collaborators: their results enter as events.  The adaptive conversation
        memory is written but never read by the control flow: it is not part
        of the world, and is modelled on its own. *)

From Stdlib Require Import ZArith List String Ascii Bool Arith Lia.
Import ListNotations.

Local Open Scope string_scope.
Local Open Scope Z_scope.
Local Open Scope list_scope.

(* ===================================================================== *)
(** ** JavaScript string operations *)
(* ===================================================================== *)

Module JsString.

(** White space and line terminators removed by [String.prototype.trim]. *)
Definition is_white_space (c : ascii) : bool :=
  let n := nat_of_ascii c in
  (((9 <=? n) && (n <=? 13)) || (n =? 32) || (n =? 160))%nat.

Fixpoint trimStart (s : string) : string :=
  match s with
  | EmptyString => EmptyString
  | String c s' => if is_white_space c then trimStart s' else s
  end.

Fixpoint trimEnd (s : string) : string :=
  match s with
  | EmptyString => EmptyString
  | String c s' =>
      match trimEnd s' with
      | EmptyString => if is_white_space c then EmptyString else String c EmptyString
      | r => String c r
      end
  end.

Definition trim (s : string) : string := trimEnd (trimStart s).

(** [s.length] *)
Definition len (s : string) : Z := Z.of_nat (String.length s).

(** A string used as a condition: the empty string is falsy. *)
Definition truthy (s : string) : bool :=
  match s with EmptyString => false | _ => true end.

Definition lower_char (c : ascii) : ascii :=
  let n := nat_of_ascii c in
  if (((65 <=? n) && (n <=? 90))
      || ((192 <=? n) && (n <=? 222) && negb (n =? 215)))%nat
  then ascii_of_nat (n + 32) else c.

Fixpoint toLowerCase (s : string) : string :=
  match s with
  | EmptyString => EmptyString
  | String c s' => String (lower_char c) (toLowerCase s')
  end.

(** [s.includes(sub)] *)
Fixpoint includes (s sub : string) : bool :=
  if String.prefix sub s then true
  else match s with
       | EmptyString => false
       | String _ s' => includes s' sub
       end.

Fixpoint all_chars (p : ascii -> bool) (s : string) : bool :=
  match s with
  | EmptyString => true
  | String c s' => p c && all_chars p s'
  end.

Fixpoint last_char (s : string) : option ascii :=
  match s with
  | EmptyString => None
  | String c EmptyString => Some c
  | String _ s' => last_char s'
  end.

Definition first_char (s : string) : option ascii :=
  match s with
  | EmptyString => None
  | String c _ => Some c
  end.

End JsString.

Import JsString.

(* ===================================================================== *)
(** ** Data model (src/types/activity.ts, electron/config.ts) *)
(* ===================================================================== *)

Set Primitive Projections.

Inductive ConversationState := monitoring | conversation | responding.

Inductive ConversationMode := wake_word | callout_auto_listen | auto_detect.

Inductive Role := user | goggins.

Record ConversationMessage := {
  role : Role;
  text : string;
  timestamp : Z
}.

Inductive TaskType := work | study | entertainment | social | other.

Record QwenActivitySummary := {
  primaryActivity : string;
  appGuess : option string;
  taskType : TaskType
}.

(** A [Buffer] of PCM audio. *)
Definition Buffer := list Byte.byte.

(** The fields of [StayHardConfig] read by the modelled code. *)
Record StayHardConfig := {
  interventionThreshold : Z;
  enableTTS : bool;
  proactiveCooldownMin : Z;
  proactiveCooldownMax : Z;
  proactiveTriggerDuration : Z;
  checkInIntervalMin : Z;
  checkInIntervalMax : Z;
  naturalPauseMs : Z;
  voiceListeningEnabled : bool;
  conversationAutoEndExchanges : Z;
  conversationResponseTimeout : Z;
  wakeWord : string
}.

(** [loadConfig()] with no environment variable set. *)
Definition default_config : StayHardConfig := {|
  interventionThreshold := 5;
  enableTTS := false;
  proactiveCooldownMin := 120000;
  proactiveCooldownMax := 300000;
  proactiveTriggerDuration := 120000;
  checkInIntervalMin := 900000;
  checkInIntervalMax := 1800000;
  naturalPauseMs := 60000;
  voiceListeningEnabled := true;
  conversationAutoEndExchanges := 3;
  conversationResponseTimeout := 30000;
  wakeWord := "hey goggins"
|}.

Definition state_eqb (a b : ConversationState) : bool :=
  match a, b with
  | monitoring, monitoring | conversation, conversation | responding, responding => true
  | _, _ => false
  end.

(** *** Timers of the event loop *)

Inductive TimerCallback :=
| ResponseTimeout   (* the outer callback of setResponseTimeout *)
| GraceTimeout      (* the inner callback: "extra 2 seconds for pending transcripts" *)
| MicStatusCheck.   (* the microphone check scheduled by start(); it only logs *)

Record Timer := {
  handle : nat;
  due : Z;
  callback : TimerCallback
}.

(** *** What leaves the orchestrator *)

Inductive TtsOutcome :=
| AudioReady (audioDataUrl : string)   (* a path was returned and the file was read *)
| AudioNull                            (* generateGogginsVoice returned null *)
| SynthesisThrows.                     (* the call or the file read threw *)

Inductive Effect :=
| SendStateChanged (st : ConversationState) (m : option ConversationMode)
                   (count : Z) (isListening : bool)   (* "conversation:state-changed" *)
| SendTranscriptionPartial (t : string)               (* "transcription:partial" *)
| SendConversationSpeak (t audio : string) (ts : Z)   (* "conversation:speak" *)
| SendAudioStopImmediately                            (* "audio:stop-immediately" *)
| CallLLM (id : nat) (history : list ConversationMessage) (shouldEnd : bool)
| CallTTS (id : nat) (t : string)
| StreamAudio (chunk : Buffer)                        (* sttClient.streamAudio(chunk) *)
| EmitTranscript (final : bool) (t : string) (ts : Z) (* onTranscriptCallback(event) *)
| EmitUserSpeaking (speaking : bool)                  (* onUserSpeakingCallback(b) *)
| EmitWakeWord.                                       (* onWakeWordCallback() *)

(** *** State of the objects *)

Record WhisperCppClient := {
  isInitialized : bool;             (* set together with [pipeline] *)
  isStreaming : bool;
  audioBuffer : list Buffer;
  processingInterval : option Z;    (* the period of the interval, when set *)
  lastTranscriptChunkTime : Z;
  pendingTranscript : string;
  transcriptCheckInterval : option Z;
  onTranscriptCallback : bool;      (* a callback is registered *)
  onWakeWordCallback : bool;
  onUserSpeakingCallback : bool;
  lastTranscriptTime : Z;
  isUserSpeaking : bool
}.

Record ConversationManager := {
  state : ConversationState;
  mode : option ConversationMode;
  conversationHistory : list ConversationMessage;
  exchangeCount : Z;
  mainWindow : bool;                (* mainWindow && !mainWindow.isDestroyed() *)
  responseTimeoutHandle : option nat;
  accumulatedTranscript : string;
  isProcessingResponse : bool;
  recentActivities : list QwenActivitySummary;
  lastResponseTime : Z;
  isPlaybackActive : bool;
  hasTTS : bool;                    (* llmHelper.hasTTS() *)
  isRecording : bool                (* microphoneHelper.getIsRecording() *)
}.

(** An activation of [generateAndSpeakResponse] suspended at
    [await llmHelper.generateConversationalResponse(...)]; the local
    [shouldEnd] is part of the continuation. *)
Record PendingGeneration := {
  gen_id : nat;
  gen_shouldEnd : bool
}.

(** An activation suspended inside [speakResponse] at
    [await llmHelper.generateGogginsVoice(text)]. *)
Record PendingSpeech := {
  tts_id : nat;
  tts_shouldEnd : bool;
  tts_text : string
}.

Record World := {
  cm : ConversationManager;
  stt : WhisperCppClient;
  now : Z;
  timers : list Timer;
  nextId : nat;
  pendingLLM : list PendingGeneration;
  pendingTTS : list PendingSpeech;
  trace : list Effect
}.

Definition ECHO_COOLDOWN_MS : Z := 0.
Definition TRANSCRIPT_SILENCE_THRESHOLD_MS : Z := 1500.
Definition CHUNK_DURATION_MS : Z := 3500.
Definition TRANSCRIPT_CHECK_MS : Z := 500.
Definition GRACE_MS : Z := 2000.
Definition BLANK_AUDIO : string := "[BLANK_AUDIO]".
Definition MIN_TRANSCRIPT_CHARS : Z := 3.

(** *** Field updates *)

Definition with_cm (f : ConversationManager -> ConversationManager) (w : World) : World :=
  {| cm := f (cm w); stt := stt w; now := now w; timers := timers w; nextId := nextId w;
     pendingLLM := pendingLLM w; pendingTTS := pendingTTS w; trace := trace w |}.

Definition with_stt (f : WhisperCppClient -> WhisperCppClient) (w : World) : World :=
  {| cm := cm w; stt := f (stt w); now := now w; timers := timers w; nextId := nextId w;
     pendingLLM := pendingLLM w; pendingTTS := pendingTTS w; trace := trace w |}.

Definition set_now (t : Z) (w : World) : World :=
  {| cm := cm w; stt := stt w; now := t; timers := timers w; nextId := nextId w;
     pendingLLM := pendingLLM w; pendingTTS := pendingTTS w; trace := trace w |}.

Definition set_timers (l : list Timer) (w : World) : World :=
  {| cm := cm w; stt := stt w; now := now w; timers := l; nextId := nextId w;
     pendingLLM := pendingLLM w; pendingTTS := pendingTTS w; trace := trace w |}.

Definition set_nextId (n : nat) (w : World) : World :=
  {| cm := cm w; stt := stt w; now := now w; timers := timers w; nextId := n;
     pendingLLM := pendingLLM w; pendingTTS := pendingTTS w; trace := trace w |}.

Definition set_pendingLLM (l : list PendingGeneration) (w : World) : World :=
  {| cm := cm w; stt := stt w; now := now w; timers := timers w; nextId := nextId w;
     pendingLLM := l; pendingTTS := pendingTTS w; trace := trace w |}.

Definition set_pendingTTS (l : list PendingSpeech) (w : World) : World :=
  {| cm := cm w; stt := stt w; now := now w; timers := timers w; nextId := nextId w;
     pendingLLM := pendingLLM w; pendingTTS := l; trace := trace w |}.

(** Appends one effect to the trace. *)
Definition emit (e : Effect) (w : World) : World :=
  {| cm := cm w; stt := stt w; now := now w; timers := timers w; nextId := nextId w;
     pendingLLM := pendingLLM w; pendingTTS := pendingTTS w; trace := trace w ++ [e] |}.

Definition cm_set_state (v : ConversationState) (c : ConversationManager) :=
  {| state := v; mode := mode c; conversationHistory := conversationHistory c;
     exchangeCount := exchangeCount c; mainWindow := mainWindow c;
     responseTimeoutHandle := responseTimeoutHandle c;
     accumulatedTranscript := accumulatedTranscript c;
     isProcessingResponse := isProcessingResponse c;
     recentActivities := recentActivities c; lastResponseTime := lastResponseTime c;
     isPlaybackActive := isPlaybackActive c; hasTTS := hasTTS c;
     isRecording := isRecording c |}.

Definition cm_set_mode (v : option ConversationMode) (c : ConversationManager) :=
  {| state := state c; mode := v; conversationHistory := conversationHistory c;
     exchangeCount := exchangeCount c; mainWindow := mainWindow c;
     responseTimeoutHandle := responseTimeoutHandle c;
     accumulatedTranscript := accumulatedTranscript c;
     isProcessingResponse := isProcessingResponse c;
     recentActivities := recentActivities c; lastResponseTime := lastResponseTime c;
     isPlaybackActive := isPlaybackActive c; hasTTS := hasTTS c;
     isRecording := isRecording c |}.

Definition cm_set_conversationHistory (v : list ConversationMessage) (c : ConversationManager) :=
  {| state := state c; mode := mode c; conversationHistory := v;
     exchangeCount := exchangeCount c; mainWindow := mainWindow c;
     responseTimeoutHandle := responseTimeoutHandle c;
     accumulatedTranscript := accumulatedTranscript c;
     isProcessingResponse := isProcessingResponse c;
     recentActivities := recentActivities c; lastResponseTime := lastResponseTime c;
     isPlaybackActive := isPlaybackActive c; hasTTS := hasTTS c;
     isRecording := isRecording c |}.

Definition cm_set_exchangeCount (v : Z) (c : ConversationManager) :=
  {| state := state c; mode := mode c; conversationHistory := conversationHistory c;
     exchangeCount := v; mainWindow := mainWindow c;
     responseTimeoutHandle := responseTimeoutHandle c;
     accumulatedTranscript := accumulatedTranscript c;
     isProcessingResponse := isProcessingResponse c;
     recentActivities := recentActivities c; lastResponseTime := lastResponseTime c;
     isPlaybackActive := isPlaybackActive c; hasTTS := hasTTS c;
     isRecording := isRecording c |}.

Definition cm_set_mainWindow (v : bool) (c : ConversationManager) :=
  {| state := state c; mode := mode c; conversationHistory := conversationHistory c;
     exchangeCount := exchangeCount c; mainWindow := v;
     responseTimeoutHandle := responseTimeoutHandle c;
     accumulatedTranscript := accumulatedTranscript c;
     isProcessingResponse := isProcessingResponse c;
     recentActivities := recentActivities c; lastResponseTime := lastResponseTime c;
     isPlaybackActive := isPlaybackActive c; hasTTS := hasTTS c;
     isRecording := isRecording c |}.

Definition cm_set_responseTimeoutHandle (v : option nat) (c : ConversationManager) :=
  {| state := state c; mode := mode c; conversationHistory := conversationHistory c;
     exchangeCount := exchangeCount c; mainWindow := mainWindow c;
     responseTimeoutHandle := v;
     accumulatedTranscript := accumulatedTranscript c;
     isProcessingResponse := isProcessingResponse c;
     recentActivities := recentActivities c; lastResponseTime := lastResponseTime c;
     isPlaybackActive := isPlaybackActive c; hasTTS := hasTTS c;
     isRecording := isRecording c |}.

Definition cm_set_accumulatedTranscript (v : string) (c : ConversationManager) :=
  {| state := state c; mode := mode c; conversationHistory := conversationHistory c;
     exchangeCount := exchangeCount c; mainWindow := mainWindow c;
     responseTimeoutHandle := responseTimeoutHandle c;
     accumulatedTranscript := v;
     isProcessingResponse := isProcessingResponse c;
     recentActivities := recentActivities c; lastResponseTime := lastResponseTime c;
     isPlaybackActive := isPlaybackActive c; hasTTS := hasTTS c;
     isRecording := isRecording c |}.

Definition cm_set_isProcessingResponse (v : bool) (c : ConversationManager) :=
  {| state := state c; mode := mode c; conversationHistory := conversationHistory c;
     exchangeCount := exchangeCount c; mainWindow := mainWindow c;
     responseTimeoutHandle := responseTimeoutHandle c;
     accumulatedTranscript := accumulatedTranscript c;
     isProcessingResponse := v;
     recentActivities := recentActivities c; lastResponseTime := lastResponseTime c;
     isPlaybackActive := isPlaybackActive c; hasTTS := hasTTS c;
     isRecording := isRecording c |}.

Definition cm_set_recentActivities (v : list QwenActivitySummary) (c : ConversationManager) :=
  {| state := state c; mode := mode c; conversationHistory := conversationHistory c;
     exchangeCount := exchangeCount c; mainWindow := mainWindow c;
     responseTimeoutHandle := responseTimeoutHandle c;
     accumulatedTranscript := accumulatedTranscript c;
     isProcessingResponse := isProcessingResponse c;
     recentActivities := v; lastResponseTime := lastResponseTime c;
     isPlaybackActive := isPlaybackActive c; hasTTS := hasTTS c;
     isRecording := isRecording c |}.

Definition cm_set_lastResponseTime (v : Z) (c : ConversationManager) :=
  {| state := state c; mode := mode c; conversationHistory := conversationHistory c;
     exchangeCount := exchangeCount c; mainWindow := mainWindow c;
     responseTimeoutHandle := responseTimeoutHandle c;
     accumulatedTranscript := accumulatedTranscript c;
     isProcessingResponse := isProcessingResponse c;
     recentActivities := recentActivities c; lastResponseTime := v;
     isPlaybackActive := isPlaybackActive c; hasTTS := hasTTS c;
     isRecording := isRecording c |}.

Definition cm_set_isPlaybackActive (v : bool) (c : ConversationManager) :=
  {| state := state c; mode := mode c; conversationHistory := conversationHistory c;
     exchangeCount := exchangeCount c; mainWindow := mainWindow c;
     responseTimeoutHandle := responseTimeoutHandle c;
     accumulatedTranscript := accumulatedTranscript c;
     isProcessingResponse := isProcessingResponse c;
     recentActivities := recentActivities c; lastResponseTime := lastResponseTime c;
     isPlaybackActive := v; hasTTS := hasTTS c;
     isRecording := isRecording c |}.

Definition cm_set_isRecording (v : bool) (c : ConversationManager) :=
  {| state := state c; mode := mode c; conversationHistory := conversationHistory c;
     exchangeCount := exchangeCount c; mainWindow := mainWindow c;
     responseTimeoutHandle := responseTimeoutHandle c;
     accumulatedTranscript := accumulatedTranscript c;
     isProcessingResponse := isProcessingResponse c;
     recentActivities := recentActivities c; lastResponseTime := lastResponseTime c;
     isPlaybackActive := isPlaybackActive c; hasTTS := hasTTS c;
     isRecording := v |}.

Definition stt_set_isInitialized (v : bool) (c : WhisperCppClient) :=
  {| isInitialized := v; isStreaming := isStreaming c; audioBuffer := audioBuffer c;
     processingInterval := processingInterval c;
     lastTranscriptChunkTime := lastTranscriptChunkTime c;
     pendingTranscript := pendingTranscript c;
     transcriptCheckInterval := transcriptCheckInterval c;
     onTranscriptCallback := onTranscriptCallback c;
     onWakeWordCallback := onWakeWordCallback c;
     onUserSpeakingCallback := onUserSpeakingCallback c;
     lastTranscriptTime := lastTranscriptTime c; isUserSpeaking := isUserSpeaking c |}.

Definition stt_set_isStreaming (v : bool) (c : WhisperCppClient) :=
  {| isInitialized := isInitialized c; isStreaming := v; audioBuffer := audioBuffer c;
     processingInterval := processingInterval c;
     lastTranscriptChunkTime := lastTranscriptChunkTime c;
     pendingTranscript := pendingTranscript c;
     transcriptCheckInterval := transcriptCheckInterval c;
     onTranscriptCallback := onTranscriptCallback c;
     onWakeWordCallback := onWakeWordCallback c;
     onUserSpeakingCallback := onUserSpeakingCallback c;
     lastTranscriptTime := lastTranscriptTime c; isUserSpeaking := isUserSpeaking c |}.

Definition stt_set_audioBuffer (v : list Buffer) (c : WhisperCppClient) :=
  {| isInitialized := isInitialized c; isStreaming := isStreaming c; audioBuffer := v;
     processingInterval := processingInterval c;
     lastTranscriptChunkTime := lastTranscriptChunkTime c;
     pendingTranscript := pendingTranscript c;
     transcriptCheckInterval := transcriptCheckInterval c;
     onTranscriptCallback := onTranscriptCallback c;
     onWakeWordCallback := onWakeWordCallback c;
     onUserSpeakingCallback := onUserSpeakingCallback c;
     lastTranscriptTime := lastTranscriptTime c; isUserSpeaking := isUserSpeaking c |}.

Definition stt_set_intervals (p t : option Z) (c : WhisperCppClient) :=
  {| isInitialized := isInitialized c; isStreaming := isStreaming c;
     audioBuffer := audioBuffer c;
     processingInterval := p;
     lastTranscriptChunkTime := lastTranscriptChunkTime c;
     pendingTranscript := pendingTranscript c;
     transcriptCheckInterval := t;
     onTranscriptCallback := onTranscriptCallback c;
     onWakeWordCallback := onWakeWordCallback c;
     onUserSpeakingCallback := onUserSpeakingCallback c;
     lastTranscriptTime := lastTranscriptTime c; isUserSpeaking := isUserSpeaking c |}.

Definition stt_set_lastTranscriptChunkTime (v : Z) (c : WhisperCppClient) :=
  {| isInitialized := isInitialized c; isStreaming := isStreaming c;
     audioBuffer := audioBuffer c;
     processingInterval := processingInterval c;
     lastTranscriptChunkTime := v;
     pendingTranscript := pendingTranscript c;
     transcriptCheckInterval := transcriptCheckInterval c;
     onTranscriptCallback := onTranscriptCallback c;
     onWakeWordCallback := onWakeWordCallback c;
     onUserSpeakingCallback := onUserSpeakingCallback c;
     lastTranscriptTime := lastTranscriptTime c; isUserSpeaking := isUserSpeaking c |}.

Definition stt_set_pendingTranscript (v : string) (c : WhisperCppClient) :=
  {| isInitialized := isInitialized c; isStreaming := isStreaming c;
     audioBuffer := audioBuffer c;
     processingInterval := processingInterval c;
     lastTranscriptChunkTime := lastTranscriptChunkTime c;
     pendingTranscript := v;
     transcriptCheckInterval := transcriptCheckInterval c;
     onTranscriptCallback := onTranscriptCallback c;
     onWakeWordCallback := onWakeWordCallback c;
     onUserSpeakingCallback := onUserSpeakingCallback c;
     lastTranscriptTime := lastTranscriptTime c; isUserSpeaking := isUserSpeaking c |}.

Definition stt_set_callbacks (t k u : bool) (c : WhisperCppClient) :=
  {| isInitialized := isInitialized c; isStreaming := isStreaming c;
     audioBuffer := audioBuffer c;
     processingInterval := processingInterval c;
     lastTranscriptChunkTime := lastTranscriptChunkTime c;
     pendingTranscript := pendingTranscript c;
     transcriptCheckInterval := transcriptCheckInterval c;
     onTranscriptCallback := t;
     onWakeWordCallback := k;
     onUserSpeakingCallback := u;
     lastTranscriptTime := lastTranscriptTime c; isUserSpeaking := isUserSpeaking c |}.

Definition stt_set_lastTranscriptTime (v : Z) (c : WhisperCppClient) :=
  {| isInitialized := isInitialized c; isStreaming := isStreaming c;
     audioBuffer := audioBuffer c;
     processingInterval := processingInterval c;
     lastTranscriptChunkTime := lastTranscriptChunkTime c;
     pendingTranscript := pendingTranscript c;
     transcriptCheckInterval := transcriptCheckInterval c;
     onTranscriptCallback := onTranscriptCallback c;
     onWakeWordCallback := onWakeWordCallback c;
     onUserSpeakingCallback := onUserSpeakingCallback c;
     lastTranscriptTime := v; isUserSpeaking := isUserSpeaking c |}.

Definition stt_set_isUserSpeaking (v : bool) (c : WhisperCppClient) :=
  {| isInitialized := isInitialized c; isStreaming := isStreaming c;
     audioBuffer := audioBuffer c;
     processingInterval := processingInterval c;
     lastTranscriptChunkTime := lastTranscriptChunkTime c;
     pendingTranscript := pendingTranscript c;
     transcriptCheckInterval := transcriptCheckInterval c;
     onTranscriptCallback := onTranscriptCallback c;
     onWakeWordCallback := onWakeWordCallback c;
     onUserSpeakingCallback := onUserSpeakingCallback c;
     lastTranscriptTime := lastTranscriptTime c; isUserSpeaking := v |}.

(** Handlers are composed left to right, in the order of the statements. *)
Definition Action := World -> World.

Definition andThen (a b : Action) : Action := fun w => b (a w).

Declare Scope action_scope.
Delimit Scope action_scope with action.
Notation "a ;; b" := (andThen a b) (at level 61, left associativity) : action_scope.

Definition skip : Action := fun w => w.

(** [this.field = v] on the manager and on the transcriber. *)
Definition assign {A} (set : A -> ConversationManager -> ConversationManager) (v : A) : Action :=
  with_cm (set v).

Definition assign_stt {A} (set : A -> WhisperCppClient -> WhisperCppClient) (v : A) : Action :=
  with_stt (set v).

Local Open Scope action_scope.

(** The outcome of a call that may throw (of a promise that may reject). *)
Inductive Completion := Returned | Thrown.

(* ===================================================================== *)
(** ** The event loop's timers *)
(* ===================================================================== *)

(** Node runs a timer whose delay is below 1 or above 2^31-1 after 1 ms. *)
Definition timeout_delay (ms : Z) : Z :=
  if (1 <=? ms) && (ms <=? 2147483647) then ms else 1.

(** [setTimeout(cb, ms)]; the handle it returns is [nextId] of the world before. *)
Definition setTimeout (cb : TimerCallback) (ms : Z) : Action := fun w =>
  set_nextId (S (nextId w))
    (set_timers (timers w ++ [{| handle := nextId w;
                                 due := now w + timeout_delay ms;
                                 callback := cb |}]) w).

Definition clearTimeout (h : nat) : Action := fun w =>
  set_timers (filter (fun tm => negb (handle tm =? h)%nat) (timers w)) w.

(* ===================================================================== *)
(** ** WhisperCppClient: the methods that call nothing back *)
(* ===================================================================== *)

(** [connect()]: [loads] tells whether the model could be loaded. *)
Definition connect (loads : bool) (w : World) : World * Completion :=
  if isInitialized (stt w) then (w, Returned)
  else if loads then (assign_stt stt_set_isInitialized true w, Returned)
  else (w, Thrown).

Definition startStreaming (w : World) : World * Completion :=
  if isStreaming (stt w) then (w, Returned)
  else if negb (isInitialized (stt w)) then (w, Thrown)
  else
    ((assign_stt stt_set_isStreaming true ;;
      assign_stt stt_set_audioBuffer [] ;;
      assign_stt stt_set_lastTranscriptTime (now w) ;;
      assign_stt stt_set_lastTranscriptChunkTime 0 ;;
      assign_stt stt_set_pendingTranscript "" ;;
      with_stt (stt_set_intervals (Some CHUNK_DURATION_MS) (Some TRANSCRIPT_CHECK_MS))) w,
     Returned).

(** [streamAudio(audioBuffer)] *)
Definition stt_streamAudio (b : Buffer) : Action := fun w =>
  if negb (isStreaming (stt w)) then w
  else assign_stt stt_set_audioBuffer (audioBuffer (stt w) ++ [b]) w.

Definition stopStreaming : Action := fun w =>
  if negb (isStreaming (stt w)) then w
  else (assign_stt stt_set_isStreaming false ;;
        assign_stt stt_set_audioBuffer [] ;;
        with_stt (stt_set_intervals None None)) w.

Definition disconnect : Action :=
  stopStreaming ;; assign_stt stt_set_isInitialized false.

(** [getStatus().connected] *)
Definition connected (w : World) : bool := isInitialized (stt w).

(** [clearTranscript()]: it empties the audio buffer. *)
Definition clearTranscript : Action :=
  assign_stt stt_set_audioBuffer [].

(* ===================================================================== *)
(** ** ConversationManager *)
(* ===================================================================== *)

(** What [start()] finds when it runs. *)
Record StartEnv := {
  micPermissionGranted : bool;   (* not macOS, or the status is 'granted' *)
  whisperLoads : bool;           (* sttClient.connect() resolves *)
  microphoneStarts : bool        (* microphoneHelper.start() does not throw *)
}.

Section Orchestrator.

Variable config : StayHardConfig.

Definition setPlaybackActive (active : bool) : Action :=
  assign cm_set_isPlaybackActive active.

Definition getPlaybackActive (w : World) : bool := isPlaybackActive (cm w).

Definition notifyStateChange : Action := fun w =>
  if negb (mainWindow (cm w)) then w
  else emit (SendStateChanged (state (cm w)) (mode (cm w)) (exchangeCount (cm w))
                              (connected w)) w.

Definition clearResponseTimeout : Action := fun w =>
  match responseTimeoutHandle (cm w) with
  | Some h => (clearTimeout h ;; assign cm_set_responseTimeoutHandle None) w
  | None => w
  end.

Definition setResponseTimeout : Action :=
  clearResponseTimeout ;;
  (fun w => assign cm_set_responseTimeoutHandle (Some (nextId w))
              (setTimeout ResponseTimeout (conversationResponseTimeout config) w)).

Definition enterConversationMode (m : ConversationMode) : Action :=
  assign cm_set_state conversation ;;
  assign cm_set_mode (Some m) ;;
  assign cm_set_exchangeCount 0 ;;
  assign cm_set_accumulatedTranscript "" ;;
  clearTranscript ;;
  setResponseTimeout ;;
  notifyStateChange.

Definition exitConversationMode : Action :=
  assign cm_set_state monitoring ;;
  assign cm_set_mode None ;;
  assign cm_set_conversationHistory [] ;;
  assign cm_set_exchangeCount 0 ;;
  assign cm_set_accumulatedTranscript "" ;;
  assign cm_set_recentActivities [] ;;
  assign cm_set_isProcessingResponse false ;;
  assign cm_set_isPlaybackActive false ;;
  clearResponseTimeout ;;
  clearTranscript ;;
  notifyStateChange.

(** The callback registered by [setupMicrophoneStreaming]. *)
Definition shouldForward (w : World) : bool :=
  let isConnected := connected w in
  let isActive := state_eqb (state (cm w)) monitoring || state_eqb (state (cm w)) conversation in
  isConnected && isActive
  && negb (state_eqb (state (cm w)) responding)
  && negb (isProcessingResponse (cm w))
  && negb (isPlaybackActive (cm w)).

Definition onAudioChunk (audioBuffer : Buffer) : Action := fun w =>
  if shouldForward w
  then (emit (StreamAudio audioBuffer) ;; stt_streamAudio audioBuffer) w
  else w.

Definition handleWakeWord : Action := fun w =>
  if state_eqb (state (cm w)) conversation then w
  else enterConversationMode wake_word w.

Definition startCalloutConversation (activities : list QwenActivitySummary) : Action :=
  assign cm_set_recentActivities activities ;;
  enterConversationMode callout_auto_listen.

Definition handlePartialTranscript (t : string) : Action := fun w =>
  if negb (state_eqb (state (cm w)) conversation) then w
  else if mainWindow (cm w) then emit (SendTranscriptionPartial t) w
  else w.

Definition handleUserSpeaking (isSpeaking : bool) : Action := fun w =>
  if isSpeaking && state_eqb (state (cm w)) responding then
    ((fun w => if mainWindow (cm w) then emit SendAudioStopImmediately w else w) ;;
     assign cm_set_state conversation ;;
     notifyStateChange) w
  else w.

(** *** generateAndSpeakResponse, cut at its two awaits *)

(** What follows [await this.speakResponse(...)]: the end-of-conversation
    test, the [finally] block, and the statement of [handleFinalTranscript]
    after [await this.generateAndSpeakResponse()]. *)
Definition finallyBlock : Action := fun w =>
  if state_eqb (state (cm w)) responding && isProcessingResponse (cm w)
  then assign cm_set_isProcessingResponse false w
  else w.

Definition afterSpeak (shouldEnd : bool) : Action :=
  (if shouldEnd
   then assign cm_set_isProcessingResponse false ;; exitConversationMode
   else assign cm_set_isProcessingResponse false ;;
        assign cm_set_state conversation ;;
        setResponseTimeout ;;
        notifyStateChange) ;;
  finallyBlock ;;
  assign cm_set_accumulatedTranscript "".

(** [speakResponse(text)] up to [await generateGogginsVoice(text)]. *)
Definition speakResponse (shouldEnd : bool) (t : string) : Action := fun w =>
  if negb (hasTTS (cm w)) || negb (mainWindow (cm w)) then afterSpeak shouldEnd w
  else
    (emit (CallTTS (nextId w) t) ;;
     set_pendingTTS (pendingTTS w ++ [{| tts_id := nextId w;
                                        tts_shouldEnd := shouldEnd;
                                        tts_text := t |}]) ;;
     set_nextId (S (nextId w))) w.

(** The rest of [speakResponse] once the synthesiser has answered, then the
    rest of the turn.  Sending to a window that has gone throws, and the
    [catch] of [speakResponse] absorbs it. *)
Definition onSpeechSynthesized (p : PendingSpeech) (r : TtsOutcome) : Action :=
  (fun w =>
     match r with
     | AudioReady audioDataUrl =>
         if mainWindow (cm w)
         then (emit (SendConversationSpeak (tts_text p) audioDataUrl (now w)) ;;
               assign cm_set_lastResponseTime (now w)) w
         else w
     | AudioNull => w
     | SynthesisThrows => w
     end) ;;
  afterSpeak (tts_shouldEnd p).

(** The continuation of [generateAndSpeakResponse] when the language model
    has answered with [{ text, timestamp }]. *)
Definition onResponseGenerated (p : PendingGeneration) (t : string) (ts : Z) : Action :=
  (fun w => assign cm_set_conversationHistory
              (conversationHistory (cm w) ++ [{| role := goggins; text := t; timestamp := ts |}]) w) ;;
  speakResponse (gen_shouldEnd p) t.

(** The [catch] block, when the call of the language model rejects. *)
Definition onResponseFailed : Action :=
  assign cm_set_isProcessingResponse false ;;
  exitConversationMode ;;
  finallyBlock ;;
  assign cm_set_accumulatedTranscript "".

(** [generateAndSpeakResponse()] up to [await generateConversationalResponse(...)].
    The boolean tells whether the activation is suspended at that await
    ([true]) or has returned at once under the lock ([false]). *)
Definition generateAndSpeakResponse (w : World) : World * bool :=
  if isProcessingResponse (cm w) then (w, false)
  else
    let w1 := (assign cm_set_isProcessingResponse true ;;
               assign cm_set_state responding ;;
               clearTranscript ;;
               notifyStateChange ;;
               (fun w => assign cm_set_exchangeCount (exchangeCount (cm w) + 1) w)) w in
    let shouldEnd := exchangeCount (cm w1) >=? conversationAutoEndExchanges config in
    ((emit (CallLLM (nextId w1) (conversationHistory (cm w1)) shouldEnd) ;;
      set_pendingLLM (pendingLLM w1 ++ [{| gen_id := nextId w1; gen_shouldEnd := shouldEnd |}]) ;;
      set_nextId (S (nextId w1))) w1,
     true).

(** A final transcript is rejected when it is the no-speech marker or short. *)
Definition isNoise (t : string) : bool :=
  (t =? BLANK_AUDIO)%string || (len (trim t) <? MIN_TRANSCRIPT_CHARS).

(** [handleFinalTranscript(text)] up to the first await. *)
Definition handleFinalTranscript (t : string) : Action := fun w =>
  if isNoise t then w
  else if (0 <? ECHO_COOLDOWN_MS) && (now w - lastResponseTime (cm w) <? ECHO_COOLDOWN_MS) then w
  else if isProcessingResponse (cm w) then w
  else if state_eqb (state (cm w)) responding then w
  else
    let w1 := (if state_eqb (state (cm w)) monitoring
               then enterConversationMode auto_detect w else w) in
    let w2 := clearResponseTimeout w1 in
    let acc := (accumulatedTranscript (cm w2)
                ++ (if truthy (accumulatedTranscript (cm w2)) then " " else "") ++ t)%string in
    let w3 := assign cm_set_accumulatedTranscript acc w2 in
    let w4 := assign cm_set_conversationHistory
                (conversationHistory (cm w3)
                 ++ [{| role := user; text := acc; timestamp := now w3 |}]) w3 in
    match generateAndSpeakResponse w4 with
    | (w5, true) => w5                                         (* suspended *)
    | (w5, false) => assign cm_set_accumulatedTranscript "" w5 (* returned at once *)
    end.

(** *** start() and stop() *)

Definition microphone_start (ok : bool) (w : World) : World * Completion :=
  if isRecording (cm w) then (w, Returned)
  else if ok then (assign cm_set_isRecording true w, Returned)
  else (w, Thrown).

Definition start (e : StartEnv) (w : World) : World * Completion :=
  if negb (voiceListeningEnabled config) then (w, Returned)
  else if negb (micPermissionGranted e) then (w, Thrown)
  else
    match connect (whisperLoads e) w with
    | (w1, Thrown) => (w1, Thrown)
    | (w1, Returned) =>
        if negb (connected w1)
        then ((assign cm_set_state monitoring ;; notifyStateChange) w1, Returned)
        else
          match startStreaming w1 with
          | (w2, Thrown) => (w2, Thrown)
          | (w2, Returned) =>
              match microphone_start (microphoneStarts e) w2 with
              | (w3, Thrown) => (w3, Thrown)
              | (w3, Returned) =>
                  ((setTimeout MicStatusCheck 1000 ;;
                    enterConversationMode callout_auto_listen) w3, Returned)
              end
          end
    end.

Definition stop : Action :=
  assign cm_set_isRecording false ;;
  stopStreaming ;;
  disconnect ;;
  assign cm_set_state monitoring ;;
  clearResponseTimeout.

(** *** The callbacks of setResponseTimeout *)

Definition onResponseTimeout : Action :=
  setTimeout GraceTimeout GRACE_MS.

Definition onGraceTimeout : Action := fun w =>
  if negb (state_eqb (state (cm w)) monitoring) then exitConversationMode w else w.

Definition fire (cb : TimerCallback) : Action :=
  match cb with
  | ResponseTimeout => onResponseTimeout
  | GraceTimeout => onGraceTimeout
  | MicStatusCheck => skip
  end.

(* ===================================================================== *)
(** ** WhisperCppClient: the methods that call back into the manager *)
(* ===================================================================== *)

(** The closures installed by [setupSTTCallbacks]. *)
Definition invoke_onTranscript (final : bool) (t : string) : Action := fun w =>
  (emit (EmitTranscript final t (now w)) ;;
   (if final then handleFinalTranscript t else handlePartialTranscript t)) w.

Definition invoke_onUserSpeaking (b : bool) : Action := fun w =>
  if onUserSpeakingCallback (stt w)
  then (emit (EmitUserSpeaking b) ;; handleUserSpeaking b) w
  else w.

Definition invoke_onWakeWord : Action := fun w =>
  if onWakeWordCallback (stt w)
  then (emit EmitWakeWord ;; handleWakeWord) w
  else w.

Definition sendPendingTranscript : Action := fun w =>
  if negb (truthy (pendingTranscript (stt w))) || negb (onTranscriptCallback (stt w)) then w
  else
    let finalText := trim (pendingTranscript (stt w)) in
    (invoke_onTranscript true finalText ;;
     assign_stt stt_set_pendingTranscript "" ;;
     assign_stt stt_set_isUserSpeaking false ;;
     invoke_onUserSpeaking false) w.

Definition checkTranscriptTimeout : Action := fun w =>
  if negb (truthy (pendingTranscript (stt w))) || (lastTranscriptChunkTime (stt w) =? 0) then w
  else
    let timeSinceLastChunk := now w - lastTranscriptChunkTime (stt w) in
    if timeSinceLastChunk >=? TRANSCRIPT_SILENCE_THRESHOLD_MS
    then sendPendingTranscript w
    else w.

Definition wakeWordDetected (t : string) : bool :=
  includes (toLowerCase t) (toLowerCase (wakeWord config)).

Definition checkWakeWord (t : string) : Action := fun w =>
  if wakeWordDetected t then
    ((fun w => if truthy (pendingTranscript (stt w))
                  && (0 <? len (trim (pendingTranscript (stt w))))
               then sendPendingTranscript w else w) ;;
     invoke_onWakeWord) w
  else w.

(** The clean-up of a recognised text in [processAudioBuffer]:
    [/^[^a-zA-Z]{1,2}$/], [/^\*.*\*$/i], [/inaudible/i] and the list of
    false positives. *)
Definition is_letter (c : ascii) : bool :=
  let n := nat_of_ascii c in
  (((65 <=? n) && (n <=? 90)) || ((97 <=? n) && (n <=? 122)))%nat.

Definition is_line_terminator (c : ascii) : bool :=
  let n := nat_of_ascii c in ((n =? 10) || (n =? 13))%nat.

Definition symbolsOnly (s : string) : bool :=
  ((1 <=? String.length s) && (String.length s <=? 2))%nat
  && all_chars (fun c => negb (is_letter c)) s.

Definition starred (s : string) : bool :=
  match s with
  | String "*" rest =>
      match last_char rest with
      | Some "*"%char =>
          all_chars (fun c => negb (is_line_terminator c))
                    (String.substring 0 (String.length rest - 1) rest)
      | _ => false
      end
  | _ => false
  end.

Definition falsePositives : list string :=
  ["thank you for watching"; "thanks for watching"; "subscribe"; "like and subscribe"].

Definition cleanTranscript (t : string) : string :=
  let cleanedText := trim t in
  if len cleanedText <? 2 then ""
  else if symbolsOnly cleanedText then ""
  else if starred cleanedText || includes (toLowerCase cleanedText) "inaudible" then ""
  else
    let textLower := toLowerCase cleanedText in
    let isFalsePositive := existsb (fun fp => includes textLower fp) falsePositives in
    if isFalsePositive && (len cleanedText <? 20) then "" else t.

(** The text [processAudioBuffer] keeps of the answer of the Whisper
    pipeline: [result?.text?.trim() || ""], cleaned when it is not empty. *)
Definition recognisedText (raw : option string) : string :=
  let text := match raw with Some r => trim r | None => "" end in
  if truthy text then cleanTranscript text else text.

(** [processAudioBuffer()] from the answer of the Whisper pipeline on:
    [raw] is [result?.text]. *)
Definition onTranscribed (raw : option string) : Action := fun w =>
  let text := recognisedText raw in
  if truthy text then
    ((fun w => assign_stt stt_set_pendingTranscript
                 (if truthy (pendingTranscript (stt w))
                  then (pendingTranscript (stt w) ++ " " ++ text)%string
                  else text) w) ;;
     (fun w => assign_stt stt_set_lastTranscriptChunkTime (now w) w) ;;
     assign_stt stt_set_isUserSpeaking true ;;
     invoke_onUserSpeaking true ;;
     (fun w => assign_stt stt_set_lastTranscriptTime (now w) w) ;;
     (fun w => checkWakeWord (pendingTranscript (stt w)) w)) w
  else w.

(* ===================================================================== *)
(** ** The event loop *)
(* ===================================================================== *)

Definition earlier (a b : Timer) : bool :=
  (due a <? due b) || ((due a =? due b) && (handle a <=? handle b)%nat).

(** The timer that runs next among those due by [t]. *)
Fixpoint next_timer (t : Z) (l : list Timer) : option Timer :=
  match l with
  | [] => None
  | tm :: l' =>
      match next_timer t l' with
      | Some tm' => if (due tm <=? t) && earlier tm tm' then Some tm else Some tm'
      | None => if due tm <=? t then Some tm else None
      end
  end.

(** One timer runs: it leaves the list, the clock reaches its due time, its
    callback runs. *)
Definition run_timer (tm : Timer) : Action :=
  clearTimeout (handle tm) ;;
  (fun w => set_now (Z.max (now w) (due tm)) w) ;;
  fire (callback tm).

Fixpoint run_timers (fuel : nat) (t : Z) (w : World) : World :=
  match fuel with
  | O => w
  | S n =>
      match next_timer t (timers w) with
      | None => w
      | Some tm => run_timers n t (run_timer tm w)
      end
  end.

(** Time passes until [t]: the timers due by then run in order.  A response
    timer leaves one grace timer behind, so twice the number of pending
    timers is fuel enough ([advance_complete]). *)
Definition advance (t : Z) : Action := fun w =>
  let w' := run_timers (2 * List.length (timers w)) t w in
  set_now (Z.max (now w') t) w'.

Definition take_generation (id : nat) (l : list PendingGeneration) : option PendingGeneration :=
  find (fun p => (gen_id p =? id)%nat) l.

Definition take_speech (id : nat) (l : list PendingSpeech) : option PendingSpeech :=
  find (fun p => (tts_id p =? id)%nat) l.

Inductive Event :=
| AudioChunk (b : Buffer)                    (* the microphone delivers a chunk *)
| TranscriptCheck                            (* the 500 ms interval of the transcriber *)
| Transcribed (raw : option string)          (* a Whisper inference has answered *)
| PlaybackStarted                            (* IPC "audio:playback-started" *)
| PlaybackEnded                              (* IPC "audio:playback-ended" *)
| Callout (activities : list QwenActivitySummary)  (* the monitor asks to listen *)
| ActivityContext (activities : list QwenActivitySummary)
| WindowChanged (alive : bool)               (* setMainWindow, or the window is destroyed *)
| ResponseGenerated (id : nat) (t : string) (ts : Z)
| ResponseFailed (id : nat)
| SpeechSynthesized (id : nat) (r : TtsOutcome)
| Elapse (t : Z)                             (* the clock reaches t *)
| Start (e : StartEnv)
| Stop.

Definition step (e : Event) : Action := fun w =>
  match e with
  | AudioChunk b => onAudioChunk b w
  | TranscriptCheck => checkTranscriptTimeout w
  | Transcribed raw => onTranscribed raw w
  | PlaybackStarted => setPlaybackActive true w
  | PlaybackEnded => setPlaybackActive false w
  | Callout acts => startCalloutConversation acts w
  | ActivityContext acts => assign cm_set_recentActivities acts w
  | WindowChanged alive => assign cm_set_mainWindow alive w
  | ResponseGenerated id t ts =>
      match take_generation id (pendingLLM w) with
      | Some p =>
          onResponseGenerated p t ts
            (set_pendingLLM (filter (fun q => negb (gen_id q =? id)%nat) (pendingLLM w)) w)
      | None => w
      end
  | ResponseFailed id =>
      match take_generation id (pendingLLM w) with
      | Some p =>
          onResponseFailed
            (set_pendingLLM (filter (fun q => negb (gen_id q =? id)%nat) (pendingLLM w)) w)
      | None => w
      end
  | SpeechSynthesized id r =>
      match take_speech id (pendingTTS w) with
      | Some p =>
          onSpeechSynthesized p r
            (set_pendingTTS (filter (fun q => negb (tts_id q =? id)%nat) (pendingTTS w)) w)
      | None => w
      end
  | Elapse t => advance t w
  | Start e => fst (start e w)
  | Stop => stop w
  end.

Definition run (es : list Event) (w : World) : World :=
  fold_left (fun w e => step e w) es w.

End Orchestrator.

(** The world after [new ConversationManager(llmHelper, mainWindow)] at
    time [t0]: the constructor registers the callbacks. *)
Definition new_ConversationManager (window tts : bool) (t0 : Z) : World := {|
  cm := {| state := monitoring; mode := None; conversationHistory := [];
           exchangeCount := 0; mainWindow := window; responseTimeoutHandle := None;
           accumulatedTranscript := ""; isProcessingResponse := false;
           recentActivities := []; lastResponseTime := 0; isPlaybackActive := false;
           hasTTS := tts; isRecording := false |};
  stt := {| isInitialized := false; isStreaming := false; audioBuffer := [];
            processingInterval := None; lastTranscriptChunkTime := 0;
            pendingTranscript := ""; transcriptCheckInterval := None;
            onTranscriptCallback := true; onWakeWordCallback := true;
            onUserSpeakingCallback := true;
            lastTranscriptTime := 0; isUserSpeaking := false |};
  now := t0; timers := []; nextId := O;
  pendingLLM := []; pendingTTS := []; trace := []
|}.

(* ===================================================================== *)
(** ** JavaScript array operations *)
(* ===================================================================== *)

Module JsArray.

(** [arr.slice(start)] for an integer [start]; a negative [start] counts
    from the end of the array. *)
Definition slice {A : Type} (start : Z) (l : list A) : list A :=
  let len := Z.of_nat (List.length l) in
  let k := if start <? 0 then Z.max (len + start) 0 else Z.min start len in
  skipn (Z.to_nat k) l.

(** [arr[arr.length - 1]], [undefined] on the empty array. *)
Definition lastElement {A : Type} (l : list A) : option A :=
  nth_error l (List.length l - 1).

End JsArray.

(* ===================================================================== *)
(** ** ChatHistory (electron/ChatHistory.ts) *)
(* ===================================================================== *)

Module ChatHistory.

Record t := {
  messages : list ConversationMessage;
  lastResponseTime : Z;
  lastUserInitiatedTime : Z;
  lastAnyMessageTime : Z
}.

Definition maxMessages : nat := 50.

Definition empty : t :=
  {| messages := []; lastResponseTime := 0; lastUserInitiatedTime := 0;
     lastAnyMessageTime := 0 |}.

(** [addMessage(msg)] at clock reading [now]. *)
Definition addMessage (msg : ConversationMessage) (now : Z) (h : t) : t :=
  let pushed := messages h ++ [msg] in
  {| messages := if (maxMessages <? List.length pushed)%nat then tl pushed else pushed;
     lastResponseTime :=
       match role msg with goggins => now | user => lastResponseTime h end;
     lastUserInitiatedTime :=
       match role msg with user => now | goggins => lastUserInitiatedTime h end;
     lastAnyMessageTime := now |}.

Definition getTimeSinceLastMessage (now : Z) (h : t) : Z :=
  now - lastAnyMessageTime h.

(** [canSendProactiveMessage]: the cooldown is
    [cooldownMin + (cooldownMax - cooldownMin) * (1 - clamp(level / 2))];
    both sides of the comparison are doubled to stay in the integers. *)
Definition canSendProactiveMessage (cooldownMin cooldownMax escalationLevel now : Z) (h : t) : bool :=
  let timeSinceLastResponse := now - lastResponseTime h in
  let twiceFactor := Z.max 0 (Z.min 2 escalationLevel) in
  2 * timeSinceLastResponse >=? 2 * cooldownMin + (cooldownMax - cooldownMin) * (2 - twiceFactor).


(** [getRecentMessages(limit?)] for an integer [limit]; [None] is the call
    without an argument.  The limit 0 is falsy. *)
Definition getRecentMessages (limit : option Z) (h : t) : list ConversationMessage :=
  match limit with
  | Some n => if n =? 0 then messages h else JsArray.slice (- n) (messages h)
  | None => messages h
  end.

Definition getAll (h : t) : list ConversationMessage := messages h.

(** [canRespondNow(cooldownMs, isUserInitiated = false)] *)
Definition canRespondNow (cooldownMs : Z) (isUserInitiated : bool) (now : Z) (h : t) : bool :=
  if isUserInitiated then true
  else now - lastResponseTime h >=? cooldownMs.

Definition getLastUserInitiatedTime (h : t) : Z := lastUserInitiatedTime h.

Definition clear (h : t) : t := empty.

End ChatHistory.

(* ===================================================================== *)
(** ** ProductivityMonitor: the intervention policy *)
(* ===================================================================== *)

Module ProductivityMonitor.

Record t := {
  isEnabled : bool;
  mainWindow : option bool;         (* None: null; Some alive *)
  isAnalyzing : bool;
  chatHistory : ChatHistory.t;
  lowProductivityStartTime : Z;
  lastProactiveMessageTime : Z;
  lastCheckInTime : Z;
  previousScore : Z;
  previousTaskType : TaskType;
  proactiveEscalationLevel : Z;
  lastAnyMessageTime : Z;
  lastCalledOutApp : string
}.

(** What one run of [captureAndAnalyze] reads from outside the monitor. *)
Record Observation := {
  at_time : Z;                      (* Date.now() during the run *)
  playbackActive : bool;            (* conversationManager?.getPlaybackActive?.() ?? false *)
  conversing : bool;                (* getState() is 'conversation' or 'responding' *)
  voiceAvailable : bool;            (* conversationManager && config.voiceListeningEnabled *)
  summary : option QwenActivitySummary;  (* None: the screenshot or its analysis threw *)
  lastMinuteEmpty : bool;           (* activityLog.getEntriesSince(60000) is empty *)
  score : Z;                        (* scoreActivity(lastMinute).score *)
  checkInInterval : Z;              (* the interval drawn with Math.random() *)
  replyText : string                (* the text the language model writes *)
}.

Inductive MessageKind := Proactive | CheckIn | CoachCallout.

Inductive Effect :=
| Generate (k : MessageKind) (app : string)      (* a message is asked of the model *)
| SendCoachMessage (k : MessageKind) (t : string) (* "coach:new-message" *)
| AutoListen.                                     (* startCalloutConversation(lastMinute) *)

Definition windowAlive (m : t) : bool :=
  match mainWindow m with Some true => true | _ => false end.

Definition set_chatHistory (v : ChatHistory.t) (m : t) : t :=
  {| isEnabled := isEnabled m; mainWindow := mainWindow m; isAnalyzing := isAnalyzing m;
     chatHistory := v; lowProductivityStartTime := lowProductivityStartTime m;
     lastProactiveMessageTime := lastProactiveMessageTime m;
     lastCheckInTime := lastCheckInTime m; previousScore := previousScore m;
     previousTaskType := previousTaskType m;
     proactiveEscalationLevel := proactiveEscalationLevel m;
     lastAnyMessageTime := lastAnyMessageTime m; lastCalledOutApp := lastCalledOutApp m |}.

Definition set_lowProductivity (start level : Z) (m : t) : t :=
  {| isEnabled := isEnabled m; mainWindow := mainWindow m; isAnalyzing := isAnalyzing m;
     chatHistory := chatHistory m; lowProductivityStartTime := start;
     lastProactiveMessageTime := lastProactiveMessageTime m;
     lastCheckInTime := lastCheckInTime m; previousScore := previousScore m;
     previousTaskType := previousTaskType m;
     proactiveEscalationLevel := level;
     lastAnyMessageTime := lastAnyMessageTime m; lastCalledOutApp := lastCalledOutApp m |}.

Definition set_lastProactiveMessageTime (v : Z) (m : t) : t :=
  {| isEnabled := isEnabled m; mainWindow := mainWindow m; isAnalyzing := isAnalyzing m;
     chatHistory := chatHistory m; lowProductivityStartTime := lowProductivityStartTime m;
     lastProactiveMessageTime := v;
     lastCheckInTime := lastCheckInTime m; previousScore := previousScore m;
     previousTaskType := previousTaskType m;
     proactiveEscalationLevel := proactiveEscalationLevel m;
     lastAnyMessageTime := lastAnyMessageTime m; lastCalledOutApp := lastCalledOutApp m |}.

Definition set_lastCheckInTime (v : Z) (m : t) : t :=
  {| isEnabled := isEnabled m; mainWindow := mainWindow m; isAnalyzing := isAnalyzing m;
     chatHistory := chatHistory m; lowProductivityStartTime := lowProductivityStartTime m;
     lastProactiveMessageTime := lastProactiveMessageTime m;
     lastCheckInTime := v; previousScore := previousScore m;
     previousTaskType := previousTaskType m;
     proactiveEscalationLevel := proactiveEscalationLevel m;
     lastAnyMessageTime := lastAnyMessageTime m; lastCalledOutApp := lastCalledOutApp m |}.

Definition set_previous (sc : Z) (tt : TaskType) (m : t) : t :=
  {| isEnabled := isEnabled m; mainWindow := mainWindow m; isAnalyzing := isAnalyzing m;
     chatHistory := chatHistory m; lowProductivityStartTime := lowProductivityStartTime m;
     lastProactiveMessageTime := lastProactiveMessageTime m;
     lastCheckInTime := lastCheckInTime m; previousScore := sc;
     previousTaskType := tt;
     proactiveEscalationLevel := proactiveEscalationLevel m;
     lastAnyMessageTime := lastAnyMessageTime m; lastCalledOutApp := lastCalledOutApp m |}.

Definition set_lastAnyMessageTime (v : Z) (m : t) : t :=
  {| isEnabled := isEnabled m; mainWindow := mainWindow m; isAnalyzing := isAnalyzing m;
     chatHistory := chatHistory m; lowProductivityStartTime := lowProductivityStartTime m;
     lastProactiveMessageTime := lastProactiveMessageTime m;
     lastCheckInTime := lastCheckInTime m; previousScore := previousScore m;
     previousTaskType := previousTaskType m;
     proactiveEscalationLevel := proactiveEscalationLevel m;
     lastAnyMessageTime := v; lastCalledOutApp := lastCalledOutApp m |}.

Definition set_lastCalledOutApp (v : string) (m : t) : t :=
  {| isEnabled := isEnabled m; mainWindow := mainWindow m; isAnalyzing := isAnalyzing m;
     chatHistory := chatHistory m; lowProductivityStartTime := lowProductivityStartTime m;
     lastProactiveMessageTime := lastProactiveMessageTime m;
     lastCheckInTime := lastCheckInTime m; previousScore := previousScore m;
     previousTaskType := previousTaskType m;
     proactiveEscalationLevel := proactiveEscalationLevel m;
     lastAnyMessageTime := lastAnyMessageTime m; lastCalledOutApp := v |}.

Section Policy.

Variable config : StayHardConfig.

Definition canSendAnyMessage (now : Z) (m : t) : bool :=
  ChatHistory.getTimeSinceLastMessage now (chatHistory m) >=? naturalPauseMs config.

Definition updateEscalationLevel (currentScore now : Z) (m : t) : t :=
  let isLowProductivity := currentScore >? interventionThreshold config in
  if isLowProductivity && (lowProductivityStartTime m >? 0) then
    let lowProductivityDuration := now - lowProductivityStartTime m in
    set_lowProductivity (lowProductivityStartTime m)
      (if lowProductivityDuration >=? 600000 then 2
       else if lowProductivityDuration >=? 300000 then 1
       else 0) m
  else set_lowProductivity (lowProductivityStartTime m) 0 m.

Definition shouldTriggerProactiveMessage (currentScore now : Z) (m : t) : t * bool :=
  let isLowProductivity := currentScore >? interventionThreshold config in
  if isLowProductivity then
    let m1 := if lowProductivityStartTime m =? 0
              then set_lowProductivity now (proactiveEscalationLevel m) m else m in
    let lowProductivityDuration := now - lowProductivityStartTime m1 in
    if lowProductivityDuration >=? proactiveTriggerDuration config
    then (m1, ChatHistory.canSendProactiveMessage
                (proactiveCooldownMin config) (proactiveCooldownMax config)
                (proactiveEscalationLevel m1) now (chatHistory m1))
    else (m1, false)
  else (set_lowProductivity 0 0 m, false).

(** [shouldTriggerCheckIn]: [interval] is
    [checkInIntervalMin + Math.random() * (checkInIntervalMax - checkInIntervalMin)]. *)
Definition shouldTriggerCheckIn (currentScore interval now : Z) (m : t) : bool :=
  let isLowProductivity := currentScore >? interventionThreshold config in
  if negb isLowProductivity then false
  else now - lastCheckInTime m >=? interval.

(** [sendMessageToChat(message, kind)] *)
Definition sendMessageToChat (k : MessageKind) (msg : string) (now : Z) (m : t) : t * list Effect :=
  if negb (windowAlive m) then (m, [])
  else
    (set_lastAnyMessageTime now
       (set_chatHistory
          (ChatHistory.addMessage {| role := goggins; text := msg; timestamp := now |}
                                  now (chatHistory m)) m),
     [SendCoachMessage k msg]).

(** [summary.appGuess || summary.primaryActivity] *)
Definition currentAppOf (s : QwenActivitySummary) : string :=
  match appGuess s with
  | Some a => if truthy a then a else primaryActivity s
  | None => primaryActivity s
  end.

(** [captureAndAnalyze()].  The run is not re-entered while it awaits
    ([isAnalyzing]), so it is one step of the monitor. *)
Definition captureAndAnalyze (o : Observation) (m : t) : t * list Effect :=
  if negb (isEnabled m) || match mainWindow m with None => true | Some _ => false end
  then (m, [])
  else if isAnalyzing m then (m, [])
  else if playbackActive o then (m, [])
  else
    match summary o with
    | None => (m, [])
    | Some s =>
        if lastMinuteEmpty o then (m, [])
        else
          let now := at_time o in
          let currentScore := score o in
          let canSendMessage := canSendAnyMessage now m in
          let isHighPriority := currentScore >=? 7 in
          if negb canSendMessage && negb isHighPriority
          then (set_previous currentScore (taskType s) m, [])
          else
            let m1 := updateEscalationLevel currentScore now m in
            let (m2, proactive) := shouldTriggerProactiveMessage currentScore now m1 in
            if proactive then
              let (m3, sent) := sendMessageToChat Proactive (replyText o) now m2 in
              (set_previous currentScore (taskType s)
                 (set_lastProactiveMessageTime now m3),
               Generate Proactive "" :: sent)
            else if shouldTriggerCheckIn currentScore (checkInInterval o) now m2 then
              if conversing o
              then (set_previous currentScore (taskType s) m2, [])
              else
                let (m3, sent) := sendMessageToChat CheckIn (replyText o) now m2 in
                (set_previous currentScore (taskType s) (set_lastCheckInTime now m3),
                 Generate CheckIn "" :: sent)
            else if currentScore >? interventionThreshold config then
              let currentApp := currentAppOf s in
              if (lastCalledOutApp m2 =? currentApp)%string && truthy currentApp
              then (set_previous currentScore (taskType s) m2, [])
              else
                let m3 := set_lastCalledOutApp currentApp m2 in
                let m4 := set_chatHistory
                            (ChatHistory.addMessage
                               {| role := goggins; text := replyText o; timestamp := now |}
                               now (chatHistory m3)) m3 in
                let m5 := set_lastAnyMessageTime now m4 in
                (set_previous currentScore (taskType s) m5,
                 Generate CoachCallout currentApp
                 :: (if windowAlive m5 then [SendCoachMessage CoachCallout (replyText o)] else [])
                 ++ (if voiceAvailable o then [AutoListen] else []))
            else
              let m3 := if truthy (lastCalledOutApp m2)
                        then set_lastCalledOutApp "" m2 else m2 in
              (set_previous currentScore (taskType s) m3, [])
    end.

(** An automatic callout was made in this run. *)
Definition calledOut (effects : list Effect) : bool :=
  existsb (fun e => match e with Generate CoachCallout _ => true | _ => false end) effects.

End Policy.

(** The monitor as constructed, enabled, with a live window. *)
Definition started : t :=
  {| isEnabled := true; mainWindow := Some true; isAnalyzing := false;
     chatHistory := ChatHistory.empty; lowProductivityStartTime := 0;
     lastProactiveMessageTime := 0; lastCheckInTime := 0; previousScore := 0;
     previousTaskType := other; proactiveEscalationLevel := 0;
     lastAnyMessageTime := 0; lastCalledOutApp := "" |}.


(** [addChatMessage(message)], called by the chat handler for the message of
    the user and for the reply, at clock reading [now]. *)
Definition addChatMessage (msg : ConversationMessage) (now : Z) (m : t) : t :=
  set_chatHistory (ChatHistory.addMessage msg now (chatHistory m)) m.

End ProductivityMonitor.

(* ===================================================================== *)
(** ** ActivityLog (electron/ActivityLog.ts) *)
(* ===================================================================== *)

Module ActivityLog.

(** A logged summary.  [entryTime] is [new Date(entry.timestamp).getTime()]:
    [None] when the timestamp is not a date (NaN). *)
Record Entry := {
  summary : QwenActivitySummary;
  entryTime : option Z
}.

(** What the log file holds: nothing, something [loadFromFile] cannot read
    as an array of entries, or the entries of the last flush. *)
Inductive LogFile :=
| Missing
| Unreadable
| Stored (es : list Entry).

(** [writable] tells whether [fs.writeFileSync] succeeds; its failure is
    caught and logged by [flushToFile]. *)
Record t := {
  entries : list Entry;
  file : LogFile;
  writable : bool
}.

Definition maxEntries : nat := 15.

Definition set_entries (v : list Entry) (l : t) : t :=
  {| entries := v; file := file l; writable := writable l |}.

Definition flushToFile (l : t) : t :=
  if writable l
  then {| entries := entries l; file := Stored (entries l); writable := writable l |}
  else l.

(** [new Date(t).getTime() >= cutoff]; a comparison with NaN is false. *)
Definition notBefore (cutoffTime : Z) (e : Entry) : bool :=
  match entryTime e with
  | Some t => t >=? cutoffTime
  | None => false
  end.

Definition addEntry (e : Entry) (l : t) : t :=
  let pushed := entries l ++ [e] in
  let l1 := set_entries (if (maxEntries <? List.length pushed)%nat then tl pushed else pushed) l in
  if (List.length (entries l1) mod 5 =? 0)%nat then flushToFile l1 else l1.

(** [getEntriesSince(msAgo)] at clock reading [now]. *)
Definition getEntriesSince (msAgo now : Z) (l : t) : list Entry :=
  let cutoffTime := now - msAgo in
  filter (notBefore cutoffTime) (entries l).

Definition getAll (l : t) : list Entry := entries l.

Definition getLatest (l : t) : option Entry :=
  if (0 <? List.length (entries l))%nat then JsArray.lastElement (entries l) else None.

Definition clear (l : t) : t := flushToFile (set_entries [] l).

(** [loadFromFile()] at clock reading [now]. *)
Definition loadFromFile (now : Z) (l : t) : t :=
  match file l with
  | Missing => l
  | Unreadable => set_entries [] l
  | Stored loaded =>
      let twoMinutesAgo := now - 120000 in
      let kept := filter (notBefore twoMinutesAgo) loaded in
      set_entries (if (maxEntries <? List.length kept)%nat
                   then JsArray.slice (- Z.of_nat maxEntries) kept
                   else kept) l
  end.

(** [new ActivityLog()] at clock reading [now], on the log file [f]. *)
Definition create (f : LogFile) (canWrite : bool) (now : Z) : t :=
  loadFromFile now {| entries := []; file := f; writable := canWrite |}.

End ActivityLog.

(* ===================================================================== *)
(** ** CoachHistory (electron/CoachHistory.ts) *)
(* ===================================================================== *)

Module CoachHistory.

(** A coach message.  [msgTime] is [new Date(msg.timestamp).getTime()]:
    [None] when the timestamp is not a date (NaN). *)
Record CoachMessage := {
  text : string;
  score : Z;
  audioPath : option string;
  msgTime : option Z
}.

Inductive LogFile :=
| Missing
| Unreadable
| Stored (ms : list CoachMessage).

(** [lastInterventionTime] is a number: [None] is NaN. *)
Record t := {
  messages : list CoachMessage;
  lastInterventionTime : option Z;
  file : LogFile;
  writable : bool
}.

Definition maxMessages : nat := 20.

Definition flushToFile (h : t) : t :=
  if writable h
  then {| messages := messages h; lastInterventionTime := lastInterventionTime h;
          file := Stored (messages h); writable := writable h |}
  else h.

(** [addMessage(msg)] at clock reading [now]. *)
Definition addMessage (msg : CoachMessage) (now : Z) (h : t) : t :=
  let pushed := messages h ++ [msg] in
  flushToFile
    {| messages := if (maxMessages <? List.length pushed)%nat then tl pushed else pushed;
       lastInterventionTime := Some now;
       file := file h; writable := writable h |}.

(** [getRecentMessages(limit?)] for an integer [limit]; [None] is the call
    without an argument.  The limit 0 is falsy. *)
Definition getRecentMessages (limit : option Z) (h : t) : list CoachMessage :=
  match limit with
  | Some n => if n =? 0 then messages h else JsArray.slice (- n) (messages h)
  | None => messages h
  end.

Definition getLatest (h : t) : option CoachMessage :=
  if (0 <? List.length (messages h))%nat then JsArray.lastElement (messages h) else None.

(** [canInterveneNow()] at clock reading [now]; a comparison with NaN is
    false. *)
Definition canInterveneNow (coachCooldownMs now : Z) (h : t) : bool :=
  match lastInterventionTime h with
  | Some t => now - t >=? coachCooldownMs
  | None => false
  end.

Definition clear (h : t) : t :=
  flushToFile {| messages := []; lastInterventionTime := Some 0;
                 file := file h; writable := writable h |}.

Definition notBefore (cutoffTime : Z) (m : CoachMessage) : bool :=
  match msgTime m with
  | Some t => t >=? cutoffTime
  | None => false
  end.

(** [loadFromFile()] at clock reading [now]. *)
Definition loadFromFile (now : Z) (h : t) : t :=
  match file h with
  | Missing => h
  | Unreadable =>
      {| messages := []; lastInterventionTime := lastInterventionTime h;
         file := file h; writable := writable h |}
  | Stored loaded =>
      let oneHourAgo := now - 3600000 in
      let kept := filter (notBefore oneHourAgo) loaded in
      let trimmed := if (maxMessages <? List.length kept)%nat
                     then JsArray.slice (- Z.of_nat maxMessages) kept
                     else kept in
      {| messages := trimmed;
         lastInterventionTime :=
           if (0 <? List.length trimmed)%nat
           then match JsArray.lastElement trimmed with
                | Some latest => msgTime latest
                | None => lastInterventionTime h
                end
           else lastInterventionTime h;
         file := file h; writable := writable h |}
  end.

(** [new CoachHistory()] at clock reading [now], on the log file [f]. *)
Definition create (f : LogFile) (canWrite : bool) (now : Z) : t :=
  loadFromFile now {| messages := []; lastInterventionTime := Some 0;
                      file := f; writable := canWrite |}.

End CoachHistory.

(* ===================================================================== *)
(** ** ConversationMemoryManager (electron/ConversationMemory.ts) *)
(* ===================================================================== *)

Module ConversationMemory.

Inductive UserMood :=
| grinding | struggling | making_excuses | distracted | defeated | motivated.

Inductive CoachApproach :=
| tough_love | encouraging | questioning | storytelling | calling_out.

Record t := {
  currentGoal : option string;
  currentTask : option string;
  deadline : option string;
  userMood : UserMood;
  recentTopic : option string;
  lastApproach : CoachApproach;
  lastGogginsMessage : option string;
  sessionStartTime : Z;
  totalExchanges : Z;
  userHasSharedGoal : bool
}.

(** The memory of a new manager, and of [reset()], at clock reading [now]. *)
Definition initial (now : Z) : t :=
  {| currentGoal := None; currentTask := None; deadline := None;
     userMood := distracted; recentTopic := None; lastApproach := calling_out;
     lastGogginsMessage := None; sessionStartTime := now; totalExchanges := 0;
     userHasSharedGoal := false |}.

Definition mood_eqb (a b : UserMood) : bool :=
  match a, b with
  | grinding, grinding | struggling, struggling | making_excuses, making_excuses
  | distracted, distracted | defeated, defeated | motivated, motivated => true
  | _, _ => false
  end.

(** [s.match(/a|b|.../)] for alternatives without metacharacters. *)
Definition matchesAny (s : string) (alternatives : list string) : bool :=
  existsb (fun a => includes s a) alternatives.

Definition defeatedWords : list string :=
  ["can't"; "too hard"; "impossible"; "give up"; "quit"].

Definition grindingWords : list string :=
  ["trying"; "working on"; "focusing"; "getting it done"; "pushing through"].

Definition excuseWords : list string :=
  ["but "; "however "; "just one"; "need a break"; "tired"; "maybe later"].

Definition strugglingWords : list string :=
  ["stuck"; "confused"; "don't know"; "not sure"; "help"].

Definition motivatedWords : list string :=
  ["let's go"; "ready"; "motivated"; "pumped"; "excited"].

Definition goalWords : list string :=
  ["goal"; "working on"; "trying to"; "need to"; "finish"; "complete"; "build"; "create";
   "write"; "code"; "project"; "deadline"; "task"; "assignment"; "report"; "want to";
   "plan to"; "going to"].

(** The alternatives of [/by \d|deadline|due|tomorrow|today|tonight|this week/]. *)
Definition deadlineWords : list string :=
  map (fun d => ("by " ++ d)%string) ["0"; "1"; "2"; "3"; "4"; "5"; "6"; "7"; "8"; "9"]
  ++ ["deadline"; "due"; "tomorrow"; "today"; "tonight"; "this week"].

Definition isWork (a : QwenActivitySummary) : bool :=
  match taskType a with work | study => true | _ => false end.

(** [updateFromUserMessage(message, activities)].  [goalMatch] is the first
    group of [message.match(/goal\s+(?:is\s+)?(?:to\s+)?(.+?)(?:\.|$)/i)] and
    [deadlineMatch] the match of the deadline pattern, [None] when the
    pattern does not match.  The ratio of work activities is compared in
    the integers: [w / n < 0.3] is [10 * w < 3 * n], and [w / n >= 0.7] is
    [10 * w >= 7 * n]. *)
Definition updateFromUserMessage (message : string) (activities : list QwenActivitySummary)
    (goalMatch deadlineMatch : option string) (m : t) : t :=
  let exchanges := totalExchanges m + 1 in
  let lowerMsg := toLowerCase message in
  let mood1 :=
    if matchesAny lowerMsg defeatedWords then defeated
    else if matchesAny lowerMsg grindingWords then grinding
    else if matchesAny lowerMsg excuseWords then making_excuses
    else if matchesAny lowerMsg strugglingWords then struggling
    else if matchesAny lowerMsg motivatedWords then motivated
    else userMood m in
  let '(shared, goal, task) :=
    if matchesAny lowerMsg goalWords then
      if includes lowerMsg "goal" then
        match goalMatch with
        | Some g => (true, Some (trim g), Some (trim g))
        | None => (true, currentGoal m, currentTask m)
        end
      else (true, currentGoal m, Some (trim (String.substring 0 150 message)))
    else (userHasSharedGoal m, currentGoal m, currentTask m) in
  let deadline1 :=
    if matchesAny lowerMsg deadlineWords then
      match deadlineMatch with
      | Some d => Some d
      | None => deadline m
      end
    else deadline m in
  let '(mood3, topic) :=
    if (0 <? List.length activities)%nat then
      let workActivities := filter isWork activities in
      let w := Z.of_nat (List.length workActivities) in
      let n := Z.of_nat (List.length activities) in
      let mood2 := if mood_eqb mood1 grinding && (10 * w <? 3 * n)
                   then making_excuses else mood1 in
      let mood3 := if (10 * w >=? 7 * n) && mood_eqb mood2 distracted
                   then grinding else mood2 in
      (mood3,
       match JsArray.lastElement activities with
       | Some latestActivity =>
           if negb (primaryActivity latestActivity =? "Unknown")%string
           then Some (primaryActivity latestActivity) else recentTopic m
       | None => recentTopic m
       end)
    else (mood1, recentTopic m) in
  {| currentGoal := goal; currentTask := task; deadline := deadline1;
     userMood := mood3; recentTopic := topic; lastApproach := lastApproach m;
     lastGogginsMessage := lastGogginsMessage m; sessionStartTime := sessionStartTime m;
     totalExchanges := exchanges; userHasSharedGoal := shared |}.

Definition getMemory (m : t) : t := m.

Definition updateApproach (approach : CoachApproach) (m : t) : t :=
  {| currentGoal := currentGoal m; currentTask := currentTask m; deadline := deadline m;
     userMood := userMood m; recentTopic := recentTopic m; lastApproach := approach;
     lastGogginsMessage := lastGogginsMessage m; sessionStartTime := sessionStartTime m;
     totalExchanges := totalExchanges m; userHasSharedGoal := userHasSharedGoal m |}.

Definition updateFromGogginsMessage (text : string) (m : t) : t :=
  {| currentGoal := currentGoal m; currentTask := currentTask m; deadline := deadline m;
     userMood := userMood m; recentTopic := recentTopic m; lastApproach := lastApproach m;
     lastGogginsMessage := Some (String.substring 0 150 text);
     sessionStartTime := sessionStartTime m;
     totalExchanges := totalExchanges m; userHasSharedGoal := userHasSharedGoal m |}.

Definition reset (now : Z) (m : t) : t := initial now.

(** [getSessionDurationMinutes()] at clock reading [now]. *)
Definition getSessionDurationMinutes (now : Z) (m : t) : Z :=
  (now - sessionStartTime m) / 60000.

End ConversationMemory.

(* ===================================================================== *)
(** ** QwenClient (electron/QwenClient.ts): the summary of a screenshot *)
(* ===================================================================== *)

Module QwenClient.










End QwenClient.

(* ===================================================================== *)
(** ** LlamaClient (electron/LlamaClient.ts): the score *)
(* ===================================================================== *)

Module LlamaClient.

(** What comes back from the model, for an answer with an integer score. *)
Inductive Answer :=
| Unavailable                 (* the request throws or its status is not ok *)
| Parsed (score : option Z)   (* JSON.parse succeeds: Number(parsed.score), None for NaN *)
| Unparsed (digits : option Z).
                              (* JSON.parse throws: the digits after "score":, if any *)

(** [scoreActivity(activities)]: the score it returns. *)
Definition scoreActivity (activities : list QwenActivitySummary) (a : Answer) : Z :=
  if (List.length activities =? 0)%nat then 0
  else
    match a with
    | Unavailable => 0
    | Parsed n =>
        Z.max 0 (Z.min 10 (match n with
                           | Some v => if v =? 0 then 0 else v
                           | None => 0
                           end))
    | Unparsed (Some d) => Z.max 0 (Z.min 10 d)
    | Unparsed None => 0
    end.

End LlamaClient.

(* ===================================================================== *)
(** ** WhisperCppClient: the audio handed to the pipeline *)
(* ===================================================================== *)

Module WhisperAudio.

Definition SAMPLE_RATE : Z := 16000.
Definition BYTES_PER_SAMPLE : Z := 2.
Definition MIN_AUDIO_BYTES : Z := SAMPLE_RATE * BYTES_PER_SAMPLE * 3.

(** [buffer.readInt16LE(i)] on the bytes at [i] and [i + 1]. *)
Definition readInt16LE (lo hi : Byte.byte) : Z :=
  let u := Z.of_N (Byte.to_N lo) + 256 * Z.of_N (Byte.to_N hi) in
  if u <? 32768 then u else u - 65536.

(** The samples of the [Float32Array]: the number [k] stands for the float
    [k / 32768], which a float holds exactly for these [k]. *)
Fixpoint samples (buffer : Buffer) : list Z :=
  match buffer with
  | lo :: hi :: rest => Z.max (- 32768) (Z.min 32768 (readInt16LE lo hi)) :: samples rest
  | _ => []
  end.

(** [pcmToFloat32(buffer)]; [None] when it throws, on a buffer with an odd
    number of bytes. *)
Definition pcmToFloat32 (buffer : Buffer) : option (list Z) :=
  if Nat.even (List.length buffer) then Some (samples buffer) else None.

Inductive Outcome :=
| NotProcessed                        (* the call returns before it touches the buffer *)
| Failed                              (* an exception reaches the catch block *)
| Silence                             (* maxAmplitude < 0.005 *)
| Inference (float32Audio : list Z).  (* the pipeline is called *)

(** [processAudioBuffer()] up to the call of the pipeline: the audio buffer
    it leaves and what it does.  [Math.max(...float32Audio.map(Math.abs))]
    spreads every sample into an argument of the call: the engine takes at
    most [maxArguments] of them and throws a RangeError beyond, which
    reaches the [catch] block before the buffer is trimmed.
    [maxAmplitude < 0.005] is compared in the integers, on the numerators
    of the samples. *)
Definition processAudioBuffer (maxArguments : nat) (pipeline : bool)
    (audioBuffer : list Buffer) : list Buffer * Outcome :=
  if negb pipeline || (List.length audioBuffer =? 0)%nat then (audioBuffer, NotProcessed)
  else
    let combinedAudio := List.concat audioBuffer in
    if Z.of_nat (List.length combinedAudio) <? MIN_AUDIO_BYTES then (audioBuffer, NotProcessed)
    else
      match pcmToFloat32 combinedAudio with
      | None => (audioBuffer, Failed)
      | Some float32Audio =>
          if (maxArguments <? List.length float32Audio)%nat then (audioBuffer, Failed)
          else
            let maxAmplitude := fold_right Z.max 0 (map Z.abs float32Audio) in
            let keepBytes := SAMPLE_RATE * BYTES_PER_SAMPLE * 1 in
            let processedBytes := Z.of_nat (List.length combinedAudio) - keepBytes in
            let kept := if processedBytes >? 0
                        then [JsArray.slice (- keepBytes) combinedAudio]
                        else [] in
            if 1000 * maxAmplitude <? 5 * 32768 then (kept, Silence)
            else (kept, Inference float32Audio)
      end.

End WhisperAudio.

(* ===================================================================== *)
(** ** loadConfig (electron/config.ts) *)
(* ===================================================================== *)

Module Config.

(** The environment [loadConfig] reads.  A numeric variable is given by
    [Number(process.env.X)], for the variables that hold an integer: [None]
    is NaN, the value of a variable that is not set or is not a number.  A
    text variable is [None] when it is not set. *)
Record Env := {
  INTERVENTION_THRESHOLD : option Z;
  ENABLE_TTS : option string;
  PROACTIVE_COOLDOWN_MIN : option Z;
  PROACTIVE_COOLDOWN_MAX : option Z;
  PROACTIVE_TRIGGER_DURATION : option Z;
  CHECK_IN_INTERVAL_MIN : option Z;
  CHECK_IN_INTERVAL_MAX : option Z;
  NATURAL_PAUSE_MS : option Z;
  VOICE_LISTENING_ENABLED : option string;
  CONVERSATION_AUTO_END_EXCHANGES : option Z;
  CONVERSATION_RESPONSE_TIMEOUT : option Z;
  WAKE_WORD : option string
}.

(** [Number(x) || d] *)
Definition numberOr (n : option Z) (d : Z) : Z :=
  match n with
  | Some v => if v =? 0 then d else v
  | None => d
  end.

(** [x || d] on a text *)
Definition textOr (s : option string) (d : string) : string :=
  match s with
  | Some v => if truthy v then v else d
  | None => d
  end.

(** [x === t] and [x !== t] on a text that may be [undefined] *)
Definition textIs (s : option string) (t : string) : bool :=
  match s with
  | Some v => (v =? t)%string
  | None => false
  end.

Definition loadConfig (env : Env) : StayHardConfig := {|
  interventionThreshold := numberOr (INTERVENTION_THRESHOLD env) 5;
  enableTTS := textIs (ENABLE_TTS env) "true";
  proactiveCooldownMin := numberOr (PROACTIVE_COOLDOWN_MIN env) 120000;
  proactiveCooldownMax := numberOr (PROACTIVE_COOLDOWN_MAX env) 300000;
  proactiveTriggerDuration := numberOr (PROACTIVE_TRIGGER_DURATION env) 120000;
  checkInIntervalMin := numberOr (CHECK_IN_INTERVAL_MIN env) 900000;
  checkInIntervalMax := numberOr (CHECK_IN_INTERVAL_MAX env) 1800000;
  naturalPauseMs := numberOr (NATURAL_PAUSE_MS env) 60000;
  voiceListeningEnabled := negb (textIs (VOICE_LISTENING_ENABLED env) "false");
  conversationAutoEndExchanges := numberOr (CONVERSATION_AUTO_END_EXCHANGES env) 3;
  conversationResponseTimeout := numberOr (CONVERSATION_RESPONSE_TIMEOUT env) 30000;
  wakeWord := textOr (WAKE_WORD env) "hey goggins"
|}.

End Config.

(* ===================================================================== *)
(** ** start(), cut at its await *)
(* ===================================================================== *)

(** [start()] is an async method with one await, on [sttClient.connect()].
    When the model is loaded [connect()] returns at once and the
    continuation of [start()] is the next thing that runs: the event
    [Start] is that case, and the case in which nothing else happens while
    the model loads.  When the model is to be loaded the call stays
    suspended for as long as the loading takes, and other events, a
    [stop()] among them, come first. *)
Module SuspendedStart.

(** How far a call of [start()] gets before its await. *)
Inductive Called :=
| CallReturned      (* voice listening is disabled *)
| CallThrown        (* the microphone permission is missing *)
| Awaiting.         (* await this.sttClient.connect() *)

Definition start_call (config : StayHardConfig) (e : StartEnv) : Called :=
  if negb (voiceListeningEnabled config) then CallReturned
  else if negb (micPermissionGranted e) then CallThrown
  else Awaiting.

(** The rest of [connect()] once the model has been loaded, or the loading
    has failed.  It does not read [isInitialized] again. *)
Definition connect_resume (loads : bool) (w : World) : World * Completion :=
  if loads then (assign_stt stt_set_isInitialized true w, Returned) else (w, Thrown).

(** The statements of [start()] after the await. *)
Definition start_continue (config : StayHardConfig) (e : StartEnv) (w1 : World)
  : World * Completion :=
  if negb (connected w1)
  then ((assign cm_set_state monitoring ;; notifyStateChange) w1, Returned)
  else
    match startStreaming w1 with
    | (w2, Thrown) => (w2, Thrown)
    | (w2, Returned) =>
        match microphone_start (microphoneStarts e) w2 with
        | (w3, Thrown) => (w3, Thrown)
        | (w3, Returned) =>
            ((setTimeout MicStatusCheck 1000 ;;
              enterConversationMode config callout_auto_listen) w3, Returned)
        end
    end.

(** A suspended [start()] goes on: [connect()] settles, then the rest. *)
Definition start_resume (config : StayHardConfig) (e : StartEnv) (w : World)
  : World * Completion :=
  match connect_resume (whisperLoads e) w with
  | (w1, Thrown) => (w1, Thrown)
  | (w1, Returned) => start_continue config e w1
  end.

(** The orchestrator together with the calls of [start()] that wait for
    the model. *)
Record Suspended := {
  world : World;
  awaiting : list StartEnv
}.

Inductive Moment :=
| Happens (e : Event)           (* an event of the orchestrator *)
| StartCalled (e : StartEnv)    (* start() is called and runs up to its await *)
| StartResumes (i : nat).       (* the suspended start() number i goes on *)

Definition moment (config : StayHardConfig) (m : Moment) (s : Suspended) : Suspended :=
  match m with
  | Happens e => {| world := step config e (world s); awaiting := awaiting s |}
  | StartCalled e =>
      match start_call config e with
      | Awaiting =>
          if isInitialized (stt (world s))
          then {| world := fst (start_continue config e (world s));
                  awaiting := awaiting s |}
          else {| world := world s; awaiting := awaiting s ++ [e] |}
      | _ => s
      end
  | StartResumes i =>
      match nth_error (awaiting s) i with
      | Some e => {| world := fst (start_resume config e (world s));
                     awaiting := firstn i (awaiting s) ++ skipn (S i) (awaiting s) |}
      | None => s
      end
  end.

Definition play (config : StayHardConfig) (ms : list Moment) (s : Suspended) : Suspended :=
  fold_left (fun s m => moment config m s) ms s.

(** The moment is neither a call of [start()] nor the continuation of
    one. *)
Definition starts_nothing (m : Moment) : bool :=
  match m with
  | Happens (Start _) | StartCalled _ | StartResumes _ => false
  | Happens _ => true
  end.

(** What the continuation of a suspended [start()] finds: the permission
    was there at the call, and the model has been loaded. *)
Definition settled (e : StartEnv) : StartEnv :=
  {| micPermissionGranted := true; whisperLoads := true;
     microphoneStarts := microphoneStarts e |}.

(** The events that make the same change as the moment: a call that is
    suspended and a load that fails change nothing. *)
Definition as_events (config : StayHardConfig) (m : Moment) (s : Suspended) : list Event :=
  match m with
  | Happens e => [e]
  | StartCalled e =>
      match start_call config e with
      | Awaiting => if isInitialized (stt (world s)) then [Start e] else []
      | _ => []
      end
  | StartResumes i =>
      match nth_error (awaiting s) i with
      | Some e => if whisperLoads e then [Start (settled e)] else []
      | None => []
      end
  end.

End SuspendedStart.

(* ===================================================================== *)
(** ** Vocabulary of the properties *)
(* ===================================================================== *)

(** The guards of [handleFinalTranscript] let the text through. *)
Definition accepted (t : string) (w : World) : bool :=
  negb (isNoise t)
  && negb (isProcessingResponse (cm w))
  && negb (state_eqb (state (cm w)) responding).

(** Response generations that have been started and have not finished. *)
Definition in_flight (w : World) : nat :=
  List.length (pendingLLM w) + List.length (pendingTTS w).

Definition is_generation_call (e : Effect) : bool :=
  match e with CallLLM _ _ _ => true | _ => false end.

Definition generation_calls (tr : list Effect) : nat :=
  List.length (filter is_generation_call tr).

Definition is_speak (e : Effect) : bool :=
  match e with SendConversationSpeak _ _ _ => true | _ => false end.

(** The effect hands the text [t] to the presentation layer. *)
Definition delivers_text (t : string) (e : Effect) : bool :=
  match e with
  | SendConversationSpeak t' _ _ => (t' =? t)%string
  | _ => false
  end.

Definition is_forward (e : Effect) : bool :=
  match e with StreamAudio _ => true | _ => false end.

Definition is_elapse (e : Event) : bool :=
  match e with Elapse _ => true | _ => false end.

Definition response_timer_pending (w : World) : bool :=
  existsb (fun tm => match callback tm with ResponseTimeout => true | _ => false end)
          (timers w).

(** One response cycle: a final transcript, the answer of the language
    model, and the answer of the synthesiser when it was asked. *)
Record Exchange := {
  said : string;
  reply : string;
  reply_time : Z;
  synthesis : TtsOutcome
}.

Definition response_cycle (config : StayHardConfig) (x : Exchange) (w : World) : World :=
  let w1 := handleFinalTranscript config (said x) w in
  match pendingLLM w1 with
  | [p] =>
      let w2 := step config (ResponseGenerated (gen_id p) (reply x) (reply_time x)) w1 in
      match pendingTTS w2 with
      | [q] => step config (SpeechSynthesized (tts_id q) (synthesis x)) w2
      | _ => w2
      end
  | _ => w1
  end.

(** Nothing of a response is under way. *)
Definition idle (w : World) : Prop :=
  isProcessingResponse (cm w) = false /\ pendingLLM w = [] /\ pendingTTS w = [].


(** *** The lock *)

(** Two worlds agree on the lock and on the suspended activations. *)
Definition same_flight (w w' : World) : Prop :=
  isProcessingResponse (cm w') = isProcessingResponse (cm w)
  /\ pendingLLM w' = pendingLLM w /\ pendingTTS w' = pendingTTS w.

(** At most one generation is under way, and then the lock is held. *)
Definition lock_inv (w : World) : Prop :=
  (in_flight w <= 1)%nat
  /\ (isProcessingResponse (cm w) = false -> in_flight w = 0%nat).

(** The event makes a timer run while the lock is held. *)
Definition fires_under_lock (e : Event) (w : World) : bool :=
  match e with
  | Elapse t =>
      isProcessingResponse (cm w)
      && match next_timer t (timers w) with Some _ => true | None => false end
  | _ => false
  end.

(** No event of the run makes a timer run while the lock is held. *)
Fixpoint undisturbed (config : StayHardConfig) (es : list Event) (w : World) : bool :=
  match es with
  | [] => true
  | e :: es' => negb (fires_under_lock e w) && undisturbed config es' (step config e w)
  end.

(** The [shouldEnd] argument of each call of the language model, in order. *)
Definition should_end_flags (tr : list Effect) : list bool :=
  flat_map (fun e => match e with CallLLM _ _ b => [b] | _ => [] end) tr.

(** *** Timers *)

(** Handles are unique and were all handed out already. *)
Definition handles_wf (l : list Timer) (next : nat) : Prop :=
  NoDup (map handle l) /\ forall tm, In tm l -> (handle tm < next)%nat.

Definition timers_wf (w : World) : Prop := handles_wf (timers w) (nextId w).

(** The pending timers once the timer [tm] has left the list. *)
Definition without (tm : Timer) (l : list Timer) : list Timer :=
  filter (fun x => negb (handle x =? handle tm)%nat) l.

Definition cancelled (h : option nat) (l : list Timer) : list Timer :=
  match h with
  | Some n => filter (fun x => negb (handle x =? n)%nat) l
  | None => l
  end.

(** Fuel a pending timer needs: a response timer leaves a grace timer. *)
Definition weight (tm : Timer) : nat :=
  match callback tm with ResponseTimeout => 2%nat | _ => 1%nat end.

Definition total_weight (l : list Timer) : nat :=
  list_sum (map weight l).

(** An action that touches neither the lock nor the suspended activations. *)
Definition neutral (a : Action) : Prop := forall w, same_flight w (a w).

Definition preserves (P : World -> Prop) (a : Action) : Prop :=
  forall w, P w -> P (a w).

(** The only response timer that can be pending is the one whose handle the
    manager holds. *)
Definition response_timer_held (w : World) : Prop :=
  forall tm, In tm (timers w) -> callback tm = ResponseTimeout ->
             responseTimeoutHandle (cm w) = Some (handle tm).

(** A conversation is open and waits for the user, [n] responses made. *)
Definition conversation_open (n : Z) (w : World) : Prop :=
  idle w /\ state (cm w) = conversation /\ exchangeCount (cm w) = n
  /\ response_timer_held w.

Definition is_response_timer (tm : Timer) : bool :=
  match callback tm with ResponseTimeout => true | _ => false end.

(** The stages of a response turn: the language model is awaited, then the
    synthesiser, then the turn is over.  [n] is the exchange count of the
    turn, [e] its [shouldEnd], [flags] the [shouldEnd] of every call so far. *)
Definition generating (n : Z) (e : bool) (flags : list bool) (w : World) : Prop :=
  isProcessingResponse (cm w) = true
  /\ exchangeCount (cm w) = n
  /\ (exists id, pendingLLM w = [{| gen_id := id; gen_shouldEnd := e |}])
  /\ pendingTTS w = []
  /\ responseTimeoutHandle (cm w) = None
  /\ response_timer_pending w = false
  /\ should_end_flags (trace w) = flags.

Definition speaking (n : Z) (e : bool) (flags : list bool) (w : World) : Prop :=
  isProcessingResponse (cm w) = true
  /\ exchangeCount (cm w) = n
  /\ pendingLLM w = []
  /\ (exists id t, pendingTTS w = [{| tts_id := id; tts_shouldEnd := e; tts_text := t |}])
  /\ responseTimeoutHandle (cm w) = None
  /\ response_timer_pending w = false
  /\ should_end_flags (trace w) = flags.

Definition turn_over (n : Z) (e : bool) (flags : list bool) (w : World) : Prop :=
  idle w
  /\ response_timer_held w
  /\ should_end_flags (trace w) = flags
  /\ (e = false ->
      state (cm w) = conversation /\ exchangeCount (cm w) = n
      /\ response_timer_pending w = true)
  /\ (e = true ->
      state (cm w) = monitoring /\ conversationHistory (cm w) = []
      /\ exchangeCount (cm w) = 0 /\ responseTimeoutHandle (cm w) = None
      /\ response_timer_pending w = false).

(** The orchestrator is on its way out of the conversation entered with the
    response timer [P]: it has left already, or [P] is still pending, or
    the grace timer that [P] left behind is. *)
Definition expiring (P : Timer) (w : World) : Prop :=
  timers_wf w
  /\ ((state (cm w) = monitoring /\ conversationHistory (cm w) = []
       /\ exchangeCount (cm w) = 0 /\ isProcessingResponse (cm w) = false)
      \/ (state (cm w) <> monitoring /\ In P (timers w) /\ now w <= due P)
      \/ (state (cm w) <> monitoring
          /\ exists G, In G (timers w) /\ callback G = GraceTimeout
                       /\ due G <= due P + GRACE_MS)).

(** The conversation entered with the response timer [P] is still waiting:
    [P] is the only pending timer, or the grace timer it left behind is. *)
Definition waiting (P : Timer) (w : World) : Prop :=
  state (cm w) = conversation
  /\ ((timers w = [P] /\ now w <= due P)
      \/ exists h, timers w = [{| handle := h; due := due P + GRACE_MS;
                                  callback := GraceTimeout |}]).

(** *** The transcriber *)

(** The transcriber's buffer is well formed: it has no white space at its
    ends, and when it is not empty a fragment time was recorded. *)
Definition transcriber_wf (w : World) : Prop :=
  trim (pendingTranscript (stt w)) = pendingTranscript (stt w)
  /\ (pendingTranscript (stt w) <> "" -> lastTranscriptChunkTime (stt w) <> 0)
  /\ onTranscriptCallback (stt w) = true
  /\ 0 < now w.

(** The buffer after the fragment [frag] has been merged into it. *)
Definition merged (buffer frag : string) : string :=
  if truthy buffer then (buffer ++ " " ++ frag)%string else frag.

Definition is_final_transcript (e : Effect) : bool :=
  match e with EmitTranscript true _ _ => true | _ => false end.

(** The buffer of [w] was flushed as the final transcript [t]: the event is
    emitted at the clock reading of [w], and the buffer is empty after. *)
Definition flushed (t : string) (w w' : World) : Prop :=
  (exists before after,
      trace w' = trace w ++ before ++ EmitTranscript true t (now w) :: after
      /\ filter is_final_transcript before = [])
  /\ pendingTranscript (stt w') = "".

(** The fields of the transcriber that the manager's handlers leave alone. *)
Definition transcriber_kept (w w' : World) : Prop :=
  pendingTranscript (stt w') = pendingTranscript (stt w)
  /\ lastTranscriptChunkTime (stt w') = lastTranscriptChunkTime (stt w)
  /\ onTranscriptCallback (stt w') = onTranscriptCallback (stt w)
  /\ onUserSpeakingCallback (stt w') = onUserSpeakingCallback (stt w)
  /\ onWakeWordCallback (stt w') = onWakeWordCallback (stt w)
  /\ now w' = now w
  /\ exists l, trace w' = trace w ++ l /\ filter is_final_transcript l = [].

(** Between [w] and [w'] the clock has not moved and no final transcript was
    emitted. *)
Definition quiet (w w' : World) : Prop :=
  now w' = now w
  /\ exists l, trace w' = trace w ++ l /\ filter is_final_transcript l = [].

(** The world of [processAudioBuffer] when the merged buffer is handed to
    [checkWakeWord]. *)
Definition fragment_stored (frag : string) (w : World) : World :=
  let w1 := assign_stt stt_set_isUserSpeaking true
              (assign_stt stt_set_lastTranscriptChunkTime (now w)
                 (assign_stt stt_set_pendingTranscript
                    (merged (pendingTranscript (stt w)) frag) w)) in
  let w2 := invoke_onUserSpeaking true w1 in
  assign_stt stt_set_lastTranscriptTime (now w2) w2.

(** *** The monitor's runs *)

(** The run of [captureAndAnalyze] gets as far as a score: the summary it
    scored. *)
Definition analysed (o : ProductivityMonitor.Observation) (m : ProductivityMonitor.t)
  : option QwenActivitySummary :=
  if ProductivityMonitor.isEnabled m
     && match ProductivityMonitor.mainWindow m with Some _ => true | None => false end
     && negb (ProductivityMonitor.isAnalyzing m)
     && negb (ProductivityMonitor.playbackActive o)
     && negb (ProductivityMonitor.lastMinuteEmpty o)
  then ProductivityMonitor.summary o
  else None.

(** The run stops at the natural pause. *)
Definition paused (config : StayHardConfig)
    (o : ProductivityMonitor.Observation) (m : ProductivityMonitor.t) : bool :=
  negb (ProductivityMonitor.canSendAnyMessage config (ProductivityMonitor.at_time o) m)
  && negb (ProductivityMonitor.score o >=? 7).

(** The run ends in a proactive message or a check-in. *)
Definition messaging (config : StayHardConfig)
    (o : ProductivityMonitor.Observation) (m : ProductivityMonitor.t) : bool :=
  let now := ProductivityMonitor.at_time o in
  let m1 := ProductivityMonitor.updateEscalationLevel config (ProductivityMonitor.score o) now m in
  let (m2, proactive) :=
    ProductivityMonitor.shouldTriggerProactiveMessage config (ProductivityMonitor.score o) now m1 in
  proactive
  || ProductivityMonitor.shouldTriggerCheckIn config (ProductivityMonitor.score o)
       (ProductivityMonitor.checkInInterval o) now m2.

(** The world in which [generateAndSpeakResponse] is entered: the
    conversation is open, the response timer is cancelled, the utterance
    is in the history. *)
Definition turn_opened (config : StayHardConfig) (t : string) (w : World) : World :=
  let w1 := (if state_eqb (state (cm w)) monitoring
             then enterConversationMode config auto_detect w else w) in
  let w2 := clearResponseTimeout w1 in
  let acc := (accumulatedTranscript (cm w2)
              ++ (if truthy (accumulatedTranscript (cm w2)) then " " else "") ++ t)%string in
  let w3 := assign cm_set_accumulatedTranscript acc w2 in
  assign cm_set_conversationHistory
    (conversationHistory (cm w3) ++ [{| role := user; text := acc; timestamp := now w3 |}]) w3.

(** The transcriber's buffer, its fragment time and its transcript callback
    are as they were, and the clock has not gone back. *)
Definition buffer_kept (w w' : World) : Prop :=
  pendingTranscript (stt w') = pendingTranscript (stt w)
  /\ lastTranscriptChunkTime (stt w') = lastTranscriptChunkTime (stt w)
  /\ onTranscriptCallback (stt w') = onTranscriptCallback (stt w)
  /\ now w <= now w'.

Definition keeps_buffer (a : Action) : Prop := forall w, buffer_kept w (a w).

(** *** Waiting for the user *)

(** The number of final transcripts the transcriber has emitted. *)
Definition final_transcripts (w : World) : nat :=
  List.length (filter is_final_transcript (trace w)).

(** What can happen while the orchestrator waits for the user: audio, the
    work of the transcriber, playback notices, bookkeeping, time. *)
Definition waiting_event (e : Event) : bool :=
  match e with
  | AudioChunk _ | TranscriptCheck | Transcribed _
  | PlaybackStarted | PlaybackEnded | ActivityContext _ | WindowChanged _
  | Elapse _ => true
  | _ => false
  end.

(** The run from [w] is a wait in which no final transcript is emitted. *)
Fixpoint unanswered (config : StayHardConfig) (es : list Event) (w : World) : bool :=
  match es with
  | [] => true
  | e :: es' =>
      waiting_event e
      && (final_transcripts (step config e w) =? final_transcripts w)%nat
      && unanswered config es' (step config e w)
  end.

(** *** A conversation that runs its course *)

Definition is_mic_check (tm : Timer) : bool :=
  match callback tm with MicStatusCheck => true | _ => false end.

(** No response timer and no grace timer runs when the clock reaches [t]:
    the only timers due by then are checks of the microphone. *)
Definition no_timeout_by (t : Z) (w : World) : bool :=
  forallb (fun tm => (t <? due tm) || is_mic_check tm) (timers w).

(** What can happen in a conversation that runs its course: audio, the
    periodic check of the transcriber (which commits the user's turn after
    the silence), inferences that commit nothing (no wake word), playback
    notices, bookkeeping, the answers of the language model and of the
    synthesiser, and time in which neither the response timer nor a grace
    timer runs.  A wake word, a callout, a generation that fails, [start()]
    and [stop()] are left out: they end the conversation or enter it
    anew. *)
Definition conversing_event (config : StayHardConfig) (e : Event) (w : World) : bool :=
  match e with
  | AudioChunk _ | TranscriptCheck | PlaybackStarted | PlaybackEnded
  | ActivityContext _ | WindowChanged _
  | ResponseGenerated _ _ _ | SpeechSynthesized _ _ => true
  | Transcribed _ =>
      (final_transcripts (step config e w) =? final_transcripts w)%nat
  | Elapse t => no_timeout_by t w
  | ResponseFailed _ | Callout _ | Start _ | Stop => false
  end.

(** The run from [w] is part of one conversation that runs its course: each
    event finds the orchestrator out of 'monitoring' and is one of the
    above. *)
Fixpoint in_conversation (config : StayHardConfig) (es : list Event) (w : World) : bool :=
  match es with
  | [] => true
  | e :: es' =>
      negb (state_eqb (state (cm w)) monitoring)
      && conversing_event config e w
      && in_conversation config es' (step config e w)
  end.

(** The [shouldEnd] flags of the responses 1 .. k of a conversation. *)
Definition flags_of_responses (config : StayHardConfig) (k : nat) : list bool :=
  map (fun i => Z.of_nat i >=? conversationAutoEndExchanges config) (seq 1 k).

(** The conversation is over: the orchestrator is back in 'monitoring' with
    nothing left of the conversation. *)
Definition conversation_over (w : World) : Prop :=
  idle w
  /\ state (cm w) = monitoring
  /\ conversationHistory (cm w) = []
  /\ exchangeCount (cm w) = 0
  /\ responseTimeoutHandle (cm w) = None
  /\ response_timer_pending w = false.

(** Between [w] and [w'] nothing of the turn has changed: the lock, the
    suspended activations, the count, the history and the timeout handle
    are as they were, no call of the language model was made, no timer was
    added, and the state is the same or went from 'responding' to
    'conversation' (an interruption). *)
Definition same_turn (w w' : World) : Prop :=
  same_flight w w'
  /\ exchangeCount (cm w') = exchangeCount (cm w)
  /\ conversationHistory (cm w') = conversationHistory (cm w)
  /\ responseTimeoutHandle (cm w') = responseTimeoutHandle (cm w)
  /\ incl (timers w') (timers w)
  /\ should_end_flags (trace w') = should_end_flags (trace w)
  /\ (state (cm w') = state (cm w)
      \/ (state (cm w) = responding /\ state (cm w') = conversation)).

(** The stages of a conversation entered when the flags of the calls made
    before were [f0]: [k] responses were asked for since. *)
Inductive stage (config : StayHardConfig) (f0 : list bool) (w : World) : nat -> Prop :=
| stage_open (k : nat) :
    Z.of_nat k < conversationAutoEndExchanges config ->
    conversation_open (Z.of_nat k) w ->
    should_end_flags (trace w) = f0 ++ flags_of_responses config k ->
    stage config f0 w k
| stage_generating (k : nat) :
    Z.of_nat k <= conversationAutoEndExchanges config ->
    state (cm w) <> monitoring ->
    generating (Z.of_nat k) (Z.of_nat k >=? conversationAutoEndExchanges config)
               (f0 ++ flags_of_responses config k) w ->
    stage config f0 w k
| stage_speaking (k : nat) :
    Z.of_nat k <= conversationAutoEndExchanges config ->
    state (cm w) <> monitoring ->
    speaking (Z.of_nat k) (Z.of_nat k >=? conversationAutoEndExchanges config)
             (f0 ++ flags_of_responses config k) w ->
    stage config f0 w k
| stage_over (k : nat) :
    Z.of_nat k = conversationAutoEndExchanges config ->
    should_end_flags (trace w) = f0 ++ flags_of_responses config k ->
    conversation_over w ->
    stage config f0 w k.

(** The event enters a conversation when it finds no response under way: a
    callout, and, with the orchestrator in 'monitoring', [start()] and the
    periodic check of the transcriber when it commits an utterance
    (auto-detect).  The wake word is left out: it sets the count back under
    the response to its own utterance. *)
Definition entering_event (e : Event) (w : World) : bool :=
  match e with
  | Callout _ => true
  | Start _ | TranscriptCheck => state_eqb (state (cm w)) monitoring
  | _ => false
  end.

(** *** The lock and the manager's state *)

(** The state 'responding' is only held under the lock, and the accumulated
    transcript is only kept under the lock. *)
Definition tidy (w : World) : Prop :=
  (state (cm w) = responding -> isProcessingResponse (cm w) = true)
  /\ (isProcessingResponse (cm w) = false -> accumulatedTranscript (cm w) = "").

(** The response timers that are pending. *)
Definition response_timers (w : World) : list Timer :=
  filter is_response_timer (timers w).

(** *** The monitor over several runs *)

(** The monitor after the runs of [captureAndAnalyze] on the observations
    [os], oldest first. *)
Definition monitor_after (config : StayHardConfig)
    (os : list ProductivityMonitor.Observation) (m : ProductivityMonitor.t)
  : ProductivityMonitor.t :=
  fold_left (fun m o => fst (ProductivityMonitor.captureAndAnalyze config o m)) os m.

(** Everything those runs asked of the model, sent to the window or started. *)
Fixpoint monitor_effects (config : StayHardConfig)
    (os : list ProductivityMonitor.Observation) (m : ProductivityMonitor.t)
  : list ProductivityMonitor.Effect :=
  match os with
  | [] => []
  | o :: os' =>
      snd (ProductivityMonitor.captureAndAnalyze config o m)
      ++ monitor_effects config os' (fst (ProductivityMonitor.captureAndAnalyze config o m))
  end.

(** A message of the kind [k] was asked of the model. *)
Definition generated (k : ProductivityMonitor.MessageKind)
    (effects : list ProductivityMonitor.Effect) : bool :=
  existsb (fun e => match e, k with
                    | ProductivityMonitor.Generate ProductivityMonitor.Proactive _,
                      ProductivityMonitor.Proactive
                    | ProductivityMonitor.Generate ProductivityMonitor.CheckIn _,
                      ProductivityMonitor.CheckIn
                    | ProductivityMonitor.Generate ProductivityMonitor.CoachCallout _,
                      ProductivityMonitor.CoachCallout => true
                    | _, _ => false
                    end) effects.

(** A message reached the window. *)
Definition delivered (effects : list ProductivityMonitor.Effect) : bool :=
  existsb (fun e => match e with
                    | ProductivityMonitor.SendCoachMessage _ _ => true
                    | _ => false
                    end) effects.

(** The message a run of the monitor writes into the chat history. *)
Definition written (o : ProductivityMonitor.Observation) : ConversationMessage :=
  {| role := goggins; text := ProductivityMonitor.replyText o;
     timestamp := ProductivityMonitor.at_time o |}.

(** The number of messages the effects send to the window, and the number
    they ask of the model. *)
Definition messages_sent (effects : list ProductivityMonitor.Effect) : nat :=
  List.length (filter (fun e => match e with
                                | ProductivityMonitor.SendCoachMessage _ _ => true
                                | _ => false
                                end) effects).

Definition messages_asked (effects : list ProductivityMonitor.Effect) : nat :=
  List.length (filter (fun e => match e with
                                | ProductivityMonitor.Generate _ _ => true
                                | _ => false
                                end) effects).

(** The run is within the natural pause that began at [T], and its score is
    under the priority that passes the pause. *)
Definition within_pause (config : StayHardConfig) (T : Z)
    (o : ProductivityMonitor.Observation) : Prop :=
  ProductivityMonitor.at_time o - T < naturalPauseMs config
  /\ ProductivityMonitor.score o < 7.

(** *** The histories *)

(** The last [n] elements of a list. *)
Definition latest {A : Type} (n : nat) (l : list A) : list A :=
  skipn (List.length l - n) l.

(** The chat history after the calls of [addMessage], oldest first, each
    with the clock reading of the call. *)
Definition chat_after (calls : list (ConversationMessage * Z)) (h : ChatHistory.t)
  : ChatHistory.t :=
  fold_left (fun h c => ChatHistory.addMessage (fst c) (snd c) h) calls h.

(** The activity log after the calls of [addEntry], oldest first. *)
Definition log_after (es : list ActivityLog.Entry) (l : ActivityLog.t) : ActivityLog.t :=
  fold_left (fun l e => ActivityLog.addEntry e l) es l.

(** The coach history after the calls of [addMessage], oldest first, each
    with the clock reading of the call. *)
Definition coach_after (calls : list (CoachHistory.CoachMessage * Z)) (h : CoachHistory.t)
  : CoachHistory.t :=
  fold_left (fun h c => CoachHistory.addMessage (fst c) (snd c) h) calls h.

(** *** The conversation memory *)

(** One call of [updateFromUserMessage]. *)
Record UserTurn := {
  turn_message : string;
  turn_activities : list QwenActivitySummary;
  turn_goal : option string;
  turn_deadline : option string
}.

Definition remember (m : ConversationMemory.t) (u : UserTurn) : ConversationMemory.t :=
  ConversationMemory.updateFromUserMessage
    (turn_message u) (turn_activities u) (turn_goal u) (turn_deadline u) m.

(** The mood the words of a message stand for, when they stand for one. *)
Definition spoken_mood (message : string) : option ConversationMemory.UserMood :=
  let lowerMsg := toLowerCase message in
  if ConversationMemory.matchesAny lowerMsg ConversationMemory.defeatedWords
  then Some ConversationMemory.defeated
  else if ConversationMemory.matchesAny lowerMsg ConversationMemory.grindingWords
  then Some ConversationMemory.grinding
  else if ConversationMemory.matchesAny lowerMsg ConversationMemory.excuseWords
  then Some ConversationMemory.making_excuses
  else if ConversationMemory.matchesAny lowerMsg ConversationMemory.strugglingWords
  then Some ConversationMemory.struggling
  else if ConversationMemory.matchesAny lowerMsg ConversationMemory.motivatedWords
  then Some ConversationMemory.motivated
  else None.

(** The number of work and study activities among [activities]. *)
Definition work_count (activities : list QwenActivitySummary) : Z :=
  Z.of_nat (List.length (filter ConversationMemory.isWork activities)).

(** *** The lock is given back *)

(** With no generation and no synthesis under way the lock is free. *)
Definition never_stuck (w : World) : Prop :=
  in_flight w = 0%nat -> isProcessingResponse (cm w) = false.

(** *** What Goggins says *)

(** The texts the language model has answered with in the events [es]. *)
Definition generated_texts (es : list Event) : list string :=
  flat_map (fun e => match e with ResponseGenerated _ t _ => [t] | _ => [] end) es.

(** The effect speaks, or asks the synthesiser for, a text among [G]. *)
Definition speaks_from (G : list string) (e : Effect) : Prop :=
  match e with
  | SendConversationSpeak t _ _ => In t G
  | CallTTS _ t => In t G
  | _ => True
  end.

(** Everything spoken or handed to the synthesiser so far, and everything
    the synthesiser is working on, is among the texts [G]. *)
Definition spoken_from (G : list string) (w : World) : Prop :=
  Forall (speaks_from G) (trace w)
  /\ Forall (fun p => In (tts_text p) G) (pendingTTS w).

(** *** stop() *)

(** The transcriber is disconnected, and the chunks forwarded so far are
    [f]. *)
Definition deaf (f : list Effect) (w : World) : Prop :=
  connected w = false /\ filter is_forward (trace w) = f.

(* ===================================================================== *)
(** ** Concrete runs *)
(* ===================================================================== *)

Definition sound_env : StartEnv :=
  {| micPermissionGranted := true; whisperLoads := true; microphoneStarts := true |}.

(** The manager is constructed at clock reading 1000 with a live window and
    a synthesiser, and started. *)
Definition listening : World :=
  run default_config [Start sound_env] (new_ConversationManager true true 1000).

(** The user says "I need a break"; 1.5 s of silence later the periodic
    check commits it and a response generation starts (call 2). *)
Definition answering : World :=
  run default_config
      [Transcribed (Some "I need a break"); Elapse 2500; TranscriptCheck] listening.

(** The language model has answered and the synthesiser is asked (call 3). *)
Definition synthesising : World :=
  run default_config [ResponseGenerated 2 "Stay hard" 3000] answering.

(** Three exchanges of a conversation. *)
Definition first_exchange : Exchange :=
  {| said := "I need a break"; reply := "Stay hard"; reply_time := 3000;
     synthesis := AudioReady "data:audio/mp3;base64,AAAA" |}.

Definition second_exchange : Exchange :=
  {| said := "I am tired"; reply := "Who is going to carry the boats"; reply_time := 9000;
     synthesis := AudioReady "data:audio/mp3;base64,BBBB" |}.

Definition third_exchange : Exchange :=
  {| said := "fine, back to work"; reply := "Get after it"; reply_time := 15000;
     synthesis := AudioReady "data:audio/mp3;base64,CCCC" |}.

(** The first conversation has timed out (at 33000): the orchestrator is
    back in 'monitoring'. *)
Definition timed_out : list Event := [Start sound_env; Elapse 33000].

(** A conversation of three turns that runs its course after a callout:
    each utterance is committed after 1.5 s of silence, the language model and the synthesiser
    answer, the replies are played, time passes. *)
Definition three_turns : list Event :=
  [AudioChunk []; Transcribed (Some "I need a break"); Elapse 35000; TranscriptCheck;
   Elapse 36000; Transcribed None; ResponseGenerated 4 "Stay hard" 36000;
   Elapse 37000; SpeechSynthesized 5 (AudioReady "data:audio/mp3;base64,AAAA");
   PlaybackStarted; Elapse 40000; PlaybackEnded;
   AudioChunk []; Transcribed (Some "I am tired"); Elapse 45000; TranscriptCheck;
   Elapse 46000; ResponseGenerated 7 "Who is going to carry the boats" 46000;
   Elapse 47000; SpeechSynthesized 8 (AudioReady "data:audio/mp3;base64,BBBB");
   Elapse 60000; Transcribed (Some "fine, back to work"); Elapse 62000; TranscriptCheck;
   Elapse 63000; ResponseGenerated 10 "Get after it" 63000;
   Elapse 64000; SpeechSynthesized 11 (AudioReady "data:audio/mp3;base64,CCCC")].

(** The user has said "I need a break" and goes on speaking: the fragment is
    in the transcriber's buffer. *)
Definition heard : World :=
  run default_config [Transcribed (Some "I need a break")] listening.

(** The user stays silent until the response timer has run (at 31000), then
    speaks; the utterance is committed at 32600, inside the grace period,
    and a generation starts.  At 33000 the grace timer exits the
    conversation under the generation, and the next utterance starts a
    second generation while the first is still awaited. *)
Definition late_reply : list Event :=
  [Elapse 31000; AudioChunk []; Transcribed (Some "I need a break");
   Elapse 32600; TranscriptCheck;
   Elapse 33000; AudioChunk []; Transcribed (Some "are you there");
   Elapse 34600; TranscriptCheck].

(** The user says nothing that is recognised while the orchestrator waits:
    audio arrives, Whisper hears nothing or noise, the periodic check runs,
    another message is played, time passes. *)
Definition unanswered_wait : list Event :=
  [AudioChunk []; Transcribed None; TranscriptCheck; Elapse 5000;
   AudioChunk []; Transcribed (Some " * "); TranscriptCheck; Elapse 12000;
   PlaybackStarted; Elapse 15000; PlaybackEnded; TranscriptCheck; Elapse 31500].

(** Samples of the monitor: YouTube at score 8, taken [t] ms after start,
    and a recovery at score 2. *)
Definition sample (app : string) (sc t : Z) : ProductivityMonitor.Observation :=
  {| ProductivityMonitor.at_time := t;
     ProductivityMonitor.playbackActive := false;
     ProductivityMonitor.conversing := false;
     ProductivityMonitor.voiceAvailable := true;
     ProductivityMonitor.summary :=
       Some {| primaryActivity := "watching videos"; appGuess := Some app;
               taskType := other |};
     ProductivityMonitor.lastMinuteEmpty := false;
     ProductivityMonitor.score := sc;
     ProductivityMonitor.checkInInterval := 900000;
     ProductivityMonitor.replyText := "Close it. Now." |}.

Definition monitor_run (os : list ProductivityMonitor.Observation)
    (m : ProductivityMonitor.t) : ProductivityMonitor.t :=
  fold_left (fun m o => fst (ProductivityMonitor.captureAndAnalyze default_config o m)) os m.

(** The monitor after a check-in (first sample) and a callout of YouTube
    (second sample). *)
Definition called_out_youtube : ProductivityMonitor.t :=
  monitor_run [sample "YouTube" 8 1000000; sample "YouTube" 8 1005000]
              ProductivityMonitor.started.


(** Two runs of the monitor within the minute after the chat message of
    1000000: scores 6 and 2. *)
Definition within_the_pause : list ProductivityMonitor.Observation :=
  [sample "YouTube" 6 1010000; sample "Docs" 2 1030000].

(** A message of the user in the chat. *)
Definition chat_question : ConversationMessage :=
  {| role := user; text := "what should I do"; timestamp := 1000000 |}.

(** One logged summary, taken at 1000000. *)
Definition logged : ActivityLog.Entry :=
  {| ActivityLog.summary :=
       {| primaryActivity := "watching videos"; appGuess := Some "YouTube";
          taskType := entertainment |};
     ActivityLog.entryTime := Some 1000000 |}.

(** One callout, made at 1000000. *)
Definition callout_message : CoachHistory.CoachMessage :=
  {| CoachHistory.text := "Close it. Now."; CoachHistory.score := 8;
     CoachHistory.audioPath := None; CoachHistory.msgTime := Some 1000000 |}.

(** One whole turn: the utterance, the answer of the model and the speech. *)
Definition full_turn : list Event :=
  [Start sound_env; Transcribed (Some "I need a break"); Elapse 2500; TranscriptCheck;
   ResponseGenerated 2 "Stay hard" 3000;
   SpeechSynthesized 3 (AudioReady "data:audio/mp3;base64,AAAA")].




(** An environment that sets NATURAL_PAUSE_MS=30000 and nothing else. *)
Definition short_pause_env : Config.Env :=
  {| Config.INTERVENTION_THRESHOLD := None; Config.ENABLE_TTS := None;
     Config.PROACTIVE_COOLDOWN_MIN := None; Config.PROACTIVE_COOLDOWN_MAX := None;
     Config.PROACTIVE_TRIGGER_DURATION := None; Config.CHECK_IN_INTERVAL_MIN := None;
     Config.CHECK_IN_INTERVAL_MAX := None; Config.NATURAL_PAUSE_MS := Some 30000;
     Config.VOICE_LISTENING_ENABLED := None;
     Config.CONVERSATION_AUTO_END_EXCHANGES := None;
     Config.CONVERSATION_RESPONSE_TIMEOUT := None; Config.WAKE_WORD := None |}.

(** Three seconds of audio, in one chunk with a loud first sample. *)
Definition three_seconds : list Buffer :=
  [Byte.x00 :: Byte.x40 :: repeat Byte.x00 (Z.to_nat 95998)].

(** Five seconds of audio, in one chunk with a loud first sample. *)
Definition five_seconds : list Buffer :=
  [Byte.x00 :: Byte.x40 :: repeat Byte.x00 (Z.to_nat 159998)].

(** Two messages of the user in a conversation, with no activity known. *)
Definition two_turns : list UserTurn :=
  [{| turn_message := "I need a break"; turn_activities := [];
      turn_goal := None; turn_deadline := None |};
   {| turn_message := "my goal is to finish the report"; turn_activities := [];
      turn_goal := Some "finish the report"; turn_deadline := None |}].

(** A reply of 170 characters. *)
Definition long_reply : string :=
  "Nobody is coming to save you. You said the report is the goal, so open it, "
  ++ "write the first line, and do not look up until the first page is done. "
  ++ "Stay hard. Get after it.".

(* ===================================================================== *)
(** ** Tactics *)
(* ===================================================================== *)

(** Computes the handlers on a world whose fields are explicit.  The tested
    fields are destructed first, so that no conditional is duplicated. *)
Ltac wsimpl :=
  cbv beta iota zeta delta
    [andThen skip assign assign_stt emit with_cm with_stt
     set_now set_timers set_nextId set_pendingLLM set_pendingTTS
     cm_set_state cm_set_mode cm_set_conversationHistory cm_set_exchangeCount
     cm_set_mainWindow cm_set_responseTimeoutHandle cm_set_accumulatedTranscript
     cm_set_isProcessingResponse cm_set_recentActivities cm_set_lastResponseTime
     cm_set_isPlaybackActive cm_set_isRecording
     stt_set_isInitialized stt_set_isStreaming stt_set_audioBuffer stt_set_intervals
     stt_set_lastTranscriptChunkTime stt_set_pendingTranscript stt_set_callbacks
     stt_set_lastTranscriptTime stt_set_isUserSpeaking
     cm stt now timers nextId pendingLLM pendingTTS trace
     state mode conversationHistory exchangeCount mainWindow responseTimeoutHandle
     accumulatedTranscript isProcessingResponse recentActivities lastResponseTime
     isPlaybackActive hasTTS isRecording
     isInitialized isStreaming audioBuffer processingInterval lastTranscriptChunkTime
     pendingTranscript transcriptCheckInterval onTranscriptCallback onWakeWordCallback
     onUserSpeakingCallback lastTranscriptTime isUserSpeaking
     gen_id gen_shouldEnd tts_id tts_shouldEnd tts_text
     handle due callback
     enterConversationMode exitConversationMode setResponseTimeout clearResponseTimeout
     notifyStateChange clearTranscript setTimeout clearTimeout connected
     handleUserSpeaking handleWakeWord handlePartialTranscript onAudioChunk shouldForward
     stt_streamAudio startCalloutConversation setPlaybackActive stop stopStreaming
     disconnect finallyBlock afterSpeak speakResponse onSpeechSynthesized
     onResponseGenerated onResponseFailed onResponseTimeout onGraceTimeout fire
     connect startStreaming microphone_start
     state_eqb negb andb orb fst snd] in *.

Ltac break_match :=
  match goal with
  | |- context [match ?c with _ => _ end] =>
      lazymatch c with
      | context [match _ with _ => _ end] => fail
      | _ => destruct c eqn:?
      end
  end.

Ltac cases := wsimpl; repeat (break_match; wsimpl); try reflexivity; try discriminate.

(** Replaces a world by its fields, so that every projection computes. *)
Ltac open_world w :=
  let st := fresh "st" in let md := fresh "md" in let hist := fresh "hist" in
  let cnt := fresh "cnt" in let win := fresh "win" in let hdl := fresh "hdl" in
  let acc := fresh "acc" in let lock := fresh "lock" in let acts := fresh "acts" in
  let lrt := fresh "lrt" in let pb := fresh "pb" in let tts := fresh "tts" in
  let rec_ := fresh "rec" in
  let ini := fresh "ini" in let strm := fresh "strm" in let abuf := fresh "abuf" in
  let pint := fresh "pint" in let lchunk := fresh "lchunk" in let pend := fresh "pend" in
  let tint := fresh "tint" in let cbT := fresh "cbT" in let cbW := fresh "cbW" in
  let cbU := fresh "cbU" in let ltt := fresh "ltt" in let spk := fresh "spk" in
  let nw := fresh "nw" in let tms := fresh "tms" in let nid := fresh "nid" in
  let pl := fresh "pl" in let pt := fresh "pt" in let tr := fresh "tr" in
  destruct w as [[st md hist cnt win hdl acc lock acts lrt pb tts rec_]
                 [ini strm abuf pint lchunk pend tint cbT cbW cbU ltt spk]
                 nw tms nid pl pt tr].

(** As [wsimpl], but the handlers of the manager stay folded. *)
Ltac wsimpl0 :=
  cbv beta iota zeta delta
    [andThen skip assign assign_stt emit with_cm with_stt
     set_now set_timers set_nextId set_pendingLLM set_pendingTTS
     cm_set_state cm_set_mode cm_set_conversationHistory cm_set_exchangeCount
     cm_set_mainWindow cm_set_responseTimeoutHandle cm_set_accumulatedTranscript
     cm_set_isProcessingResponse cm_set_recentActivities cm_set_lastResponseTime
     cm_set_isPlaybackActive cm_set_isRecording
     stt_set_isInitialized stt_set_isStreaming stt_set_audioBuffer stt_set_intervals
     stt_set_lastTranscriptChunkTime stt_set_pendingTranscript stt_set_callbacks
     stt_set_lastTranscriptTime stt_set_isUserSpeaking
     cm stt now timers nextId pendingLLM pendingTTS trace
     state mode conversationHistory exchangeCount mainWindow responseTimeoutHandle
     accumulatedTranscript isProcessingResponse recentActivities lastResponseTime
     isPlaybackActive hasTTS isRecording
     isInitialized isStreaming audioBuffer processingInterval lastTranscriptChunkTime
     pendingTranscript transcriptCheckInterval onTranscriptCallback onWakeWordCallback
     onUserSpeakingCallback lastTranscriptTime isUserSpeaking
     gen_id gen_shouldEnd tts_id tts_shouldEnd tts_text
     handle due callback
     connected connect startStreaming microphone_start
     state_eqb negb andb orb fst snd] in *.
(* ===================================================================== *)
(** ** Proofs *)
(* ===================================================================== *)

Lemma state_eqb_eq (a b : ConversationState) : state_eqb a b = true <-> a = b.
Proof. destruct a, b; simpl; split; congruence. Qed.

Lemma state_eqb_neq (a b : ConversationState) : state_eqb a b = false <-> a <> b.
Proof. destruct a, b; simpl; split; congruence. Qed.

Lemma same_flight_refl (w : World) : same_flight w w.
Proof. repeat split. Qed.

Lemma same_flight_trans (w1 w2 w3 : World) :
  same_flight w1 w2 -> same_flight w2 w3 -> same_flight w1 w3.
Proof. unfold same_flight. intuition congruence. Qed.

Lemma lock_inv_same_flight (w w' : World) :
  same_flight w w' -> lock_inv w -> lock_inv w'.
Proof.
  unfold same_flight, lock_inv, in_flight. intros (E1 & E2 & E3) [H1 H2].
  rewrite E1, E2, E3. auto.
Qed.

Section Properties.

Variable config : StayHardConfig.

(** *** The guards of handleFinalTranscript *)

Lemma handleFinalTranscript_rejected (t : string) (w : World) :
  accepted t w = false -> handleFinalTranscript config t w = w.
Proof.
  unfold accepted, handleFinalTranscript. intros H.
  destruct (isNoise t); [reflexivity|].
  change (0 <? ECHO_COOLDOWN_MS) with false. cbv beta iota. simpl andb.
  destruct (isProcessingResponse (cm w)); [reflexivity|].
  destruct (state_eqb (state (cm w)) responding); [reflexivity|].
  discriminate.
Qed.

Lemma accepted_true (t : string) (w : World) :
  accepted t w = true ->
  isNoise t = false /\ isProcessingResponse (cm w) = false
  /\ state_eqb (state (cm w)) responding = false.
Proof.
  unfold accepted. intros H.
  apply andb_prop in H as [H H3]. apply andb_prop in H as [H1 H2].
  apply negb_true_iff in H1, H2, H3. auto.
Qed.

(** C8: a final transcript that is the no-speech marker, or whose trimmed
    length is below three characters, leaves the whole world as it was: no
    message is appended, no state changes, no generation is started. *)
Theorem C8_noise_transcript_is_noop (t : string) (w : World)
  (H : t = BLANK_AUDIO \/ len (trim t) < MIN_TRANSCRIPT_CHARS) :
  handleFinalTranscript config t w = w
  /\ conversationHistory (cm (handleFinalTranscript config t w)) = conversationHistory (cm w)
  /\ state (cm (handleFinalTranscript config t w)) = state (cm w)
  /\ generation_calls (trace (handleFinalTranscript config t w)) = generation_calls (trace w)
  /\ in_flight (handleFinalTranscript config t w) = in_flight w.
Proof.
  assert (E : handleFinalTranscript config t w = w).
  { apply handleFinalTranscript_rejected. unfold accepted, isNoise.
    destruct H as [-> | H].
    - reflexivity.
    - apply Z.ltb_lt in H. rewrite H, orb_true_r. reflexivity. }
  rewrite E. repeat split.
Qed.

(** *** What an accepted transcript does *)

Lemma handleFinalTranscript_accepted (t : string) (w : World) :
  accepted t w = true ->
  handleFinalTranscript config t w = fst (generateAndSpeakResponse config (turn_opened config t w)).
Proof.
  intros H. apply accepted_true in H as (H1 & H2 & H3).
  unfold handleFinalTranscript, turn_opened. rewrite H1, H2, H3.
  change (0 <? ECHO_COOLDOWN_MS) with false. cbv beta iota. simpl andb. cbv iota.
  destruct (generateAndSpeakResponse config _) as [w5 b] eqn:E.
  destruct b; [reflexivity|].
  exfalso. revert E. unfold generateAndSpeakResponse.
  open_world w. simpl in H2. subst. destruct st, hdl, win; wsimpl; discriminate.
Qed.

Lemma turn_opened_lock (t : string) (w : World) :
  same_flight w (turn_opened config t w).
Proof.
  unfold turn_opened, same_flight. open_world w.
  destruct st, hdl, win; wsimpl; auto.
Qed.

Lemma generate_unlocked (w : World) :
  isProcessingResponse (cm w) = false ->
  let w' := fst (generateAndSpeakResponse config w) in
  let count := exchangeCount (cm w) + 1 in
  let shouldEnd := count >=? conversationAutoEndExchanges config in
  isProcessingResponse (cm w') = true
  /\ state (cm w') = responding
  /\ audioBuffer (stt w') = []
  /\ exchangeCount (cm w') = count
  /\ conversationHistory (cm w') = conversationHistory (cm w)
  /\ pendingLLM w' = pendingLLM w ++ [{| gen_id := nextId w; gen_shouldEnd := shouldEnd |}]
  /\ pendingTTS w' = pendingTTS w
  /\ timers w' = timers w
  /\ responseTimeoutHandle (cm w') = responseTimeoutHandle (cm w)
  /\ trace w' = trace w
                ++ (if mainWindow (cm w)
                    then [SendStateChanged responding (mode (cm w)) (exchangeCount (cm w))
                                           (isInitialized (stt w))]
                    else [])
                ++ [CallLLM (nextId w) (conversationHistory (cm w)) shouldEnd].
Proof.
  unfold generateAndSpeakResponse. open_world w. simpl. intros ->.
  destruct win; wsimpl; repeat split.
  rewrite <- app_assoc. reflexivity.
Qed.

Lemma generation_calls_app (a b : list Effect) :
  generation_calls (a ++ b) = (generation_calls a + generation_calls b)%nat.
Proof. unfold generation_calls. rewrite filter_app, length_app. reflexivity. Qed.

Lemma generation_calls_cons (e : Effect) (l : list Effect) :
  generation_calls (e :: l)
  = ((if is_generation_call e then 1 else 0) + generation_calls l)%nat.
Proof. unfold generation_calls. simpl. destruct (is_generation_call e); reflexivity. Qed.

Lemma generation_calls_nil : generation_calls [] = 0%nat.
Proof. reflexivity. Qed.

Ltac count_calls :=
  rewrite ?generation_calls_app, ?generation_calls_cons, ?generation_calls_nil;
  cbv [is_generation_call]; try lia.

Lemma should_end_flags_app (a b : list Effect) :
  should_end_flags (a ++ b) = should_end_flags a ++ should_end_flags b.
Proof. unfold should_end_flags. apply flat_map_app. Qed.

(** C3: while playback is active, or the state is 'responding', or the
    processing lock is held, a chunk delivered by the microphone is not
    handed to the transcriber (the world, its trace and the audio buffer
    stay as they were); and when a response turn begins the audio buffer
    of the transcriber is emptied, whatever it held. *)
Theorem C3_echo_gate (w : World) (b : Buffer) (t : string) :
  (isPlaybackActive (cm w) = true \/ state (cm w) = responding
   \/ isProcessingResponse (cm w) = true ->
   step config (AudioChunk b) w = w
   /\ filter is_forward (trace (step config (AudioChunk b) w)) = filter is_forward (trace w)
   /\ audioBuffer (stt (step config (AudioChunk b) w)) = audioBuffer (stt w))
  /\ (accepted t w = true ->
      state (cm (handleFinalTranscript config t w)) = responding
      /\ audioBuffer (stt (handleFinalTranscript config t w)) = []).
Proof.
  split.
  - intros H.
    assert (E : step config (AudioChunk b) w = w).
    { simpl. unfold onAudioChunk, shouldForward.
      destruct H as [H | [H | H]]; rewrite H; simpl;
        rewrite ?andb_false_r; reflexivity. }
    rewrite E. auto.
  - intros H. rewrite (handleFinalTranscript_accepted _ _ H).
    apply accepted_true in H as (_ & H2 & _).
    destruct (turn_opened_lock t w) as (L & _).
    rewrite <- L in H2.
    destruct (generate_unlocked _ H2) as (_ & S1 & S2 & _). auto.
Qed.

(** *** Interruption *)

(** C7 (as amended): when voice activity is reported while the state is
    'responding', the state becomes 'conversation', the exchange count is
    unchanged, and the presentation layer is sent "audio:stop-immediately"
    followed by the state change when a live main window exists (nothing is
    sent otherwise).  The lock, the history and the generation under way
    are left as they were: after the interruption a final transcript is
    accepted as the user's turn exactly when it is not noise and the lock is
    free, and it is still dropped while the lock is held. *)
Theorem C7_interruption (w : World) (H : state (cm w) = responding) :
  let w' := handleUserSpeaking true w in
  state (cm w') = conversation
  /\ exchangeCount (cm w') = exchangeCount (cm w)
  /\ trace w' = trace w
                ++ (if mainWindow (cm w)
                    then [SendAudioStopImmediately;
                          SendStateChanged conversation (mode (cm w)) (exchangeCount (cm w))
                                           (isInitialized (stt w))]
                    else [])
  /\ isProcessingResponse (cm w') = isProcessingResponse (cm w)
  /\ conversationHistory (cm w') = conversationHistory (cm w)
  /\ in_flight w' = in_flight w
  /\ (forall t, accepted t w' = negb (isNoise t) && negb (isProcessingResponse (cm w)))
  /\ (isProcessingResponse (cm w) = true ->
      forall t, handleFinalTranscript config t w' = w').
Proof.
  cbv zeta.
  assert (Hlock : isProcessingResponse (cm (handleUserSpeaking true w))
                  = isProcessingResponse (cm w)).
  { open_world w. simpl in H. subst. destruct win; wsimpl; reflexivity. }
  assert (Hstate : state (cm (handleUserSpeaking true w)) = conversation).
  { open_world w. simpl in H. subst. destruct win; wsimpl; reflexivity. }
  assert (Hacc : forall t, accepted t (handleUserSpeaking true w)
                           = negb (isNoise t) && negb (isProcessingResponse (cm w))).
  { intros t. unfold accepted. rewrite Hlock, Hstate. simpl. apply andb_true_r. }
  split; [exact Hstate|split; [|split; [|split; [exact Hlock|split; [|split; [|split]]]]]].
  - open_world w. simpl in H. subst. destruct win; wsimpl; reflexivity.
  - open_world w. simpl in H. subst. destruct win; wsimpl.
    + rewrite <- app_assoc. reflexivity.
    + rewrite app_nil_r. reflexivity.
  - open_world w. simpl in H. subst. destruct win; wsimpl; reflexivity.
  - unfold in_flight. open_world w. simpl in H. subst. destruct win; wsimpl; reflexivity.
  - exact Hacc.
  - intros Hl t. apply handleFinalTranscript_rejected.
    rewrite Hacc, Hl. apply andb_false_r.
Qed.

(** *** start() *)

Lemma start_returned (e : StartEnv) (w w' : World) :
  voiceListeningEnabled config = true ->
  start config e w = (w', Returned) ->
  exists w3,
    w' = enterConversationMode config callout_auto_listen (setTimeout MicStatusCheck 1000 w3)
    /\ now w3 = now w /\ isInitialized (stt w3) = true.
Proof.
  intros Hen. unfold start. rewrite Hen. simpl negb. cbv iota.
  destruct (micPermissionGranted e); simpl negb; cbv iota; [|discriminate].
  open_world w.
  destruct ini, strm, rec, (whisperLoads e), (microphoneStarts e); wsimpl0;
    intros E; inversion E; subst; clear E;
    (eexists; split; [reflexivity |]); split; reflexivity.
Qed.

(** C10 (as amended).  The manager is constructed only when voice listening
    is enabled in the configuration (ProductivityMonitor.ts, lines 63-65).
    When [start()] returns without throwing, the orchestrator is in
    'conversation' with mode 'callout_auto_listen', the exchange count is 0,
    the accumulated transcript and the audio buffer are empty, and the
    response timer is armed for the configured timeout: listening begins at
    once, with no wake word and no callout.  The pending transcript of the
    transcriber is emptied when the transcriber was not streaming at the
    call ([startStreaming()] empties it); when it was streaming,
    [startStreaming()] returns at once, [clearTranscript()] empties the
    audio buffer only, and the pending transcript is kept. *)
Theorem C10_start_listens_at_once (e : StartEnv) (w w' : World)
  (Hen : voiceListeningEnabled config = true)
  (Hok : start config e w = (w', Returned)) :
  state (cm w') = conversation
  /\ mode (cm w') = Some callout_auto_listen
  /\ exchangeCount (cm w') = 0
  /\ accumulatedTranscript (cm w') = ""
  /\ audioBuffer (stt w') = []
  /\ pendingTranscript (stt w')
     = (if isStreaming (stt w) then pendingTranscript (stt w) else "")
  /\ exists h,
       responseTimeoutHandle (cm w') = Some h
       /\ In {| handle := h;
                due := now w + timeout_delay (conversationResponseTimeout config);
                callback := ResponseTimeout |} (timers w').
Proof.
  revert Hok. unfold start. rewrite Hen. simpl negb. cbv iota.
  destruct (micPermissionGranted e); simpl negb; cbv iota; [|discriminate].
  open_world w.
  destruct ini, strm, rec, (whisperLoads e), (microphoneStarts e); wsimpl0;
    intros E; inversion E; subst; clear E;
    destruct hdl, win; wsimpl; repeat split;
    (eexists; split; [reflexivity | apply in_or_app; right; left; reflexivity]).
Qed.

(** [start()] does return when the environment is sound. *)
Lemma start_succeeds (e : StartEnv) (w : World) :
  voiceListeningEnabled config = true ->
  micPermissionGranted e = true -> whisperLoads e = true -> microphoneStarts e = true ->
  snd (start config e w) = Returned.
Proof.
  intros Hen H1 H2 H3. unfold start, connect, startStreaming, microphone_start.
  rewrite Hen, H1, H2, H3. open_world w.
  destruct ini, strm, rec; reflexivity.
Qed.

(** *** Provider failures *)

Lemma filter_is_speak_app (a b : list Effect) :
  filter is_speak (a ++ b) = filter is_speak a ++ filter is_speak b.
Proof. apply filter_app. Qed.

(** C5 (as amended).  If the call of the language model rejects, the
    orchestrator is back in 'monitoring' with the lock released and the
    history cleared, and no further call of the model is made.  If the
    synthesiser returns null or throws, the turn runs to its end exactly as
    after a successful synthesis (same state, lock released, same timers),
    except that no "conversation:speak" event is sent and lastResponseTime
    keeps its value: the reply is only in the conversation history, which
    the turn keeps when it is not the last one. *)
Theorem C5_provider_failure (w : World) :
  (forall id p,
     take_generation id (pendingLLM w) = Some p ->
     let w' := step config (ResponseFailed id) w in
     state (cm w') = monitoring
     /\ isProcessingResponse (cm w') = false
     /\ conversationHistory (cm w') = []
     /\ generation_calls (trace w') = generation_calls (trace w)
     /\ (List.length (pendingLLM w') < List.length (pendingLLM w))%nat
     /\ pendingTTS w' = pendingTTS w)
  /\ (forall id p r a,
        take_speech id (pendingTTS w) = Some p ->
        r = AudioNull \/ r = SynthesisThrows ->
        let w' := step config (SpeechSynthesized id r) w in
        let ok := step config (SpeechSynthesized id (AudioReady a)) w in
        isProcessingResponse (cm w') = false
        /\ generation_calls (trace w') = generation_calls (trace w)
        /\ filter is_speak (trace w') = filter is_speak (trace w)
        /\ cm w' = cm_set_lastResponseTime (lastResponseTime (cm w)) (cm ok)
        /\ timers w' = timers ok
        /\ pendingLLM w' = pendingLLM ok /\ pendingTTS w' = pendingTTS ok
        /\ (tts_shouldEnd p = false ->
            state (cm w') = conversation
            /\ conversationHistory (cm w') = conversationHistory (cm w)
            /\ response_timer_pending w' = true)
        /\ (tts_shouldEnd p = true -> state (cm w') = monitoring)).
Proof.
  split.
  - intros id p Hp. unfold step. rewrite Hp.
    assert (Hlen : (List.length (filter (fun q => negb (gen_id q =? id)%nat) (pendingLLM w))
                    < List.length (pendingLLM w))%nat).
    { unfold take_generation in Hp. clear - Hp.
      induction (pendingLLM w) as [|q l IH]; simpl in *; [discriminate|].
      destruct (gen_id q =? id)%nat eqn:E; simpl.
      - pose proof (filter_length_le (fun q => negb (gen_id q =? id)%nat) l). lia.
      - specialize (IH Hp). lia. }
    revert Hlen. unfold onResponseFailed. open_world w. clear Hp. intros Hlen.
    destruct hdl, win; wsimpl; repeat split; auto; count_calls.
  - intros id p r a Hp Hr. unfold step. rewrite Hp. clear Hp.
    unfold response_timer_pending. destruct p as [pid pend ptext].
    open_world w.
    destruct Hr as [-> | ->]; destruct pend, hdl, win, st, lock; wsimpl;
      repeat split; try discriminate; auto; try count_calls;
      rewrite ?filter_is_speak_app, ?existsb_app; simpl;
      rewrite ?app_nil_r, ?orb_true_r; auto.
Qed.

(** *** At most one generation under way *)

Lemma neutral_andThen (a b : Action) : neutral a -> neutral b -> neutral (a ;; b).
Proof. intros Ha Hb w. eapply same_flight_trans; [apply Ha | apply Hb]. Qed.

Lemma neutral_preserves (a : Action) : neutral a -> preserves lock_inv a.
Proof. intros Ha w. apply lock_inv_same_flight, Ha. Qed.

Lemma preserves_andThen (P : World -> Prop) (a b : Action) :
  preserves P a -> preserves P b -> preserves P (a ;; b).
Proof. intros Ha Hb w H. apply Hb, Ha, H. Qed.

Lemma neutral_assign_stt {A} (set : A -> WhisperCppClient -> WhisperCppClient) (v : A) :
  neutral (assign_stt set v).
Proof. intros w. repeat split. Qed.

Lemma neutral_with_stt (f : WhisperCppClient -> WhisperCppClient) : neutral (with_stt f).
Proof. intros w. repeat split. Qed.

Lemma neutral_emit (e : Effect) : neutral (emit e).
Proof. intros w. repeat split. Qed.

Lemma neutral_enterConversationMode (m : ConversationMode) :
  neutral (enterConversationMode config m).
Proof. intros w. open_world w. destruct hdl, win; wsimpl; repeat split. Qed.

Lemma neutral_handleUserSpeaking (b : bool) : neutral (handleUserSpeaking b).
Proof. intros w. open_world w. destruct b, st, win; wsimpl; repeat split. Qed.

Lemma neutral_handleWakeWord : neutral (handleWakeWord config).
Proof. intros w. open_world w. destruct st, hdl, win; wsimpl; repeat split. Qed.

Lemma neutral_handlePartialTranscript (t : string) : neutral (handlePartialTranscript t).
Proof. intros w. open_world w. destruct st, win; wsimpl; repeat split. Qed.

Lemma neutral_startCalloutConversation (acts : list QwenActivitySummary) :
  neutral (startCalloutConversation config acts).
Proof. intros w. open_world w. destruct hdl, win; wsimpl; repeat split. Qed.

Lemma neutral_onAudioChunk (b : Buffer) : neutral (onAudioChunk b).
Proof.
  intros w. unfold onAudioChunk. destruct (shouldForward w); [|apply same_flight_refl].
  open_world w. destruct strm; wsimpl; repeat split.
Qed.

Lemma neutral_stop : neutral stop.
Proof. intros w. open_world w. destruct strm, hdl; wsimpl; repeat split. Qed.

Lemma neutral_start (e : StartEnv) : neutral (fun w => fst (start config e w)).
Proof.
  intros w. unfold start.
  destruct (voiceListeningEnabled config); [|apply same_flight_refl].
  destruct (micPermissionGranted e); [|apply same_flight_refl].
  open_world w.
  destruct ini, strm, rec, (whisperLoads e), (microphoneStarts e), hdl, win;
    wsimpl0; unfold enterConversationMode, setTimeout; wsimpl; repeat split.
Qed.

Lemma neutral_invoke_onUserSpeaking (b : bool) : neutral (invoke_onUserSpeaking b).
Proof.
  intros w. unfold invoke_onUserSpeaking.
  destruct (onUserSpeakingCallback (stt w)); [|apply same_flight_refl].
  apply (neutral_andThen _ _ (neutral_emit _) (neutral_handleUserSpeaking b)).
Qed.

Lemma neutral_invoke_onWakeWord : neutral (invoke_onWakeWord config).
Proof.
  intros w. unfold invoke_onWakeWord.
  destruct (onWakeWordCallback (stt w)); [|apply same_flight_refl].
  apply (neutral_andThen _ _ (neutral_emit _) neutral_handleWakeWord).
Qed.

Lemma in_flight_zero (w : World) :
  in_flight w = 0%nat -> pendingLLM w = [] /\ pendingTTS w = [].
Proof.
  unfold in_flight. destruct (pendingLLM w), (pendingTTS w); simpl; intros; try lia; auto.
Qed.

Lemma lock_inv_handleFinalTranscript (t : string) :
  preserves lock_inv (handleFinalTranscript config t).
Proof.
  intros w [H1 H2]. destruct (accepted t w) eqn:Ha.
  - rewrite (handleFinalTranscript_accepted _ _ Ha).
    apply accepted_true in Ha as (_ & Hl & _).
    destruct (in_flight_zero _ (H2 Hl)) as [El Et].
    destruct (turn_opened_lock t w) as (L1 & L2 & L3).
    rewrite <- L1 in Hl.
    destruct (generate_unlocked _ Hl) as (G1 & _ & _ & _ & _ & G2 & G3 & _).
    unfold lock_inv, in_flight. rewrite G1, G2, G3, L2, L3, El, Et. simpl.
    split; [lia | discriminate].
  - rewrite (handleFinalTranscript_rejected _ _ Ha). split; assumption.
Qed.

Lemma lock_inv_invoke_onTranscript (final : bool) (t : string) :
  preserves lock_inv (invoke_onTranscript config final t).
Proof.
  intros w H. unfold invoke_onTranscript. cbv beta zeta delta [andThen].
  destruct final.
  - apply lock_inv_handleFinalTranscript, (neutral_preserves _ (neutral_emit _)), H.
  - apply (neutral_preserves _ (neutral_handlePartialTranscript t)),
          (neutral_preserves _ (neutral_emit _)), H.
Qed.

Lemma lock_inv_sendPendingTranscript : preserves lock_inv (sendPendingTranscript config).
Proof.
  intros w H. unfold sendPendingTranscript.
  destruct (negb _ || negb _); [exact H|].
  cbv beta zeta delta [andThen].
  apply (neutral_preserves _ (neutral_invoke_onUserSpeaking false)).
  apply (neutral_preserves _ (neutral_assign_stt _ _)).
  apply (neutral_preserves _ (neutral_assign_stt _ _)).
  apply lock_inv_invoke_onTranscript, H.
Qed.

Lemma lock_inv_checkTranscriptTimeout : preserves lock_inv (checkTranscriptTimeout config).
Proof.
  intros w H. unfold checkTranscriptTimeout.
  destruct (negb _ || _); [exact H|].
  destruct (_ >=? _); [apply lock_inv_sendPendingTranscript|]; exact H.
Qed.

Lemma lock_inv_checkWakeWord (t : string) : preserves lock_inv (checkWakeWord config t).
Proof.
  intros w H. unfold checkWakeWord.
  destruct (wakeWordDetected config t); [|exact H].
  cbv beta zeta delta [andThen].
  apply (neutral_preserves _ neutral_invoke_onWakeWord).
  destruct (truthy _ && _); [apply lock_inv_sendPendingTranscript|]; exact H.
Qed.

Lemma lock_inv_onTranscribed (raw : option string) : preserves lock_inv (onTranscribed config raw).
Proof.
  intros w H. unfold onTranscribed. cbv zeta.
  destruct (truthy (recognisedText raw)); [|exact H].
  cbv beta zeta delta [andThen].
  apply lock_inv_checkWakeWord.
  apply (neutral_preserves _ (neutral_assign_stt _ _)).
  apply (neutral_preserves _ (neutral_invoke_onUserSpeaking true)).
  apply (neutral_preserves _ (neutral_assign_stt _ _)).
  apply (neutral_preserves _ (neutral_assign_stt _ _)).
  apply (neutral_preserves _ (neutral_assign_stt _ _)).
  exact H.
Qed.

(** A transcript event handed to the callback while the lock invariant
    holds may start a generation only when none is under way. *)
Lemma found_generation (id : nat) (p : PendingGeneration) (w : World) :
  lock_inv w -> take_generation id (pendingLLM w) = Some p ->
  pendingLLM w = [p] /\ pendingTTS w = [] /\ isProcessingResponse (cm w) = true
  /\ filter (fun q => negb (gen_id q =? id)%nat) (pendingLLM w) = [].
Proof.
  unfold lock_inv, in_flight, take_generation. intros [H1 H2] Hf.
  destruct (pendingLLM w) as [|q [|q' l]]; simpl in *; try discriminate; try lia.
  destruct (gen_id q =? id)%nat eqn:E; [|discriminate]. inversion Hf; subst.
  destruct (pendingTTS w); simpl in *; try lia.
  repeat split. destruct (isProcessingResponse (cm w)); auto.
  specialize (H2 eq_refl). lia.
Qed.

Lemma found_speech (id : nat) (p : PendingSpeech) (w : World) :
  lock_inv w -> take_speech id (pendingTTS w) = Some p ->
  pendingTTS w = [p] /\ pendingLLM w = [] /\ isProcessingResponse (cm w) = true
  /\ filter (fun q => negb (tts_id q =? id)%nat) (pendingTTS w) = [].
Proof.
  unfold lock_inv, in_flight, take_speech. intros [H1 H2] Hf.
  destruct (pendingTTS w) as [|q [|q' l]]; simpl in *; try discriminate; try lia.
  destruct (tts_id q =? id)%nat eqn:E; [|discriminate]. inversion Hf; subst.
  destruct (pendingLLM w); simpl in *; try lia.
  repeat split. destruct (isProcessingResponse (cm w)); auto.
  specialize (H2 eq_refl). lia.
Qed.

Lemma lock_inv_step (e : Event) (w : World) :
  is_elapse e = false -> lock_inv w -> lock_inv (step config e w).
Proof.
  intros He H. destruct e; try discriminate; unfold step.
  - apply neutral_preserves, H. apply neutral_onAudioChunk.
  - apply lock_inv_checkTranscriptTimeout, H.
  - apply lock_inv_onTranscribed, H.
  - apply (lock_inv_same_flight w); [repeat split | exact H].
  - apply (lock_inv_same_flight w); [repeat split | exact H].
  - apply neutral_preserves, H. apply neutral_startCalloutConversation.
  - apply (lock_inv_same_flight w); [repeat split | exact H].
  - apply (lock_inv_same_flight w); [repeat split | exact H].
  - destruct (take_generation id (pendingLLM w)) as [p|] eqn:Hf; [|exact H].
    destruct (found_generation _ _ _ H Hf) as (E1 & E2 & E3 & E4).
    rewrite E4. clear Hf E4 H. destruct p as [pid pend].
    unfold lock_inv, in_flight. open_world w. simpl in E1, E2, E3. subst.
    destruct pend, tts, win, hdl, st; wsimpl; split; auto; try lia; discriminate.
  - destruct (take_generation id (pendingLLM w)) as [p|] eqn:Hf; [|exact H].
    destruct (found_generation _ _ _ H Hf) as (E1 & E2 & E3 & E4).
    rewrite E4. clear Hf E4 H.
    unfold lock_inv, in_flight. open_world w. simpl in E1, E2, E3. subst.
    destruct win, hdl; wsimpl; split; auto.
  - destruct (take_speech id (pendingTTS w)) as [p|] eqn:Hf; [|exact H].
    destruct (found_speech _ _ _ H Hf) as (E1 & E2 & E3 & E4).
    rewrite E4. clear Hf E4 H. destruct p as [pid pend ptext].
    unfold lock_inv, in_flight. open_world w. simpl in E1, E2, E3. subst.
    destruct r, pend, win, hdl, st; wsimpl; split; auto.
  - apply (neutral_preserves _ (neutral_start e)), H.
  - apply neutral_preserves, H. apply neutral_stop.
Qed.

Lemma lock_inv_run (es : list Event) (w : World) :
  forallb (fun e => negb (is_elapse e)) es = true ->
  lock_inv w -> lock_inv (run config es w).
Proof.
  revert w. induction es as [|e es IH]; intros w Hes H; [exact H|].
  simpl in Hes. apply andb_prop in Hes as [He Hes]. apply negb_true_iff in He.
  simpl. apply IH; [exact Hes|]. apply lock_inv_step; assumption.
Qed.

Lemma dropped_sequence (texts : list string) (w : World) :
  isProcessingResponse (cm w) = true \/ state (cm w) = responding ->
  fold_left (fun w t => handleFinalTranscript config t w) texts w = w.
Proof.
  intros H. induction texts as [|t texts IH]; [reflexivity|].
  simpl. rewrite handleFinalTranscript_rejected; [exact IH|].
  unfold accepted. destruct H as [H | H]; rewrite H; simpl;
    rewrite ?andb_false_r; reflexivity.
Qed.


(** *** Exchange counting and the automatic end *)

Lemma held_timer_cancelled (h : option nat) (l : list Timer) :
  (forall tm, In tm l -> callback tm = ResponseTimeout -> h = Some (handle tm)) ->
  existsb is_response_timer
    (match h with
     | Some n => filter (fun tm => negb (handle tm =? n)%nat) l
     | None => l
     end) = false.
Proof.
  intros H. destruct (existsb _ _) eqn:E; [|reflexivity].
  apply existsb_exists in E as (tm & Hin & Hr). exfalso.
  unfold is_response_timer in Hr.
  destruct (callback tm) eqn:Ec; try discriminate.
  destruct h as [n|].
  - apply filter_In in Hin as [Hin Hn].
    specialize (H tm Hin Ec). inversion H; subst.
    rewrite Nat.eqb_refl in Hn. discriminate.
  - specialize (H tm Hin Ec). discriminate.
Qed.

Lemma response_timer_pending_eq (w : World) :
  response_timer_pending w = existsb is_response_timer (timers w).
Proof. reflexivity. Qed.

Lemma step_generated_found (p : PendingGeneration) (t : string) (ts : Z) (w : World) :
  pendingLLM w = [p] ->
  step config (ResponseGenerated (gen_id p) t ts) w
  = onResponseGenerated config p t ts (set_pendingLLM [] w).
Proof.
  intros E. unfold step, take_generation. rewrite E. simpl.
  rewrite Nat.eqb_refl. reflexivity.
Qed.

Lemma step_synthesized_found (q : PendingSpeech) (r : TtsOutcome) (w : World) :
  pendingTTS w = [q] ->
  step config (SpeechSynthesized (tts_id q) r) w
  = onSpeechSynthesized config q r (set_pendingTTS [] w).
Proof.
  intros E. unfold step, take_speech. rewrite E. simpl.
  rewrite Nat.eqb_refl. reflexivity.
Qed.

Lemma no_response_timer (l : list Timer) :
  existsb is_response_timer l = false ->
  forall tm, In tm l -> callback tm = ResponseTimeout -> False.
Proof.
  intros H tm Hin Hc.
  assert (E : existsb is_response_timer l = true).
  { apply existsb_exists. exists tm. split; [exact Hin|].
    unfold is_response_timer. rewrite Hc. reflexivity. }
  congruence.
Qed.

Lemma should_end_flags_one (e : Effect) :
  should_end_flags [e] = match e with CallLLM _ _ b => [b] | _ => [] end.
Proof. unfold should_end_flags. simpl. apply app_nil_r. Qed.

Ltac flags :=
  rewrite ?should_end_flags_app, ?should_end_flags_one, ?app_nil_r; reflexivity.

Lemma turn_starts (n : Z) (t : string) (w : World) :
  conversation_open n w -> isNoise t = false ->
  let e := n + 1 >=? conversationAutoEndExchanges config in
  generating (n + 1) e (should_end_flags (trace w) ++ [e])
             (handleFinalTranscript config t w).
Proof.
  intros ((Hl & Hpl & Hpt) & Hst & Hn & Hheld) Hnoise. cbv zeta.
  assert (Ha : accepted t w = true).
  { unfold accepted. rewrite Hnoise, Hl, Hst. reflexivity. }
  rewrite (handleFinalTranscript_accepted _ _ Ha).
  pose proof (held_timer_cancelled _ _ Hheld) as Hc.
  unfold generating. rewrite response_timer_pending_eq.
  unfold generateAndSpeakResponse, turn_opened.
  clear Ha Hnoise Hheld.
  open_world w. simpl in Hl, Hpl, Hpt, Hst, Hn, Hc. subst.
  destruct hdl, win; wsimpl; repeat split; eauto; try flags;
    eexists; reflexivity.
Qed.

Lemma held_after_arming (l : list Timer) (h : nat) (d : Z) :
  existsb is_response_timer l = false ->
  forall tm, In tm (l ++ [{| handle := h; due := d; callback := ResponseTimeout |}]) ->
             callback tm = ResponseTimeout -> Some h = Some (handle tm).
Proof.
  intros H tm Hin Hc. apply in_app_or in Hin as [Hin | [<- | []]].
  - exfalso. exact (no_response_timer _ H _ Hin Hc).
  - reflexivity.
Qed.

Lemma turn_ends (n : Z) (e : bool) (f : list bool) (w : World) :
  isProcessingResponse (cm w) = true -> exchangeCount (cm w) = n ->
  pendingLLM w = [] -> pendingTTS w = [] ->
  responseTimeoutHandle (cm w) = None -> response_timer_pending w = false ->
  should_end_flags (trace w) = f ->
  turn_over n e f (afterSpeak config e w).
Proof.
  rewrite response_timer_pending_eq. unfold turn_over, idle, response_timer_held.
  rewrite response_timer_pending_eq.
  open_world w. simpl. intros -> -> -> -> -> Hc <-.
  destruct e, win, st; wsimpl; repeat split; try discriminate; auto;
    try flags;
    try (intros tm Hin Hcb; exfalso; exact (no_response_timer _ Hc _ Hin Hcb));
    try (apply held_after_arming; exact Hc);
    try (rewrite existsb_app; simpl; apply orb_true_r).
Qed.

Lemma model_answers (n : Z) (e : bool) (f : list bool) (t : string) (ts : Z) (w : World) :
  generating n e f w ->
  exists p, pendingLLM w = [p] /\
    let w2 := step config (ResponseGenerated (gen_id p) t ts) w in
    (speaking n e f w2 \/ (pendingTTS w2 = [] /\ turn_over n e f w2)).
Proof.
  intros (Hl & Hn & (id & Hp) & Hpt & Hh & Hr & Hf).
  exists {| gen_id := id; gen_shouldEnd := e |}. split; [exact Hp|]. cbv zeta.
  rewrite (step_generated_found _ _ _ _ Hp).
  unfold onResponseGenerated, speakResponse. cbv beta delta [andThen].
  match goal with
  | |- context [if ?c then _ else _] => destruct c eqn:Ec
  end.
  - right. split.
    + clear - Hpt. revert Hpt. open_world w. simpl. intros ->.
      destruct e, win, st, hdl; reflexivity.
    + apply turn_ends; auto.
  - left. revert Hl Hn Hpt Hh Hr Hf. unfold speaking.
    rewrite !response_timer_pending_eq. clear.
    open_world w. simpl. intros -> -> -> -> -> <-.
    wsimpl. repeat split; eauto; try flags. do 2 eexists. reflexivity.
Qed.

Lemma synthesiser_answers (n : Z) (e : bool) (f : list bool) (r : TtsOutcome) (w : World) :
  speaking n e f w ->
  exists q, pendingTTS w = [q] /\
    turn_over n e f (step config (SpeechSynthesized (tts_id q) r) w).
Proof.
  intros (Hl & Hn & Hpl & (id & t & Hq) & Hh & Hr & Hf).
  exists {| tts_id := id; tts_shouldEnd := e; tts_text := t |}. split; [exact Hq|].
  rewrite (step_synthesized_found _ _ _ Hq).
  unfold onSpeechSynthesized. cbv beta delta [andThen].
  apply turn_ends; auto;
    clear - Hl Hn Hpl Hh Hr Hf; revert Hl Hn Hpl Hh Hr Hf;
    rewrite ?response_timer_pending_eq; open_world w; simpl;
    intros -> -> -> -> Hr <-; destruct r, win; wsimpl; auto; flags.
Qed.

Lemma response_cycle_spec (n : Z) (x : Exchange) (w : World) :
  conversation_open n w -> isNoise (said x) = false ->
  let e := n + 1 >=? conversationAutoEndExchanges config in
  map gen_shouldEnd (pendingLLM (handleFinalTranscript config (said x) w)) = [e]
  /\ turn_over (n + 1) e (should_end_flags (trace w) ++ [e]) (response_cycle config x w).
Proof.
  intros Hopen Hnoise. cbv zeta.
  pose proof (turn_starts n (said x) w Hopen Hnoise) as Hg. cbv zeta in Hg.
  split.
  - destruct Hg as (_ & _ & (id & ->) & _). reflexivity.
  - unfold response_cycle.
    destruct (model_answers _ _ _ (reply x) (reply_time x) _ Hg) as (p & -> & Hs).
    cbv zeta in Hs. destruct Hs as [Hs | [-> Hs]]; [|exact Hs].
    destruct (synthesiser_answers _ _ _ (synthesis x) _ Hs) as (q & -> & Ht).
    exact Ht.
Qed.

Lemma turn_over_open (n : Z) (f : list bool) (w : World) :
  turn_over n false f w -> conversation_open n w.
Proof.
  intros (Hi & Hh & _ & Hf & _). destruct (Hf eq_refl) as (Hs & Hc & _).
  repeat split; auto; apply Hi.
Qed.

Lemma cycles_keep_open (xs : list Exchange) (n : Z) (w : World) :
  conversation_open n w ->
  Forall (fun x => isNoise (said x) = false) xs ->
  n + Z.of_nat (List.length xs) < conversationAutoEndExchanges config ->
  let w' := fold_left (fun w x => response_cycle config x w) xs w in
  conversation_open (n + Z.of_nat (List.length xs)) w'
  /\ should_end_flags (trace w')
     = should_end_flags (trace w) ++ repeat false (List.length xs).
Proof.
  revert n w. induction xs as [|x xs IH]; intros n w Hopen Hxs Hlt; cbv zeta.
  - simpl. rewrite Z.add_0_r, app_nil_r. auto.
  - inversion Hxs as [|? ? Hx Hxs']; subst.
    rewrite length_cons, Nat2Z.inj_succ in *.
    destruct (response_cycle_spec n x w Hopen Hx) as (_ & Ht).
    cbv zeta in Ht.
    assert (E : (n + 1 >=? conversationAutoEndExchanges config) = false).
    { rewrite Z.geb_leb. apply Z.leb_gt. lia. }
    rewrite E in Ht.
    pose proof (turn_over_open _ _ _ Ht) as Hopen'.
    destruct Ht as (_ & _ & Hflags & _).
    specialize (IH (n + 1) (response_cycle config x w) Hopen' Hxs').
    cbv zeta in IH. destruct IH as (IH1 & IH2); [lia|].
    simpl fold_left. split.
    + replace (n + Z.succ (Z.of_nat (List.length xs)))
        with (n + 1 + Z.of_nat (List.length xs)) by lia. exact IH1.
    + rewrite IH2, Hflags, <- app_assoc. reflexivity.
Qed.

(** The automatic end of a conversation that is open with no exchange
    counted. *)
Lemma automatic_end (w0 : World) (before : list Exchange) (x : Exchange)
  (Hopen : conversation_open 0 w0)
  (Hbefore : Forall (fun x => isNoise (said x) = false) before)
  (Hx : isNoise (said x) = false)
  (Hlimit : Z.of_nat (List.length before) + 1 = conversationAutoEndExchanges config) :
  let w := fold_left (fun w x => response_cycle config x w) before w0 in
  let w' := response_cycle config x w in
  (state (cm w) = conversation
   /\ exchangeCount (cm w) = conversationAutoEndExchanges config - 1
   /\ should_end_flags (trace w)
      = should_end_flags (trace w0) ++ repeat false (List.length before))
  /\ map gen_shouldEnd (pendingLLM (handleFinalTranscript config (said x) w)) = [true]
  /\ should_end_flags (trace w')
     = should_end_flags (trace w0) ++ repeat false (List.length before) ++ [true]
  /\ state (cm w') = monitoring
  /\ conversationHistory (cm w') = []
  /\ exchangeCount (cm w') = 0
  /\ isProcessingResponse (cm w') = false
  /\ responseTimeoutHandle (cm w') = None
  /\ response_timer_pending w' = false.
Proof.
  cbv zeta.
  destruct (cycles_keep_open before 0 w0 Hopen Hbefore) as (Hopen' & Hflags); [lia|].
  cbv zeta in Hopen', Hflags. rewrite Z.add_0_l in Hopen'.
  destruct (response_cycle_spec _ x _ Hopen' Hx) as (Hcall & Hover).
  cbv zeta in Hcall, Hover.
  assert (E : (Z.of_nat (List.length before) + 1
               >=? conversationAutoEndExchanges config) = true).
  { rewrite Z.geb_leb. apply Z.leb_le. lia. }
  rewrite E in Hcall, Hover.
  destruct Hopen' as (_ & Hs & Hc & _).
  destruct Hover as ((Hl & _) & _ & Hf & _ & Hend).
  destruct (Hend eq_refl) as (E1 & E2 & E3 & E4 & E5).
  repeat split; auto.
  - rewrite Hc. lia.
  - rewrite Hf, Hflags, <- app_assoc. reflexivity.
Qed.

(** *** Timers *)

Lemma earlier_due (a b : Timer) : earlier a b = true -> due a <= due b.
Proof.
  unfold earlier. intros H. apply orb_prop in H as [H | H].
  - apply Z.ltb_lt in H. lia.
  - apply andb_prop in H as [H _]. apply Z.eqb_eq in H. lia.
Qed.

Lemma earlier_total (a b : Timer) : earlier a b = false -> due b <= due a.
Proof.
  unfold earlier. intros H. apply orb_false_elim in H as [H _].
  apply Z.ltb_ge in H. exact H.
Qed.

Lemma next_timer_spec (t : Z) (l : list Timer) (tm : Timer) :
  next_timer t l = Some tm ->
  In tm l /\ due tm <= t /\ forall tm', In tm' l -> due tm' <= t -> due tm <= due tm'.
Proof.
  revert tm. induction l as [|a l IH]; intros tm H; simpl in H; [discriminate|].
  destruct (next_timer t l) as [b|] eqn:E.
  - destruct (IH b eq_refl) as (Hin & Hdue & Hmin).
    destruct (due a <=? t) eqn:Ea; simpl in H.
    + apply Z.leb_le in Ea. destruct (earlier a b) eqn:Eab; inversion H; subst.
      * split; [left; reflexivity|]. split; [exact Ea|].
        intros tm' [<- | Hin'] Hd; [lia|].
        specialize (Hmin tm' Hin' Hd). apply earlier_due in Eab. lia.
      * split; [right; exact Hin|]. split; [exact Hdue|].
        intros tm' [<- | Hin'] Hd; [apply earlier_total in Eab; lia|].
        apply Hmin; assumption.
    + inversion H; subst. apply Z.leb_gt in Ea.
      split; [right; exact Hin|]. split; [exact Hdue|].
      intros tm' [<- | Hin'] Hd; [lia|]. apply Hmin; assumption.
  - destruct (due a <=? t) eqn:Ea; inversion H; subst.
    apply Z.leb_le in Ea. split; [left; reflexivity|]. split; [exact Ea|].
    intros tm' [<- | Hin'] Hd; [lia|].
    exfalso. clear - E Hin' Hd. induction l as [|c l IH]; [destruct Hin'|].
    simpl in E. destruct (next_timer t l); [destruct (_ && _); discriminate|].
    destruct (due c <=? t) eqn:Ec; [discriminate|].
    destruct Hin' as [<- | Hin']; [apply Z.leb_gt in Ec; lia|]. apply IH; auto.
Qed.

Lemma next_timer_none (t : Z) (l : list Timer) :
  next_timer t l = None -> forall tm, In tm l -> t < due tm.
Proof.
  induction l as [|a l IH]; intros H tm Hin; [destruct Hin|].
  simpl in H. destruct (next_timer t l); [destruct (_ && _); discriminate|].
  destruct (due a <=? t) eqn:Ea; [discriminate|].
  destruct Hin as [<- | Hin]; [apply Z.leb_gt in Ea; lia|]. apply IH; auto.
Qed.

Lemma total_weight_app (a b : list Timer) :
  total_weight (a ++ b) = (total_weight a + total_weight b)%nat.
Proof. unfold total_weight. rewrite map_app, list_sum_app. reflexivity. Qed.

Lemma total_weight_filter (f : Timer -> bool) (l : list Timer) :
  (total_weight (filter f l) <= total_weight l)%nat.
Proof.
  unfold total_weight. induction l as [|a l IH]; simpl; [lia|].
  destruct (f a); simpl; lia.
Qed.

Lemma total_weight_remove (tm : Timer) (l : list Timer) :
  In tm l ->
  (total_weight (filter (fun x => negb (handle x =? handle tm)%nat) l) + weight tm
   <= total_weight l)%nat.
Proof.
  unfold total_weight. induction l as [|a l IH]; intros Hin; [destruct Hin|].
  simpl. destruct Hin as [<- | Hin].
  - rewrite Nat.eqb_refl. simpl.
    pose proof (total_weight_filter (fun x => negb (handle x =? handle a)%nat) l) as H.
    unfold total_weight in H. lia.
  - specialize (IH Hin). destruct (negb _); simpl; lia.
Qed.

Lemma total_weight_bound (l : list Timer) : (total_weight l <= 2 * List.length l)%nat.
Proof.
  unfold total_weight, weight. induction l as [|a l IH]; simpl; [lia|].
  destruct (callback a); lia.
Qed.

Lemma total_weight_one (tm : Timer) : total_weight [tm] = weight tm.
Proof. unfold total_weight. simpl. lia. Qed.

Lemma run_timer_weight (tm : Timer) (w : World) :
  In tm (timers w) ->
  (total_weight (timers (run_timer tm w)) < total_weight (timers w))%nat.
Proof.
  intros Hin. pose proof (total_weight_remove tm _ Hin) as H.
  revert H. unfold run_timer. destruct tm as [h d cb]. unfold weight.
  open_world w. simpl in Hin |- *. clear Hin.
  destruct cb, st, hdl, win; wsimpl;
    rewrite ?total_weight_app, ?total_weight_one; unfold weight; simpl; intros H;
    try lia;
    try match goal with
    | |- context [total_weight (filter ?f (filter ?g ?l))] =>
        pose proof (total_weight_filter f (filter g l)); lia
    end.
Qed.

(** The fuel of [advance] is enough: no timer due by [t] is left. *)
Lemma run_timers_complete (fuel : nat) (t : Z) (w : World) :
  (total_weight (timers w) <= fuel)%nat ->
  next_timer t (timers (run_timers fuel t w)) = None.
Proof.
  revert w. induction fuel as [|fuel IH]; intros w H; simpl.
  - destruct (timers w) as [|a l]; [reflexivity|].
    unfold total_weight, weight in H. simpl in H. destruct (callback a); lia.
  - destruct (next_timer t (timers w)) as [tm|] eqn:E; [|exact E].
    apply IH. destruct (next_timer_spec _ _ _ E) as (Hin & _).
    pose proof (run_timer_weight tm w Hin). lia.
Qed.

Lemma advance_complete (t : Z) (w : World) :
  next_timer t (timers (advance t w)) = None.
Proof.
  unfold advance. cbv zeta.
  change (timers (set_now _ ?x)) with (timers x).
  apply run_timers_complete, total_weight_bound.
Qed.

Lemma run_timers_invariant (J : World -> Prop) (t : Z) :
  (forall w tm, J w -> next_timer t (timers w) = Some tm -> J (run_timer tm w)) ->
  forall fuel w, J w -> J (run_timers fuel t w).
Proof.
  intros Hstep fuel. induction fuel as [|fuel IH]; intros w H; simpl; [exact H|].
  destruct (next_timer t (timers w)) as [tm|] eqn:E; [|exact H].
  apply IH, Hstep; assumption.
Qed.

Lemma NoDup_handles_filter (f : Timer -> bool) (l : list Timer) :
  NoDup (map handle l) -> NoDup (map handle (filter f l)).
Proof.
  induction l as [|a l IH]; simpl; intros H; [constructor|].
  inversion H as [|? ? Hn Hd]; subst.
  destruct (f a); simpl; [|auto].
  constructor; [|auto]. intros Hin. apply Hn.
  apply in_map_iff in Hin as (x & Hx & Hin). apply filter_In in Hin as [Hin _].
  apply in_map_iff. exists x. auto.
Qed.

Lemma NoDup_handles_fresh (l : list Timer) (n : nat) (d : Z) (cb : TimerCallback) :
  NoDup (map handle l) -> (forall tm, In tm l -> (handle tm < n)%nat) ->
  NoDup (map handle (l ++ [{| handle := n; due := d; callback := cb |}])).
Proof.
  intros Hd Hlt. rewrite map_app. simpl.
  apply NoDup_app; [exact Hd | repeat constructor; auto |].
  intros x Hin [<- | []]. apply in_map_iff in Hin as (tm & E & Hin).
  specialize (Hlt tm Hin). simpl in E. lia.
Qed.

Lemma same_handle (l : list Timer) (a b : Timer) :
  NoDup (map handle l) -> In a l -> In b l -> handle a = handle b -> a = b.
Proof.
  induction l as [|c l IH]; simpl; intros Hd Ha Hb E; [destruct Ha|].
  inversion Hd as [|? ? Hn Hd']; subst.
  destruct Ha as [Ha | Ha], Hb as [Hb | Hb].
  - congruence.
  - exfalso. apply Hn. subst c. apply in_map_iff. exists b. split; [symmetry; exact E | exact Hb].
  - exfalso. apply Hn. subst c. apply in_map_iff. exists a. split; [exact E | exact Ha].
  - apply IH; assumption.
Qed.

Lemma survives (l : list Timer) (a tm : Timer) :
  NoDup (map handle l) -> In a l -> In tm l -> a <> tm ->
  In a (filter (fun x => negb (handle x =? handle tm)%nat) l).
Proof.
  intros Hd Ha Htm Hne. apply filter_In. split; [exact Ha|].
  apply negb_true_iff, Nat.eqb_neq. intros E. apply Hne.
  eapply same_handle; eauto.
Qed.

Lemma handles_wf_filter (f : Timer -> bool) (l : list Timer) (n : nat) :
  handles_wf l n -> handles_wf (filter f l) n.
Proof.
  intros [H1 H2]. split.
  - apply NoDup_handles_filter, H1.
  - intros tm Hin. apply filter_In in Hin as [Hin _]. auto.
Qed.

Lemma handles_wf_cancelled (h : option nat) (l : list Timer) (n : nat) :
  handles_wf l n -> handles_wf (cancelled h l) n.
Proof. destruct h; [apply handles_wf_filter | auto]. Qed.

Lemma handles_wf_fresh (l : list Timer) (n : nat) (d : Z) (cb : TimerCallback) :
  handles_wf l n ->
  handles_wf (l ++ [{| handle := n; due := d; callback := cb |}]) (S n).
Proof.
  intros [H1 H2]. split.
  - apply NoDup_handles_fresh; assumption.
  - intros tm Hin. apply in_app_or in Hin as [Hin | [<- | []]]; simpl.
    + specialize (H2 tm Hin). lia.
    + lia.
Qed.

(** What one timer does when it runs. *)
Lemma run_timer_fields (tm : Timer) (w : World) :
  let w' := run_timer tm w in
  now w' = Z.max (now w) (due tm)
  /\ match callback tm with
     | MicStatusCheck =>
         cm w' = cm w /\ timers w' = without tm (timers w) /\ nextId w' = nextId w
     | ResponseTimeout =>
         cm w' = cm w
         /\ timers w' = without tm (timers w)
                         ++ [{| handle := nextId w;
                                due := Z.max (now w) (due tm) + GRACE_MS;
                                callback := GraceTimeout |}]
         /\ nextId w' = S (nextId w)
     | GraceTimeout =>
         if state_eqb (state (cm w)) monitoring
         then cm w' = cm w /\ timers w' = without tm (timers w) /\ nextId w' = nextId w
         else state (cm w') = monitoring /\ conversationHistory (cm w') = []
              /\ exchangeCount (cm w') = 0 /\ isProcessingResponse (cm w') = false
              /\ timers w' = cancelled (responseTimeoutHandle (cm w))
                                        (without tm (timers w))
              /\ nextId w' = nextId w
     end.
Proof.
  unfold run_timer, without, cancelled. destruct tm as [h d cb]. open_world w.
  destruct cb, st, hdl, win; wsimpl; repeat split.
Qed.

Lemma expiring_step (P tm : Timer) (t : Z) (w : World) :
  callback P = ResponseTimeout ->
  expiring P w -> next_timer t (timers w) = Some tm ->
  expiring P (run_timer tm w).
Proof.
  intros HP [Hwf HJ] Hnext.
  destruct (next_timer_spec _ _ _ Hnext) as (Hin & Hdue & Hmin).
  assert (HdP : In P (timers w) -> due tm <= due P).
  { intros HinP. destruct (Z.le_gt_cases (due P) t) as [Hle | Hgt].
    - apply Hmin; assumption.
    - lia. }
  destruct (run_timer_fields tm w) as (Hnow & Hf). cbv zeta in Hnow, Hf.
  unfold expiring, timers_wf. rewrite Hnow.
  assert (Hsurv : forall a, In a (timers w) -> callback a <> callback tm ->
                            In a (without tm (timers w))).
  { intros a Ha Hne. apply survives; auto; [apply Hwf | congruence]. }
  destruct (callback tm) eqn:Ecb.
  - (* a response timer runs *)
    destruct Hf as (Ecm & Etm & Eid). rewrite Ecm, Etm, Eid.
    split; [apply handles_wf_fresh, handles_wf_filter, Hwf|].
    destruct HJ as [HJ | [(Hs & HinP & Hn) | (Hs & G & HG & HcG & HdG)]].
    + left. exact HJ.
    + destruct (Nat.eq_dec (handle P) (handle tm)) as [E | Hne].
      * right. right. split; [exact Hs|].
        assert (P = tm) by (eapply same_handle; eauto; apply Hwf). subst tm.
        eexists. split; [apply in_or_app; right; left; reflexivity|].
        simpl. split; [reflexivity|]. unfold GRACE_MS. lia.
      * right. left. split; [exact Hs|]. split.
        -- apply in_or_app. left. apply filter_In. split; [exact HinP|].
           apply negb_true_iff, Nat.eqb_neq. exact Hne.
        -- specialize (HdP HinP). lia.
    + right. right. split; [exact Hs|]. exists G.
      split; [apply in_or_app; left; apply Hsurv; [exact HG | congruence]|].
      auto.
  - (* a grace timer runs *)
    destruct (state_eqb (state (cm w)) monitoring) eqn:Es.
    + destruct Hf as (Ecm & Etm & Eid). rewrite Ecm, Etm, Eid.
      split; [apply handles_wf_filter, Hwf|].
      apply state_eqb_eq in Es.
      destruct HJ as [HJ | [(Hs & _) | (Hs & _)]]; [left; exact HJ | congruence | congruence].
    + destruct Hf as (E1 & E2 & E3 & E4 & Etm & Eid). rewrite Etm, Eid.
      split; [apply handles_wf_cancelled, handles_wf_filter, Hwf|].
      left. auto.
  - (* the microphone check runs *)
    destruct Hf as (Ecm & Etm & Eid). rewrite Ecm, Etm, Eid.
    split; [apply handles_wf_filter, Hwf|].
    destruct HJ as [HJ | [(Hs & HinP & Hn) | (Hs & G & HG & HcG & HdG)]].
    + left. exact HJ.
    + right. left. split; [exact Hs|]. split.
      * apply Hsurv; [exact HinP | congruence].
      * specialize (HdP HinP). lia.
    + right. right. split; [exact Hs|]. exists G.
      split; [apply Hsurv; [exact HG | congruence]|]. auto.
Qed.

Lemma entered_expiring (m : ConversationMode) (w : World) :
  timers_wf w ->
  expiring {| handle := nextId w;
              due := now w + timeout_delay (conversationResponseTimeout config);
              callback := ResponseTimeout |}
           (enterConversationMode config m w).
Proof.
  intros Hwf.
  assert (Hd : 1 <= timeout_delay (conversationResponseTimeout config)).
  { unfold timeout_delay. destruct (_ && _) eqn:E; [|lia].
    apply andb_prop in E as [E _]. apply Z.leb_le in E. exact E. }
  pose proof (handles_wf_fresh _ _ (now w + timeout_delay (conversationResponseTimeout config))
                ResponseTimeout
                (handles_wf_cancelled (responseTimeoutHandle (cm w)) _ _ Hwf)) as Hwf'.
  revert Hwf'. unfold expiring, timers_wf, cancelled. clear Hwf. open_world w.
  destruct hdl, win; wsimpl; intros Hwf'; (split; [exact Hwf'|]);
    right; left; (split; [discriminate|]);
    (split; [apply in_or_app; right; left; reflexivity | lia]).
Qed.

Lemma without_self (tm : Timer) : without tm [tm] = [].
Proof. unfold without. simpl. rewrite Nat.eqb_refl. reflexivity. Qed.

Lemma next_timer_one (t : Z) (tm tm' : Timer) :
  next_timer t [tm] = Some tm' -> tm' = tm /\ due tm <= t.
Proof.
  simpl. destruct (due tm <=? t) eqn:E; [|discriminate].
  intros H. inversion H; subst. apply Z.leb_le in E. split; [reflexivity | exact E].
Qed.

Lemma waiting_step (P tm : Timer) (t : Z) (w : World) :
  callback P = ResponseTimeout -> t < due P + GRACE_MS ->
  waiting P w -> next_timer t (timers w) = Some tm ->
  waiting P (run_timer tm w).
Proof.
  intros HP Ht (Hs & Hw) Hnext.
  destruct (run_timer_fields tm w) as (Hnow & Hf). cbv zeta in Hnow, Hf.
  destruct Hw as [(Etm & Hn) | (h & Etm)]; rewrite Etm in *.
  - apply next_timer_one in Hnext as (-> & Hd).
    rewrite HP in Hf. destruct Hf as (Ecm & Etm' & _).
    rewrite without_self in Etm'. simpl in Etm'.
    split; [rewrite Ecm; exact Hs|]. right. exists (nextId w).
    rewrite Etm'. repeat f_equal. lia.
  - apply next_timer_one in Hnext as (_ & Hd). simpl in Hd. lia.
Qed.

Lemma entered_waiting (m : ConversationMode) (w : World) :
  timers w = [] ->
  waiting {| handle := nextId w;
             due := now w + timeout_delay (conversationResponseTimeout config);
             callback := ResponseTimeout |}
          (enterConversationMode config m w).
Proof.
  assert (Hd : 1 <= timeout_delay (conversationResponseTimeout config)).
  { unfold timeout_delay. destruct (_ && _) eqn:E; [|lia].
    apply andb_prop in E as [E _]. apply Z.leb_le in E. exact E. }
  unfold waiting. open_world w. simpl. intros ->.
  destruct hdl, win; wsimpl; (split; [reflexivity|]); left; split;
    try reflexivity; lia.
Qed.

(** The response timeout of a conversation entered in a state whose timer
    handles are unique. *)
Lemma timeout_recovery (m : ConversationMode) (w : World)
  (Hwf : timers_wf w)
  (Hcfg : 1 <= conversationResponseTimeout config <= 2147483647) :
  let w1 := enterConversationMode config m w in
  let deadline := now w + conversationResponseTimeout config + GRACE_MS in
  let w2 := advance deadline w1 in
  state (cm w1) = conversation
  /\ state (cm w2) = monitoring
  /\ conversationHistory (cm w2) = []
  /\ exchangeCount (cm w2) = 0
  /\ isProcessingResponse (cm w2) = false
  /\ (timers w = [] ->
      forall t, t < deadline -> state (cm (advance t w1)) = conversation).
Proof.
  cbv zeta.
  assert (Hd : timeout_delay (conversationResponseTimeout config)
               = conversationResponseTimeout config).
  { unfold timeout_delay.
    destruct Hcfg as [H1 H2]. apply Z.leb_le in H1, H2. rewrite H1, H2. reflexivity. }
  pose proof (entered_expiring m w Hwf) as He. rewrite Hd in He.
  set (P := {| handle := nextId w;
               due := now w + conversationResponseTimeout config;
               callback := ResponseTimeout |}) in *.
  set (w1 := enterConversationMode config m w) in *.
  split.
  { subst w1. clear. open_world w. destruct hdl, win; reflexivity. }
  assert (Hrun : forall t fuel, expiring P (run_timers fuel t w1)).
  { intros t fuel. apply run_timers_invariant; [|exact He].
    intros w' tm HJ Hn. apply (expiring_step P tm t w' eq_refl HJ Hn). }
  set (deadline := now w + conversationResponseTimeout config + GRACE_MS).
  pose proof (advance_complete deadline w1) as Hnone.
  unfold advance in *. cbv zeta in *.
  change (timers (set_now _ ?x)) with (timers x) in Hnone.
  change (cm (set_now _ ?x)) with (cm x).
  destruct (Hrun deadline (2 * List.length (timers w1))%nat)
    as (_ & [(E1 & E2 & E3 & E4) | [(_ & HinP & _) | (_ & G & HG & _ & HdG)]]).
  - repeat split; auto.
    intros Hnil t Ht. change (cm (set_now _ ?x)) with (cm x).
    assert (Hw : waiting P w1).
    { pose proof (entered_waiting m w Hnil) as Hw. rewrite Hd in Hw. exact Hw. }
    assert (Hall : forall fuel, waiting P (run_timers fuel t w1)).
    { intros fuel. apply run_timers_invariant; [|exact Hw].
      intros w' tm HJ Hn. apply (waiting_step P tm t w' eq_refl); auto. }
    apply Hall.
  - exfalso. pose proof (next_timer_none _ _ Hnone _ HinP) as H.
    subst deadline. simpl in H. unfold GRACE_MS in H. lia.
  - exfalso. pose proof (next_timer_none _ _ Hnone _ HG) as H.
    subst deadline. simpl in HdG. lia.
Qed.

(** *** Strings *)

Lemma append_assoc (a b c : string) : ((a ++ b) ++ c = a ++ (b ++ c))%string.
Proof. induction a as [|x a IH]; simpl; [reflexivity | rewrite IH; reflexivity]. Qed.

Lemma append_nonempty (a b : string) : b <> "" -> (a ++ b)%string <> "".
Proof. destruct a; simpl; [auto | discriminate]. Qed.

Lemma truthy_nonempty (s : string) : truthy s = true <-> s <> "".
Proof. destruct s; simpl; split; congruence. Qed.

Lemma trimStart_length (s : string) : (String.length (trimStart s) <= String.length s)%nat.
Proof.
  induction s as [|c s IH]; simpl; [lia|].
  destruct (is_white_space c); simpl; lia.
Qed.

Lemma trimEnd_length (s : string) : (String.length (trimEnd s) <= String.length s)%nat.
Proof.
  induction s as [|c s IH]; simpl; [lia|].
  destruct (trimEnd s); [destruct (is_white_space c)|]; simpl in *; lia.
Qed.

Lemma trimStart_fixed (s : string) :
  String.length (trimStart s) = String.length s -> trimStart s = s.
Proof.
  destruct s as [|c s]; simpl; [reflexivity|].
  destruct (is_white_space c); [|reflexivity].
  pose proof (trimStart_length s). lia.
Qed.

(** A string that [trim] leaves alone is left alone by both halves. *)
Lemma trimmed_halves (s : string) :
  trim s = s -> trimStart s = s /\ trimEnd s = s.
Proof.
  unfold trim. intros H.
  assert (E : trimStart s = s).
  { apply trimStart_fixed.
    pose proof (trimEnd_length (trimStart s)). pose proof (trimStart_length s).
    rewrite H in *. lia. }
  rewrite E in H. auto.
Qed.

Lemma trimEnd_idempotent (s : string) : trimEnd (trimEnd s) = trimEnd s.
Proof.
  induction s as [|c s IH]; simpl; [reflexivity|].
  destruct (trimEnd s) as [|d r] eqn:E.
  - destruct (is_white_space c) eqn:Ec; simpl; [reflexivity|]. rewrite Ec. reflexivity.
  - simpl in *. rewrite IH. reflexivity.
Qed.

Lemma trimStart_idempotent (s : string) : trimStart (trimStart s) = trimStart s.
Proof.
  induction s as [|c s IH]; simpl; [reflexivity|].
  destruct (is_white_space c) eqn:Ec; [exact IH|]. simpl. rewrite Ec. reflexivity.
Qed.

Lemma trimStart_trimEnd (s : string) :
  trimStart s = s -> trimStart (trimEnd s) = trimEnd s.
Proof.
  destruct s as [|c s]; simpl; [reflexivity|].
  destruct (is_white_space c) eqn:Ec.
  - intros H. pose proof (trimStart_length s) as L. rewrite H in L. simpl in L. lia.
  - intros _. destruct (trimEnd s); simpl; rewrite Ec; reflexivity.
Qed.

Lemma trim_idempotent (s : string) : trim (trim s) = trim s.
Proof.
  unfold trim.
  rewrite (trimStart_trimEnd _ (trimStart_idempotent s)).
  apply trimEnd_idempotent.
Qed.

Lemma trimEnd_append (a b : string) :
  b <> "" -> trimEnd b = b -> trimEnd (a ++ b) = (a ++ b)%string.
Proof.
  intros Hb Eb. induction a as [|c a IH]; simpl; [exact Eb|].
  rewrite IH. destruct (a ++ b)%string eqn:E; [|reflexivity].
  exfalso. exact (append_nonempty a b Hb E).
Qed.

Lemma trimStart_append (a b : string) :
  a <> "" -> trimStart a = a -> trimStart (a ++ b) = (a ++ b)%string.
Proof.
  destruct a as [|c a]; [congruence|]. intros _. simpl.
  destruct (is_white_space c); [|reflexivity].
  intros H. pose proof (trimStart_length a) as L. rewrite H in L. simpl in L. lia.
Qed.

(** Merging a trimmed fragment into a trimmed buffer gives a trimmed buffer. *)
Lemma merged_trimmed (buffer frag : string) :
  trim buffer = buffer -> trim frag = frag -> frag <> "" ->
  trim (merged buffer frag) = merged buffer frag /\ merged buffer frag <> "".
Proof.
  intros Hb Hf Hne. unfold merged. destruct (truthy buffer) eqn:Et; [|auto].
  apply truthy_nonempty in Et.
  destruct (trimmed_halves _ Hb) as [Hb1 _].
  destruct (trimmed_halves _ Hf) as [_ Hf2].
  split; [|destruct buffer; [congruence | discriminate]].
  unfold trim. rewrite (trimStart_append _ _ Et Hb1).
  rewrite <- append_assoc. apply trimEnd_append; assumption.
Qed.

Lemma cleanTranscript_cases (t : string) : cleanTranscript t = "" \/ cleanTranscript t = t.
Proof.
  unfold cleanTranscript.
  destruct (_ <? 2); [auto|]. destruct (symbolsOnly _); [auto|].
  destruct (_ || _); [auto|]. destruct (_ && _); auto.
Qed.

Lemma recognisedText_trimmed (raw : option string) :
  trim (recognisedText raw) = recognisedText raw.
Proof.
  unfold recognisedText. cbv zeta.
  set (t := match raw with Some r => trim r | None => "" end).
  assert (Ht : trim t = t) by (subst t; destruct raw; [apply trim_idempotent | reflexivity]).
  destruct (truthy t); [|exact Ht].
  destruct (cleanTranscript_cases t) as [-> | ->]; [reflexivity | exact Ht].
Qed.

Lemma len_positive (s : string) : s <> "" -> (0 <? len s) = true.
Proof. destruct s; [congruence|]. intros _. unfold len. simpl String.length. apply Z.ltb_lt. lia. Qed.

(** *** The transcriber's buffer *)

Ltac trace_ext :=
  first [ exists []; split; [rewrite app_nil_r; reflexivity | reflexivity]
        | eexists; split; [rewrite <- ?app_assoc; reflexivity | reflexivity] ].

Ltac kept := repeat split; try reflexivity; trace_ext.

Lemma transcriber_kept_refl (w : World) : transcriber_kept w w.
Proof. unfold transcriber_kept. kept. Qed.

Lemma transcriber_kept_trans (w1 w2 w3 : World) :
  transcriber_kept w1 w2 -> transcriber_kept w2 w3 -> transcriber_kept w1 w3.
Proof.
  intros (A1 & A2 & A3 & A4 & A5 & A6 & l1 & A7 & A8)
         (B1 & B2 & B3 & B4 & B5 & B6 & l2 & B7 & B8).
  unfold transcriber_kept. repeat split; try congruence.
  exists (l1 ++ l2). split.
  - rewrite B7, A7, app_assoc. reflexivity.
  - rewrite filter_app, A8, B8. reflexivity.
Qed.

Lemma kept_handleUserSpeaking (b : bool) (w : World) :
  transcriber_kept w (handleUserSpeaking b w).
Proof.
  unfold transcriber_kept. open_world w. destruct b, st, win; wsimpl; kept.
Qed.

Lemma kept_handleWakeWord (w : World) : transcriber_kept w (handleWakeWord config w).
Proof.
  unfold transcriber_kept. open_world w. destruct st, hdl, win; wsimpl; kept.
Qed.

Lemma kept_handlePartialTranscript (t : string) (w : World) :
  transcriber_kept w (handlePartialTranscript t w).
Proof.
  unfold transcriber_kept. open_world w. destruct st, win; wsimpl; kept.
Qed.

Lemma kept_handleFinalTranscript (t : string) (w : World) :
  transcriber_kept w (handleFinalTranscript config t w).
Proof.
  destruct (accepted t w) eqn:Ha.
  - rewrite (handleFinalTranscript_accepted _ _ Ha).
    apply accepted_true in Ha as (_ & Hl & _).
    unfold transcriber_kept, generateAndSpeakResponse, turn_opened.
    open_world w. simpl in Hl. subst.
    destruct st, hdl, win; wsimpl; kept.
  - rewrite (handleFinalTranscript_rejected _ _ Ha). apply transcriber_kept_refl.
Qed.

Lemma kept_invoke_onUserSpeaking (b : bool) (w : World) :
  transcriber_kept w (invoke_onUserSpeaking b w).
Proof.
  unfold invoke_onUserSpeaking.
  destruct (onUserSpeakingCallback (stt w)); [|apply transcriber_kept_refl].
  cbv beta delta [andThen].
  eapply transcriber_kept_trans; [|apply kept_handleUserSpeaking].
  unfold transcriber_kept. simpl. kept.
Qed.

Lemma kept_invoke_onWakeWord (w : World) :
  transcriber_kept w (invoke_onWakeWord config w).
Proof.
  unfold invoke_onWakeWord.
  destruct (onWakeWordCallback (stt w)); [|apply transcriber_kept_refl].
  cbv beta delta [andThen].
  eapply transcriber_kept_trans; [|apply kept_handleWakeWord].
  unfold transcriber_kept. simpl. kept.
Qed.

(** [sendPendingTranscript] with a buffer and a callback: the buffer goes
    out as one final transcript and is emptied. *)
Lemma sendPendingTranscript_flushes (w : World) :
  truthy (pendingTranscript (stt w)) = true ->
  onTranscriptCallback (stt w) = true ->
  let w' := sendPendingTranscript config w in
  flushed (trim (pendingTranscript (stt w))) w w'
  /\ lastTranscriptChunkTime (stt w') = lastTranscriptChunkTime (stt w)
  /\ onTranscriptCallback (stt w') = true
  /\ now w' = now w.
Proof.
  intros Hp Hcb w'.
  set (ft := trim (pendingTranscript (stt w))).
  set (w1 := handleFinalTranscript config ft (emit (EmitTranscript true ft (now w)) w)).
  set (w2 := assign_stt stt_set_isUserSpeaking false
               (assign_stt stt_set_pendingTranscript "" w1)).
  assert (E : w' = invoke_onUserSpeaking false w2).
  { subst w'. unfold sendPendingTranscript. rewrite Hp, Hcb. reflexivity. }
  destruct (kept_handleFinalTranscript ft (emit (EmitTranscript true ft (now w)) w))
    as (_ & K2 & K3 & _ & _ & K6 & l & K7 & K8).
  fold w1 in K2, K3, K6, K7. simpl in K2, K3, K6, K7.
  destruct (kept_invoke_onUserSpeaking false w2)
    as (L1 & L2 & L3 & _ & _ & L6 & l' & L7 & L8).
  rewrite <- E in L1, L2, L3, L6, L7.
  unfold flushed. rewrite L1, L2, L3, L6, L7. subst w2. simpl.
  rewrite K2, K3, K6, K7, Hcb. repeat split.
  exists [], (l ++ l'). simpl. split; [|reflexivity].
  rewrite <- !app_assoc. reflexivity.
Qed.

Lemma kept_quiet (w w' : World) : transcriber_kept w w' -> quiet w w'.
Proof. intros (_ & _ & _ & _ & _ & Hn & Hl). split; assumption. Qed.

Lemma quiet_flushed (t : string) (w0 w1 w2 : World) :
  quiet w0 w1 -> flushed t w1 w2 -> flushed t w0 w2.
Proof.
  intros (Hn & l & Hl & Hf) ((b & a & Ht & Hb) & Hp).
  split; [|assumption].
  exists (l ++ b), a. split.
  - rewrite Ht, Hl, Hn, <- !app_assoc. reflexivity.
  - rewrite filter_app, Hf, Hb. reflexivity.
Qed.

Lemma flushed_kept (t : string) (w0 w1 w2 : World) :
  flushed t w0 w1 -> transcriber_kept w1 w2 -> flushed t w0 w2.
Proof.
  intros ((b & a & Ht & Hb) & Hp) (K1 & _ & _ & _ & _ & _ & l & Hl & _).
  split; [|congruence].
  exists b, (a ++ l). split; [|assumption].
  rewrite Hl, Ht, <- !app_assoc. reflexivity.
Qed.

(** The periodic check, on a transcriber in a state the program reaches. *)
Lemma checkTranscriptTimeout_spec (w : World) :
  transcriber_wf w ->
  if truthy (pendingTranscript (stt w))
     && (now w - lastTranscriptChunkTime (stt w) >=? 1500)
  then flushed (pendingTranscript (stt w)) w (checkTranscriptTimeout config w)
  else checkTranscriptTimeout config w = w.
Proof.
  intros (Ht & Hl & Hcb & _). unfold checkTranscriptTimeout.
  destruct (truthy (pendingTranscript (stt w))) eqn:Ep; [|reflexivity].
  assert (Hz : (lastTranscriptChunkTime (stt w) =? 0) = false).
  { apply Z.eqb_neq, Hl, truthy_nonempty, Ep. }
  rewrite Hz. cbv zeta. change TRANSCRIPT_SILENCE_THRESHOLD_MS with 1500.
  simpl negb. simpl orb. simpl andb.
  destruct (now w - lastTranscriptChunkTime (stt w) >=? 1500); [|reflexivity].
  destruct (sendPendingTranscript_flushes w Ep Hcb) as (Hf & _).
  rewrite Ht in Hf. exact Hf.
Qed.

Lemma onTranscribed_stored (raw : option string) (w : World) :
  truthy (recognisedText raw) = true ->
  onTranscribed config raw w =
  checkWakeWord config (pendingTranscript (stt (fragment_stored (recognisedText raw) w)))
                (fragment_stored (recognisedText raw) w).
Proof. intros Ht. unfold onTranscribed. rewrite Ht. reflexivity. Qed.

Lemma fragment_stored_spec (frag : string) (w : World) :
  let w' := fragment_stored frag w in
  pendingTranscript (stt w') = merged (pendingTranscript (stt w)) frag
  /\ lastTranscriptChunkTime (stt w') = now w
  /\ onTranscriptCallback (stt w') = onTranscriptCallback (stt w)
  /\ quiet w w'.
Proof.
  intros w'. subst w'. unfold fragment_stored. cbv zeta.
  set (w1 := assign_stt stt_set_isUserSpeaking true _).
  destruct (kept_invoke_onUserSpeaking true w1) as (K1 & K2 & K3 & _ & _ & K6 & l & K7 & K8).
  unfold quiet. simpl. rewrite K1, K2, K3, K6, K7. subst w1. simpl.
  repeat split. exists l. split; [reflexivity | assumption].
Qed.

(** A recognised fragment is merged into the buffer; the wake phrase in the
    merged buffer flushes it on the spot. *)
Lemma onTranscribed_spec (raw : option string) (w : World) :
  transcriber_wf w ->
  truthy (recognisedText raw) = true ->
  let p := merged (pendingTranscript (stt w)) (recognisedText raw) in
  let w' := onTranscribed config raw w in
  if wakeWordDetected config p
  then flushed p w w'
  else pendingTranscript (stt w') = p
       /\ lastTranscriptChunkTime (stt w') = now w
       /\ quiet w w'.
Proof.
  intros (Ht & _ & Hcb & _) Hfrag p w'. subst w'.
  rewrite (onTranscribed_stored _ _ Hfrag).
  destruct (fragment_stored_spec (recognisedText raw) w) as (S1 & S2 & S3 & S4).
  cbv zeta in S1, S2, S3, S4. fold p in S1.
  set (w3 := fragment_stored (recognisedText raw) w) in *.
  rewrite S1. unfold checkWakeWord.
  destruct (wakeWordDetected config p); [|auto].
  destruct (merged_trimmed (pendingTranscript (stt w)) (recognisedText raw) Ht
              (recognisedText_trimmed raw) (proj1 (truthy_nonempty _) Hfrag)) as (Mt & Mne).
  fold p in Mt, Mne.
  cbv beta delta [andThen]. rewrite S1, Mt.
  rewrite (proj2 (truthy_nonempty _) Mne), (len_positive _ Mne). simpl andb. cbv iota.
  assert (Ep : truthy (pendingTranscript (stt w3)) = true).
  { rewrite S1. apply truthy_nonempty, Mne. }
  destruct (sendPendingTranscript_flushes w3 Ep (eq_trans S3 Hcb)) as (Hf & _).
  rewrite S1, Mt in Hf.
  eapply flushed_kept; [|apply kept_invoke_onWakeWord].
  eapply quiet_flushed; eassumption.
Qed.

(** The transcriber's invariant holds after every handler of the transcriber. *)
Lemma transcriber_wf_checkTranscriptTimeout (w : World) :
  transcriber_wf w -> transcriber_wf (checkTranscriptTimeout config w).
Proof.
  intros Hwf. pose proof (checkTranscriptTimeout_spec w Hwf) as Hs.
  destruct Hwf as (Ht & Hl & Hcb & Hnow).
  destruct (truthy (pendingTranscript (stt w))
            && (now w - lastTranscriptChunkTime (stt w) >=? 1500)) eqn:E.
  - apply andb_true_iff in E as (Ep & _).
    unfold checkTranscriptTimeout in *.
    assert (Hz : (lastTranscriptChunkTime (stt w) =? 0) = false).
    { apply Z.eqb_neq, Hl, truthy_nonempty, Ep. }
    rewrite Ep, Hz in *. simpl negb in *. simpl orb in *. cbv iota zeta in *.
    destruct (now w - lastTranscriptChunkTime (stt w) >=? TRANSCRIPT_SILENCE_THRESHOLD_MS);
      [|repeat split; assumption].
    destruct (sendPendingTranscript_flushes w Ep Hcb) as ((_ & Hp) & Hl' & Hcb' & Hn').
    unfold transcriber_wf. rewrite Hp, Hcb', Hn'. repeat split; [congruence | assumption].
  - rewrite Hs. repeat split; assumption.
Qed.

(** The silence commit, in a state [transcriber_wf] describes. *)
Lemma silence_commit (w : World) (Hwf : transcriber_wf w) :
  (isStreaming (stt w) = false -> isInitialized (stt w) = true ->
   snd (startStreaming w) = Returned
   /\ transcriptCheckInterval (stt (fst (startStreaming w))) = Some 500)
  /\ (if truthy (pendingTranscript (stt w))
         && (now w - lastTranscriptChunkTime (stt w) >=? 1500)
      then flushed (pendingTranscript (stt w)) w (checkTranscriptTimeout config w)
      else checkTranscriptTimeout config w = w)
  /\ (forall raw : option string,
        truthy (recognisedText raw) = true ->
        let p := merged (pendingTranscript (stt w)) (recognisedText raw) in
        let w' := onTranscribed config raw w in
        if includes (toLowerCase p) (toLowerCase (wakeWord config))
        then flushed p w w'
        else pendingTranscript (stt w') = p
             /\ lastTranscriptChunkTime (stt w') = now w
             /\ quiet w w').
Proof.
  split; [|split].
  - intros Hs Hi. unfold startStreaming. rewrite Hs, Hi. simpl. auto.
  - apply checkTranscriptTimeout_spec, Hwf.
  - intros raw Hfrag. apply (onTranscribed_spec raw w Hwf Hfrag).
Qed.

(** *** The monitor's callout dedup *)

Lemma gtb_true (a b : Z) : (a >? b) = true -> b < a.
Proof. rewrite Z.gtb_ltb. apply Z.ltb_lt. Qed.

Lemma gtb_false (a b : Z) : (a >? b) = false -> a <= b.
Proof. rewrite Z.gtb_ltb. apply Z.ltb_ge. Qed.

Lemma lastCalledOutApp_updateEscalationLevel (sc t0 : Z) (m : ProductivityMonitor.t) :
  ProductivityMonitor.lastCalledOutApp (ProductivityMonitor.updateEscalationLevel config sc t0 m)
  = ProductivityMonitor.lastCalledOutApp m.
Proof.
  unfold ProductivityMonitor.updateEscalationLevel.
  destruct (_ && _); reflexivity.
Qed.

Lemma lastCalledOutApp_shouldTriggerProactiveMessage (sc t0 : Z) (m : ProductivityMonitor.t) :
  ProductivityMonitor.lastCalledOutApp
    (fst (ProductivityMonitor.shouldTriggerProactiveMessage config sc t0 m))
  = ProductivityMonitor.lastCalledOutApp m.
Proof.
  unfold ProductivityMonitor.shouldTriggerProactiveMessage. cbv zeta.
  destruct (sc >? _); [|reflexivity].
  destruct (ProductivityMonitor.lowProductivityStartTime m =? 0);
    match goal with |- context [if ?c then _ else _] => destruct c end; reflexivity.
Qed.

Lemma lastCalledOutApp_sendMessageToChat
    (k : ProductivityMonitor.MessageKind) (msg : string) (t0 : Z) (m : ProductivityMonitor.t) :
  ProductivityMonitor.lastCalledOutApp (fst (ProductivityMonitor.sendMessageToChat k msg t0 m))
  = ProductivityMonitor.lastCalledOutApp m.
Proof.
  unfold ProductivityMonitor.sendMessageToChat.
  destruct (negb _); reflexivity.
Qed.

Lemma calledOut_sendMessageToChat
    (k : ProductivityMonitor.MessageKind) (msg : string) (t0 : Z) (m : ProductivityMonitor.t) :
  ProductivityMonitor.calledOut (snd (ProductivityMonitor.sendMessageToChat k msg t0 m)) = false.
Proof.
  unfold ProductivityMonitor.sendMessageToChat.
  destruct (negb _); reflexivity.
Qed.

Lemma analysed_some (o : ProductivityMonitor.Observation) (m : ProductivityMonitor.t)
    (s : QwenActivitySummary) :
  analysed o m = Some s ->
  ProductivityMonitor.isEnabled m = true
  /\ ProductivityMonitor.mainWindow m <> None
  /\ ProductivityMonitor.isAnalyzing m = false
  /\ ProductivityMonitor.playbackActive o = false
  /\ ProductivityMonitor.lastMinuteEmpty o = false
  /\ ProductivityMonitor.summary o = Some s.
Proof.
  unfold analysed.
  destruct (ProductivityMonitor.isEnabled m), (ProductivityMonitor.mainWindow m),
    (ProductivityMonitor.isAnalyzing m), (ProductivityMonitor.playbackActive o),
    (ProductivityMonitor.lastMinuteEmpty o); simpl; intros H; try discriminate.
  repeat split; auto. discriminate.
Qed.

(** The run of the policy once the score is known and the natural pause is
    passed. *)
Lemma captureAndAnalyze_analysed (o : ProductivityMonitor.Observation)
    (m : ProductivityMonitor.t) (s : QwenActivitySummary) :
  analysed o m = Some s ->
  ProductivityMonitor.captureAndAnalyze config o m =
  let now := ProductivityMonitor.at_time o in
  let currentScore := ProductivityMonitor.score o in
  if paused config o m
  then (ProductivityMonitor.set_previous currentScore (taskType s) m, [])
  else
    let m1 := ProductivityMonitor.updateEscalationLevel config currentScore now m in
    let m2 := fst (ProductivityMonitor.shouldTriggerProactiveMessage config currentScore now m1) in
    if snd (ProductivityMonitor.shouldTriggerProactiveMessage config currentScore now m1) then
      let m3 := fst (ProductivityMonitor.sendMessageToChat ProductivityMonitor.Proactive
                       (ProductivityMonitor.replyText o) now m2) in
      (ProductivityMonitor.set_previous currentScore (taskType s)
         (ProductivityMonitor.set_lastProactiveMessageTime now m3),
       ProductivityMonitor.Generate ProductivityMonitor.Proactive ""
       :: snd (ProductivityMonitor.sendMessageToChat ProductivityMonitor.Proactive
                 (ProductivityMonitor.replyText o) now m2))
    else if ProductivityMonitor.shouldTriggerCheckIn config currentScore
              (ProductivityMonitor.checkInInterval o) now m2 then
      if ProductivityMonitor.conversing o
      then (ProductivityMonitor.set_previous currentScore (taskType s) m2, [])
      else
        let m3 := fst (ProductivityMonitor.sendMessageToChat ProductivityMonitor.CheckIn
                         (ProductivityMonitor.replyText o) now m2) in
        (ProductivityMonitor.set_previous currentScore (taskType s)
           (ProductivityMonitor.set_lastCheckInTime now m3),
         ProductivityMonitor.Generate ProductivityMonitor.CheckIn ""
         :: snd (ProductivityMonitor.sendMessageToChat ProductivityMonitor.CheckIn
                   (ProductivityMonitor.replyText o) now m2))
    else if currentScore >? interventionThreshold config then
      let currentApp := ProductivityMonitor.currentAppOf s in
      if (ProductivityMonitor.lastCalledOutApp m2 =? currentApp)%string && truthy currentApp
      then (ProductivityMonitor.set_previous currentScore (taskType s) m2, [])
      else
        let m3 := ProductivityMonitor.set_lastCalledOutApp currentApp m2 in
        let m4 := ProductivityMonitor.set_chatHistory
                    (ChatHistory.addMessage
                       {| role := goggins; text := ProductivityMonitor.replyText o;
                          timestamp := now |}
                       now (ProductivityMonitor.chatHistory m3)) m3 in
        let m5 := ProductivityMonitor.set_lastAnyMessageTime now m4 in
        (ProductivityMonitor.set_previous currentScore (taskType s) m5,
         ProductivityMonitor.Generate ProductivityMonitor.CoachCallout currentApp
         :: (if ProductivityMonitor.windowAlive m5
             then [ProductivityMonitor.SendCoachMessage ProductivityMonitor.CoachCallout
                     (ProductivityMonitor.replyText o)] else [])
         ++ (if ProductivityMonitor.voiceAvailable o then [ProductivityMonitor.AutoListen] else []))
    else
      let m3 := if truthy (ProductivityMonitor.lastCalledOutApp m2)
                then ProductivityMonitor.set_lastCalledOutApp "" m2 else m2 in
      (ProductivityMonitor.set_previous currentScore (taskType s) m3, []).
Proof.
  intros Ha. apply analysed_some in Ha as (H1 & H2 & H3 & H4 & H5 & H6).
  unfold ProductivityMonitor.captureAndAnalyze, paused.
  rewrite H1, H3, H4, H5, H6.
  destruct (ProductivityMonitor.mainWindow m); [|congruence].
  simpl negb. simpl orb. cbv iota zeta.
  destruct (_ && _); [reflexivity|].
  destruct (ProductivityMonitor.shouldTriggerProactiveMessage config _ _ _) as [m2 pro].
  simpl fst. simpl snd.
  destruct pro.
  - destruct (ProductivityMonitor.sendMessageToChat _ _ _ _). reflexivity.
  - destruct (ProductivityMonitor.shouldTriggerCheckIn _ _ _ _ _); [|reflexivity].
    destruct (ProductivityMonitor.conversing o); [reflexivity|].
    destruct (ProductivityMonitor.sendMessageToChat _ _ _ _). reflexivity.
Qed.

Lemma messaging_false (o : ProductivityMonitor.Observation) (m : ProductivityMonitor.t) :
  messaging config o m = false ->
  let now := ProductivityMonitor.at_time o in
  let sc := ProductivityMonitor.score o in
  let m1 := ProductivityMonitor.updateEscalationLevel config sc now m in
  snd (ProductivityMonitor.shouldTriggerProactiveMessage config sc now m1) = false
  /\ ProductivityMonitor.shouldTriggerCheckIn config sc (ProductivityMonitor.checkInInterval o) now
       (fst (ProductivityMonitor.shouldTriggerProactiveMessage config sc now m1)) = false.
Proof.
  unfold messaging. cbv zeta.
  destruct (ProductivityMonitor.shouldTriggerProactiveMessage config _ _ _) as [m2 pro].
  simpl. intros H. apply orb_false_iff in H. exact H.
Qed.

Lemma recovered_quiet (o : ProductivityMonitor.Observation) (m : ProductivityMonitor.t) :
  ProductivityMonitor.score o <= interventionThreshold config ->
  messaging config o m = false.
Proof.
  intros Hle. unfold messaging. cbv zeta.
  unfold ProductivityMonitor.shouldTriggerProactiveMessage,
    ProductivityMonitor.shouldTriggerCheckIn. cbv zeta.
  assert (E : (ProductivityMonitor.score o >? interventionThreshold config) = false).
  { rewrite Z.gtb_ltb. apply Z.ltb_ge. exact Hle. }
  rewrite E. reflexivity.
Qed.

Lemma lastCalledOutApp_policy (o : ProductivityMonitor.Observation) (m : ProductivityMonitor.t) :
  ProductivityMonitor.lastCalledOutApp
    (fst (ProductivityMonitor.shouldTriggerProactiveMessage config (ProductivityMonitor.score o)
            (ProductivityMonitor.at_time o)
            (ProductivityMonitor.updateEscalationLevel config (ProductivityMonitor.score o)
               (ProductivityMonitor.at_time o) m)))
  = ProductivityMonitor.lastCalledOutApp m.
Proof.
  rewrite lastCalledOutApp_shouldTriggerProactiveMessage.
  apply lastCalledOutApp_updateEscalationLevel.
Qed.

(** C9 (as amended).  The callout dedup of the monitor, for a run that
    gets as far as a score, on the summary [s] with identifier [currentAppOf s] (the app
    name, or the activity description when there is none).  A run that calls
    out stores the identifier.  A high-score run on the stored, non-empty
    identifier calls nothing out and keeps it stored.  A high-score run that
    reaches the intervention (no natural pause, no proactive message and no
    check-in) on another identifier calls out and stores the new one.  A run
    with the score at or below the threshold clears the stored identifier
    when it passes the natural pause, and leaves it as it is when the
    natural pause stops it. *)
Theorem C9_callout_dedup (o : ProductivityMonitor.Observation) (m : ProductivityMonitor.t)
    (s : QwenActivitySummary) (Hs : analysed o m = Some s) :
  let m' := fst (ProductivityMonitor.captureAndAnalyze config o m) in
  let effects := snd (ProductivityMonitor.captureAndAnalyze config o m) in
  let id := ProductivityMonitor.currentAppOf s in
  let high := interventionThreshold config < ProductivityMonitor.score o in
  (ProductivityMonitor.calledOut effects = true ->
   high /\ ProductivityMonitor.lastCalledOutApp m' = id
   /\ In (ProductivityMonitor.Generate ProductivityMonitor.CoachCallout id) effects)
  /\ (high -> ProductivityMonitor.lastCalledOutApp m = id -> id <> "" ->
      ProductivityMonitor.calledOut effects = false
      /\ ProductivityMonitor.lastCalledOutApp m' = id)
  /\ (high -> paused config o m = false -> messaging config o m = false ->
      ProductivityMonitor.lastCalledOutApp m <> id ->
      ProductivityMonitor.calledOut effects = true
      /\ ProductivityMonitor.lastCalledOutApp m' = id)
  /\ (ProductivityMonitor.score o <= interventionThreshold config ->
      ProductivityMonitor.calledOut effects = false
      /\ ProductivityMonitor.lastCalledOutApp m' =
         if paused config o m then ProductivityMonitor.lastCalledOutApp m else "").
Proof.
  intros m' effects id high. subst m' effects high.
  rewrite (captureAndAnalyze_analysed o m s Hs). cbv zeta.
  pose proof (lastCalledOutApp_policy o m) as Hkeep.
  set (m2 := fst (ProductivityMonitor.shouldTriggerProactiveMessage config _ _ _)) in *.
  set (pro := snd (ProductivityMonitor.shouldTriggerProactiveMessage config _ _ _)).
  fold id.
  split; [|split; [|split]].
  - (* a callout stores the identifier *)
    destruct (paused config o m); [discriminate|].
    destruct pro.
    { simpl snd. unfold ProductivityMonitor.calledOut at 1. simpl existsb.
      fold (ProductivityMonitor.calledOut
              (snd (ProductivityMonitor.sendMessageToChat ProductivityMonitor.Proactive
                      (ProductivityMonitor.replyText o) (ProductivityMonitor.at_time o) m2))).
      rewrite calledOut_sendMessageToChat. discriminate. }
    destruct (ProductivityMonitor.shouldTriggerCheckIn _ _ _ _ _).
    { destruct (ProductivityMonitor.conversing o); [discriminate|].
      simpl snd. unfold ProductivityMonitor.calledOut at 1. simpl existsb.
      fold (ProductivityMonitor.calledOut
              (snd (ProductivityMonitor.sendMessageToChat ProductivityMonitor.CheckIn
                      (ProductivityMonitor.replyText o) (ProductivityMonitor.at_time o) m2))).
      rewrite calledOut_sendMessageToChat. discriminate. }
    destruct (ProductivityMonitor.score o >? interventionThreshold config) eqn:Eg;
      [|discriminate].
    apply gtb_true in Eg.
    destruct (_ && _); [discriminate|].
    intros _. split; [exact Eg|]. split; [reflexivity|]. left. reflexivity.
  - (* the stored identifier is not called out again *)
    intros Hhigh Hsame Hne.
    destruct (paused config o m); [split; [reflexivity | exact Hsame]|].
    destruct pro.
    { simpl. rewrite lastCalledOutApp_sendMessageToChat. split; [|congruence].
      fold (ProductivityMonitor.calledOut
              (snd (ProductivityMonitor.sendMessageToChat ProductivityMonitor.Proactive
                      (ProductivityMonitor.replyText o) (ProductivityMonitor.at_time o) m2))).
      apply calledOut_sendMessageToChat. }
    destruct (ProductivityMonitor.shouldTriggerCheckIn _ _ _ _ _).
    { destruct (ProductivityMonitor.conversing o); [split; [reflexivity | simpl; congruence]|].
      simpl. rewrite lastCalledOutApp_sendMessageToChat. split; [|congruence].
      fold (ProductivityMonitor.calledOut
              (snd (ProductivityMonitor.sendMessageToChat ProductivityMonitor.CheckIn
                      (ProductivityMonitor.replyText o) (ProductivityMonitor.at_time o) m2))).
      apply calledOut_sendMessageToChat. }
    destruct (ProductivityMonitor.score o >? interventionThreshold config) eqn:Eg;
      [|apply gtb_false in Eg; lia].
    rewrite Hkeep, Hsame, String.eqb_refl, (proj2 (truthy_nonempty id) Hne).
    split; [reflexivity | simpl; congruence].
  - (* another identifier is called out *)
    intros Hhigh Hp Hm Hother. rewrite Hp.
    destruct (messaging_false o m Hm) as (Hpro & Hci). cbv zeta in Hpro, Hci.
    fold pro in Hpro. fold m2 in Hci. rewrite Hpro, Hci.
    destruct (ProductivityMonitor.score o >? interventionThreshold config) eqn:Eg;
      [|apply gtb_false in Eg; lia].
    rewrite Hkeep.
    destruct (String.eqb_spec (ProductivityMonitor.lastCalledOutApp m) id) as [E|_];
      [contradiction|].
    split; reflexivity.
  - (* recovery *)
    intros Hle.
    destruct (paused config o m); [split; reflexivity|].
    destruct (messaging_false o m (recovered_quiet o m Hle)) as (Hpro & Hci).
    cbv zeta in Hpro, Hci. fold pro in Hpro. fold m2 in Hci. rewrite Hpro, Hci.
    destruct (ProductivityMonitor.score o >? interventionThreshold config) eqn:Eg;
      [apply gtb_true in Eg; lia|].
    split; [reflexivity|].
    cbv zeta. destruct (truthy (ProductivityMonitor.lastCalledOutApp m2)) eqn:Et.
    + reflexivity.
    + simpl. destruct (ProductivityMonitor.lastCalledOutApp m2); [reflexivity | discriminate].
Qed.

(** *** The transcriber's invariant along a run *)

Lemma buffer_kept_refl (w : World) : buffer_kept w w.
Proof. unfold buffer_kept. repeat split. lia. Qed.

Lemma buffer_kept_trans (w1 w2 w3 : World) :
  buffer_kept w1 w2 -> buffer_kept w2 w3 -> buffer_kept w1 w3.
Proof.
  intros (A1 & A2 & A3 & A4) (B1 & B2 & B3 & B4).
  unfold buffer_kept. repeat split; try congruence. lia.
Qed.

Lemma transcriber_kept_buffer (w w' : World) : transcriber_kept w w' -> buffer_kept w w'.
Proof.
  intros (K1 & K2 & K3 & _ & _ & K6 & _). unfold buffer_kept. repeat split; try assumption. lia.
Qed.

Lemma transcriber_wf_buffer_kept (w w' : World) :
  buffer_kept w w' -> transcriber_wf w -> transcriber_wf w'.
Proof.
  intros (K1 & K2 & K3 & K4) (H1 & H2 & H3 & H4).
  unfold transcriber_wf. rewrite K1, K2, K3. repeat split; try assumption. lia.
Qed.

Lemma keeps_buffer_andThen (a b : Action) :
  keeps_buffer a -> keeps_buffer b -> keeps_buffer (a ;; b).
Proof. intros Ha Hb w. eapply buffer_kept_trans; [apply Ha | apply Hb]. Qed.

Ltac buffer := unfold buffer_kept; repeat split; try reflexivity; simpl; try lia.

Lemma keeps_buffer_with_cm (f : ConversationManager -> ConversationManager) :
  keeps_buffer (with_cm f).
Proof. intros w. buffer. Qed.

Lemma keeps_buffer_onAudioChunk (b : Buffer) : keeps_buffer (onAudioChunk b).
Proof.
  intros w. unfold onAudioChunk. destruct (shouldForward w); [|apply buffer_kept_refl].
  open_world w. destruct strm; wsimpl; buffer.
Qed.

Lemma keeps_buffer_startCalloutConversation (acts : list QwenActivitySummary) :
  keeps_buffer (startCalloutConversation config acts).
Proof. intros w. open_world w. destruct hdl, win; wsimpl; buffer. Qed.

Lemma keeps_buffer_stop : keeps_buffer stop.
Proof. intros w. open_world w. destruct strm, hdl; wsimpl; buffer. Qed.

Lemma keeps_buffer_onResponseGenerated (p : PendingGeneration) (t : string) (ts : Z) :
  keeps_buffer (onResponseGenerated config p t ts).
Proof.
  intros w. destruct p as [pid pend]. open_world w.
  destruct pend, tts, win, hdl, st, lock; wsimpl; buffer.
Qed.

Lemma keeps_buffer_onResponseFailed : keeps_buffer onResponseFailed.
Proof. intros w. open_world w. destruct win, hdl; wsimpl; buffer. Qed.

Lemma keeps_buffer_onSpeechSynthesized (p : PendingSpeech) (r : TtsOutcome) :
  keeps_buffer (onSpeechSynthesized config p r).
Proof.
  intros w. destruct p as [pid pend ptext]. open_world w.
  destruct r, pend, win, hdl, st, lock; wsimpl; buffer.
Qed.

Lemma keeps_buffer_run_timer (tm : Timer) : keeps_buffer (run_timer tm).
Proof.
  intros w. destruct tm as [h d cb]. unfold run_timer. open_world w.
  destruct cb, st, hdl, win; wsimpl; buffer.
Qed.

Lemma keeps_buffer_run_timers (fuel : nat) (t : Z) : keeps_buffer (run_timers fuel t).
Proof.
  induction fuel as [|n IH]; intros w; simpl; [apply buffer_kept_refl|].
  destruct (next_timer t (timers w)) as [tm|]; [|apply buffer_kept_refl].
  eapply buffer_kept_trans; [apply keeps_buffer_run_timer | apply IH].
Qed.

Lemma keeps_buffer_advance (t : Z) : keeps_buffer (advance t).
Proof.
  intros w. unfold advance. cbv zeta.
  eapply buffer_kept_trans; [apply keeps_buffer_run_timers|].
  buffer.
Qed.

Lemma transcriber_wf_start (e : StartEnv) (w : World) :
  transcriber_wf w -> transcriber_wf (fst (start config e w)).
Proof.
  unfold start.
  destruct (voiceListeningEnabled config); [|auto].
  destruct (micPermissionGranted e); [|auto].
  unfold transcriber_wf. open_world w. simpl. intros (H1 & H2 & H3 & H4).
  destruct ini, strm, rec, (whisperLoads e), (microphoneStarts e), hdl, win;
    wsimpl0; unfold enterConversationMode, setTimeout; wsimpl;
    repeat split; try assumption; try reflexivity; congruence.
Qed.

Lemma transcriber_wf_onTranscribed (raw : option string) (w : World) :
  transcriber_wf w -> transcriber_wf (onTranscribed config raw w).
Proof.
  intros Hwf.
  destruct (truthy (recognisedText raw)) eqn:Hfrag;
    [|unfold onTranscribed; rewrite Hfrag; exact Hwf].
  rewrite (onTranscribed_stored _ _ Hfrag).
  destruct Hwf as (Ht & Hl & Hcb & Hnow).
  destruct (fragment_stored_spec (recognisedText raw) w) as (S1 & S2 & S3 & S4 & _).
  cbv zeta in S1, S2, S3, S4.
  destruct (merged_trimmed (pendingTranscript (stt w)) (recognisedText raw) Ht
              (recognisedText_trimmed raw) (proj1 (truthy_nonempty _) Hfrag)) as (Mt & Mne).
  set (w3 := fragment_stored (recognisedText raw) w) in *.
  assert (Hwf3 : transcriber_wf w3).
  { unfold transcriber_wf. rewrite S1, S2, S3, S4. repeat split; try assumption. lia. }
  unfold checkWakeWord.
  destruct (wakeWordDetected config _); [|exact Hwf3].
  cbv beta delta [andThen].
  apply (transcriber_wf_buffer_kept _ _
           (transcriber_kept_buffer _ _ (kept_invoke_onWakeWord _))).
  destruct (truthy (pendingTranscript (stt w3))) eqn:Ep; [|exact Hwf3].
  destruct (0 <? len (trim (pendingTranscript (stt w3)))); [|exact Hwf3].
  simpl andb. cbv iota.
  destruct Hwf3 as (_ & _ & Hcb3 & Hnow3).
  destruct (sendPendingTranscript_flushes w3 Ep Hcb3) as ((_ & Hp) & _ & Hcb' & Hn').
  unfold transcriber_wf. rewrite Hp, Hcb', Hn'. repeat split; [congruence | assumption].
Qed.

Lemma transcriber_wf_step (e : Event) (w : World) :
  transcriber_wf w -> transcriber_wf (step config e w).
Proof.
  intros H. destruct e; unfold step.
  - apply (transcriber_wf_buffer_kept w); [apply keeps_buffer_onAudioChunk | exact H].
  - apply transcriber_wf_checkTranscriptTimeout, H.
  - apply transcriber_wf_onTranscribed, H.
  - apply (transcriber_wf_buffer_kept w); [apply keeps_buffer_with_cm | exact H].
  - apply (transcriber_wf_buffer_kept w); [apply keeps_buffer_with_cm | exact H].
  - apply (transcriber_wf_buffer_kept w);
      [apply keeps_buffer_startCalloutConversation | exact H].
  - apply (transcriber_wf_buffer_kept w); [apply keeps_buffer_with_cm | exact H].
  - apply (transcriber_wf_buffer_kept w); [apply keeps_buffer_with_cm | exact H].
  - destruct (take_generation id (pendingLLM w)); [|exact H].
    eapply transcriber_wf_buffer_kept; [apply keeps_buffer_onResponseGenerated|].
    exact H.
  - destruct (take_generation id (pendingLLM w)); [|exact H].
    eapply transcriber_wf_buffer_kept; [apply keeps_buffer_onResponseFailed|].
    exact H.
  - destruct (take_speech id (pendingTTS w)); [|exact H].
    eapply transcriber_wf_buffer_kept; [apply keeps_buffer_onSpeechSynthesized|].
    exact H.
  - apply (transcriber_wf_buffer_kept w); [apply keeps_buffer_advance | exact H].
  - apply transcriber_wf_start, H.
  - apply (transcriber_wf_buffer_kept w); [apply keeps_buffer_stop | exact H].
Qed.

(** From its construction on, at any positive clock reading, the
    transcriber is in a state [transcriber_wf] describes, whatever happens. *)
Lemma transcriber_wf_run (es : list Event) (window tts : bool) (t0 : Z) :
  0 < t0 -> transcriber_wf (run config es (new_ConversationManager window tts t0)).
Proof.
  intros Ht0.
  assert (H0 : transcriber_wf (new_ConversationManager window tts t0)).
  { unfold transcriber_wf. simpl. repeat split; [congruence | exact Ht0]. }
  generalize dependent (new_ConversationManager window tts t0).
  induction es as [|e es IH]; intros w Hw; [exact Hw|].
  simpl. apply IH, transcriber_wf_step, Hw.
Qed.

(** C4. The transcriber's silence commit, in every state the orchestrator
    reaches from its construction at a positive clock reading.
    [startStreaming] arms the check at a period of 500 ms.  The check flushes
    the buffer (the accumulated text goes out as one final transcript stamped
    with the clock, and the buffer is empty after) exactly when the buffer is
    not empty and the clock is at least 1500 ms past the last fragment;
    otherwise it changes nothing.  A recognised fragment is joined to the
    buffer with one space, and when the joined buffer contains the configured
    wake phrase, compared without case, it is flushed at once whatever the
    clock says; without the phrase the joined text stays in the buffer and
    the fragment time is the clock. *)
Theorem C4_silence_commit (es : list Event) (window tts : bool) (t0 : Z) (Ht0 : 0 < t0) :
  let w := run config es (new_ConversationManager window tts t0) in
  (isStreaming (stt w) = false -> isInitialized (stt w) = true ->
   snd (startStreaming w) = Returned
   /\ transcriptCheckInterval (stt (fst (startStreaming w))) = Some 500)
  /\ (if truthy (pendingTranscript (stt w))
         && (now w - lastTranscriptChunkTime (stt w) >=? 1500)
      then flushed (pendingTranscript (stt w)) w (checkTranscriptTimeout config w)
      else checkTranscriptTimeout config w = w)
  /\ (forall raw : option string,
        truthy (recognisedText raw) = true ->
        let p := merged (pendingTranscript (stt w)) (recognisedText raw) in
        let w' := onTranscribed config raw w in
        if includes (toLowerCase p) (toLowerCase (wakeWord config))
        then flushed p w w'
        else pendingTranscript (stt w') = p
             /\ lastTranscriptChunkTime (stt w') = now w
             /\ quiet w w').
Proof.
  intros w. apply silence_commit. apply transcriber_wf_run, Ht0.
Qed.

(** *** Timer handles along a run *)

Lemma handles_wf_next (l : list Timer) (n : nat) : handles_wf l n -> handles_wf l (S n).
Proof. intros [H1 H2]. split; [exact H1|]. intros tm Hin. specialize (H2 tm Hin). lia. Qed.

Ltac handles :=
  unfold timers_wf in *; wsimpl;
  repeat first [ assumption
               | apply handles_wf_fresh
               | apply handles_wf_filter
               | apply handles_wf_next ].

Lemma timers_wf_same (w w' : World) :
  timers w' = timers w -> nextId w' = nextId w -> timers_wf w -> timers_wf w'.
Proof. unfold timers_wf. intros -> ->. auto. Qed.

Lemma timers_wf_enterConversationMode (m : ConversationMode) :
  preserves timers_wf (enterConversationMode config m).
Proof. intros w H. open_world w. destruct hdl, win; handles. Qed.

Lemma timers_wf_exitConversationMode : preserves timers_wf exitConversationMode.
Proof. intros w H. open_world w. destruct hdl, win; handles. Qed.

Lemma timers_wf_handleUserSpeaking (b : bool) : preserves timers_wf (handleUserSpeaking b).
Proof. intros w H. open_world w. destruct b, st, win; handles. Qed.

Lemma timers_wf_handleWakeWord : preserves timers_wf (handleWakeWord config).
Proof. intros w H. open_world w. destruct st, hdl, win; handles. Qed.

Lemma timers_wf_handlePartialTranscript (t : string) :
  preserves timers_wf (handlePartialTranscript t).
Proof. intros w H. open_world w. destruct st, win; handles. Qed.

Lemma timers_wf_handleFinalTranscript (t : string) :
  preserves timers_wf (handleFinalTranscript config t).
Proof.
  intros w H. destruct (accepted t w) eqn:Ha.
  - rewrite (handleFinalTranscript_accepted _ _ Ha).
    apply accepted_true in Ha as (_ & Hl & _).
    unfold generateAndSpeakResponse, turn_opened.
    open_world w. simpl in Hl. subst.
    destruct st, hdl, win; handles.
  - rewrite (handleFinalTranscript_rejected _ _ Ha). exact H.
Qed.

Lemma timers_wf_emit (e : Effect) : preserves timers_wf (emit e).
Proof. intros w H. exact H. Qed.

Lemma timers_wf_assign_stt {A} (set : A -> WhisperCppClient -> WhisperCppClient) (v : A) :
  preserves timers_wf (assign_stt set v).
Proof. intros w H. exact H. Qed.

Lemma timers_wf_invoke_onTranscript (final : bool) (t : string) :
  preserves timers_wf (invoke_onTranscript config final t).
Proof.
  intros w H. unfold invoke_onTranscript. cbv beta zeta delta [andThen].
  destruct final.
  - apply timers_wf_handleFinalTranscript, H.
  - apply timers_wf_handlePartialTranscript, H.
Qed.

Lemma timers_wf_invoke_onUserSpeaking (b : bool) :
  preserves timers_wf (invoke_onUserSpeaking b).
Proof.
  intros w H. unfold invoke_onUserSpeaking.
  destruct (onUserSpeakingCallback (stt w)); [|exact H].
  cbv beta zeta delta [andThen]. apply timers_wf_handleUserSpeaking, H.
Qed.

Lemma timers_wf_invoke_onWakeWord : preserves timers_wf (invoke_onWakeWord config).
Proof.
  intros w H. unfold invoke_onWakeWord.
  destruct (onWakeWordCallback (stt w)); [|exact H].
  cbv beta zeta delta [andThen]. apply timers_wf_handleWakeWord, H.
Qed.

Lemma timers_wf_sendPendingTranscript : preserves timers_wf (sendPendingTranscript config).
Proof.
  intros w H. unfold sendPendingTranscript.
  destruct (negb _ || negb _); [exact H|].
  cbv beta zeta delta [andThen].
  apply timers_wf_invoke_onUserSpeaking.
  apply (timers_wf_assign_stt stt_set_isUserSpeaking).
  apply (timers_wf_assign_stt stt_set_pendingTranscript).
  apply timers_wf_invoke_onTranscript, H.
Qed.

Lemma timers_wf_checkTranscriptTimeout : preserves timers_wf (checkTranscriptTimeout config).
Proof.
  intros w H. unfold checkTranscriptTimeout.
  destruct (negb _ || _); [exact H|].
  destruct (_ >=? _); [apply timers_wf_sendPendingTranscript|]; exact H.
Qed.

Lemma timers_wf_checkWakeWord (t : string) : preserves timers_wf (checkWakeWord config t).
Proof.
  intros w H. unfold checkWakeWord.
  destruct (wakeWordDetected config t); [|exact H].
  cbv beta zeta delta [andThen].
  apply timers_wf_invoke_onWakeWord.
  destruct (truthy _ && _); [apply timers_wf_sendPendingTranscript|]; exact H.
Qed.

Lemma timers_wf_onTranscribed (raw : option string) :
  preserves timers_wf (onTranscribed config raw).
Proof.
  intros w H. unfold onTranscribed. cbv zeta.
  destruct (truthy (recognisedText raw)); [|exact H].
  cbv beta zeta delta [andThen].
  apply timers_wf_checkWakeWord.
  apply (timers_wf_assign_stt stt_set_lastTranscriptTime).
  apply timers_wf_invoke_onUserSpeaking.
  exact H.
Qed.

Lemma timers_wf_run_timer (tm : Timer) : preserves timers_wf (run_timer tm).
Proof.
  intros w H. destruct tm as [h d cb]. unfold run_timer. open_world w.
  destruct cb, st, hdl, win; handles.
Qed.

Lemma timers_wf_advance (t : Z) : preserves timers_wf (advance t).
Proof.
  intros w H. unfold advance. cbv zeta.
  apply (timers_wf_same (run_timers (2 * List.length (timers w)) t w)); try reflexivity.
  apply run_timers_invariant; [|exact H].
  intros w0 tm H0 _. apply timers_wf_run_timer, H0.
Qed.

Lemma timers_wf_step (e : Event) : preserves timers_wf (step config e).
Proof.
  intros w H. destruct e; unfold step.
  - unfold onAudioChunk. destruct (shouldForward w); [|exact H].
    open_world w. destruct strm; handles.
  - apply timers_wf_checkTranscriptTimeout, H.
  - apply timers_wf_onTranscribed, H.
  - exact H.
  - exact H.
  - open_world w. destruct hdl, win; handles.
  - exact H.
  - exact H.
  - destruct (take_generation id (pendingLLM w)) as [p|]; [|exact H].
    destruct p as [pid pend]. open_world w.
    destruct pend, tts, win, hdl, st, lock; handles.
  - destruct (take_generation id (pendingLLM w)) as [p|]; [|exact H].
    open_world w. destruct win, hdl; handles.
  - destruct (take_speech id (pendingTTS w)) as [p|]; [|exact H].
    destruct p as [pid pend ptext]. open_world w.
    destruct r, pend, win, hdl, st, lock; handles.
  - apply timers_wf_advance, H.
  - unfold start.
    destruct (voiceListeningEnabled config); [|exact H].
    destruct (micPermissionGranted e); [|exact H].
    open_world w.
    destruct ini, strm, rec, (whisperLoads e), (microphoneStarts e), hdl, win;
      wsimpl0; unfold enterConversationMode, setTimeout; handles.
  - open_world w. destruct strm, hdl; handles.
Qed.

(** Timer handles are unique in every state the orchestrator reaches. *)
Lemma timers_wf_run (es : list Event) (window tts : bool) (t0 : Z) :
  timers_wf (run config es (new_ConversationManager window tts t0)).
Proof.
  assert (H0 : timers_wf (new_ConversationManager window tts t0)).
  { split; [constructor | intros tm []]. }
  generalize dependent (new_ConversationManager window tts t0).
  induction es as [|e es IH]; intros w Hw; [exact Hw|].
  simpl. apply IH, timers_wf_step, Hw.
Qed.

(** *** The response timer along a run *)

Ltac held_by H :=
  first [ exact H
        | discriminate H
        | injection H as H; subst;
          match goal with
          | Hf : context [(?a =? ?a)%nat] |- _ =>
              rewrite Nat.eqb_refl in Hf; discriminate Hf
          end ].

Ltac held_in H Hin Hcb :=
  lazymatch type of Hin with
  | In _ (filter _ _) =>
      let Hf := fresh "Hf" in
      apply filter_In in Hin as [Hin Hf]; held_in H Hin Hcb
  | In _ (_ ++ _) =>
      apply in_app_or in Hin as [Hin | Hin]; held_in H Hin Hcb
  | In _ (_ :: _) =>
      destruct Hin as [Hin | Hin];
      [ subst; simpl in *;
        first [ reflexivity | discriminate
              | rewrite Nat.eqb_refl in *; discriminate ]
      | held_in H Hin Hcb ]
  | In _ [] => destruct Hin
  | _ => specialize (H _ Hin Hcb); simpl in *; held_by H
  end.

Ltac held :=
  unfold response_timer_held in *; wsimpl;
  let tm := fresh "tm" in let Hin := fresh "Hin" in let Hcb := fresh "Hcb" in
  intros tm Hin Hcb;
  match goal with H : forall _, In _ _ -> _ -> _ |- _ => held_in H Hin Hcb end.

Lemma held_enterConversationMode (m : ConversationMode) :
  preserves response_timer_held (enterConversationMode config m).
Proof. intros w H. open_world w. destruct hdl, win; held. Qed.

Lemma held_handleUserSpeaking (b : bool) : preserves response_timer_held (handleUserSpeaking b).
Proof. intros w H. open_world w. destruct b, st, win; held. Qed.

Lemma held_handleWakeWord : preserves response_timer_held (handleWakeWord config).
Proof. intros w H. open_world w. destruct st, hdl, win; held. Qed.

Lemma held_handlePartialTranscript (t : string) :
  preserves response_timer_held (handlePartialTranscript t).
Proof. intros w H. open_world w. destruct st, win; held. Qed.

Lemma held_handleFinalTranscript (t : string) :
  preserves response_timer_held (handleFinalTranscript config t).
Proof.
  intros w H. destruct (accepted t w) eqn:Ha.
  - rewrite (handleFinalTranscript_accepted _ _ Ha).
    apply accepted_true in Ha as (_ & Hl & _).
    unfold generateAndSpeakResponse, turn_opened.
    open_world w. simpl in Hl. subst.
    destruct st, hdl, win; held.
  - rewrite (handleFinalTranscript_rejected _ _ Ha). exact H.
Qed.

Lemma held_assign_stt {A} (set : A -> WhisperCppClient -> WhisperCppClient) (v : A) :
  preserves response_timer_held (assign_stt set v).
Proof. intros w H. exact H. Qed.

Lemma held_invoke_onTranscript (final : bool) (t : string) :
  preserves response_timer_held (invoke_onTranscript config final t).
Proof.
  intros w H. unfold invoke_onTranscript. cbv beta zeta delta [andThen].
  destruct final.
  - apply held_handleFinalTranscript, H.
  - apply held_handlePartialTranscript, H.
Qed.

Lemma held_invoke_onUserSpeaking (b : bool) :
  preserves response_timer_held (invoke_onUserSpeaking b).
Proof.
  intros w H. unfold invoke_onUserSpeaking.
  destruct (onUserSpeakingCallback (stt w)); [|exact H].
  cbv beta zeta delta [andThen]. apply held_handleUserSpeaking, H.
Qed.

Lemma held_invoke_onWakeWord : preserves response_timer_held (invoke_onWakeWord config).
Proof.
  intros w H. unfold invoke_onWakeWord.
  destruct (onWakeWordCallback (stt w)); [|exact H].
  cbv beta zeta delta [andThen]. apply held_handleWakeWord, H.
Qed.

Lemma held_sendPendingTranscript : preserves response_timer_held (sendPendingTranscript config).
Proof.
  intros w H. unfold sendPendingTranscript.
  destruct (negb _ || negb _); [exact H|].
  cbv beta zeta delta [andThen].
  apply held_invoke_onUserSpeaking.
  apply (held_assign_stt stt_set_isUserSpeaking).
  apply (held_assign_stt stt_set_pendingTranscript).
  apply held_invoke_onTranscript, H.
Qed.

Lemma held_checkTranscriptTimeout : preserves response_timer_held (checkTranscriptTimeout config).
Proof.
  intros w H. unfold checkTranscriptTimeout.
  destruct (negb _ || _); [exact H|].
  destruct (_ >=? _); [apply held_sendPendingTranscript|]; exact H.
Qed.

Lemma held_checkWakeWord (t : string) : preserves response_timer_held (checkWakeWord config t).
Proof.
  intros w H. unfold checkWakeWord.
  destruct (wakeWordDetected config t); [|exact H].
  cbv beta zeta delta [andThen].
  apply held_invoke_onWakeWord.
  destruct (truthy _ && _); [apply held_sendPendingTranscript|]; exact H.
Qed.

Lemma held_onTranscribed (raw : option string) :
  preserves response_timer_held (onTranscribed config raw).
Proof.
  intros w H. unfold onTranscribed. cbv zeta.
  destruct (truthy (recognisedText raw)); [|exact H].
  cbv beta zeta delta [andThen].
  apply held_checkWakeWord.
  apply (held_assign_stt stt_set_lastTranscriptTime).
  apply held_invoke_onUserSpeaking.
  exact H.
Qed.

Lemma held_run_timer (tm : Timer) : preserves response_timer_held (run_timer tm).
Proof.
  intros w H. destruct tm as [h d cb]. unfold run_timer. open_world w.
  destruct cb, st, hdl, win; held.
Qed.

Lemma held_advance (t : Z) : preserves response_timer_held (advance t).
Proof.
  intros w H. unfold advance. cbv zeta.
  assert (H' : response_timer_held (run_timers (2 * List.length (timers w)) t w)).
  { apply run_timers_invariant; [|exact H].
    intros w0 tm H0 _. apply held_run_timer, H0. }
  exact H'.
Qed.

Lemma held_step (e : Event) : preserves response_timer_held (step config e).
Proof.
  intros w H. destruct e; unfold step.
  - unfold onAudioChunk. destruct (shouldForward w); [|exact H].
    open_world w. destruct strm; held.
  - apply held_checkTranscriptTimeout, H.
  - apply held_onTranscribed, H.
  - exact H.
  - exact H.
  - open_world w. destruct hdl, win; held.
  - exact H.
  - exact H.
  - destruct (take_generation id (pendingLLM w)) as [p|]; [|exact H].
    destruct p as [pid pend]. open_world w.
    destruct pend, tts, win, hdl, st, lock; held.
  - destruct (take_generation id (pendingLLM w)) as [p|]; [|exact H].
    open_world w. destruct win, hdl; held.
  - destruct (take_speech id (pendingTTS w)) as [p|]; [|exact H].
    destruct p as [pid pend ptext]. open_world w.
    destruct r, pend, win, hdl, st, lock; held.
  - apply held_advance, H.
  - unfold start.
    destruct (voiceListeningEnabled config); [|exact H].
    destruct (micPermissionGranted e); [|exact H].
    open_world w.
    destruct ini, strm, rec, (whisperLoads e), (microphoneStarts e), hdl, win;
      wsimpl0; unfold enterConversationMode, setTimeout; held.
  - open_world w. destruct strm, hdl; held.
Qed.

(** In every state the orchestrator reaches, the only response timer that
    can be pending is the one whose handle it holds. *)
Lemma response_timer_held_run (es : list Event) (window tts : bool) (t0 : Z) :
  response_timer_held (run config es (new_ConversationManager window tts t0)).
Proof.
  assert (H0 : response_timer_held (new_ConversationManager window tts t0)).
  { intros tm []. }
  generalize dependent (new_ConversationManager window tts t0).
  induction es as [|e es IH]; intros w Hw; [exact Hw|].
  simpl. apply IH, held_step, Hw.
Qed.

(** A conversation entered while no response is under way is open, with no
    exchange counted. *)
Lemma entered_open (m : ConversationMode) (w : World) :
  idle w -> response_timer_held w ->
  conversation_open 0 (enterConversationMode config m w).
Proof.
  intros (Hl & Hpl & Hpt) H.
  pose proof (held_enterConversationMode m w H) as Hheld.
  unfold conversation_open, idle. split; [|split; [|split; [|exact Hheld]]].
  - clear Hheld H. open_world w. simpl in *. subst. destruct hdl, win; wsimpl; auto.
  - clear Hheld H. open_world w. destruct hdl, win; wsimpl; reflexivity.
  - clear Hheld H. open_world w. destruct hdl, win; wsimpl; reflexivity.
Qed.

(** *** Timers and the lock *)

Lemma run_timers_none (fuel : nat) (t : Z) (w : World) :
  next_timer t (timers w) = None -> run_timers fuel t w = w.
Proof. intros H. destruct fuel; simpl; [reflexivity|]. rewrite H. reflexivity. Qed.

Lemma idle_run_timer (tm : Timer) : preserves idle (run_timer tm).
Proof.
  intros w (Hl & Hpl & Hpt). destruct tm as [h d cb]. unfold run_timer, idle.
  open_world w. simpl in Hl, Hpl, Hpt. subst.
  destruct cb, st, hdl, win; wsimpl; repeat split.
Qed.

Lemma idle_lock_inv (w : World) : idle w -> lock_inv w.
Proof.
  intros (Hl & Hpl & Hpt). unfold lock_inv, in_flight. rewrite Hpl, Hpt. simpl.
  split; [lia | reflexivity].
Qed.

Lemma lock_inv_idle (w : World) :
  lock_inv w -> isProcessingResponse (cm w) = false -> idle w.
Proof.
  intros [_ H] Hl. destruct (in_flight_zero _ (H Hl)) as [Hpl Hpt].
  repeat split; assumption.
Qed.

Lemma lock_inv_advance (t : Z) (w : World) :
  fires_under_lock (Elapse t) w = false -> lock_inv w -> lock_inv (advance t w).
Proof.
  intros Hf H. unfold advance. cbv zeta.
  apply (lock_inv_same_flight (run_timers (2 * List.length (timers w)) t w));
    [repeat split|].
  simpl in Hf. destruct (isProcessingResponse (cm w)) eqn:Hl.
  - destruct (next_timer t (timers w)) eqn:Hn; [discriminate|].
    rewrite (run_timers_none _ _ _ Hn). exact H.
  - apply idle_lock_inv. apply run_timers_invariant.
    + intros w0 tm H0 _. apply idle_run_timer, H0.
    + apply lock_inv_idle; assumption.
Qed.

Lemma lock_inv_undisturbed (es : list Event) (w : World) :
  undisturbed config es w = true -> lock_inv w -> lock_inv (run config es w).
Proof.
  revert w. induction es as [|e es IH]; intros w Hes H; [exact H|].
  simpl in Hes. apply andb_prop in Hes as [He Hes]. apply negb_true_iff in He.
  simpl. apply IH; [exact Hes|].
  destruct (is_elapse e) eqn:Ee.
  - destruct e; try discriminate. apply lock_inv_advance; assumption.
  - apply lock_inv_step; assumption.
Qed.

(** The lock of [generateAndSpeakResponse]: (a) while it is held, or the
    state is 'responding', every final transcript of any sequence handed to
    [handleFinalTranscript] is dropped: the world stays as it was, so
    nothing is queued and no generation is started; (b) a final transcript
    that passes the guards starts exactly one generation and takes the lock;
    (c) in every run of the orchestrator from its construction in which no
    timer fires while the lock is held, at most one generation is under way
    at any time, and whenever one is under way the lock is held. *)
Theorem single_generation_under_lock
    (w : World) (texts : list string) (t : string)
    (es : list Event) (window tts : bool) (t0 : Z) :
  (isProcessingResponse (cm w) = true \/ state (cm w) = responding ->
   fold_left (fun w t => handleFinalTranscript config t w) texts w = w)
  /\ (accepted t w = true ->
      let w' := handleFinalTranscript config t w in
      generation_calls (trace w') = S (generation_calls (trace w))
      /\ List.length (pendingLLM w') = S (List.length (pendingLLM w))
      /\ isProcessingResponse (cm w') = true
      /\ state (cm w') = responding)
  /\ (undisturbed config es (new_ConversationManager window tts t0) = true ->
      let w' := run config es (new_ConversationManager window tts t0) in
      (in_flight w' <= 1)%nat
      /\ (in_flight w' = 1%nat -> isProcessingResponse (cm w') = true)).
Proof.
  split; [apply dropped_sequence|]. split.
  - intros Ha. cbv zeta. rewrite (handleFinalTranscript_accepted _ _ Ha).
    apply accepted_true in Ha as (_ & Hl & _).
    destruct (turn_opened_lock t w) as (L1 & L2 & L3).
    rewrite <- L1 in Hl.
    destruct (generate_unlocked _ Hl) as (G1 & G2 & _ & _ & _ & G3 & _ & _ & _ & G4).
    rewrite G1, G2, G3, G4, L2. repeat split.
    + rewrite !generation_calls_app.
      assert (E : generation_calls (trace (turn_opened config t w)) = generation_calls (trace w)).
      { unfold turn_opened. clear. open_world w.
        destruct st, hdl, win; wsimpl; try reflexivity; count_calls. }
      rewrite E. destruct (mainWindow (cm (turn_opened config t w))); count_calls.
    + rewrite length_app. simpl. lia.
  - intros Hes. cbv zeta.
    assert (H : lock_inv (run config es (new_ConversationManager window tts t0))).
    { apply lock_inv_undisturbed; [exact Hes|]. unfold lock_inv, in_flight. simpl. split; [lia | reflexivity]. }
    destruct H as [H1 H2]. split; [exact H1|].
    intros E. destruct (isProcessingResponse _); [reflexivity|].
    specialize (H2 eq_refl). lia.
Qed.

(** *** Waiting without an answer *)

Lemma flushed_counts (t : string) (w w' : World) :
  flushed t w w' -> (final_transcripts w < final_transcripts w')%nat.
Proof.
  intros ((b & a & Ht & Hb) & _). unfold final_transcripts.
  rewrite Ht, !filter_app, !length_app, Hb. simpl. lia.
Qed.

Lemma unheard_checkTranscriptTimeout (w : World) :
  final_transcripts (checkTranscriptTimeout config w) = final_transcripts w ->
  checkTranscriptTimeout config w = w.
Proof.
  unfold checkTranscriptTimeout.
  destruct (negb _ || _) eqn:E1; [reflexivity|].
  cbv zeta. destruct (_ >=? _); [|reflexivity].
  unfold sendPendingTranscript at 2.
  destruct (truthy (pendingTranscript (stt w))) eqn:Ep; [|reflexivity].
  destruct (onTranscriptCallback (stt w)) eqn:Ecb; [|reflexivity].
  intros Hc. exfalso.
  destruct (sendPendingTranscript_flushes w Ep Ecb) as (Hf & _).
  apply flushed_counts in Hf. lia.
Qed.

Lemma unheard_onTranscribed (raw : option string) (w : World) :
  transcriber_wf w ->
  final_transcripts (onTranscribed config raw w) = final_transcripts w ->
  onTranscribed config raw w = w
  \/ onTranscribed config raw w = fragment_stored (recognisedText raw) w.
Proof.
  intros Hwf Hc.
  destruct (truthy (recognisedText raw)) eqn:Hfrag;
    [|left; unfold onTranscribed; rewrite Hfrag; reflexivity].
  right.
  pose proof (onTranscribed_spec raw w Hwf Hfrag) as Hs. cbv zeta in Hs.
  rewrite (onTranscribed_stored _ _ Hfrag) in *.
  destruct (fragment_stored_spec (recognisedText raw) w) as (S1 & _). cbv zeta in S1.
  unfold checkWakeWord in *. rewrite S1 in *.
  destruct (wakeWordDetected config _); [|reflexivity].
  exfalso. apply flushed_counts in Hs. lia.
Qed.

(** [expiring] looks at the state, the history, the count and the lock of the
    manager, at the timers and at the clock. *)
Lemma expiring_frame (P : Timer) (w w' : World) :
  state (cm w') = state (cm w) ->
  conversationHistory (cm w') = conversationHistory (cm w) ->
  exchangeCount (cm w') = exchangeCount (cm w) ->
  isProcessingResponse (cm w') = isProcessingResponse (cm w) ->
  timers w' = timers w -> nextId w' = nextId w -> now w' = now w ->
  expiring P w -> expiring P w'.
Proof.
  unfold expiring, timers_wf. intros -> -> -> -> -> -> ->. auto.
Qed.

Lemma expiring_onAudioChunk (P : Timer) (b : Buffer) (w : World) :
  expiring P w -> expiring P (onAudioChunk b w).
Proof.
  unfold onAudioChunk. destruct (shouldForward w); [|auto].
  apply expiring_frame; open_world w; destruct strm; reflexivity.
Qed.

Lemma expiring_fragment_stored (P : Timer) (frag : string) (w : World) :
  expiring P w -> expiring P (fragment_stored frag w).
Proof.
  unfold fragment_stored, invoke_onUserSpeaking, expiring, timers_wf.
  open_world w. destruct cbU, st, win; wsimpl; intros (Hwf & HJ);
    (split; [exact Hwf|]);
    (destruct HJ as [(Hs & HJ) | [(Hs & HJ) | (Hs & HJ)]];
     [ first [discriminate Hs | left; split; [reflexivity | exact HJ]]
     | right; left; split; [first [exact Hs | discriminate] | exact HJ]
     | right; right; split; [first [exact Hs | discriminate] | exact HJ] ]).
Qed.

Lemma expiring_advance (P : Timer) (t : Z) (w : World) :
  callback P = ResponseTimeout -> expiring P w -> expiring P (advance t w).
Proof.
  intros HP He.
  pose proof (advance_complete t w) as Hnone.
  unfold advance in *. cbv zeta in *.
  change (timers (set_now _ ?x)) with (timers x) in Hnone.
  assert (Hrun : expiring P (run_timers (2 * List.length (timers w)) t w)).
  { apply run_timers_invariant; [|exact He].
    intros w' tm HJ Hn. apply (expiring_step P tm t w' HP HJ Hn). }
  set (w' := run_timers (2 * List.length (timers w)) t w) in *.
  destruct Hrun as (Hwf & HJ). split; [exact Hwf|].
  destruct HJ as [HJ | [(Hs & HinP & Hn) | HJ]]; [left; exact HJ | | right; right; exact HJ].
  right. left. split; [exact Hs|]. split; [exact HinP|].
  pose proof (next_timer_none _ _ Hnone _ HinP) as Hlate.
  change (now (set_now ?n _)) with n. lia.
Qed.

Lemma waiting_step_expiring (P : Timer) (e : Event) (w : World) :
  callback P = ResponseTimeout ->
  waiting_event e = true ->
  final_transcripts (step config e w) = final_transcripts w ->
  transcriber_wf w -> expiring P w -> expiring P (step config e w).
Proof.
  intros HP He Hc Hwf H. destruct e; try discriminate; unfold step in *.
  - apply expiring_onAudioChunk, H.
  - rewrite (unheard_checkTranscriptTimeout w Hc). exact H.
  - destruct (unheard_onTranscribed raw w Hwf Hc) as [-> | ->];
      [exact H | apply expiring_fragment_stored, H].
  - revert H. apply expiring_frame; reflexivity.
  - revert H. apply expiring_frame; reflexivity.
  - revert H. apply expiring_frame; reflexivity.
  - revert H. apply expiring_frame; reflexivity.
  - apply expiring_advance; assumption.
Qed.

Lemma unanswered_expiring (P : Timer) (es : list Event) (w : World) :
  callback P = ResponseTimeout ->
  unanswered config es w = true ->
  transcriber_wf w -> expiring P w -> expiring P (run config es w).
Proof.
  intros HP. revert w. induction es as [|e es IH]; intros w Hes Hwf H; [exact H|].
  simpl in Hes. apply andb_prop in Hes as [Hes Hrest]. apply andb_prop in Hes as [He Hc].
  apply Nat.eqb_eq in Hc.
  simpl. apply IH; [exact Hrest | apply transcriber_wf_step, Hwf |].
  apply waiting_step_expiring; assumption.
Qed.

(** Once the response timer [P] and its grace period are over, a
    conversation that was on its way out is over. *)
Lemma expired (P : Timer) (w : World) :
  callback P = ResponseTimeout -> expiring P w ->
  let w2 := advance (due P + GRACE_MS) w in
  state (cm w2) = monitoring
  /\ conversationHistory (cm w2) = []
  /\ exchangeCount (cm w2) = 0
  /\ isProcessingResponse (cm w2) = false.
Proof.
  intros HP He. cbv zeta.
  pose proof (advance_complete (due P + GRACE_MS) w) as Hnone.
  pose proof (expiring_advance P (due P + GRACE_MS) w HP He) as (_ & HJ).
  destruct HJ as [HJ | [(_ & HinP & _) | (_ & G & HG & _ & HdG)]].
  - exact HJ.
  - exfalso. pose proof (next_timer_none _ _ Hnone _ HinP) as H.
    unfold GRACE_MS in H. lia.
  - exfalso. pose proof (next_timer_none _ _ Hnone _ HG) as H. lia.
Qed.

Lemma keeps_buffer_enterConversationMode (m : ConversationMode) :
  keeps_buffer (enterConversationMode config m).
Proof. intros w. open_world w. destruct hdl, win; wsimpl; buffer. Qed.

(** C6 (as amended): when a conversation is entered, in any state the
    orchestrator reaches, and until the deadline nothing happens but audio
    chunks, work of the transcriber that commits no final transcript,
    playback notices, activity and window updates and the passing of time
    (so no answer of the language model or of the synthesiser arrives, which
    would arm the response timer anew, and no callout, [start()] or
    [stop()]), then at the configured response timeout plus the grace
    period of two seconds the orchestrator is in 'monitoring', its history
    is the empty list, the exchange count is 0 and the lock is free: the
    response timer leaves a grace timer behind, and the grace timer exits
    when the state is not 'monitoring'.  When no other timer was pending and
    only time passes, the state stays 'conversation' at every earlier
    time.  The configured timeout is one that [setTimeout] takes as it is
    (1 .. 2^31-1 ms). *)
Theorem C6_timeout_recovery (es : list Event) (window tts : bool) (t0 : Z)
  (m : ConversationMode) (wait : list Event)
  (Ht0 : 0 < t0)
  (Hcfg : 1 <= conversationResponseTimeout config <= 2147483647) :
  let w := run config es (new_ConversationManager window tts t0) in
  let w1 := enterConversationMode config m w in
  let deadline := now w + conversationResponseTimeout config + GRACE_MS in
  unanswered config wait w1 = true ->
  let w2 := run config (wait ++ [Elapse deadline]) w1 in
  state (cm w1) = conversation
  /\ state (cm w2) = monitoring
  /\ conversationHistory (cm w2) = []
  /\ exchangeCount (cm w2) = 0
  /\ isProcessingResponse (cm w2) = false
  /\ (timers w = [] ->
      forall t, t < deadline -> state (cm (advance t w1)) = conversation).
Proof.
  intros w w1 deadline Hwait w2.
  destruct (timeout_recovery m w (timers_wf_run es window tts t0) Hcfg)
    as (Hentered & _ & _ & _ & _ & Hbefore).
  cbv zeta in Hentered, Hbefore.
  split; [exact Hentered|].
  assert (Hd : timeout_delay (conversationResponseTimeout config)
               = conversationResponseTimeout config).
  { unfold timeout_delay.
    destruct Hcfg as [H1 H2]. apply Z.leb_le in H1, H2. rewrite H1, H2. reflexivity. }
  pose proof (entered_expiring m w (timers_wf_run es window tts t0)) as He.
  rewrite Hd in He.
  set (P := {| handle := nextId w;
               due := now w + conversationResponseTimeout config;
               callback := ResponseTimeout |}) in *.
  assert (Hwf1 : transcriber_wf w1).
  { apply (transcriber_wf_buffer_kept w); [apply keeps_buffer_enterConversationMode|].
    apply transcriber_wf_run, Ht0. }
  pose proof (unanswered_expiring P wait w1 eq_refl Hwait Hwf1 He) as Hlate.
  destruct (expired P _ eq_refl Hlate) as (E1 & E2 & E3 & E4).
  assert (Ew2 : w2 = advance (due P + GRACE_MS) (run config wait w1)).
  { subst w2. unfold run. rewrite fold_left_app. reflexivity. }
  rewrite Ew2. repeat split; try assumption.
Qed.

(** *** A conversation that runs its course *)

Ltac unflag :=
  rewrite ?should_end_flags_app; cbn [should_end_flags flat_map app];
  rewrite ?app_nil_r; reflexivity.

Ltac turn :=
  unfold same_turn, same_flight; wsimpl;
  repeat split;
  first [ reflexivity
        | apply incl_refl
        | unflag
        | left; reflexivity
        | right; split; reflexivity ].

Lemma same_turn_refl (w : World) : same_turn w w.
Proof. turn. Qed.

Lemma same_turn_trans (w1 w2 w3 : World) :
  same_turn w1 w2 -> same_turn w2 w3 -> same_turn w1 w3.
Proof.
  intros ((A1 & A2 & A3) & A4 & A5 & A6 & A7 & A8 & A9)
         ((B1 & B2 & B3) & B4 & B5 & B6 & B7 & B8 & B9).
  unfold same_turn, same_flight.
  rewrite B1, B2, B3, B4, B5, B6, B8.
  repeat split; try assumption.
  - intros tm Hin. apply A7, B7, Hin.
  - destruct B9 as [B9 | [B9 B10]].
    + rewrite B9. exact A9.
    + destruct A9 as [A9 | [A9 A10]]; [|congruence].
      right. split; congruence.
Qed.

Lemma same_turn_onAudioChunk (b : Buffer) (w : World) : same_turn w (onAudioChunk b w).
Proof.
  unfold onAudioChunk. destruct (shouldForward w); [|apply same_turn_refl].
  open_world w. destruct strm; turn.
Qed.

Lemma same_turn_emit_transcript (final : bool) (t : string) (ts : Z) (w : World) :
  same_turn w (emit (EmitTranscript final t ts) w).
Proof. open_world w. turn. Qed.

Lemma same_turn_assign_stt {A} (set : A -> WhisperCppClient -> WhisperCppClient) (v : A)
    (w : World) :
  same_turn w (assign_stt set v w).
Proof. turn. Qed.

Lemma same_turn_invoke_onUserSpeaking (b : bool) (w : World) :
  same_turn w (invoke_onUserSpeaking b w).
Proof.
  unfold invoke_onUserSpeaking. open_world w.
  destruct cbU, b, st, win; turn.
Qed.

Lemma same_turn_fragment_stored (frag : string) (w : World) :
  same_turn w (fragment_stored frag w).
Proof.
  unfold fragment_stored. cbv zeta.
  eapply same_turn_trans; [|apply (same_turn_assign_stt stt_set_lastTranscriptTime)].
  eapply same_turn_trans; [|apply same_turn_invoke_onUserSpeaking].
  eapply same_turn_trans; [|apply (same_turn_assign_stt stt_set_isUserSpeaking)].
  eapply same_turn_trans; [|apply (same_turn_assign_stt stt_set_lastTranscriptChunkTime)].
  apply (same_turn_assign_stt stt_set_pendingTranscript).
Qed.

Lemma forallb_filter {A} (f g : A -> bool) (l : list A) :
  forallb f l = true -> forallb f (filter g l) = true.
Proof.
  rewrite !forallb_forall. intros H x Hin. apply filter_In in Hin as [Hin _]. auto.
Qed.

Lemma existsb_incl_false {A} (f : A -> bool) (l l' : list A) :
  incl l' l -> existsb f l = false -> existsb f l' = false.
Proof.
  intros Hi H. destruct (existsb f l') eqn:E; [|reflexivity].
  apply existsb_exists in E as (x & Hin & Hx).
  assert (E : existsb f l = true) by (apply existsb_exists; exists x; auto).
  congruence.
Qed.

(** A check of the microphone that runs changes nothing of the turn. *)
Lemma same_turn_mic_check (tm : Timer) (w : World) :
  is_mic_check tm = true -> same_turn w (run_timer tm w).
Proof.
  destruct tm as [h d cb]. unfold is_mic_check, run_timer. simpl callback.
  destruct cb; try discriminate. intros _.
  open_world w. unfold same_turn, same_flight. wsimpl.
  repeat split; try reflexivity; [apply incl_filter | left; reflexivity].
Qed.

Lemma no_timeout_mic_check (t : Z) (tm : Timer) (w : World) :
  is_mic_check tm = true -> no_timeout_by t w = true ->
  no_timeout_by t (run_timer tm w) = true.
Proof.
  destruct tm as [h d cb]. unfold is_mic_check, run_timer, no_timeout_by. simpl callback.
  destruct cb; try discriminate. intros _.
  open_world w. wsimpl. apply forallb_filter.
Qed.

(** Time in which no response timer and no grace timer runs changes nothing
    of the turn. *)
Lemma same_turn_advance (t : Z) (w : World) :
  no_timeout_by t w = true -> same_turn w (advance t w).
Proof.
  intros H. unfold advance. cbv zeta.
  assert (HJ : same_turn w (run_timers (2 * List.length (timers w)) t w)
               /\ no_timeout_by t (run_timers (2 * List.length (timers w)) t w) = true).
  { apply (run_timers_invariant
             (fun w' => same_turn w w' /\ no_timeout_by t w' = true));
      [|split; [apply same_turn_refl | exact H]].
    intros w1 tm (Hs & Hn) Hnext.
    destruct (next_timer_spec _ _ _ Hnext) as (Hin & Hdue & _).
    assert (Hm : is_mic_check tm = true).
    { unfold no_timeout_by in Hn. rewrite forallb_forall in Hn.
      specialize (Hn tm Hin). apply orb_true_iff in Hn as [Hn | Hn]; [|exact Hn].
      apply Z.ltb_lt in Hn. lia. }
    split.
    - eapply same_turn_trans; [exact Hs | apply same_turn_mic_check, Hm].
    - apply no_timeout_mic_check; assumption. }
  destruct HJ as (HJ & _).
  eapply same_turn_trans; [exact HJ|].
  unfold same_turn, same_flight. simpl.
  repeat split; try reflexivity; [apply incl_refl | left; reflexivity].
Qed.

Lemma idle_same_turn (w w' : World) : same_turn w w' -> idle w -> idle w'.
Proof.
  intros ((A1 & A2 & A3) & _) (H1 & H2 & H3). unfold idle.
  rewrite A1, A2, A3. auto.
Qed.

Lemma held_same_turn (w w' : World) :
  same_turn w w' -> response_timer_held w -> response_timer_held w'.
Proof.
  intros (_ & _ & _ & A6 & A7 & _) H tm Hin Hcb.
  rewrite A6. apply H; [apply A7, Hin | exact Hcb].
Qed.

Lemma pending_same_turn (w w' : World) :
  same_turn w w' -> response_timer_pending w = false -> response_timer_pending w' = false.
Proof.
  intros (_ & _ & _ & _ & A7 & _). apply existsb_incl_false, A7.
Qed.

Lemma away_same_turn (w w' : World) :
  same_turn w w' -> state (cm w) <> monitoring -> state (cm w') <> monitoring.
Proof.
  intros (_ & _ & _ & _ & _ & _ & [A9 | [_ A9]]) H; rewrite A9; [exact H | discriminate].
Qed.

Lemma stage_same_turn (f0 : list bool) (k : nat) (w w' : World) :
  same_turn w w' -> stage config f0 w k -> stage config f0 w' k.
Proof.
  intros Hs H.
  pose proof Hs as ((A1 & A2 & A3) & A4 & A5 & A6 & A7 & A8 & A9).
  destruct H as [k Hk (Hi & Hst & Hn & Hh) Hf
                | k Hk Hst (G1 & G2 & G3 & G4 & G5 & G6 & G7)
                | k Hk Hst (G1 & G2 & G3 & G4 & G5 & G6 & G7)
                | k Hk Hf (Hi & O2 & O3 & O4 & O5 & O6)].
  - apply stage_open; [exact Hk | | congruence].
    split; [eapply idle_same_turn; eassumption|].
    split; [destruct A9 as [A9 | [A9 _]]; congruence|].
    split; [congruence | eapply held_same_turn; eassumption].
  - apply stage_generating; [exact Hk | eapply away_same_turn; eassumption |].
    unfold generating. rewrite A1, A2, A3, A4, A6, A8.
    repeat split; try assumption. eapply pending_same_turn; eassumption.
  - apply stage_speaking; [exact Hk | eapply away_same_turn; eassumption |].
    unfold speaking. rewrite A1, A2, A3, A4, A6, A8.
    repeat split; try assumption. eapply pending_same_turn; eassumption.
  - apply stage_over; [exact Hk | congruence |].
    split; [eapply idle_same_turn; eassumption|].
    split; [destruct A9 as [A9 | [A9 _]]; congruence|].
    split; [congruence|]. split; [congruence|]. split; [congruence|].
    eapply pending_same_turn; eassumption.
Qed.

Lemma flags_of_responses_succ (k : nat) :
  flags_of_responses config (S k)
  = flags_of_responses config k
    ++ [Z.of_nat k + 1 >=? conversationAutoEndExchanges config].
Proof.
  unfold flags_of_responses. rewrite seq_S, map_app. cbn [map].
  replace (Z.of_nat (1 + k)) with (Z.of_nat k + 1) by lia. reflexivity.
Qed.

(** A final transcript opens the next turn when the conversation waits for
    the user, and is dropped while a response is under way. *)
Lemma stage_handleFinalTranscript (f0 : list bool) (k : nat) (t : string) (w : World) :
  stage config f0 w k -> state (cm w) <> monitoring ->
  exists k', stage config f0 (handleFinalTranscript config t w) k'.
Proof.
  intros H Haway. destruct (accepted t w) eqn:Ha;
    [|rewrite (handleFinalTranscript_rejected _ _ Ha); exists k; exact H].
  pose proof Ha as Ha'. apply accepted_true in Ha' as (Hnoise & Hlock & _).
  destruct H as [k Hk Hopen Hf
                | k Hk Hst (G1 & _) | k Hk Hst (G1 & _)
                | k Hk Hf (_ & O2 & _)]; try congruence.
  exists (S k).
  pose proof (turn_starts _ t w Hopen Hnoise) as Hg. cbv zeta in Hg.
  apply stage_generating.
  - lia.
  - rewrite (handleFinalTranscript_accepted _ _ Ha).
    destruct (turn_opened_lock t w) as (L1 & _). rewrite <- L1 in Hlock.
    destruct (generate_unlocked _ Hlock) as (_ & -> & _). discriminate.
  - rewrite flags_of_responses_succ, app_assoc, <- Hf.
    replace (Z.of_nat (S k)) with (Z.of_nat k + 1) by lia. exact Hg.
Qed.

Lemma stage_checkTranscriptTimeout (f0 : list bool) (k : nat) (w : World) :
  stage config f0 w k -> state (cm w) <> monitoring ->
  exists k', stage config f0 (checkTranscriptTimeout config w) k'.
Proof.
  intros H Haway. unfold checkTranscriptTimeout.
  destruct (negb _ || _); [exists k; exact H|].
  cbv zeta. destruct (_ >=? _); [|exists k; exact H].
  unfold sendPendingTranscript.
  destruct (negb _ || negb _); [exists k; exact H|].
  cbv beta zeta delta [andThen]. unfold invoke_onTranscript. cbv beta zeta delta [andThen].
  set (ft := trim (pendingTranscript (stt w))).
  set (w1 := emit (EmitTranscript true ft (now w)) w).
  assert (H1 : stage config f0 w1 k)
    by (apply (stage_same_turn f0 k w); [apply same_turn_emit_transcript | exact H]).
  assert (Haway1 : state (cm w1) <> monitoring) by exact Haway.
  destruct (stage_handleFinalTranscript f0 k ft w1 H1 Haway1) as (k' & H2).
  exists k'.
  eapply stage_same_turn; [apply same_turn_invoke_onUserSpeaking|].
  eapply stage_same_turn; [apply (same_turn_assign_stt stt_set_isUserSpeaking)|].
  eapply stage_same_turn; [apply (same_turn_assign_stt stt_set_pendingTranscript)|].
  exact H2.
Qed.

Lemma step_generated_missing (id : nat) (t : string) (ts : Z) (w : World) :
  take_generation id (pendingLLM w) = None ->
  step config (ResponseGenerated id t ts) w = w.
Proof. intros E. unfold step. rewrite E. reflexivity. Qed.

Lemma step_synthesized_missing (id : nat) (r : TtsOutcome) (w : World) :
  take_speech id (pendingTTS w) = None ->
  step config (SpeechSynthesized id r) w = w.
Proof. intros E. unfold step. rewrite E. reflexivity. Qed.

(** When the answer of the language model is handed to the synthesiser the
    state is left as it was. *)
Lemma speaking_state (p : PendingGeneration) (t : string) (ts : Z) (w : World) :
  pendingLLM w = [p] -> pendingTTS w = [] ->
  let w2 := step config (ResponseGenerated (gen_id p) t ts) w in
  pendingTTS w2 <> [] -> state (cm w2) = state (cm w).
Proof.
  intros Hp Hpt. cbv zeta. rewrite (step_generated_found _ _ _ _ Hp).
  unfold onResponseGenerated, speakResponse. cbv beta delta [andThen].
  match goal with
  | |- context [if ?c then _ else _] => destruct c eqn:Ec
  end.
  - intros Hne. exfalso. apply Hne. clear - Hpt. revert Hpt.
    open_world w. simpl. intros ->.
    destruct (gen_shouldEnd p), win, st, hdl; reflexivity.
  - intros _. open_world w. reflexivity.
Qed.

(** The end of a turn: the conversation waits for the next utterance, or it
    is over when the response was the one made with [shouldEnd]. *)
Lemma stage_turn_over (f0 : list bool) (k : nat) (w : World) :
  Z.of_nat k <= conversationAutoEndExchanges config ->
  turn_over (Z.of_nat k) (Z.of_nat k >=? conversationAutoEndExchanges config)
            (f0 ++ flags_of_responses config k) w ->
  stage config f0 w k.
Proof.
  intros Hk Ht.
  destruct (Z.of_nat k >=? conversationAutoEndExchanges config) eqn:E.
  - destruct Ht as (Hi & _ & Hf & _ & Hend).
    destruct (Hend eq_refl) as (E1 & E2 & E3 & E4 & E5).
    rewrite Z.geb_leb in E. apply Z.leb_le in E.
    apply stage_over; [lia | exact Hf |]. repeat split; try assumption; apply Hi.
  - pose proof (turn_over_open _ _ _ Ht) as Hopen.
    destruct Ht as (_ & _ & Hf & _).
    rewrite Z.geb_leb in E. apply Z.leb_gt in E.
    apply stage_open; [lia | exact Hopen | exact Hf].
Qed.

Lemma stage_response_generated (f0 : list bool) (k : nat) (id : nat) (t : string) (ts : Z)
    (w : World) :
  stage config f0 w k ->
  stage config f0 (step config (ResponseGenerated id t ts) w) k.
Proof.
  intros H.
  destruct (take_generation id (pendingLLM w)) as [p|] eqn:E;
    [|rewrite (step_generated_missing _ _ _ _ E); exact H].
  destruct H as [k Hk ((_ & Hpl & _) & _) Hf
                | k Hk Hst Hg | k Hk Hst (_ & _ & Hpl & _)
                | k Hk Hf ((_ & Hpl & _) & _)];
    try (rewrite Hpl in E; discriminate E).
  destruct (model_answers _ _ _ t ts _ Hg) as (p' & Hp' & Hs). cbv zeta in Hs.
  assert (Hid : gen_id p' = id).
  { unfold take_generation in E. rewrite Hp' in E. simpl in E.
    destruct (gen_id p' =? id)%nat eqn:En; [|discriminate].
    apply Nat.eqb_eq, En. }
  rewrite Hid in Hs.
  destruct Hs as [Hs | [_ Hs]].
  - apply stage_speaking; [exact Hk | | exact Hs].
    destruct Hg as (_ & _ & _ & Hpt & _).
    pose proof (speaking_state p' t ts w Hp' Hpt) as Hstate. cbv zeta in Hstate.
    rewrite Hid in Hstate. rewrite Hstate; [exact Hst|].
    destruct Hs as (_ & _ & _ & (i & x & ->) & _). discriminate.
  - apply stage_turn_over; assumption.
Qed.

Lemma stage_speech_synthesized (f0 : list bool) (k : nat) (id : nat) (r : TtsOutcome)
    (w : World) :
  stage config f0 w k ->
  stage config f0 (step config (SpeechSynthesized id r) w) k.
Proof.
  intros H.
  destruct (take_speech id (pendingTTS w)) as [q|] eqn:E;
    [|rewrite (step_synthesized_missing _ _ _ E); exact H].
  destruct H as [k Hk ((_ & _ & Hpt) & _) Hf
                | k Hk Hst (_ & _ & _ & Hpt & _) | k Hk Hst Hs
                | k Hk Hf ((_ & _ & Hpt) & _)];
    try (rewrite Hpt in E; discriminate E).
  destruct (synthesiser_answers _ _ _ r _ Hs) as (q' & Hq' & Ht).
  assert (Hid : tts_id q' = id).
  { unfold take_speech in E. rewrite Hq' in E. simpl in E.
    destruct (tts_id q' =? id)%nat eqn:En; [|discriminate].
    apply Nat.eqb_eq, En. }
  rewrite Hid in Ht. apply stage_turn_over; assumption.
Qed.

(** One event of a conversation that runs its course. *)
Lemma stage_step (f0 : list bool) (k : nat) (e : Event) (w : World) :
  transcriber_wf w -> stage config f0 w k ->
  state (cm w) <> monitoring -> conversing_event config e w = true ->
  exists k', stage config f0 (step config e w) k'.
Proof.
  intros Hwf H Haway He. destruct e; simpl in He; try discriminate He.
  - exists k. apply (stage_same_turn f0 k w); [apply same_turn_onAudioChunk | exact H].
  - apply (stage_checkTranscriptTimeout f0 k); assumption.
  - exists k. apply Nat.eqb_eq in He.
    change (step config (Transcribed raw) w) with (onTranscribed config raw w) in *.
    destruct (unheard_onTranscribed raw w Hwf He) as [-> | ->]; [exact H|].
    apply (stage_same_turn f0 k w); [apply same_turn_fragment_stored | exact H].
  - exists k. apply (stage_same_turn f0 k w); [|exact H]. unfold step, setPlaybackActive. turn.
  - exists k. apply (stage_same_turn f0 k w); [|exact H]. unfold step, setPlaybackActive. turn.
  - exists k. apply (stage_same_turn f0 k w); [|exact H]. unfold step. turn.
  - exists k. apply (stage_same_turn f0 k w); [|exact H]. unfold step. turn.
  - exists k. apply stage_response_generated, H.
  - exists k. apply stage_speech_synthesized, H.
  - exists k. apply (stage_same_turn f0 k w); [apply same_turn_advance, He | exact H].
Qed.

Lemma stage_run (f0 : list bool) (es : list Event) (k : nat) (w : World) :
  transcriber_wf w -> stage config f0 w k ->
  in_conversation config es w = true ->
  exists k', stage config f0 (run config es w) k'.
Proof.
  revert k w. induction es as [|e es IH]; intros k w Hwf H Hes; [exists k; exact H|].
  simpl in Hes. apply andb_prop in Hes as [Hes Hrest]. apply andb_prop in Hes as [Ha He].
  apply negb_true_iff, state_eqb_neq in Ha.
  destruct (stage_step f0 k e w Hwf H Ha He) as (k1 & H1).
  simpl. apply (IH k1); [apply transcriber_wf_step, Hwf | exact H1 | exact Hrest].
Qed.

Lemma flags_enterConversationMode (m : ConversationMode) (w : World) :
  should_end_flags (trace (enterConversationMode config m w)) = should_end_flags (trace w).
Proof. open_world w. destruct hdl, win; wsimpl; unflag. Qed.

(** A final transcript that finds the orchestrator in 'monitoring' enters
    the conversation and is then handled as its first turn. *)
Lemma auto_detect_entry (t : string) (w : World) :
  state (cm w) = monitoring ->
  handleFinalTranscript config t w
  = (if accepted t w
     then handleFinalTranscript config t (enterConversationMode config auto_detect w)
     else w).
Proof.
  intros Hs. destruct (accepted t w) eqn:Ha;
    [|apply handleFinalTranscript_rejected, Ha].
  assert (Ha' : accepted t (enterConversationMode config auto_detect w) = true).
  { revert Ha. unfold accepted. open_world w. simpl in Hs. subst.
    destruct hdl, win; wsimpl; intros H; rewrite ?andb_true_r in *; exact H. }
  rewrite (handleFinalTranscript_accepted _ _ Ha), (handleFinalTranscript_accepted _ _ Ha').
  f_equal. f_equal. unfold turn_opened. open_world w. simpl in Hs. subst.
  destruct hdl, win; wsimpl; reflexivity.
Qed.

(** The stage of a conversation right after the event that entered it. *)
Lemma stage_entered (e : Event) (w : World) :
  1 <= conversationAutoEndExchanges config ->
  idle w -> response_timer_held w ->
  entering_event e w = true ->
  state (cm (step config e w)) <> monitoring ->
  exists k, stage config (should_end_flags (trace w)) (step config e w) k.
Proof.
  intros Hlimit Hidle Hheld He Hin. destruct e; try discriminate He.
  - (* the periodic check commits an utterance *)
    simpl in He. apply state_eqb_eq in He.
    unfold step in *. revert Hin. unfold checkTranscriptTimeout.
    destruct (negb _ || _); [congruence|].
    cbv zeta. destruct (_ >=? _); [|congruence].
    unfold sendPendingTranscript.
    destruct (negb _ || negb _); [congruence|].
    cbv beta zeta delta [andThen]. unfold invoke_onTranscript. cbv beta zeta delta [andThen].
    set (ft := trim (pendingTranscript (stt w))).
    set (w1 := emit (EmitTranscript true ft (now w)) w).
    assert (Hs1 : state (cm w1) = monitoring) by exact He.
    assert (T1 : same_turn w w1) by apply same_turn_emit_transcript.
    rewrite (auto_detect_entry ft w1 Hs1).
    set (w2 := if accepted ft w1
               then handleFinalTranscript config ft
                      (enterConversationMode config auto_detect w1)
               else w1).
    set (w3 := invoke_onUserSpeaking false
                 (assign_stt stt_set_isUserSpeaking false
                    (assign_stt stt_set_pendingTranscript "" w2))).
    assert (T3 : same_turn w2 w3).
    { eapply same_turn_trans; [|apply same_turn_invoke_onUserSpeaking].
      eapply same_turn_trans; [|apply (same_turn_assign_stt stt_set_isUserSpeaking)].
      apply (same_turn_assign_stt stt_set_pendingTranscript). }
    intros Hin.
    destruct (accepted ft w1) eqn:Ha.
    + apply accepted_true in Ha as (Hnoise & _).
      assert (Hopen : conversation_open 0 (enterConversationMode config auto_detect w1)).
      { apply entered_open; [eapply idle_same_turn | eapply held_same_turn]; eassumption. }
      assert (S0 : stage config (should_end_flags (trace w))
                     (enterConversationMode config auto_detect w1) 0).
      { apply stage_open; [simpl; lia | exact Hopen |].
        rewrite flags_enterConversationMode. destruct T1 as (_ & _ & _ & _ & _ & -> & _).
        unfold flags_of_responses. simpl. rewrite app_nil_r. reflexivity. }
      destruct (stage_handleFinalTranscript _ 0%nat ft _ S0) as (k & Hk).
      { destruct Hopen as (_ & -> & _). discriminate. }
      exists k. apply (stage_same_turn _ k w2); [exact T3 | exact Hk].
    + exfalso. apply Hin.
      destruct T3 as (_ & _ & _ & _ & _ & _ & [-> | [E _]]); [exact Hs1|].
      subst w2. congruence.
  - (* a callout *)
    exists 0%nat. unfold step, startCalloutConversation. cbv beta delta [andThen].
    apply stage_open; [simpl; lia | |].
    + apply entered_open; [exact Hidle | exact Hheld].
    + rewrite flags_enterConversationMode. unfold flags_of_responses. simpl.
      rewrite app_nil_r. reflexivity.
  - (* start() *)
    simpl in He. apply state_eqb_eq in He.
    exists 0%nat.
    assert (Hst : state (cm (step config (Start e) w)) = conversation
                  /\ exchangeCount (cm (step config (Start e) w)) = 0
                  /\ should_end_flags (trace (step config (Start e) w))
                     = should_end_flags (trace w)).
    { revert Hin. unfold step, start.
      destruct (voiceListeningEnabled config); simpl negb; cbv iota; [|simpl; congruence].
      destruct (micPermissionGranted e); simpl negb; cbv iota; [|simpl; congruence].
      clear Hidle Hheld. open_world w. simpl in He. subst.
      destruct ini, strm, rec, (whisperLoads e), (microphoneStarts e); wsimpl0;
        intros Hin; try (exfalso; apply Hin; reflexivity);
        destruct hdl, win; wsimpl; repeat split; unflag. }
    destruct Hst as (S1 & S2 & S3).
    apply stage_open; [simpl; lia | |].
    + split; [|split; [exact S1 | split; [exact S2 | apply held_step, Hheld]]].
      destruct (neutral_start e w) as (N1 & N2 & N3).
      destruct Hidle as (I1 & I2 & I3). unfold idle, step. cbv beta in N1, N2, N3.
      rewrite N1, N2, N3. auto.
    + rewrite S3. unfold flags_of_responses. simpl. rewrite app_nil_r. reflexivity.
Qed.

Lemma flags_of_responses_false (k : nat) :
  Z.of_nat k < conversationAutoEndExchanges config ->
  flags_of_responses config k = repeat false k.
Proof.
  induction k as [|k IH]; intros H; [reflexivity|].
  rewrite flags_of_responses_succ, IH by lia.
  assert (E : (Z.of_nat k + 1 >=? conversationAutoEndExchanges config) = false).
  { rewrite Z.geb_leb. apply Z.leb_gt. lia. }
  rewrite E. simpl repeat. apply eq_sym, repeat_cons.
Qed.

Lemma flags_of_responses_last (k : nat) :
  Z.of_nat k = conversationAutoEndExchanges config -> (1 <= k)%nat ->
  flags_of_responses config k = repeat false (k - 1) ++ [true].
Proof.
  intros H Hk. destruct k as [|k]; [lia|].
  rewrite flags_of_responses_succ, flags_of_responses_false by lia.
  assert (E : (Z.of_nat k + 1 >=? conversationAutoEndExchanges config) = true).
  { rewrite Z.geb_leb. apply Z.leb_le. lia. }
  rewrite E. replace (S k - 1)%nat with k by lia. reflexivity.
Qed.

Lemma turn_over_ended (n : Z) (f : list bool) (w : World) :
  turn_over n true f w -> conversation_over w.
Proof.
  intros (Hi & _ & _ & _ & Hend).
  destruct (Hend eq_refl) as (E1 & E2 & E3 & E4 & E5).
  repeat split; try assumption; apply Hi.
Qed.

(** C2 (as amended).  A conversation is entered while no response is under
    way, in a state the orchestrator reaches, with a limit of at least one
    exchange: by a callout, or, with the orchestrator in 'monitoring', by
    [start()] or by an utterance that the periodic check of the transcriber
    commits (auto-detect).  Then it runs its course: audio arrives, the transcriber
    works and commits the user's turns after the silence, the language
    model and the synthesiser answer, time passes; no response timer and no
    grace timer runs, no wake word is detected, no callout and no call of
    [start()] or [stop()] arrives, no generation fails.  At every point of
    such a conversation, with [k] the number of responses asked for since
    it was entered: [k] is at most the limit; while [k] is below the limit
    every call of the language model of the conversation was made with
    shouldEnd = false, the orchestrator is out of 'monitoring', and when no
    response is under way it is in 'conversation' with the count at [k],
    and the next utterance that is not noise starts response [k] + 1 with
    shouldEnd = ([k] + 1 >= limit), which is true exactly after limit - 1
    responses; when [k] is the limit, response number limit, and no other,
    was asked for with shouldEnd = true, and the conversation is over as
    soon as that response has been spoken: in the very step in which the
    synthesiser answers (or the language model, when nothing is to be
    synthesised) the orchestrator is back in 'monitoring' with the history
    empty, the count 0, the timeout handle cleared and no response timer
    pending, and so it is whenever no response is under way. *)
Theorem C2_automatic_end (es : list Event) (window tts : bool) (t0 : Z)
  (entry : Event) (conv : list Event)
  (Ht0 : 0 < t0)
  (Hidle : idle (run config es (new_ConversationManager window tts t0)))
  (Hlimit : 1 <= conversationAutoEndExchanges config) :
  let w := run config es (new_ConversationManager window tts t0) in
  let w0 := step config entry w in
  let w' := run config conv w0 in
  entering_event entry w = true ->
  state (cm w0) <> monitoring ->
  in_conversation config conv w0 = true ->
  exists k : nat,
    Z.of_nat k <= conversationAutoEndExchanges config
    /\ (Z.of_nat k < conversationAutoEndExchanges config ->
        should_end_flags (trace w') = should_end_flags (trace w) ++ repeat false k
        /\ state (cm w') <> monitoring
        /\ (idle w' ->
            state (cm w') = conversation
            /\ exchangeCount (cm w') = Z.of_nat k
            /\ forall t, isNoise t = false ->
                 map gen_shouldEnd (pendingLLM (handleFinalTranscript config t w'))
                 = [Z.of_nat k + 1 >=? conversationAutoEndExchanges config]))
    /\ (Z.of_nat k = conversationAutoEndExchanges config ->
        should_end_flags (trace w')
        = should_end_flags (trace w) ++ repeat false (k - 1) ++ [true]
        /\ (idle w' -> conversation_over w')
        /\ (forall q r, pendingTTS w' = [q] ->
              conversation_over (step config (SpeechSynthesized (tts_id q) r) w'))
        /\ (forall p t ts, pendingLLM w' = [p] ->
              let w2 := step config (ResponseGenerated (gen_id p) t ts) w' in
              pendingTTS w2 = [] -> conversation_over w2)).
Proof.
  intros w w0 w' Hentry Hentered Hconv.
  assert (Hwf : transcriber_wf w0)
    by (apply transcriber_wf_step, transcriber_wf_run, Ht0).
  destruct (stage_entered entry w Hlimit Hidle (response_timer_held_run es window tts t0)
              Hentry Hentered) as (k0 & H0).
  fold w0 in H0.
  destruct (stage_run _ conv k0 w0 Hwf H0 Hconv) as (k & H). fold w' in H.
  exists k.
  destruct H as [k Hk Hopen' Hf
                | k Hk Hst Hg | k Hk Hst Hs
                | k Hk Hf Hover].
  - split; [lia|]. split; [|intros E; lia].
    intros _. rewrite Hf, flags_of_responses_false by exact Hk.
    pose proof Hopen' as (_ & Hs & Hc & _).
    split; [reflexivity|]. split; [congruence|].
    intros _. split; [exact Hs|]. split; [exact Hc|].
    intros t Hn.
    destruct (turn_starts _ t _ Hopen' Hn) as (_ & _ & (id & ->) & _). reflexivity.
  - pose proof Hg as (G1 & G2 & (id & G3) & G4 & G5 & G6 & G7).
    split; [exact Hk|]. split.
    + intros Hlt. rewrite G7, flags_of_responses_false by exact Hlt.
      split; [reflexivity|]. split; [exact Hst|].
      intros (Hl & _). congruence.
    + intros Heq. rewrite G7, flags_of_responses_last by lia.
      split; [reflexivity|]. split; [intros (Hl & _); congruence|].
      split; [intros q r Hq; congruence|].
      intros p t ts Hp. cbv zeta. intros Hnone.
      destruct (model_answers _ _ _ t ts _ Hg) as (p' & Hp' & Hans). cbv zeta in Hans.
      assert (p' = p) by congruence. subst p'.
      destruct Hans as [(_ & _ & _ & (i & x & Hq) & _) | [_ Hover]]; [congruence|].
      assert (E : (Z.of_nat k >=? conversationAutoEndExchanges config) = true).
      { rewrite Z.geb_leb. apply Z.leb_le. lia. }
      rewrite E in Hover. eapply turn_over_ended, Hover.
  - pose proof Hs as (G1 & G2 & G3 & (id & x & G4) & G5 & G6 & G7).
    split; [exact Hk|]. split.
    + intros Hlt. rewrite G7, flags_of_responses_false by exact Hlt.
      split; [reflexivity|]. split; [exact Hst|].
      intros (Hl & _). congruence.
    + intros Heq. rewrite G7, flags_of_responses_last by lia.
      split; [reflexivity|]. split; [intros (Hl & _); congruence|].
      split; [|intros p t ts Hp; congruence].
      intros q r Hq.
      destruct (synthesiser_answers _ _ _ r _ Hs) as (q' & Hq' & Hover).
      assert (q' = q) by congruence. subst q'.
      assert (E : (Z.of_nat k >=? conversationAutoEndExchanges config) = true).
      { rewrite Z.geb_leb. apply Z.leb_le. lia. }
      rewrite E in Hover. eapply turn_over_ended, Hover.
  - split; [lia|]. split; [intros Hlt; lia|].
    intros _. rewrite Hf, flags_of_responses_last by lia.
    split; [reflexivity|]. split; [intros _; exact Hover|].
    destruct Hover as ((_ & Hpl & Hpt) & _).
    split; [intros q r Hq | intros p t ts Hp]; congruence.
Qed.

(** *** The lock, the state and the accumulated transcript along a run *)

Ltac tidy_up :=
  unfold tidy in *; wsimpl;
  intuition (try discriminate; try congruence).

Lemma tidy_enterConversationMode (m : ConversationMode) :
  preserves tidy (enterConversationMode config m).
Proof. intros w H. open_world w. destruct hdl, win; tidy_up. Qed.

Lemma tidy_handleUserSpeaking (b : bool) : preserves tidy (handleUserSpeaking b).
Proof. intros w H. open_world w. destruct b, st, win; tidy_up. Qed.

Lemma tidy_handleWakeWord : preserves tidy (handleWakeWord config).
Proof. intros w H. open_world w. destruct st, hdl, win; tidy_up. Qed.

Lemma tidy_handlePartialTranscript (t : string) : preserves tidy (handlePartialTranscript t).
Proof. intros w H. open_world w. destruct st, win; tidy_up. Qed.

Lemma tidy_handleFinalTranscript (t : string) :
  preserves tidy (handleFinalTranscript config t).
Proof.
  intros w H. destruct (accepted t w) eqn:Ha.
  - rewrite (handleFinalTranscript_accepted _ _ Ha).
    apply accepted_true in Ha as (_ & Hl & _).
    unfold generateAndSpeakResponse, turn_opened.
    open_world w. simpl in Hl. subst.
    destruct st, hdl, win; tidy_up.
  - rewrite (handleFinalTranscript_rejected _ _ Ha). exact H.
Qed.

Lemma tidy_assign_stt {A} (set : A -> WhisperCppClient -> WhisperCppClient) (v : A) :
  preserves tidy (assign_stt set v).
Proof. intros w H. exact H. Qed.

Lemma tidy_invoke_onTranscript (final : bool) (t : string) :
  preserves tidy (invoke_onTranscript config final t).
Proof.
  intros w H. unfold invoke_onTranscript. cbv beta zeta delta [andThen].
  destruct final.
  - apply tidy_handleFinalTranscript, H.
  - apply tidy_handlePartialTranscript, H.
Qed.

Lemma tidy_invoke_onUserSpeaking (b : bool) : preserves tidy (invoke_onUserSpeaking b).
Proof.
  intros w H. unfold invoke_onUserSpeaking.
  destruct (onUserSpeakingCallback (stt w)); [|exact H].
  cbv beta zeta delta [andThen]. apply tidy_handleUserSpeaking, H.
Qed.

Lemma tidy_invoke_onWakeWord : preserves tidy (invoke_onWakeWord config).
Proof.
  intros w H. unfold invoke_onWakeWord.
  destruct (onWakeWordCallback (stt w)); [|exact H].
  cbv beta zeta delta [andThen]. apply tidy_handleWakeWord, H.
Qed.

Lemma tidy_sendPendingTranscript : preserves tidy (sendPendingTranscript config).
Proof.
  intros w H. unfold sendPendingTranscript.
  destruct (negb _ || negb _); [exact H|].
  cbv beta zeta delta [andThen].
  apply tidy_invoke_onUserSpeaking.
  apply (tidy_assign_stt stt_set_isUserSpeaking).
  apply (tidy_assign_stt stt_set_pendingTranscript).
  apply tidy_invoke_onTranscript, H.
Qed.

Lemma tidy_checkTranscriptTimeout : preserves tidy (checkTranscriptTimeout config).
Proof.
  intros w H. unfold checkTranscriptTimeout.
  destruct (negb _ || _); [exact H|].
  destruct (_ >=? _); [apply tidy_sendPendingTranscript|]; exact H.
Qed.

Lemma tidy_checkWakeWord (t : string) : preserves tidy (checkWakeWord config t).
Proof.
  intros w H. unfold checkWakeWord.
  destruct (wakeWordDetected config t); [|exact H].
  cbv beta zeta delta [andThen].
  apply tidy_invoke_onWakeWord.
  destruct (truthy _ && _); [apply tidy_sendPendingTranscript|]; exact H.
Qed.

Lemma tidy_onTranscribed (raw : option string) : preserves tidy (onTranscribed config raw).
Proof.
  intros w H. unfold onTranscribed. cbv zeta.
  destruct (truthy (recognisedText raw)); [|exact H].
  cbv beta zeta delta [andThen].
  apply tidy_checkWakeWord.
  apply (tidy_assign_stt stt_set_lastTranscriptTime).
  apply tidy_invoke_onUserSpeaking.
  exact H.
Qed.

Lemma tidy_run_timer (tm : Timer) : preserves tidy (run_timer tm).
Proof.
  intros w H. destruct tm as [h d cb]. unfold run_timer. open_world w.
  destruct cb, st, hdl, win; tidy_up.
Qed.

Lemma tidy_advance (t : Z) : preserves tidy (advance t).
Proof.
  intros w H. unfold advance. cbv zeta.
  assert (H' : tidy (run_timers (2 * List.length (timers w)) t w)).
  { apply run_timers_invariant; [|exact H].
    intros w0 tm H0 _. apply tidy_run_timer, H0. }
  exact H'.
Qed.

Lemma tidy_step (e : Event) : preserves tidy (step config e).
Proof.
  intros w H. destruct e; unfold step.
  - unfold onAudioChunk. destruct (shouldForward w); [|exact H].
    open_world w. destruct strm; tidy_up.
  - apply tidy_checkTranscriptTimeout, H.
  - apply tidy_onTranscribed, H.
  - exact H.
  - exact H.
  - open_world w. destruct hdl, win; tidy_up.
  - exact H.
  - exact H.
  - destruct (take_generation id (pendingLLM w)) as [p|]; [|exact H].
    destruct p as [pid pend]. open_world w.
    destruct pend, tts, win, hdl, st, lock; tidy_up.
  - destruct (take_generation id (pendingLLM w)) as [p|]; [|exact H].
    open_world w. destruct win, hdl; tidy_up.
  - destruct (take_speech id (pendingTTS w)) as [p|]; [|exact H].
    destruct p as [pid pend ptext]. open_world w.
    destruct r, pend, win, hdl, st, lock; tidy_up.
  - apply tidy_advance, H.
  - unfold start.
    destruct (voiceListeningEnabled config); [|exact H].
    destruct (micPermissionGranted e); [|exact H].
    open_world w.
    destruct ini, strm, rec, (whisperLoads e), (microphoneStarts e), hdl, win, st;
      wsimpl0; unfold enterConversationMode, setTimeout; tidy_up.
  - open_world w. destruct strm, hdl, st; tidy_up.
Qed.

Lemma tidy_run (es : list Event) (window tts : bool) (t0 : Z) :
  tidy (run config es (new_ConversationManager window tts t0)).
Proof.
  assert (H0 : tidy (new_ConversationManager window tts t0)).
  { split; [discriminate | reflexivity]. }
  generalize dependent (new_ConversationManager window tts t0).
  induction es as [|e es IH]; intros w Hw; [exact Hw|].
  simpl. apply IH, tidy_step, Hw.
Qed.

(** In every state the orchestrator reaches, whatever the interleaving of
    audio, transcripts, answers, timers, callouts, [start()] and [stop()]:
    the state is 'responding' only while the lock is held, so the safety net
    of the [finally] block of [generateAndSpeakResponse] and the second guard
    of [handleFinalTranscript] never decide anything the lock has not
    decided. *)
Theorem responding_only_under_lock (es : list Event) (window tts : bool) (t0 : Z) :
  let w := run config es (new_ConversationManager window tts t0) in
  (state (cm w) = responding -> isProcessingResponse (cm w) = true)
  /\ (forall t, accepted t w = negb (isNoise t) && negb (isProcessingResponse (cm w)))
  /\ finallyBlock w = (if state_eqb (state (cm w)) responding
                       then assign cm_set_isProcessingResponse false w else w).
Proof.
  intros w. destruct (tidy_run es window tts t0) as [H _]. fold w in H.
  split; [exact H|]. split.
  - intros t. unfold accepted.
    destruct (isProcessingResponse (cm w)) eqn:El.
    + rewrite !andb_false_r. reflexivity.
    + destruct (state (cm w)) eqn:Es; simpl; rewrite ?andb_true_r; try reflexivity.
      specialize (H eq_refl). discriminate.
  - unfold finallyBlock. destruct (state_eqb (state (cm w)) responding) eqn:Es;
      [|reflexivity].
    apply state_eqb_eq in Es. rewrite (H Es). reflexivity.
Qed.

Lemma turn_opened_history (t : string) (w : World) :
  accumulatedTranscript (cm w) = "" ->
  conversationHistory (cm (turn_opened config t w))
  = conversationHistory (cm w) ++ [{| role := user; text := t; timestamp := now w |}]
  /\ isProcessingResponse (cm (turn_opened config t w)) = isProcessingResponse (cm w).
Proof.
  unfold turn_opened. open_world w. simpl. intros ->.
  destruct st, hdl, win; wsimpl; split; reflexivity.
Qed.

(** In every state the orchestrator reaches, a final transcript that passes
    the guards of [handleFinalTranscript] is appended to the conversation
    history exactly as it was heard (nothing of an earlier utterance is
    prepended by the accumulation), with the time of its arrival, and the
    language model is called once, last, with the history that ends in it. *)
Theorem accepted_transcript_recorded
    (es : list Event) (window tts : bool) (t0 : Z) (t : string) :
  let w := run config es (new_ConversationManager window tts t0) in
  accepted t w = true ->
  let w' := handleFinalTranscript config t w in
  let said := {| role := user; text := t; timestamp := now w |} in
  conversationHistory (cm w') = conversationHistory (cm w) ++ [said]
  /\ (exists pre id shouldEnd,
        trace w' = pre ++ [CallLLM id (conversationHistory (cm w) ++ [said]) shouldEnd]).
Proof.
  intros w Ha w' said.
  destruct (tidy_run es window tts t0) as [_ Hacc]. fold w in Hacc.
  pose proof (accepted_true _ _ Ha) as (_ & Hl & _).
  destruct (turn_opened_history t w (Hacc Hl)) as [Hh Hl'].
  fold said in Hh. rewrite Hl in Hl'.
  pose proof (generate_unlocked (turn_opened config t w) Hl') as G.
  cbv zeta in G.
  destruct G as (_ & _ & _ & _ & Gh & _ & _ & _ & _ & Gt).
  unfold w'. rewrite (handleFinalTranscript_accepted _ _ Ha).
  split; [rewrite Gh; exact Hh|].
  rewrite Gt, Hh. rewrite app_assoc. eauto.
Qed.

(** *** The response timer *)

Lemma filter_unique {A} (p : A -> bool) (key : A -> nat) (h : nat) (l : list A) :
  NoDup (map key l) ->
  (forall x, In x l -> p x = true -> key x = h) ->
  (List.length (filter p l) <= 1)%nat.
Proof.
  induction l as [|a l IH]; intros Hn Hk; [simpl; lia|].
  simpl in Hn. inversion Hn as [|? ? Hnotin Hn']; subst.
  simpl. destruct (p a) eqn:Ea.
  - assert (E : filter p l = []).
    { destruct (filter p l) as [|b r] eqn:Ef; [reflexivity|]. exfalso.
      assert (Hb : In b (filter p l)) by (rewrite Ef; left; reflexivity).
      apply filter_In in Hb as [Hb1 Hb2].
      apply Hnotin. rewrite (Hk a (or_introl eq_refl) Ea).
      rewrite <- (Hk b (or_intror Hb1) Hb2). apply in_map, Hb1. }
    rewrite E. simpl. lia.
  - apply IH; [exact Hn'|]. intros x Hx. apply Hk. right. exact Hx.
Qed.

(** In every state the orchestrator reaches, at most one response timer is
    pending, it is the one whose handle the manager holds, and
    [clearResponseTimeout] leaves none pending.  (A grace timer has no
    handle: one that a response timer left behind stays pending when the
    response timer is cleared or armed anew.) *)
Theorem one_response_timer (es : list Event) (window tts : bool) (t0 : Z) :
  let w := run config es (new_ConversationManager window tts t0) in
  (List.length (response_timers w) <= 1)%nat
  /\ (forall tm, In tm (response_timers w) ->
                 responseTimeoutHandle (cm w) = Some (handle tm))
  /\ response_timers (clearResponseTimeout w) = []
  /\ response_timer_pending (clearResponseTimeout w) = false.
Proof.
  intros w.
  pose proof (response_timer_held_run es window tts t0) as Hh. fold w in Hh.
  pose proof (timers_wf_run es window tts t0) as [Hn _]. fold w in Hn.
  assert (Hin : forall tm, In tm (response_timers w) ->
                           responseTimeoutHandle (cm w) = Some (handle tm)).
  { intros tm Htm. apply filter_In in Htm as [H1 H2]. apply Hh; [exact H1|].
    unfold is_response_timer in H2. destruct (callback tm); try discriminate.
    reflexivity. }
  assert (Hnone : response_timers (clearResponseTimeout w) = []).
  { unfold response_timers.
    destruct (filter is_response_timer (timers (clearResponseTimeout w)))
      as [|b r] eqn:Ef; [reflexivity|]. exfalso.
    assert (Hb : In b (filter is_response_timer (timers (clearResponseTimeout w))))
      by (rewrite Ef; left; reflexivity).
    apply filter_In in Hb as [Hb1 Hb2].
    unfold clearResponseTimeout in Hb1.
    destruct (responseTimeoutHandle (cm w)) as [h|] eqn:Eh.
    - assert (Hb3 : In b (filter (fun tm => negb (handle tm =? h)%nat) (timers w))).
      { revert Hb1. clear. open_world w. wsimpl. auto. }
      apply filter_In in Hb3 as [Hb3 Hb4].
      assert (Hb5 : In b (response_timers w)) by (apply filter_In; auto).
      apply Hin in Hb5. injection Hb5 as ->.
      rewrite Nat.eqb_refl in Hb4. discriminate.
    - assert (Hb5 : In b (response_timers w)) by (apply filter_In; auto).
      apply Hin in Hb5. discriminate. }
  split; [|split; [exact Hin|split; [exact Hnone|]]].
  - destruct (responseTimeoutHandle (cm w)) as [h|] eqn:Eh.
    + apply (filter_unique is_response_timer handle h); [exact Hn|].
      intros x Hx Hp.
      assert (Hx' : In x (response_timers w)) by (apply filter_In; auto).
      apply Hin in Hx'. congruence.
    + destruct (response_timers w) as [|b r] eqn:Ef; [simpl; lia|].
      specialize (Hin b (or_introl eq_refl)). discriminate.
  - unfold response_timer_pending.
    destruct (existsb _ _) eqn:Ex; [|reflexivity].
    apply existsb_exists in Ex as [x [Hx1 Hx2]].
    assert (Hx : In x (response_timers (clearResponseTimeout w))).
    { apply filter_In. split; [exact Hx1|exact Hx2]. }
    rewrite Hnone in Hx. destruct Hx.
Qed.

(** *** The monitor's policy *)

Ltac policy :=
  unfold ProductivityMonitor.captureAndAnalyze, ProductivityMonitor.canSendAnyMessage,
    ProductivityMonitor.updateEscalationLevel,
    ProductivityMonitor.shouldTriggerProactiveMessage,
    ProductivityMonitor.shouldTriggerCheckIn, ProductivityMonitor.sendMessageToChat,
    ProductivityMonitor.windowAlive, ChatHistory.getTimeSinceLastMessage in *;
  cbv zeta in *.

Ltac branch :=
  match goal with
  | |- context [match ?c with _ => _ end] =>
      lazymatch c with
      | context [match _ with _ => _ end] => fail
      | _ => destruct c eqn:?
      end
  end.

Lemma geb_true (a b : Z) : (a >=? b) = true -> b <= a.
Proof. rewrite Z.geb_leb. apply Z.leb_le. Qed.

Lemma geb_false (a b : Z) : (a >=? b) = false -> a < b.
Proof. rewrite Z.geb_leb. apply Z.leb_gt. Qed.

(** The outcome of one run: nothing, or one message asked of the model,
    sent to the window when it is alive, and followed by the auto-listen
    after a callout when the voice is available. *)
Lemma run_effects (o : ProductivityMonitor.Observation) (m : ProductivityMonitor.t) :
  let effects := snd (ProductivityMonitor.captureAndAnalyze config o m) in
  let m' := fst (ProductivityMonitor.captureAndAnalyze config o m) in
  (effects = [] /\ ProductivityMonitor.chatHistory m' = ProductivityMonitor.chatHistory m
   /\ ProductivityMonitor.lastCheckInTime m' = ProductivityMonitor.lastCheckInTime m)
  \/ exists k app (sent listen : bool),
       effects = ProductivityMonitor.Generate k app
                 :: (if sent
                     then [ProductivityMonitor.SendCoachMessage k (ProductivityMonitor.replyText o)]
                     else [])
                 ++ (if listen then [ProductivityMonitor.AutoListen] else [])
       /\ sent = ProductivityMonitor.windowAlive m
       /\ listen = match k with
                   | ProductivityMonitor.CoachCallout => ProductivityMonitor.voiceAvailable o
                   | _ => false
                   end
       /\ interventionThreshold config < ProductivityMonitor.score o
       /\ ProductivityMonitor.chatHistory m'
          = (if match k with ProductivityMonitor.CoachCallout => true | _ => sent end
             then ChatHistory.addMessage (written o) (ProductivityMonitor.at_time o)
                    (ProductivityMonitor.chatHistory m)
             else ProductivityMonitor.chatHistory m)
       /\ match k with
          | ProductivityMonitor.Proactive =>
              app = ""
              /\ ProductivityMonitor.lastCheckInTime m' = ProductivityMonitor.lastCheckInTime m
              /\ ProductivityMonitor.lastProactiveMessageTime m' = ProductivityMonitor.at_time o
              /\ ProductivityMonitor.lowProductivityStartTime m'
                 = (if ProductivityMonitor.lowProductivityStartTime m =? 0
                    then ProductivityMonitor.at_time o
                    else ProductivityMonitor.lowProductivityStartTime m)
              /\ proactiveTriggerDuration config
                 <= ProductivityMonitor.at_time o - ProductivityMonitor.lowProductivityStartTime m'
              /\ ChatHistory.canSendProactiveMessage
                   (proactiveCooldownMin config) (proactiveCooldownMax config)
                   (ProductivityMonitor.proactiveEscalationLevel m')
                   (ProductivityMonitor.at_time o) (ProductivityMonitor.chatHistory m) = true
          | ProductivityMonitor.CheckIn =>
              app = ""
              /\ ProductivityMonitor.conversing o = false
              /\ ProductivityMonitor.lastCheckInTime m' = ProductivityMonitor.at_time o
              /\ ProductivityMonitor.checkInInterval o
                 <= ProductivityMonitor.at_time o - ProductivityMonitor.lastCheckInTime m
          | ProductivityMonitor.CoachCallout =>
              ProductivityMonitor.lastCheckInTime m' = ProductivityMonitor.lastCheckInTime m
              /\ ProductivityMonitor.lastCalledOutApp m' = app
          end.
Proof.
  destruct m as [en win an ch st lp lc ps pt lv la app0].
  destruct o as [now pb cv va sm le sc iv rt].
  policy. unfold written. simpl.
  repeat (branch; simpl; auto);
    right;
    repeat match goal with
           | H : (_ >? _) = true |- _ => apply gtb_true in H
           | H : (_ >=? _) = true |- _ => apply geb_true in H
           end;
    repeat match goal with
           | H : (?a =? 0) = _ |- _ => rewrite H
           end;
    first [ exists ProductivityMonitor.Proactive, "", true, false;
            repeat split; solve [auto | lia]
          | exists ProductivityMonitor.Proactive, "", false, false;
            repeat split; solve [auto | lia]
          | exists ProductivityMonitor.CheckIn, "", true, false;
            repeat split; solve [auto | lia]
          | exists ProductivityMonitor.CheckIn, "", false, false;
            repeat split; solve [auto | lia]
          | do 2 eexists; exists true, true; repeat split; solve [auto | lia]
          | do 2 eexists; exists true, false; repeat split; solve [auto | lia]
          | do 2 eexists; exists false, true; repeat split; solve [auto | lia]
          | do 2 eexists; exists false, false; repeat split; solve [auto | lia] ].
Qed.

(** One run of the monitor asks at most one message of the model and sends
    at most one to the window, the one it asked for and only to a window
    that is alive; it starts the auto-listen only after a callout and with
    the voice available; it does nothing when the score is at or under the
    threshold; and it makes no check-in while the user is conversing. *)
Theorem one_message_per_run (o : ProductivityMonitor.Observation) (m : ProductivityMonitor.t) :
  let effects := snd (ProductivityMonitor.captureAndAnalyze config o m) in
  (messages_asked effects <= 1)%nat
  /\ (messages_sent effects <= messages_asked effects)%nat
  /\ (forall k t, In (ProductivityMonitor.SendCoachMessage k t) effects ->
        t = ProductivityMonitor.replyText o /\ generated k effects = true
        /\ ProductivityMonitor.windowAlive m = true)
  /\ (In ProductivityMonitor.AutoListen effects ->
        ProductivityMonitor.calledOut effects = true
        /\ ProductivityMonitor.voiceAvailable o = true)
  /\ (effects <> [] -> interventionThreshold config < ProductivityMonitor.score o)
  /\ (ProductivityMonitor.conversing o = true ->
        generated ProductivityMonitor.CheckIn effects = false).
Proof.
  intros effects. subst effects.
  destruct (run_effects o m) as [(E & _) | (k & app & sent & listen & E & Hs & Hl & Hsc & _ & Hk)].
  - rewrite E. unfold messages_asked, messages_sent. simpl.
    split; [lia|]. split; [lia|]. split; [intros k t []|]. split; [intros []|].
    split; [intros H; contradiction|reflexivity].
  - rewrite E. clear E. subst listen.
    unfold messages_asked, messages_sent.
    destruct k, sent, (ProductivityMonitor.voiceAvailable o); simpl;
      (split; [lia|]; split; [lia|]; split; [|split; [|split; [intros _; exact Hsc|]]];
       [ intros k t Hin;
         repeat match goal with
                | H : _ \/ _ |- _ => destruct H
                | H : False |- _ => destruct H
                | H : _ = ProductivityMonitor.SendCoachMessage _ _ |- _ =>
                    first [discriminate H | injection H as <- <-]
                end; repeat split; auto
       | intros Hin;
         repeat match goal with
                | H : _ \/ _ |- _ => destruct H
                | H : False |- _ => destruct H
                | H : _ = ProductivityMonitor.AutoListen |- _ => discriminate H
                end; split; reflexivity
       | intros Hc; try reflexivity; destruct Hk as (_ & Hk & _); congruence ]).
Qed.

(** **** The natural pause *)

Lemma paused_run (T : Z) (o : ProductivityMonitor.Observation) (m : ProductivityMonitor.t) :
  ChatHistory.lastAnyMessageTime (ProductivityMonitor.chatHistory m) = T ->
  within_pause config T o ->
  snd (ProductivityMonitor.captureAndAnalyze config o m) = []
  /\ (fst (ProductivityMonitor.captureAndAnalyze config o m) = m
      \/ exists s, ProductivityMonitor.summary o = Some s
                   /\ fst (ProductivityMonitor.captureAndAnalyze config o m)
                      = ProductivityMonitor.set_previous (ProductivityMonitor.score o)
                          (taskType s) m).
Proof.
  intros HT [Ht Hs].
  unfold ProductivityMonitor.captureAndAnalyze, ProductivityMonitor.canSendAnyMessage,
    ChatHistory.getTimeSinceLastMessage.
  rewrite HT. cbv zeta.
  assert (E1 : (ProductivityMonitor.at_time o - T >=? naturalPauseMs config) = false).
  { rewrite Z.geb_leb. apply Z.leb_gt. exact Ht. }
  assert (E2 : (ProductivityMonitor.score o >=? 7) = false).
  { rewrite Z.geb_leb. apply Z.leb_gt. exact Hs. }
  rewrite E1, E2. simpl.
  destruct (negb _ || _); [auto|].
  destruct (ProductivityMonitor.isAnalyzing m); [auto|].
  destruct (ProductivityMonitor.playbackActive o); [auto|].
  destruct (ProductivityMonitor.summary o) as [s|]; [|auto].
  destruct (ProductivityMonitor.lastMinuteEmpty o); [auto|].
  simpl. split; [reflexivity|]. right. exists s. auto.
Qed.

Lemma paused_runs (T : Z) (os : list ProductivityMonitor.Observation)
    (m : ProductivityMonitor.t) :
  ChatHistory.lastAnyMessageTime (ProductivityMonitor.chatHistory m) = T ->
  Forall (within_pause config T) os ->
  monitor_effects config os m = []
  /\ ProductivityMonitor.chatHistory (monitor_after config os m)
     = ProductivityMonitor.chatHistory m
  /\ ProductivityMonitor.lastCalledOutApp (monitor_after config os m)
     = ProductivityMonitor.lastCalledOutApp m
  /\ ProductivityMonitor.lowProductivityStartTime (monitor_after config os m)
     = ProductivityMonitor.lowProductivityStartTime m.
Proof.
  revert m. induction os as [|o os IH]; intros m HT Hos; [repeat split|].
  inversion Hos as [|? ? Ho Hos']; subst.
  destruct (paused_run _ o m eq_refl Ho) as [He Hm].
  simpl. rewrite He. simpl.
  destruct Hm as [Hm | (s & _ & Hm)]; rewrite Hm.
  - apply IH; [reflexivity | exact Hos'].
  - destruct (IH (ProductivityMonitor.set_previous (ProductivityMonitor.score o) (taskType s) m)
                 eq_refl Hos') as (H1 & H2 & H3 & H4).
    repeat split; assumption.
Qed.

(** The natural pause.  Once a message has entered the chat at [T] (the
    user's message or the reply written by the chat handler, a message a
    run of the monitor sent to the window, or a callout), every run within
    [naturalPauseMs] of [T] with a score under 7 asks nothing of the model,
    sends nothing and starts no auto-listen, however many such runs there
    are; the chat history, the low-productivity streak and the app last
    called out stay as they were. *)
Theorem natural_pause_after_message
    (T : Z) (os : list ProductivityMonitor.Observation)
    (Hos : Forall (within_pause config T) os) :
  (forall msg m,
     let m1 := ProductivityMonitor.addChatMessage msg T m in
     monitor_effects config os m1 = []
     /\ ProductivityMonitor.chatHistory (monitor_after config os m1)
        = ProductivityMonitor.chatHistory m1
     /\ ProductivityMonitor.lastCalledOutApp (monitor_after config os m1)
        = ProductivityMonitor.lastCalledOutApp m1
     /\ ProductivityMonitor.lowProductivityStartTime (monitor_after config os m1)
        = ProductivityMonitor.lowProductivityStartTime m1)
  /\ (forall o m,
        ProductivityMonitor.at_time o = T ->
        let effects := snd (ProductivityMonitor.captureAndAnalyze config o m) in
        let m1 := fst (ProductivityMonitor.captureAndAnalyze config o m) in
        delivered effects = true \/ ProductivityMonitor.calledOut effects = true ->
        monitor_effects config os m1 = []
        /\ ProductivityMonitor.chatHistory (monitor_after config os m1)
           = ProductivityMonitor.chatHistory m1
        /\ ProductivityMonitor.lastCalledOutApp (monitor_after config os m1)
           = ProductivityMonitor.lastCalledOutApp m1
        /\ ProductivityMonitor.lowProductivityStartTime (monitor_after config os m1)
           = ProductivityMonitor.lowProductivityStartTime m1).
Proof.
  split.
  - intros msg m m1. exact (paused_runs T os m1 eq_refl Hos).
  - intros o m HT effects m1 Hd.
    apply (paused_runs T); [|exact Hos].
    subst effects m1.
    destruct (run_effects o m)
      as [(E & _) | (k & app & sent & listen & E & Hs & Hl & Hsc & Hch & Hk)].
    + rewrite E in Hd. destruct Hd; discriminate.
    + rewrite Hch.
      assert (Hw : match k with ProductivityMonitor.CoachCallout => true | _ => sent end = true).
      { rewrite E in Hd. destruct k, sent, listen; simpl in Hd; destruct Hd;
          try discriminate; reflexivity. }
      rewrite Hw. simpl. exact HT.
Qed.

(** **** The spacing of proactive messages *)

Lemma run_lastResponseTime (T : Z) (o : ProductivityMonitor.Observation)
    (m : ProductivityMonitor.t) :
  T <= ChatHistory.lastResponseTime (ProductivityMonitor.chatHistory m) ->
  T <= ProductivityMonitor.at_time o ->
  T <= ChatHistory.lastResponseTime
         (ProductivityMonitor.chatHistory
            (fst (ProductivityMonitor.captureAndAnalyze config o m))).
Proof.
  intros Hm Ho.
  destruct (run_effects o m)
    as [(_ & E & _) | (k & app & sent & listen & _ & _ & _ & _ & E & _)]; rewrite E.
  - exact Hm.
  - destruct (match k with ProductivityMonitor.CoachCallout => true | _ => sent end);
      [exact Ho | exact Hm].
Qed.

Lemma runs_lastResponseTime (T : Z) (os : list ProductivityMonitor.Observation)
    (m : ProductivityMonitor.t) :
  T <= ChatHistory.lastResponseTime (ProductivityMonitor.chatHistory m) ->
  Forall (fun o => T <= ProductivityMonitor.at_time o) os ->
  T <= ChatHistory.lastResponseTime
         (ProductivityMonitor.chatHistory (monitor_after config os m)).
Proof.
  revert m. induction os as [|o os IH]; intros m Hm Hos; [exact Hm|].
  inversion Hos as [|? ? Ho Hos']; subst.
  simpl. apply IH; [|exact Hos']. apply run_lastResponseTime; assumption.
Qed.

Lemma no_proactive_in_cooldown (T : Z) (o : ProductivityMonitor.Observation)
    (m : ProductivityMonitor.t) :
  proactiveCooldownMin config <= proactiveCooldownMax config ->
  T <= ChatHistory.lastResponseTime (ProductivityMonitor.chatHistory m) ->
  ProductivityMonitor.at_time o < T + proactiveCooldownMin config ->
  generated ProductivityMonitor.Proactive
    (snd (ProductivityMonitor.captureAndAnalyze config o m)) = false.
Proof.
  intros Hc Hm Ho.
  destruct (run_effects o m)
    as [(E & _) | (k & app & sent & listen & E & _ & _ & _ & _ & Hk)]; rewrite E;
    [reflexivity|].
  destruct k; [|destruct sent, listen; reflexivity..].
  exfalso. destruct Hk as (_ & _ & _ & _ & _ & Hk).
  unfold ChatHistory.canSendProactiveMessage in Hk. cbv zeta in Hk.
  apply geb_true in Hk.
  set (f := Z.max 0 (Z.min 2 _)) in Hk.
  assert (Hf : 0 <= 2 - f) by (unfold f; lia).
  nia.
Qed.

(** The cooldown of proactive messages.  With [proactiveCooldownMin] at
    most [proactiveCooldownMax]: once Goggins has written to the chat at
    [T] (a message a run of the monitor sent to the window, a callout, or
    the reply of the chat handler), no run before [T + proactiveCooldownMin]
    asks for a proactive message, whatever the runs in between did and
    whatever the escalation level. *)
Theorem proactive_cooldown
    (Hc : proactiveCooldownMin config <= proactiveCooldownMax config)
    (T : Z) (os : list ProductivityMonitor.Observation) (o : ProductivityMonitor.Observation)
    (Hos : Forall (fun o => T <= ProductivityMonitor.at_time o) os)
    (Ho : ProductivityMonitor.at_time o < T + proactiveCooldownMin config) :
  (forall t m,
     let m1 := ProductivityMonitor.addChatMessage
                 {| role := goggins; text := t; timestamp := T |} T m in
     generated ProductivityMonitor.Proactive
       (snd (ProductivityMonitor.captureAndAnalyze config o (monitor_after config os m1)))
     = false)
  /\ (forall o1 m,
        ProductivityMonitor.at_time o1 = T ->
        let effects := snd (ProductivityMonitor.captureAndAnalyze config o1 m) in
        let m1 := fst (ProductivityMonitor.captureAndAnalyze config o1 m) in
        delivered effects = true \/ ProductivityMonitor.calledOut effects = true ->
        generated ProductivityMonitor.Proactive
          (snd (ProductivityMonitor.captureAndAnalyze config o (monitor_after config os m1)))
        = false).
Proof.
  split.
  - intros t m m1.
    apply (no_proactive_in_cooldown T); [exact Hc| |exact Ho].
    apply runs_lastResponseTime; [|exact Hos]. simpl. lia.
  - intros o1 m HT effects m1 Hd.
    apply (no_proactive_in_cooldown T); [exact Hc| |exact Ho].
    apply runs_lastResponseTime; [|exact Hos].
    subst effects m1.
    destruct (run_effects o1 m)
      as [(E & _) | (k & app & sent & listen & E & Hs & Hl & Hsc & Hch & Hk)].
    + rewrite E in Hd. destruct Hd; discriminate.
    + rewrite Hch.
      assert (Hw : match k with ProductivityMonitor.CoachCallout => true | _ => sent end = true).
      { rewrite E in Hd. destruct k, sent, listen; simpl in Hd; destruct Hd;
          try discriminate; reflexivity. }
      rewrite Hw. simpl. lia.
Qed.

(** **** The streak of low productivity *)

Lemma run_streak (o : ProductivityMonitor.Observation) (m : ProductivityMonitor.t) :
  let m' := fst (ProductivityMonitor.captureAndAnalyze config o m) in
  ProductivityMonitor.lowProductivityStartTime m' = ProductivityMonitor.lowProductivityStartTime m
  \/ ProductivityMonitor.lowProductivityStartTime m' = 0
  \/ ProductivityMonitor.lowProductivityStartTime m' = ProductivityMonitor.at_time o.
Proof.
  destruct m as [en win an ch st lp lc ps pt lv la app0].
  destruct o as [now pb cv va sm le sc iv rt].
  policy. simpl.
  repeat (branch; simpl; auto).
Qed.

Lemma runs_streak (T : Z) (os : list ProductivityMonitor.Observation)
    (m : ProductivityMonitor.t) :
  ProductivityMonitor.lowProductivityStartTime m = 0
  \/ T <= ProductivityMonitor.lowProductivityStartTime m ->
  Forall (fun o => T <= ProductivityMonitor.at_time o) os ->
  ProductivityMonitor.lowProductivityStartTime (monitor_after config os m) = 0
  \/ T <= ProductivityMonitor.lowProductivityStartTime (monitor_after config os m).
Proof.
  revert m. induction os as [|o os IH]; intros m Hm Hos; [exact Hm|].
  inversion Hos as [|? ? Ho Hos']; subst.
  simpl. apply IH; [|exact Hos'].
  destruct (run_streak o m) as [E | [E | E]]; rewrite E; auto.
Qed.

Lemma no_proactive_in_streak (T : Z) (o : ProductivityMonitor.Observation)
    (m : ProductivityMonitor.t) :
  0 < proactiveTriggerDuration config ->
  ProductivityMonitor.lowProductivityStartTime m = 0
  \/ T <= ProductivityMonitor.lowProductivityStartTime m ->
  ProductivityMonitor.at_time o < T + proactiveTriggerDuration config ->
  generated ProductivityMonitor.Proactive
    (snd (ProductivityMonitor.captureAndAnalyze config o m)) = false.
Proof.
  intros Ht Hm Ho.
  destruct (run_effects o m)
    as [(E & _) | (k & app & sent & listen & E & _ & _ & _ & _ & Hk)]; rewrite E;
    [reflexivity|].
  destruct k; [|destruct sent, listen; reflexivity..].
  exfalso. destruct Hk as (_ & _ & _ & Hs & Hd & _).
  rewrite Hs in Hd.
  destruct (ProductivityMonitor.lowProductivityStartTime m =? 0) eqn:E0.
  - lia.
  - apply Z.eqb_neq in E0. lia.
Qed.

(** A proactive message needs sustained low productivity.  With a positive
    [proactiveTriggerDuration]: when no streak of low productivity is being
    tracked at [T] (the monitor was just constructed, or a run that reached
    the policy found the score at or under the threshold), no run before
    [T + proactiveTriggerDuration] asks for a proactive message, whatever
    the runs from [T] on observed. *)
Theorem proactive_needs_sustained_low_productivity
    (Ht : 0 < proactiveTriggerDuration config)
    (T : Z) (os : list ProductivityMonitor.Observation) (o : ProductivityMonitor.Observation)
    (Hos : Forall (fun o => T <= ProductivityMonitor.at_time o) os)
    (Ho : ProductivityMonitor.at_time o < T + proactiveTriggerDuration config) :
  (forall m,
     ProductivityMonitor.lowProductivityStartTime m = 0 ->
     generated ProductivityMonitor.Proactive
       (snd (ProductivityMonitor.captureAndAnalyze config o (monitor_after config os m)))
     = false)
  /\ (forall o0 m s,
        analysed o0 m = Some s -> paused config o0 m = false ->
        ProductivityMonitor.score o0 <= interventionThreshold config ->
        let m1 := fst (ProductivityMonitor.captureAndAnalyze config o0 m) in
        ProductivityMonitor.lowProductivityStartTime m1 = 0
        /\ ProductivityMonitor.proactiveEscalationLevel m1 = 0
        /\ generated ProductivityMonitor.Proactive
             (snd (ProductivityMonitor.captureAndAnalyze config o (monitor_after config os m1)))
           = false).
Proof.
  split.
  - intros m Hm. apply (no_proactive_in_streak T); [exact Ht| |exact Ho].
    apply runs_streak; [left; exact Hm | exact Hos].
  - intros o0 m s Ha Hp Hle m1.
    assert (H0 : ProductivityMonitor.lowProductivityStartTime m1 = 0
                 /\ ProductivityMonitor.proactiveEscalationLevel m1 = 0).
    { subst m1. rewrite (captureAndAnalyze_analysed o0 m s Ha). cbv zeta. rewrite Hp.
      destruct (messaging_false o0 m (recovered_quiet o0 m Hle)) as (Hpro & Hci).
      cbv zeta in Hpro, Hci. rewrite Hpro, Hci.
      assert (Eg : (ProductivityMonitor.score o0 >? interventionThreshold config) = false).
      { rewrite Z.gtb_ltb. apply Z.ltb_ge. exact Hle. }
      rewrite Eg.
      unfold ProductivityMonitor.shouldTriggerProactiveMessage,
        ProductivityMonitor.updateEscalationLevel. cbv zeta. rewrite Eg. simpl.
      destruct (truthy _); split; reflexivity. }
    destruct H0 as [H1 H2]. split; [exact H1|]. split; [exact H2|].
    apply (no_proactive_in_streak T); [exact Ht| |exact Ho].
    apply runs_streak; [left; exact H1 | exact Hos].
Qed.

(** **** Check-ins *)

Lemma run_lastCheckInTime (T : Z) (o : ProductivityMonitor.Observation)
    (m : ProductivityMonitor.t) :
  T <= ProductivityMonitor.lastCheckInTime m ->
  T <= ProductivityMonitor.at_time o ->
  T <= ProductivityMonitor.lastCheckInTime
         (fst (ProductivityMonitor.captureAndAnalyze config o m)).
Proof.
  intros Hm Ho.
  destruct (run_effects o m)
    as [(_ & _ & E) | (k & app & sent & listen & _ & _ & _ & _ & _ & Hk)].
  - rewrite E. exact Hm.
  - destruct k.
    + destruct Hk as (_ & E & _). rewrite E. exact Hm.
    + destruct Hk as (_ & _ & E & _). rewrite E. exact Ho.
    + destruct Hk as (E & _). rewrite E. exact Hm.
Qed.

Lemma runs_lastCheckInTime (T : Z) (os : list ProductivityMonitor.Observation)
    (m : ProductivityMonitor.t) :
  T <= ProductivityMonitor.lastCheckInTime m ->
  Forall (fun o => T <= ProductivityMonitor.at_time o) os ->
  T <= ProductivityMonitor.lastCheckInTime (monitor_after config os m).
Proof.
  revert m. induction os as [|o os IH]; intros m Hm Hos; [exact Hm|].
  inversion Hos as [|? ? Ho Hos']; subst.
  simpl. apply IH; [|exact Hos']. apply run_lastCheckInTime; assumption.
Qed.

(** The spacing of check-ins.  After a run at [T] that asked for a check-in,
    no run at a time [t] with [t - T] under the interval drawn for it asks
    for another, whatever the runs in between did. *)
Theorem check_in_spacing
    (T : Z) (os : list ProductivityMonitor.Observation)
    (o1 o : ProductivityMonitor.Observation) (m : ProductivityMonitor.t)
    (H1 : generated ProductivityMonitor.CheckIn
            (snd (ProductivityMonitor.captureAndAnalyze config o1 m)) = true)
    (HT : ProductivityMonitor.at_time o1 = T)
    (Hos : Forall (fun o => T <= ProductivityMonitor.at_time o) os)
    (Ho : ProductivityMonitor.at_time o - T < ProductivityMonitor.checkInInterval o) :
  let m1 := fst (ProductivityMonitor.captureAndAnalyze config o1 m) in
  ProductivityMonitor.lastCheckInTime m1 = T
  /\ generated ProductivityMonitor.CheckIn
       (snd (ProductivityMonitor.captureAndAnalyze config o (monitor_after config os m1)))
     = false.
Proof.
  intros m1.
  assert (Hm1 : ProductivityMonitor.lastCheckInTime m1 = T).
  { subst m1.
    destruct (run_effects o1 m)
      as [(E & _) | (k & app & sent & listen & E & _ & _ & _ & _ & Hk)]; rewrite E in H1;
      [discriminate|].
    destruct k; [destruct sent, listen; discriminate| |destruct sent, listen; discriminate].
    destruct Hk as (_ & _ & Hk & _). congruence. }
  split; [exact Hm1|].
  assert (Hinv : T <= ProductivityMonitor.lastCheckInTime (monitor_after config os m1)).
  { apply runs_lastCheckInTime; [lia | exact Hos]. }
  destruct (run_effects o (monitor_after config os m1))
    as [(E & _) | (k & app & sent & listen & E & _ & _ & _ & _ & Hk)]; rewrite E;
    [reflexivity|].
  destruct k; [destruct sent, listen; reflexivity| |destruct sent, listen; reflexivity].
  exfalso. destruct Hk as (_ & _ & _ & Hk). lia.
Qed.

Lemma lastCheckInTime_policy (o : ProductivityMonitor.Observation) (m : ProductivityMonitor.t) :
  ProductivityMonitor.lastCheckInTime
    (fst (ProductivityMonitor.shouldTriggerProactiveMessage config (ProductivityMonitor.score o)
            (ProductivityMonitor.at_time o)
            (ProductivityMonitor.updateEscalationLevel config (ProductivityMonitor.score o)
               (ProductivityMonitor.at_time o) m)))
  = ProductivityMonitor.lastCheckInTime m
  /\ ProductivityMonitor.windowAlive
       (fst (ProductivityMonitor.shouldTriggerProactiveMessage config (ProductivityMonitor.score o)
               (ProductivityMonitor.at_time o)
               (ProductivityMonitor.updateEscalationLevel config (ProductivityMonitor.score o)
                  (ProductivityMonitor.at_time o) m)))
     = ProductivityMonitor.windowAlive m.
Proof.
  unfold ProductivityMonitor.shouldTriggerProactiveMessage,
    ProductivityMonitor.updateEscalationLevel. cbv zeta.
  destruct m as [en win an ch st lp lc ps pt lv la app0]. simpl.
  repeat (branch; simpl; auto).
Qed.

(** A check-in that is due goes before the callout.  In a run that reaches
    the policy past the natural pause with the score over the threshold and
    the check-in interval elapsed since the last check-in (as it is at the
    first such run after the monitor was constructed when the clock reads at
    least the interval), nothing is called out and no auto-listen starts,
    whatever the app on the screen, and the app last called out stays as it
    was.  When no proactive message is due either, the run asks for a
    check-in and records its time, unless the user is conversing: then it
    does nothing, and the check-in stays due. *)
Theorem due_check_in_goes_before_callout
    (o : ProductivityMonitor.Observation) (m : ProductivityMonitor.t) (s : QwenActivitySummary)
    (Ha : analysed o m = Some s) (Hp : paused config o m = false)
    (Hhigh : interventionThreshold config < ProductivityMonitor.score o)
    (Hdue : ProductivityMonitor.checkInInterval o
            <= ProductivityMonitor.at_time o - ProductivityMonitor.lastCheckInTime m) :
  let effects := snd (ProductivityMonitor.captureAndAnalyze config o m) in
  let m' := fst (ProductivityMonitor.captureAndAnalyze config o m) in
  ProductivityMonitor.calledOut effects = false
  /\ ~ In ProductivityMonitor.AutoListen effects
  /\ ProductivityMonitor.lastCalledOutApp m' = ProductivityMonitor.lastCalledOutApp m
  /\ (generated ProductivityMonitor.Proactive effects = false ->
      if ProductivityMonitor.conversing o
      then effects = []
           /\ ProductivityMonitor.lastCheckInTime m' = ProductivityMonitor.lastCheckInTime m
      else effects
           = ProductivityMonitor.Generate ProductivityMonitor.CheckIn ""
             :: (if ProductivityMonitor.windowAlive m
                 then [ProductivityMonitor.SendCoachMessage ProductivityMonitor.CheckIn
                         (ProductivityMonitor.replyText o)]
                 else [])
           /\ ProductivityMonitor.lastCheckInTime m' = ProductivityMonitor.at_time o).
Proof.
  intros effects m'. subst effects m'.
  rewrite (captureAndAnalyze_analysed o m s Ha). cbv zeta. rewrite Hp.
  pose proof (lastCalledOutApp_policy o m) as Hkeep.
  destruct (lastCheckInTime_policy o m) as [Hci Hwin].
  set (m2 := fst (ProductivityMonitor.shouldTriggerProactiveMessage config _ _ _)) in *.
  set (pro := snd (ProductivityMonitor.shouldTriggerProactiveMessage config _ _ _)).
  assert (Hc : ProductivityMonitor.shouldTriggerCheckIn config (ProductivityMonitor.score o)
                 (ProductivityMonitor.checkInInterval o) (ProductivityMonitor.at_time o) m2
               = true).
  { unfold ProductivityMonitor.shouldTriggerCheckIn. cbv zeta.
    assert (Eg : (ProductivityMonitor.score o >? interventionThreshold config) = true).
    { rewrite Z.gtb_ltb. apply Z.ltb_lt. exact Hhigh. }
    rewrite Eg, Hci. simpl. rewrite Z.geb_leb. apply Z.leb_le. exact Hdue. }
  rewrite Hc.
  unfold ProductivityMonitor.sendMessageToChat. rewrite Hwin.
  destruct pro.
  - destruct (ProductivityMonitor.windowAlive m); simpl;
      (split; [reflexivity|]; split; [intros Hin; repeat (destruct Hin as [Hin|Hin]; [discriminate Hin|]); exact Hin|];
       split; [exact Hkeep|discriminate]).
  - destruct (ProductivityMonitor.conversing o).
    + simpl. split; [reflexivity|]. split; [intros []|]. split; [exact Hkeep|].
      intros _. split; [reflexivity | exact Hci].
    + destruct (ProductivityMonitor.windowAlive m); simpl;
        (split; [reflexivity|]; split; [intros Hin; repeat (destruct Hin as [Hin|Hin]; [discriminate Hin|]); exact Hin|];
         split; [exact Hkeep|]; intros _; split; reflexivity).
Qed.

(** *** Bounded histories *)

Lemma latest_length {A : Type} (n : nat) (l : list A) :
  List.length (latest n l) = Nat.min n (List.length l).
Proof. unfold latest. rewrite length_skipn. lia. Qed.

Lemma latest_all {A : Type} (n : nat) (l : list A) :
  (List.length l <= n)%nat -> latest n l = l.
Proof.
  intros H. unfold latest. replace (List.length l - n)%nat with 0%nat by lia. reflexivity.
Qed.

Lemma tl_skipn {A : Type} (k : nat) (l : list A) : tl (skipn k l) = skipn (S k) l.
Proof.
  revert l. induction k as [|k IH]; intros l; destruct l as [|a l]; try reflexivity.
  change (tl (skipn k l) = skipn (S k) l). apply IH.
Qed.

(** [push] and then [shift] when the bound is passed keep the last [max]. *)
Lemma push_latest {A : Type} (max : nat) (all : list A) (x : A) :
  (let pushed := latest max all ++ [x] in
   if (max <? List.length pushed)%nat then tl pushed else pushed)
  = latest max (all ++ [x]).
Proof.
  cbv zeta. rewrite length_app, latest_length. simpl.
  assert (E : latest max all ++ [x] = skipn (List.length all - max) (all ++ [x])).
  { unfold latest. rewrite skipn_app.
    replace (List.length all - max - List.length all)%nat with 0%nat by lia. reflexivity. }
  rewrite E. unfold latest. rewrite length_app. simpl.
  destruct (Nat.ltb_spec max (Nat.min max (List.length all) + 1)) as [H|H].
  - rewrite tl_skipn. f_equal. lia.
  - f_equal. lia.
Qed.

Lemma latest_last {A : Type} (n : nat) (l : list A) (x : A) :
  (0 < n)%nat -> JsArray.lastElement (latest n (l ++ [x])) = Some x.
Proof.
  intros Hn. unfold JsArray.lastElement, latest.
  rewrite length_skipn, length_app. simpl.
  rewrite nth_error_skipn.
  replace (List.length l + 1 - n + (List.length l + 1 - (List.length l + 1 - n) - 1))%nat
    with (List.length l) by lia.
  rewrite nth_error_app2 by lia. rewrite Nat.sub_diag. reflexivity.
Qed.

Lemma slice_latest {A : Type} (n : nat) (l : list A) :
  (0 < n)%nat -> JsArray.slice (- Z.of_nat n) l = latest n l.
Proof.
  intros Hn. unfold JsArray.slice, latest. cbv zeta.
  destruct (Z.ltb_spec (- Z.of_nat n) 0) as [H|H]; [|lia].
  f_equal. lia.
Qed.

(** **** The chat history *)

Lemma chat_after_snoc (calls : list (ConversationMessage * Z)) (c : ConversationMessage * Z)
    (h : ChatHistory.t) :
  chat_after (calls ++ [c]) h = ChatHistory.addMessage (fst c) (snd c) (chat_after calls h).
Proof. unfold chat_after. rewrite fold_left_app. reflexivity. Qed.

Lemma chat_after_messages (calls : list (ConversationMessage * Z)) :
  ChatHistory.messages (chat_after calls ChatHistory.empty)
  = latest ChatHistory.maxMessages (map fst calls).
Proof.
  induction calls as [|c calls IH] using rev_ind; [reflexivity|].
  rewrite chat_after_snoc, map_app. simpl map.
  unfold ChatHistory.addMessage. simpl ChatHistory.messages. rewrite IH.
  apply (push_latest ChatHistory.maxMessages).
Qed.

Lemma chat_after_users (post : list (ConversationMessage * Z)) (h : ChatHistory.t) :
  Forall (fun c => role (fst c) = user) post ->
  ChatHistory.lastResponseTime (chat_after post h) = ChatHistory.lastResponseTime h.
Proof.
  revert h. induction post as [|c post IH]; intros h Hp; [reflexivity|].
  inversion Hp as [|? ? Hc Hp']; subst.
  simpl. rewrite IH by exact Hp'.
  unfold ChatHistory.addMessage. simpl. rewrite Hc. reflexivity.
Qed.

(** The chat history after any sequence of [addMessage] on the history as
    constructed: it holds the last 50 messages added, in the order they
    were added; the time of the last message is the time of the last call;
    and the cooldown of [canRespondNow] counts from the last message of
    Goggins, whatever the user wrote after it, unless the call is
    user-initiated, which always passes. *)
Theorem chat_history_keeps_latest (calls : list (ConversationMessage * Z)) :
  let h := chat_after calls ChatHistory.empty in
  ChatHistory.getAll h = latest 50 (map fst calls)
  /\ (List.length (ChatHistory.getAll h) <= 50)%nat
  /\ (forall pre c, calls = pre ++ [c] ->
        ChatHistory.getTimeSinceLastMessage (snd c) h = 0
        /\ JsArray.lastElement (ChatHistory.getAll h) = Some (fst c))
  /\ (forall pre g T post,
        calls = pre ++ (g, T) :: post -> role g = goggins ->
        Forall (fun c => role (fst c) = user) post ->
        forall cooldownMs now,
          ChatHistory.canRespondNow cooldownMs false now h = (now - T >=? cooldownMs)
          /\ ChatHistory.canRespondNow cooldownMs true now h = true).
Proof.
  intros h. unfold ChatHistory.getAll.
  assert (Hm : ChatHistory.messages h = latest 50 (map fst calls))
    by apply chat_after_messages.
  split; [exact Hm|]. split; [rewrite Hm, latest_length; lia|]. split.
  - intros pre c ->. subst h. rewrite chat_after_snoc in *. split.
    + unfold ChatHistory.getTimeSinceLastMessage, ChatHistory.addMessage. simpl. lia.
    + rewrite Hm, map_app. simpl map. apply latest_last. lia.
  - intros pre g T post -> Hg Hpost cooldownMs now. split; [|reflexivity].
    unfold ChatHistory.canRespondNow. subst h.
    unfold chat_after. rewrite fold_left_app. simpl fold_left.
    fold (chat_after pre ChatHistory.empty).
    fold (chat_after post (ChatHistory.addMessage g T (chat_after pre ChatHistory.empty))).
    rewrite chat_after_users by exact Hpost.
    unfold ChatHistory.addMessage. simpl. rewrite Hg. reflexivity.
Qed.

(** The escalation level shortens the cooldown of proactive messages.  With
    [cooldownMin] at most [cooldownMax]: what is allowed at a level is
    allowed at every higher level; from level 2 on the cooldown is
    [cooldownMin], at level 0 and under it is [cooldownMax], and at level 1
    it is half way between the two. *)
Theorem escalation_shortens_cooldown
    (cooldownMin cooldownMax : Z) (Hc : cooldownMin <= cooldownMax)
    (now : Z) (h : ChatHistory.t) :
  let since := now - ChatHistory.lastResponseTime h in
  (forall l1 l2, l1 <= l2 ->
     ChatHistory.canSendProactiveMessage cooldownMin cooldownMax l1 now h = true ->
     ChatHistory.canSendProactiveMessage cooldownMin cooldownMax l2 now h = true)
  /\ (forall l, 2 <= l ->
        ChatHistory.canSendProactiveMessage cooldownMin cooldownMax l now h
        = (since >=? cooldownMin))
  /\ (forall l, l <= 0 ->
        ChatHistory.canSendProactiveMessage cooldownMin cooldownMax l now h
        = (since >=? cooldownMax))
  /\ ChatHistory.canSendProactiveMessage cooldownMin cooldownMax 1 now h
     = (2 * since >=? cooldownMin + cooldownMax).
Proof.
  intros since. unfold ChatHistory.canSendProactiveMessage. cbv zeta. fold since.
  split; [|split; [|split]].
  - intros l1 l2 Hl H. apply geb_true in H. rewrite Z.geb_leb. apply Z.leb_le. nia.
  - intros l Hl. replace (Z.max 0 (Z.min 2 l)) with 2 by lia.
    rewrite !Z.geb_leb. destruct (Z.leb_spec cooldownMin since);
      [apply Z.leb_le | apply Z.leb_gt]; lia.
  - intros l Hl. replace (Z.max 0 (Z.min 2 l)) with 0 by lia.
    rewrite !Z.geb_leb. destruct (Z.leb_spec cooldownMax since);
      [apply Z.leb_le | apply Z.leb_gt]; lia.
  - change (Z.max 0 (Z.min 2 1)) with 1.
    rewrite !Z.geb_leb. destruct (Z.leb_spec (cooldownMin + cooldownMax) (2 * since));
      [apply Z.leb_le | apply Z.leb_gt]; lia.
Qed.

(** **** The activity log *)

Lemma addEntry_entries (e : ActivityLog.Entry) (l : ActivityLog.t) :
  ActivityLog.entries (ActivityLog.addEntry e l)
  = (let pushed := ActivityLog.entries l ++ [e] in
     if (ActivityLog.maxEntries <? List.length pushed)%nat then tl pushed else pushed)
  /\ ActivityLog.writable (ActivityLog.addEntry e l) = ActivityLog.writable l
  /\ ActivityLog.file (ActivityLog.addEntry e l)
     = (if (List.length (ActivityLog.entries (ActivityLog.addEntry e l)) mod 5 =? 0)%nat
           && ActivityLog.writable l
        then ActivityLog.Stored (ActivityLog.entries (ActivityLog.addEntry e l))
        else ActivityLog.file l).
Proof.
  unfold ActivityLog.addEntry. cbv zeta.
  set (l1 := ActivityLog.set_entries _ l).
  assert (He : ActivityLog.entries l1
               = if (ActivityLog.maxEntries <? List.length (ActivityLog.entries l ++ [e]))%nat
                 then tl (ActivityLog.entries l ++ [e]) else ActivityLog.entries l ++ [e])
    by reflexivity.
  assert (Hw : ActivityLog.writable l1 = ActivityLog.writable l) by reflexivity.
  assert (Hf : ActivityLog.file l1 = ActivityLog.file l) by reflexivity.
  clearbody l1.
  destruct (List.length (ActivityLog.entries l1) mod 5 =? 0)%nat eqn:E5.
  - unfold ActivityLog.flushToFile. rewrite Hw.
    destruct (ActivityLog.writable l) eqn:Ew.
    + cbn [ActivityLog.entries ActivityLog.file ActivityLog.writable].
      rewrite E5. auto.
    + rewrite E5. auto.
  - rewrite E5. auto.
Qed.

Lemma log_after_snoc (es : list ActivityLog.Entry) (e : ActivityLog.Entry) (l : ActivityLog.t) :
  log_after (es ++ [e]) l = ActivityLog.addEntry e (log_after es l).
Proof. unfold log_after. rewrite fold_left_app. reflexivity. Qed.

Lemma log_after_entries (es : list ActivityLog.Entry) (l0 : ActivityLog.t) :
  (List.length (ActivityLog.entries l0) <= ActivityLog.maxEntries)%nat ->
  ActivityLog.entries (log_after es l0)
  = latest ActivityLog.maxEntries (ActivityLog.entries l0 ++ es)
  /\ ActivityLog.writable (log_after es l0) = ActivityLog.writable l0.
Proof.
  intros H0. induction es as [|e es IH] using rev_ind.
  - simpl. rewrite app_nil_r, latest_all by exact H0. auto.
  - destruct IH as [IH Hw].
    rewrite log_after_snoc.
    destruct (addEntry_entries e (log_after es l0)) as (He & Hw' & _).
    rewrite He, Hw', IH, app_assoc. split; [|exact Hw].
    apply (push_latest ActivityLog.maxEntries).
Qed.

(** The activity log is a ring buffer of 15 entries.  After any sequence of
    [addEntry] on a log of at most 15 entries it holds the last 15 of the
    entries it had and those added, in order, and [getLatest] is the entry
    added last.  Once the log is full every [addEntry] rewrites the file:
    the file then holds the entries of the log.  Before that, an
    [addEntry] that leaves a number of entries that is not a multiple of 5
    leaves the file as it was. *)
Theorem activity_log_ring_buffer (l0 : ActivityLog.t) (es : list ActivityLog.Entry)
    (H0 : (List.length (ActivityLog.entries l0) <= 15)%nat) :
  let l := log_after es l0 in
  ActivityLog.getAll l = latest 15 (ActivityLog.entries l0 ++ es)
  /\ (List.length (ActivityLog.getAll l) <= 15)%nat
  /\ (forall pre e, es = pre ++ [e] -> ActivityLog.getLatest l = Some e)
  /\ (forall pre e, es = pre ++ [e] -> ActivityLog.writable l0 = true ->
        (15 <= List.length (ActivityLog.entries l0 ++ es))%nat ->
        ActivityLog.file l = ActivityLog.Stored (ActivityLog.getAll l))
  /\ (forall pre e, es = pre ++ [e] ->
        (List.length (ActivityLog.getAll l) mod 5 <> 0)%nat ->
        ActivityLog.file l = ActivityLog.file (log_after pre l0)).
Proof.
  intros l. unfold ActivityLog.getAll.
  destruct (log_after_entries es l0 H0) as [He Hw]. fold l in He, Hw.
  change ActivityLog.maxEntries with 15%nat in He.
  split; [exact He|]. split; [rewrite He, latest_length; lia|].
  split; [|split].
  - intros pre e ->. unfold ActivityLog.getLatest. rewrite He, app_assoc.
    assert (Hl : (0 <? List.length (latest 15 ((ActivityLog.entries l0 ++ pre) ++ [e])))%nat
                 = true).
    { apply Nat.ltb_lt. rewrite latest_length, length_app. simpl List.length. lia. }
    rewrite Hl. apply latest_last. lia.
  - intros pre e -> Hwr Hfull.
    assert (Hlen : List.length (ActivityLog.entries l) = 15%nat).
    { rewrite He, latest_length. lia. }
    subst l. rewrite log_after_snoc in *.
    destruct (addEntry_entries e (log_after pre l0)) as (_ & _ & Hf).
    rewrite Hf, Hlen.
    destruct (log_after_entries pre l0 H0) as [_ Hw']. rewrite Hw', Hwr. reflexivity.
  - intros pre e -> Hmod.
    subst l. rewrite log_after_snoc in *.
    destruct (addEntry_entries e (log_after pre l0)) as (_ & _ & Hf).
    rewrite Hf.
    destruct (Nat.eqb_spec
                (List.length (ActivityLog.entries (ActivityLog.addEntry e (log_after pre l0)))
                 mod 5) 0) as [E|E]; [contradiction|reflexivity].
Qed.

Lemma notBefore_spec (cutoff : Z) (e : ActivityLog.Entry) :
  ActivityLog.notBefore cutoff e = true
  <-> exists t, ActivityLog.entryTime e = Some t /\ cutoff <= t.
Proof.
  unfold ActivityLog.notBefore. destruct (ActivityLog.entryTime e) as [t|]; split.
  - intros H. apply geb_true in H. eauto.
  - intros (t' & E & H). injection E as <-. rewrite Z.geb_leb. apply Z.leb_le. exact H.
  - discriminate.
  - intros (t' & E & _). discriminate.
Qed.

Lemma in_pushed {A : Type} (max : nat) (l : list A) (x : A) :
  (0 < max)%nat ->
  In x (let pushed := l ++ [x] in
        if (max <? List.length pushed)%nat then tl pushed else pushed).
Proof.
  intros Hm. cbv zeta. rewrite length_app. simpl.
  destruct (Nat.ltb_spec max (List.length l + 1)) as [H|H].
  - destruct l as [|a l]; [simpl in H; lia|]. simpl. apply in_or_app. right. left. reflexivity.
  - apply in_or_app. right. left. reflexivity.
Qed.

(** [getEntriesSince] returns the entries of the log, in their order, whose
    timestamp is a date not older than [msAgo]; an entry whose timestamp is
    not a date is never returned; a longer span returns at least as much;
    and the entry just added is returned when its timestamp is within the
    span, so the list is then not empty.  A log constructed on a file holds
    at most 15 entries, all of them with a date within the last two
    minutes, and none when the file is missing or cannot be read. *)
Theorem activity_log_entries_since (l : ActivityLog.t) (msAgo now : Z) :
  (forall e, In e (ActivityLog.getEntriesSince msAgo now l)
             <-> In e (ActivityLog.entries l)
                 /\ exists t, ActivityLog.entryTime e = Some t /\ now - msAgo <= t)
  /\ (exists keep, ActivityLog.getEntriesSince msAgo now l = filter keep (ActivityLog.getAll l))
  /\ (forall longer, msAgo <= longer ->
        incl (ActivityLog.getEntriesSince msAgo now l)
             (ActivityLog.getEntriesSince longer now l))
  /\ (forall e t, ActivityLog.entryTime e = Some t -> now - msAgo <= t ->
        In e (ActivityLog.getEntriesSince msAgo now (ActivityLog.addEntry e l)))
  /\ (forall f canWrite,
        let l1 := ActivityLog.create f canWrite now in
        (List.length (ActivityLog.entries l1) <= 15)%nat
        /\ (forall e, In e (ActivityLog.entries l1) ->
              exists t, ActivityLog.entryTime e = Some t /\ now - 120000 <= t)
        /\ (match f with ActivityLog.Stored _ => False | _ => True end ->
            ActivityLog.entries l1 = [])).
Proof.
  assert (Hin : forall l ms e,
             In e (ActivityLog.getEntriesSince ms now l)
             <-> In e (ActivityLog.entries l)
                 /\ exists t, ActivityLog.entryTime e = Some t /\ now - ms <= t).
  { intros l' ms e. unfold ActivityLog.getEntriesSince. cbv zeta.
    rewrite filter_In, notBefore_spec. reflexivity. }
  split; [apply Hin|]. split; [eexists; reflexivity|]. split; [|split].
  - intros longer Hl e He. apply Hin in He as (H1 & t & H2 & H3).
    apply Hin. split; [exact H1|]. exists t. split; [exact H2 | lia].
  - intros e t He Ht. apply Hin. split; [|eauto].
    destruct (addEntry_entries e l) as (E & _). rewrite E.
    apply in_pushed. unfold ActivityLog.maxEntries. lia.
  - intros f canWrite l1. subst l1. unfold ActivityLog.create, ActivityLog.loadFromFile.
    destruct f as [| |loaded]; simpl.
    + split; [lia|]. split; [intros e []|reflexivity].
    + split; [lia|]. split; [intros e []|reflexivity].
    + set (kept := filter (ActivityLog.notBefore (now - 120000)) loaded).
      assert (Hk : forall e, In e kept ->
                     exists t, ActivityLog.entryTime e = Some t /\ now - 120000 <= t).
      { intros e He. apply filter_In in He as [_ He]. apply notBefore_spec, He. }
      change ActivityLog.maxEntries with 15%nat.
      destruct (Nat.ltb_spec 15 (List.length kept)) as [H|H].
      * rewrite (slice_latest 15) by lia. split; [rewrite latest_length; lia|].
        split; [|intros []].
        intros e He. apply Hk. unfold latest in He.
        rewrite <- (firstn_skipn (List.length kept - 15) kept).
        apply in_or_app. right. exact He.
      * split; [exact H|]. split; [exact Hk | intros []].
Qed.

(** **** The coach history *)

Lemma coach_addMessage_spec (msg : CoachHistory.CoachMessage) (now : Z) (h : CoachHistory.t) :
  CoachHistory.messages (CoachHistory.addMessage msg now h)
  = (let pushed := CoachHistory.messages h ++ [msg] in
     if (CoachHistory.maxMessages <? List.length pushed)%nat then tl pushed else pushed)
  /\ CoachHistory.lastInterventionTime (CoachHistory.addMessage msg now h) = Some now
  /\ CoachHistory.writable (CoachHistory.addMessage msg now h) = CoachHistory.writable h
  /\ CoachHistory.file (CoachHistory.addMessage msg now h)
     = (if CoachHistory.writable h
        then CoachHistory.Stored (CoachHistory.messages (CoachHistory.addMessage msg now h))
        else CoachHistory.file h).
Proof.
  unfold CoachHistory.addMessage, CoachHistory.flushToFile. cbv zeta.
  cbn [CoachHistory.messages CoachHistory.file CoachHistory.writable
       CoachHistory.lastInterventionTime].
  destruct (CoachHistory.writable h) eqn:Ew;
    cbn [CoachHistory.messages CoachHistory.file CoachHistory.writable
         CoachHistory.lastInterventionTime]; auto.
Qed.

Lemma coach_after_snoc (calls : list (CoachHistory.CoachMessage * Z))
    (c : CoachHistory.CoachMessage * Z) (h : CoachHistory.t) :
  coach_after (calls ++ [c]) h = CoachHistory.addMessage (fst c) (snd c) (coach_after calls h).
Proof. unfold coach_after. rewrite fold_left_app. reflexivity. Qed.

Lemma coach_after_messages (calls : list (CoachHistory.CoachMessage * Z)) (h0 : CoachHistory.t) :
  (List.length (CoachHistory.messages h0) <= CoachHistory.maxMessages)%nat ->
  CoachHistory.messages (coach_after calls h0)
  = latest CoachHistory.maxMessages (CoachHistory.messages h0 ++ map fst calls)
  /\ CoachHistory.writable (coach_after calls h0) = CoachHistory.writable h0.
Proof.
  intros H0. induction calls as [|c calls IH] using rev_ind.
  - simpl. rewrite app_nil_r, latest_all by exact H0. auto.
  - destruct IH as [IH Hw]. rewrite coach_after_snoc.
    destruct (coach_addMessage_spec (fst c) (snd c) (coach_after calls h0))
      as (Hm & _ & Hw' & _).
    rewrite Hm, Hw', IH, map_app, app_assoc. split; [|exact Hw].
    apply (push_latest CoachHistory.maxMessages).
Qed.

(** The coach history after a sequence of [addMessage] on a history of at
    most 20 messages: it holds the last 20 of the messages it had and those
    added, in order; every [addMessage] writes them to the file; the
    cooldown of [canInterveneNow] counts from the last call.
    [getRecentMessages] without a limit, or with the limit 0, returns all
    messages; with a positive limit, the last [limit] of them; with a
    negative limit it drops that many of the oldest instead. *)
Theorem coach_history_keeps_latest
    (h0 : CoachHistory.t) (pre : list (CoachHistory.CoachMessage * Z))
    (msg : CoachHistory.CoachMessage) (T : Z)
    (H0 : (List.length (CoachHistory.messages h0) <= 20)%nat) :
  let h := coach_after (pre ++ [(msg, T)]) h0 in
  CoachHistory.messages h
  = latest 20 (CoachHistory.messages h0 ++ map fst pre ++ [msg])
  /\ CoachHistory.getLatest h = Some msg
  /\ (CoachHistory.writable h0 = true ->
      CoachHistory.file h = CoachHistory.Stored (CoachHistory.messages h))
  /\ (forall cooldownMs now,
        CoachHistory.canInterveneNow cooldownMs now h = (now - T >=? cooldownMs))
  /\ CoachHistory.getRecentMessages None h = CoachHistory.messages h
  /\ CoachHistory.getRecentMessages (Some 0) h = CoachHistory.messages h
  /\ (forall n, 0 < n ->
        CoachHistory.getRecentMessages (Some n) h
        = latest (Z.to_nat n) (CoachHistory.messages h))
  /\ (forall n, n < 0 ->
        CoachHistory.getRecentMessages (Some n) h
        = skipn (Z.to_nat (- n)) (CoachHistory.messages h)).
Proof.
  intros h.
  destruct (coach_after_messages (pre ++ [(msg, T)]) h0 H0) as [Hm Hw]. fold h in Hm, Hw.
  change CoachHistory.maxMessages with 20%nat in Hm.
  rewrite map_app in Hm. simpl map in Hm.
  split; [exact Hm|]. split; [|split; [|split; [|split; [|split; [|split]]]]].
  - unfold CoachHistory.getLatest. rewrite Hm, app_assoc.
    assert (Hl : (0 <? List.length
                         (latest 20 ((CoachHistory.messages h0 ++ map fst pre) ++ [msg])))%nat
                 = true).
    { apply Nat.ltb_lt. rewrite latest_length, length_app. simpl List.length. lia. }
    rewrite Hl. apply latest_last. lia.
  - intros Hwr. subst h. rewrite coach_after_snoc.
    destruct (coach_addMessage_spec msg T (coach_after pre h0)) as (_ & _ & _ & Hf).
    simpl fst. simpl snd. rewrite Hf.
    destruct (coach_after_messages pre h0 H0) as [_ Hw']. rewrite Hw', Hwr. reflexivity.
  - intros cooldownMs now. subst h. rewrite coach_after_snoc.
    destruct (coach_addMessage_spec msg T (coach_after pre h0)) as (_ & Ht & _).
    unfold CoachHistory.canInterveneNow. simpl fst. simpl snd. rewrite Ht. reflexivity.
  - reflexivity.
  - reflexivity.
  - intros n Hn. unfold CoachHistory.getRecentMessages.
    destruct (Z.eqb_spec n 0) as [E|_]; [lia|].
    rewrite <- (Z2Nat.id n) at 1 by lia. apply slice_latest. lia.
  - intros n Hn. unfold CoachHistory.getRecentMessages.
    destruct (Z.eqb_spec n 0) as [E|_]; [lia|].
    unfold JsArray.slice. cbv zeta.
    destruct (Z.ltb_spec (- n) 0) as [H|H]; [lia|].
    destruct (Z.le_gt_cases (- n) (Z.of_nat (List.length (CoachHistory.messages h)))) as [L|L].
    + rewrite Z.min_l by exact L. reflexivity.
    + rewrite Z.min_r by lia. rewrite Nat2Z.id.
      rewrite !skipn_all2 by lia. reflexivity.
Qed.

Lemma lastElement_in {A : Type} (l : list A) (x : A) :
  JsArray.lastElement l = Some x -> In x l.
Proof. unfold JsArray.lastElement. apply nth_error_In. Qed.

Lemma coach_notBefore_spec (cutoff : Z) (m : CoachHistory.CoachMessage) :
  CoachHistory.notBefore cutoff m = true
  <-> exists t, CoachHistory.msgTime m = Some t /\ cutoff <= t.
Proof.
  unfold CoachHistory.notBefore. destruct (CoachHistory.msgTime m) as [t|]; split.
  - intros H. apply geb_true in H. eauto.
  - intros (t' & E & H). injection E as <-. rewrite Z.geb_leb. apply Z.leb_le. exact H.
  - discriminate.
  - intros (t' & E & _). discriminate.
Qed.

(** The coach history across a restart.  A history constructed on a file
    holds at most 20 messages, all of them dated within the last hour, and
    its [lastInterventionTime] is a number (never NaN, whatever the
    timestamps in the file): 0 when no message was kept, the date of the
    last kept message otherwise.  A file written by [addMessage] whose
    messages are all dated within the last hour is read back as it was
    written. *)
Theorem coach_history_restart (f : CoachHistory.LogFile) (canWrite : bool) (now : Z) :
  let h := CoachHistory.create f canWrite now in
  (List.length (CoachHistory.messages h) <= 20)%nat
  /\ (forall m, In m (CoachHistory.messages h) ->
        exists t, CoachHistory.msgTime m = Some t /\ now - 3600000 <= t)
  /\ (exists t, CoachHistory.lastInterventionTime h = Some t
                /\ (match CoachHistory.getLatest h with
                    | Some latest => CoachHistory.msgTime latest = Some t
                    | None => t = 0
                    end))
  /\ (forall h1 msg T,
        let h2 := CoachHistory.addMessage msg T h1 in
        (List.length (CoachHistory.messages h1) <= 20)%nat ->
        CoachHistory.writable h1 = true ->
        forallb (CoachHistory.notBefore (now - 3600000)) (CoachHistory.messages h2) = true ->
        f = CoachHistory.file h2 ->
        CoachHistory.messages h = CoachHistory.messages h2).
Proof.
  intros h.
  assert (Hcases :
            (CoachHistory.messages h = [] /\ CoachHistory.lastInterventionTime h = Some 0
             /\ match f with CoachHistory.Stored _ => False | _ => True end)
            \/ exists loaded,
                f = CoachHistory.Stored loaded
                /\ let kept := filter (CoachHistory.notBefore (now - 3600000)) loaded in
                   CoachHistory.messages h
                   = (if (20 <? List.length kept)%nat then latest 20 kept else kept)
                   /\ CoachHistory.lastInterventionTime h
                      = (if (0 <? List.length (CoachHistory.messages h))%nat
                         then match JsArray.lastElement (CoachHistory.messages h) with
                              | Some latest => CoachHistory.msgTime latest
                              | None => Some 0
                              end
                         else Some 0)).
  { subst h. unfold CoachHistory.create, CoachHistory.loadFromFile.
    destruct f as [| |loaded];
      cbn [CoachHistory.file CoachHistory.messages CoachHistory.lastInterventionTime];
      [left; auto | left; auto |].
    right. exists loaded. split; [reflexivity|]. cbv zeta.
    change CoachHistory.maxMessages with 20%nat.
    cbn [CoachHistory.file CoachHistory.messages CoachHistory.lastInterventionTime].
    destruct (20 <? _)%nat; [rewrite (slice_latest 20) by lia|]; split; reflexivity. }
  assert (Hkept : forall loaded m,
             In m (if (20 <? List.length (filter (CoachHistory.notBefore (now - 3600000)) loaded))%nat
                   then latest 20 (filter (CoachHistory.notBefore (now - 3600000)) loaded)
                   else filter (CoachHistory.notBefore (now - 3600000)) loaded) ->
             exists t, CoachHistory.msgTime m = Some t /\ now - 3600000 <= t).
  { intros loaded m Hm.
    assert (Hin : In m (filter (CoachHistory.notBefore (now - 3600000)) loaded)).
    { destruct (20 <? _)%nat; [|exact Hm].
      unfold latest in Hm.
      rewrite <- (firstn_skipn (List.length (filter (CoachHistory.notBefore (now - 3600000)) loaded) - 20)
                    (filter (CoachHistory.notBefore (now - 3600000)) loaded)).
      apply in_or_app. right. exact Hm. }
    apply filter_In in Hin as [_ Hin]. apply coach_notBefore_spec, Hin. }
  split; [|split; [|split]].
  - destruct Hcases as [(E & _) | (loaded & _ & E & _)]; rewrite E; [simpl; lia|].
    destruct (Nat.ltb_spec 20 (List.length (filter (CoachHistory.notBefore (now - 3600000)) loaded)));
      [rewrite latest_length|]; lia.
  - intros m Hm.
    destruct Hcases as [(E & _) | (loaded & _ & E & _)]; rewrite E in Hm; [destruct Hm|].
    apply (Hkept loaded m Hm).
  - unfold CoachHistory.getLatest.
    destruct Hcases as [(E & Et & _) | (loaded & _ & E & Et)].
    + rewrite E, Et. simpl. eauto.
    + rewrite Et.
      destruct (0 <? List.length (CoachHistory.messages h))%nat eqn:E0; [|eauto].
      destruct (JsArray.lastElement (CoachHistory.messages h)) as [latest0|] eqn:El; [|eauto].
      apply lastElement_in in El. rewrite E in El.
      destruct (Hkept loaded latest0 El) as (t & Ht & _). eauto.
  - intros h1 msg T h2 Hlen Hw Hall Hf.
    destruct (coach_addMessage_spec msg T h1) as (Hm & _ & _ & Hfile).
    fold h2 in Hm, Hfile. rewrite Hw in Hfile.
    assert (Hlen2 : (List.length (CoachHistory.messages h2) <= 20)%nat).
    { rewrite Hm. cbv zeta. change CoachHistory.maxMessages with 20%nat.
      rewrite length_app. simpl List.length.
      destruct (Nat.ltb_spec 20 (List.length (CoachHistory.messages h1) + 1)) as [L|L];
        [|rewrite length_app; simpl List.length; exact L].
      destruct (CoachHistory.messages h1) as [|a r]; simpl in *; [lia|].
      rewrite length_app. simpl. lia. }
    destruct Hcases as [(_ & _ & Hno) | (loaded & Hl & E & _)].
    + rewrite Hf, Hfile in Hno. destruct Hno.
    + rewrite Hf, Hfile in Hl. injection Hl as <-.
      rewrite E.
      assert (Hfil : filter (CoachHistory.notBefore (now - 3600000)) (CoachHistory.messages h2)
                     = CoachHistory.messages h2).
      { clear - Hall. induction (CoachHistory.messages h2) as [|a r IH]; [reflexivity|].
        simpl in *. apply andb_prop in Hall as [Ha Hr]. rewrite Ha, (IH Hr). reflexivity. }
      rewrite Hfil.
      destruct (Nat.ltb_spec 20 (List.length (CoachHistory.messages h2))); [lia|reflexivity].
Qed.

(** *** The conversation memory *)

Lemma userMood_updateFromUserMessage
    (message : string) (activities : list QwenActivitySummary)
    (goalMatch deadlineMatch : option string) (m : ConversationMemory.t) :
  ConversationMemory.userMood
    (ConversationMemory.updateFromUserMessage message activities goalMatch deadlineMatch m)
  = (let mood1 := match spoken_mood message with
                  | Some mood => mood
                  | None => ConversationMemory.userMood m
                  end in
     let w := work_count activities in
     let n := Z.of_nat (List.length activities) in
     if (0 <? List.length activities)%nat then
       if ConversationMemory.mood_eqb mood1 ConversationMemory.grinding && (10 * w <? 3 * n)
       then ConversationMemory.making_excuses
       else if (10 * w >=? 7 * n) && ConversationMemory.mood_eqb mood1 ConversationMemory.distracted
       then ConversationMemory.grinding
       else mood1
     else mood1)
  /\ ConversationMemory.totalExchanges
       (ConversationMemory.updateFromUserMessage message activities goalMatch deadlineMatch m)
     = ConversationMemory.totalExchanges m + 1
  /\ ConversationMemory.userHasSharedGoal
       (ConversationMemory.updateFromUserMessage message activities goalMatch deadlineMatch m)
     = (ConversationMemory.matchesAny (toLowerCase message) ConversationMemory.goalWords
        || ConversationMemory.userHasSharedGoal m)
  /\ ConversationMemory.sessionStartTime
       (ConversationMemory.updateFromUserMessage message activities goalMatch deadlineMatch m)
     = ConversationMemory.sessionStartTime m
  /\ ConversationMemory.lastGogginsMessage
       (ConversationMemory.updateFromUserMessage message activities goalMatch deadlineMatch m)
     = ConversationMemory.lastGogginsMessage m
  /\ ConversationMemory.lastApproach
       (ConversationMemory.updateFromUserMessage message activities goalMatch deadlineMatch m)
     = ConversationMemory.lastApproach m.
Proof.
  unfold ConversationMemory.updateFromUserMessage, spoken_mood, work_count. cbv zeta.
  set (lowerMsg := toLowerCase message).
  set (c1 := (10 * _ <? 3 * _)). set (c2 := (10 * _ >=? 7 * _)).
  destruct (ConversationMemory.matchesAny lowerMsg ConversationMemory.goalWords);
    [destruct (includes lowerMsg "goal"); [destruct goalMatch|]|];
    destruct (0 <? List.length activities)%nat;
    cbn [ConversationMemory.userMood ConversationMemory.totalExchanges
         ConversationMemory.userHasSharedGoal ConversationMemory.sessionStartTime
         ConversationMemory.lastGogginsMessage ConversationMemory.lastApproach orb];
    (split; [|repeat split]);
    destruct (ConversationMemory.matchesAny lowerMsg ConversationMemory.defeatedWords),
      (ConversationMemory.matchesAny lowerMsg ConversationMemory.grindingWords),
      (ConversationMemory.matchesAny lowerMsg ConversationMemory.excuseWords),
      (ConversationMemory.matchesAny lowerMsg ConversationMemory.strugglingWords),
      (ConversationMemory.matchesAny lowerMsg ConversationMemory.motivatedWords),
      (ConversationMemory.userMood m), c1, c2; reflexivity.
Qed.

Lemma mood_eqb_eq (a b : ConversationMemory.UserMood) :
  ConversationMemory.mood_eqb a b = true <-> a = b.
Proof. destruct a, b; simpl; split; congruence. Qed.

(** The mood [updateFromUserMessage] records.  Words of defeat win over
    every other word and over the screen.  A claim of working is believed
    only when there are no recent activities or at least 30 % of them are
    work or study: otherwise the mood is 'making-excuses'.  With recent
    activities of which less than 30 % are work or study the mood is never
    'grinding', and with at least 70 % it is never 'distracted'.  The mood
    never goes back to 'distracted'; and a message without any of the
    words, with no recent activities, leaves the mood as it was. *)
Theorem user_mood_detection
    (message : string) (activities : list QwenActivitySummary)
    (goalMatch deadlineMatch : option string) (m : ConversationMemory.t) :
  let m' := ConversationMemory.updateFromUserMessage
              message activities goalMatch deadlineMatch m in
  let w := work_count activities in
  let n := Z.of_nat (List.length activities) in
  (spoken_mood message = Some ConversationMemory.defeated ->
   ConversationMemory.userMood m' = ConversationMemory.defeated)
  /\ (spoken_mood message = Some ConversationMemory.grinding ->
      ConversationMemory.userMood m'
      = if (0 <? n) && (10 * w <? 3 * n)
        then ConversationMemory.making_excuses else ConversationMemory.grinding)
  /\ (0 < n -> 10 * w < 3 * n ->
      ConversationMemory.userMood m' <> ConversationMemory.grinding)
  /\ (0 < n -> 7 * n <= 10 * w ->
      ConversationMemory.userMood m' <> ConversationMemory.distracted)
  /\ (ConversationMemory.userMood m' = ConversationMemory.distracted ->
      ConversationMemory.userMood m = ConversationMemory.distracted
      /\ spoken_mood message = None)
  /\ (spoken_mood message = None -> activities = [] ->
      ConversationMemory.userMood m' = ConversationMemory.userMood m).
Proof.
  intros m' w n.
  destruct (userMood_updateFromUserMessage message activities goalMatch deadlineMatch m)
    as (Hm & _).
  fold m' in Hm. cbv zeta in Hm. fold w n in Hm.
  assert (Hn : (0 <? List.length activities)%nat = (0 <? n)).
  { unfold n. destruct activities; reflexivity. }
  rewrite Hn in Hm. clear Hn.
  assert (Hspoken : forall mood, spoken_mood message = Some mood ->
                                 mood <> ConversationMemory.distracted).
  { intros mood. unfold spoken_mood. cbv zeta.
    repeat match goal with |- context [if ?c then _ else _] => destruct c end;
      intros H; inversion H; discriminate. }
  split; [|split; [|split; [|split; [|split]]]].
  - intros Hs. rewrite Hs in Hm. rewrite Hm.
    destruct (0 <? n), (10 * w <? 3 * n), (10 * w >=? 7 * n); reflexivity.
  - intros Hs. rewrite Hs in Hm. rewrite Hm.
    destruct (0 <? n), (10 * w <? 3 * n), (10 * w >=? 7 * n); reflexivity.
  - intros H0 Hlow. rewrite Hm.
    rewrite (proj2 (Z.ltb_lt 0 n) H0), (proj2 (Z.ltb_lt _ _) Hlow).
    assert (E : (10 * w >=? 7 * n) = false) by (rewrite Z.geb_leb; apply Z.leb_gt; lia).
    rewrite E. simpl.
    destruct (ConversationMemory.mood_eqb _ ConversationMemory.grinding) eqn:Eg; simpl.
    + discriminate.
    + intros Hc. apply mood_eqb_eq in Hc. congruence.
  - intros H0 Hhigh. rewrite Hm.
    rewrite (proj2 (Z.ltb_lt 0 n) H0).
    assert (E1 : (10 * w <? 3 * n) = false) by (apply Z.ltb_ge; lia).
    assert (E2 : (10 * w >=? 7 * n) = true) by (rewrite Z.geb_leb; apply Z.leb_le; lia).
    rewrite E1, E2, andb_false_r. simpl.
    destruct (ConversationMemory.mood_eqb _ ConversationMemory.distracted) eqn:Ed.
    + discriminate.
    + intros Hc. apply mood_eqb_eq in Hc. congruence.
  - rewrite Hm. destruct (spoken_mood message) as [mood|] eqn:Es.
    + specialize (Hspoken mood eq_refl).
      destruct (0 <? n), (10 * w <? 3 * n), (10 * w >=? 7 * n), mood; simpl;
        intros H; try discriminate H; congruence.
    + destruct (0 <? n), (10 * w <? 3 * n), (10 * w >=? 7 * n),
        (ConversationMemory.userMood m); simpl; intros H; try discriminate H; auto.
  - intros Hs ->. rewrite Hs in Hm. exact Hm.
Qed.

Lemma remember_fold (turns : list UserTurn) (m : ConversationMemory.t) :
  let m' := fold_left remember turns m in
  ConversationMemory.totalExchanges m'
  = ConversationMemory.totalExchanges m + Z.of_nat (List.length turns)
  /\ ConversationMemory.sessionStartTime m' = ConversationMemory.sessionStartTime m
  /\ ConversationMemory.lastGogginsMessage m' = ConversationMemory.lastGogginsMessage m
  /\ ConversationMemory.lastApproach m' = ConversationMemory.lastApproach m
  /\ ConversationMemory.userHasSharedGoal m'
     = (existsb (fun u => ConversationMemory.matchesAny (toLowerCase (turn_message u))
                            ConversationMemory.goalWords) turns
        || ConversationMemory.userHasSharedGoal m).
Proof.
  revert m. induction turns as [|u turns IH]; intros m.
  - simpl. repeat split. lia.
  - cbv zeta. simpl fold_left. specialize (IH (remember m u)). cbv zeta in IH.
    destruct IH as (H1 & H2 & H3 & H4 & H5).
    destruct (userMood_updateFromUserMessage (turn_message u) (turn_activities u)
                (turn_goal u) (turn_deadline u) m) as (_ & G1 & G2 & G3 & G4 & G5).
    fold (remember m u) in G1, G2, G3, G4, G5.
    rewrite H1, H2, H3, H4, H5, G1, G2, G3, G4, G5.
    repeat split; [simpl List.length; lia|].
    simpl existsb. rewrite orb_assoc.
    rewrite (orb_comm (existsb _ turns)). reflexivity.
Qed.

Lemma substring_prefix (n : nat) (s : string) :
  String.length (String.substring 0 n s) = Nat.min n (String.length s)
  /\ String.prefix (String.substring 0 n s) s = true
  /\ ((String.length s <= n)%nat -> String.substring 0 n s = s).
Proof.
  revert s. induction n as [|n IH]; intros s.
  - destruct s; simpl; repeat split; auto. intros H. lia.
  - destruct s as [|c s]; simpl; [repeat split; auto; lia|].
    destruct (IH s) as (H1 & H2 & H3).
    split; [rewrite H1; reflexivity|]. split.
    + destruct (Ascii.ascii_dec c c) as [_|N]; [exact H2 | congruence].
    + intros H. rewrite H3 by lia. reflexivity.
Qed.

(** The counters of a conversation.  After any number of user messages the
    memory has counted each of them once; the user has shared a goal exactly
    when it had before or one of the messages holds one of the goal words,
    so the flag is never taken back; the start of the session, the last
    approach and the last message of Goggins are untouched.  The message of
    Goggins is stored cut to its first 150 characters: what is stored is
    the prefix of the message whose length is 150, or the length of the
    message when that is less, and so the whole message when it is no
    longer than 150.  The session duration is the number of whole minutes since the
    start, and [reset()] starts a new session. *)
Theorem conversation_memory_counters
    (turns : list UserTurn) (m : ConversationMemory.t) (text : string) (now : Z) :
  let m' := fold_left remember turns m in
  ConversationMemory.totalExchanges m'
  = ConversationMemory.totalExchanges m + Z.of_nat (List.length turns)
  /\ (ConversationMemory.userHasSharedGoal m'
      = (existsb (fun u => ConversationMemory.matchesAny (toLowerCase (turn_message u))
                             ConversationMemory.goalWords) turns
         || ConversationMemory.userHasSharedGoal m))
  /\ (ConversationMemory.userHasSharedGoal m = true ->
      ConversationMemory.userHasSharedGoal m' = true)
  /\ (ConversationMemory.sessionStartTime m' = ConversationMemory.sessionStartTime m
      /\ ConversationMemory.lastGogginsMessage m' = ConversationMemory.lastGogginsMessage m
      /\ ConversationMemory.lastApproach m' = ConversationMemory.lastApproach m)
  /\ (exists stored,
        ConversationMemory.lastGogginsMessage
          (ConversationMemory.updateFromGogginsMessage text m') = Some stored
        /\ String.length stored = Nat.min 150 (String.length text)
        /\ String.prefix stored text = true
        /\ ((String.length text <= 150)%nat -> stored = text))
  /\ (ConversationMemory.sessionStartTime m <= now ->
      let minutes := ConversationMemory.getSessionDurationMinutes now m' in
      0 <= minutes
      /\ 60000 * minutes <= now - ConversationMemory.sessionStartTime m
         < 60000 * (minutes + 1))
  /\ ConversationMemory.getSessionDurationMinutes now (ConversationMemory.reset now m') = 0
  /\ ConversationMemory.totalExchanges (ConversationMemory.reset now m') = 0.
Proof.
  intros m'.
  destruct (remember_fold turns m) as (H1 & H2 & H3 & H4 & H5). fold m' in H1, H2, H3, H4, H5.
  split; [exact H1|]. split; [exact H5|]. split; [intros Hs; rewrite H5, Hs; apply orb_true_r|].
  split; [auto|]. split; [|split; [|split]].
  - exists (String.substring 0 150 text). split; [reflexivity|].
    apply substring_prefix.
  - intros Hle minutes. subst minutes. unfold ConversationMemory.getSessionDurationMinutes.
    rewrite H2.
    set (d := now - ConversationMemory.sessionStartTime m).
    assert (Hd : 0 <= d) by (unfold d; lia).
    pose proof (Z.div_pos d 60000 Hd ltac:(lia)).
    pose proof (Z.mul_div_le d 60000 ltac:(lia)).
    pose proof (Z.mul_succ_div_gt d 60000 ltac:(lia)).
    lia.
  - unfold ConversationMemory.getSessionDurationMinutes, ConversationMemory.reset. simpl.
    rewrite Z.sub_diag. reflexivity.
  - reflexivity.
Qed.

(** *** The vision client and the scoring client *)




(** The score [scoreActivity] returns is always between 0 and 10; it is 0
    when there is no activity to score, when the model cannot be reached and
    when its answer holds no score.  With a threshold that is not negative,
    a run of the monitor on such a score asks nothing of the model, sends
    nothing and starts no auto-listen: a scoring that fails never makes
    Goggins speak. *)
Theorem failed_scoring_is_silent
    (activities : list QwenActivitySummary) (a : LlamaClient.Answer)
    (o : ProductivityMonitor.Observation) (m : ProductivityMonitor.t)
    (Hth : 0 <= interventionThreshold config)
    (Hscore : ProductivityMonitor.score o = LlamaClient.scoreActivity activities a) :
  (0 <= ProductivityMonitor.score o <= 10)
  /\ (activities = [] \/ a = LlamaClient.Unavailable \/ a = LlamaClient.Parsed None
      \/ a = LlamaClient.Unparsed None ->
      ProductivityMonitor.score o = 0
      /\ snd (ProductivityMonitor.captureAndAnalyze config o m) = []).
Proof.
  assert (Hb : 0 <= LlamaClient.scoreActivity activities a <= 10).
  { unfold LlamaClient.scoreActivity.
    destruct (List.length activities =? 0)%nat; [lia|].
    destruct a as [|[v|]|[d|]]; lia. }
  assert (Hquiet : ProductivityMonitor.score o <= interventionThreshold config ->
                   snd (ProductivityMonitor.captureAndAnalyze config o m) = []).
  { intros Hle.
    destruct (run_effects o m) as [(E & _) | (k & app & sent & listen & _ & _ & _ & Hsc & _)];
      [exact E | lia]. }
  split; [rewrite Hscore; exact Hb|].
  intros Hf.
  assert (H0 : ProductivityMonitor.score o = 0).
  { rewrite Hscore. unfold LlamaClient.scoreActivity.
    destruct Hf as [-> | [-> | [-> | ->]]]; try reflexivity;
      destruct (List.length activities =? 0)%nat; reflexivity. }
  split; [exact H0|]. apply Hquiet. lia.
Qed.

(** *** The audio handed to the Whisper pipeline *)

Lemma readInt16LE_range (lo hi : Byte.byte) :
  - 32768 <= WhisperAudio.readInt16LE lo hi < 32768.
Proof.
  unfold WhisperAudio.readInt16LE. cbv zeta.
  pose proof (Byte.to_N_bounded lo). pose proof (Byte.to_N_bounded hi).
  destruct (Z.ltb_spec (Z.of_N (Byte.to_N lo) + 256 * Z.of_N (Byte.to_N hi)) 32768); lia.
Qed.

Lemma pairs_ind {A : Type} (P : list A -> Prop) :
  P [] -> (forall x, P [x]) -> (forall x y l, P l -> P (x :: y :: l)) ->
  forall l, P l.
Proof.
  intros H0 H1 H2 l.
  assert (H : P l /\ forall x, P (x :: l)).
  { induction l as [|a l [IH1 IH2]]; [auto|]. split; [apply IH2|].
    intros x. apply H2, IH1. }
  apply H.
Qed.

Lemma samples_spec (buffer : Buffer) :
  List.length (WhisperAudio.samples buffer) = Nat.div2 (List.length buffer)
  /\ Forall (fun k => - 32768 <= k < 32768) (WhisperAudio.samples buffer)
  /\ forall i lo hi,
       nth_error buffer (2 * i) = Some lo -> nth_error buffer (2 * i + 1) = Some hi ->
       nth_error (WhisperAudio.samples buffer) i = Some (WhisperAudio.readInt16LE lo hi).
Proof.
  induction buffer as [|x|lo hi rest (IH1 & IH2 & IH3)] using pairs_ind.
  - repeat split; [constructor|]. intros i lo hi H. destruct i; discriminate.
  - repeat split; [constructor|]. intros i lo hi _ H.
    destruct i as [|i]; [discriminate|].
    replace (2 * S i + 1)%nat with (S (S (2 * i + 1))) in H by lia.
    simpl in H. destruct (2 * i + 1)%nat; discriminate.
  - pose proof (readInt16LE_range lo hi) as Hr.
    cbn [WhisperAudio.samples].
    replace (Z.max (- 32768) (Z.min 32768 (WhisperAudio.readInt16LE lo hi)))
      with (WhisperAudio.readInt16LE lo hi) by lia.
    split; [|split].
    + simpl. rewrite IH1. reflexivity.
    + constructor; [exact Hr | exact IH2].
    + intros i lo' hi' Hlo Hhi. destruct i as [|i].
      * simpl in Hlo, Hhi. injection Hlo as <-. injection Hhi as <-. reflexivity.
      * replace (2 * S i)%nat with (S (S (2 * i))) in Hlo by lia.
        replace (2 * S i + 1)%nat with (S (S (2 * i + 1))) in Hhi by lia.
        simpl in Hlo, Hhi. simpl. apply IH3; assumption.
Qed.

(** [pcmToFloat32] on a buffer with an even number of bytes returns one
    sample for every two bytes, the 16-bit value they hold divided by 32768:
    every sample is within [-1, 1), so the clamp of the source never changes
    one.  On a buffer with an odd number of bytes it throws. *)
Theorem pcm_samples_in_range (buffer : Buffer) :
  match WhisperAudio.pcmToFloat32 buffer with
  | Some float32 =>
      Nat.even (List.length buffer) = true
      /\ (2 * List.length float32 = List.length buffer)%nat
      /\ Forall (fun k => - 32768 <= k < 32768) float32
      /\ (forall i lo hi,
            nth_error buffer (2 * i) = Some lo -> nth_error buffer (2 * i + 1) = Some hi ->
            nth_error float32 i = Some (WhisperAudio.readInt16LE lo hi))
  | None => Nat.odd (List.length buffer) = true
  end.
Proof.
  unfold WhisperAudio.pcmToFloat32.
  destruct (Nat.even (List.length buffer)) eqn:E.
  - destruct (samples_spec buffer) as (H1 & H2 & H3).
    split; [reflexivity|]. split; [|split; assumption].
    rewrite H1. apply Nat.even_spec in E. destruct E as [k Hk]. rewrite Hk.
    rewrite Nat.div2_double. reflexivity.
  - unfold Nat.odd. rewrite E. reflexivity.
Qed.

Lemma max_abs_le (b : Z) (l : list Z) :
  0 <= b ->
  (fold_right Z.max 0 (map Z.abs l) <= b <-> Forall (fun k => Z.abs k <= b) l).
Proof.
  intros Hb. induction l as [|a l IH]; simpl.
  - split; [constructor | intros _; exact Hb].
  - split.
    + intros H. constructor; [lia|]. apply IH. lia.
    + intros H. inversion H as [|? ? Ha Hl]; subst. apply IH in Hl. lia.
Qed.

Lemma processAudioBuffer_cases (maxArguments : nat) (audioBuffer : list Buffer) :
  let n := Z.of_nat (List.length (List.concat audioBuffer)) in
  let all := WhisperAudio.samples (List.concat audioBuffer) in
  (n < 96000 ->
   WhisperAudio.processAudioBuffer maxArguments true audioBuffer
   = (audioBuffer, WhisperAudio.NotProcessed))
  /\ (96000 <= n -> Nat.even (List.length (List.concat audioBuffer)) = false ->
      WhisperAudio.processAudioBuffer maxArguments true audioBuffer
      = (audioBuffer, WhisperAudio.Failed))
  /\ (96000 <= n -> Nat.even (List.length (List.concat audioBuffer)) = true ->
      (maxArguments < List.length all)%nat ->
      WhisperAudio.processAudioBuffer maxArguments true audioBuffer
      = (audioBuffer, WhisperAudio.Failed))
  /\ (96000 <= n -> Nat.even (List.length (List.concat audioBuffer)) = true ->
      (List.length all <= maxArguments)%nat ->
      WhisperAudio.processAudioBuffer maxArguments true audioBuffer
      = ([latest (Z.to_nat 32000) (List.concat audioBuffer)],
         if 1000 * fold_right Z.max 0 (map Z.abs all) <? 5 * 32768
         then WhisperAudio.Silence else WhisperAudio.Inference all)).
Proof.
  intros n all.
  unfold WhisperAudio.processAudioBuffer. cbv zeta.
  change WhisperAudio.MIN_AUDIO_BYTES with 96000.
  change (WhisperAudio.SAMPLE_RATE * WhisperAudio.BYTES_PER_SAMPLE * 1) with 32000.
  fold n.
  assert (Hempty : (List.length audioBuffer =? 0)%nat = true -> n = 0).
  { intros H. apply Nat.eqb_eq in H. unfold n.
    destruct audioBuffer; [reflexivity | discriminate]. }
  simpl negb. simpl orb.
  split; [|split; [|split]].
  - intros Hn.
    destruct (List.length audioBuffer =? 0)%nat; [auto|].
    destruct (Z.ltb_spec n 96000); [auto | lia].
  - intros Hn Hodd.
    destruct (List.length audioBuffer =? 0)%nat eqn:E0; [specialize (Hempty eq_refl); lia|].
    destruct (Z.ltb_spec n 96000); [lia|].
    unfold WhisperAudio.pcmToFloat32. rewrite Hodd. auto.
  - intros Hn Heven Hmany.
    destruct (List.length audioBuffer =? 0)%nat eqn:E0; [specialize (Hempty eq_refl); lia|].
    destruct (Z.ltb_spec n 96000); [lia|].
    unfold WhisperAudio.pcmToFloat32. rewrite Heven. fold all.
    destruct (Nat.ltb_spec maxArguments (List.length all)); [reflexivity | lia].
  - intros Hn Heven Hfew.
    destruct (List.length audioBuffer =? 0)%nat eqn:E0; [specialize (Hempty eq_refl); lia|].
    destruct (Z.ltb_spec n 96000); [lia|].
    unfold WhisperAudio.pcmToFloat32. rewrite Heven. fold all.
    destruct (Nat.ltb_spec maxArguments (List.length all)); [lia|].
    destruct (Z.gtb_spec (n - 32000) 0) as [_|Hc]; [|lia].
    assert (Hs : JsArray.slice (Z.opp 32000) (List.concat audioBuffer)
                 = latest (Z.to_nat 32000) (List.concat audioBuffer)).
    { rewrite <- (slice_latest (Z.to_nat 32000)) by lia. reflexivity. }
    rewrite Hs. destruct (_ <? _); reflexivity.
Qed.

Lemma div2_le (a b : nat) : (a <= b)%nat -> (Nat.div2 a <= Nat.div2 b)%nat.
Proof.
  intros H. rewrite !Nat.div2_div. apply Nat.Div0.div_le_mono, H.
Qed.

(** The window of audio [processAudioBuffer] works on, with the pipeline
    loaded and an engine that takes at most [maxArguments] arguments in a
    call.  Under three seconds of buffered audio (96000 bytes) it leaves
    the buffer alone.  From three seconds on, with an even number of bytes
    and no more samples than the engine takes as arguments, it keeps exactly
    the last second (32000 bytes) for the next window and hands all the
    samples to the pipeline, unless no sample reaches the amplitude 0.005
    (164 of 32768): silence is consumed without being transcribed.  After
    that the next window opens only when two more seconds have arrived.
    With an odd number of bytes the call fails and the buffer stays as it
    was.  With more samples than the engine takes, the spread into
    [Math.max] throws before the buffer is trimmed: the call fails, the
    buffer stays whole and the pipeline is not called, and so it is at
    every later call, whatever audio is added to the buffer. *)
Theorem audio_window (maxArguments : nat) (audioBuffer : list Buffer) :
  let n := Z.of_nat (List.length (List.concat audioBuffer)) in
  let all := WhisperAudio.samples (List.concat audioBuffer) in
  let kept := fst (WhisperAudio.processAudioBuffer maxArguments true audioBuffer) in
  let outcome := snd (WhisperAudio.processAudioBuffer maxArguments true audioBuffer) in
  (n < 96000 -> kept = audioBuffer /\ outcome = WhisperAudio.NotProcessed)
  /\ (96000 <= n -> Nat.even (List.length (List.concat audioBuffer)) = false ->
      kept = audioBuffer /\ outcome = WhisperAudio.Failed)
  /\ (96000 <= n -> Nat.even (List.length (List.concat audioBuffer)) = true ->
      (List.length all <= maxArguments)%nat ->
      kept = [latest (Z.to_nat 32000) (List.concat audioBuffer)]
      /\ Z.of_nat (List.length (List.concat kept)) = 32000
      /\ (outcome = WhisperAudio.Silence /\ Forall (fun k => Z.abs k <= 163) all
          \/ outcome = WhisperAudio.Inference all /\ Exists (fun k => 164 <= Z.abs k) all)
      /\ forall more,
           Z.of_nat (List.length (List.concat more)) < 64000 ->
           WhisperAudio.processAudioBuffer maxArguments true (kept ++ more)
           = (kept ++ more, WhisperAudio.NotProcessed))
  /\ (96000 <= n -> Nat.even (List.length (List.concat audioBuffer)) = true ->
      (maxArguments < List.length all)%nat ->
      kept = audioBuffer /\ outcome = WhisperAudio.Failed
      /\ forall more,
           WhisperAudio.processAudioBuffer maxArguments true (audioBuffer ++ more)
           = (audioBuffer ++ more, WhisperAudio.Failed))
  /\ WhisperAudio.processAudioBuffer maxArguments false audioBuffer
     = (audioBuffer, WhisperAudio.NotProcessed).
Proof.
  intros n all kept outcome. subst kept outcome.
  destruct (processAudioBuffer_cases maxArguments audioBuffer) as (C1 & C2 & C3 & C4).
  fold n all in C1, C2, C3, C4.
  split; [|split; [|split; [|split]]].
  - intros Hn. rewrite (C1 Hn). auto.
  - intros Hn Hodd. rewrite (C2 Hn Hodd). auto.
  - intros Hn Heven Hfew. rewrite (C4 Hn Heven Hfew). cbn [fst snd].
    assert (Hk : Z.of_nat (List.length
                   (List.concat [latest (Z.to_nat 32000) (List.concat audioBuffer)]))
                 = 32000).
    { simpl List.concat. rewrite app_nil_r, latest_length. unfold n in Hn. lia. }
    split; [reflexivity|]. split; [exact Hk|]. split.
    + destruct (Z.ltb_spec (1000 * fold_right Z.max 0 (map Z.abs all)) (5 * 32768)) as [L|L].
      * left. split; [reflexivity|]. apply max_abs_le; lia.
      * right. split; [reflexivity|].
        apply Exists_exists.
        destruct (Forall_Exists_dec (fun k => Z.abs k <= 163)
                    (fun k => Z_le_dec (Z.abs k) 163) all) as [F|E].
        -- apply max_abs_le in F; lia.
        -- apply Exists_exists in E as (k & Hin & Hk'). exists k. split; [exact Hin | lia].
    + intros more Hmore.
      destruct (processAudioBuffer_cases maxArguments
                  ([latest (Z.to_nat 32000) (List.concat audioBuffer)] ++ more)) as (D1 & _).
      apply D1. rewrite concat_app, length_app. lia.
  - intros Hn Heven Hmany. rewrite (C3 Hn Heven Hmany). cbn [fst snd].
    split; [reflexivity|]. split; [reflexivity|].
    intros more.
    destruct (processAudioBuffer_cases maxArguments (audioBuffer ++ more))
      as (_ & D2 & D3 & _).
    assert (Hlen : (List.length (List.concat audioBuffer)
                    <= List.length (List.concat (audioBuffer ++ more)))%nat)
      by (rewrite concat_app, length_app; lia).
    destruct (Nat.even (List.length (List.concat (audioBuffer ++ more)))) eqn:E.
    + apply D3; [unfold n in Hn; lia | reflexivity |].
      destruct (samples_spec (List.concat audioBuffer)) as (L1 & _).
      destruct (samples_spec (List.concat (audioBuffer ++ more))) as (L2 & _).
      fold all in L1. rewrite L2. rewrite L1 in Hmany.
      pose proof (div2_le _ _ Hlen). lia.
    + apply D2; [unfold n in Hn; lia | reflexivity].
  - reflexivity.
Qed.

(** *** The wake word *)

Lemma fragment_stored_idle (frag : string) (w : World) :
  state (cm w) = monitoring -> pendingTranscript (stt w) = "" ->
  let w' := fragment_stored frag w in
  cm w' = cm w /\ pendingTranscript (stt w') = frag
  /\ onTranscriptCallback (stt w') = onTranscriptCallback (stt w)
  /\ onWakeWordCallback (stt w') = onWakeWordCallback (stt w)
  /\ now w' = now w /\ pendingLLM w' = pendingLLM w.
Proof.
  unfold fragment_stored, invoke_onUserSpeaking, merged. open_world w. simpl.
  intros -> ->. destruct cbU; wsimpl; repeat split.
Qed.

Lemma turn_opened_monitoring (t : string) (w : World) :
  state (cm w) = monitoring -> isProcessingResponse (cm w) = false ->
  let w' := turn_opened config t w in
  conversationHistory (cm w')
  = conversationHistory (cm w) ++ [{| role := user; text := t; timestamp := now w |}]
  /\ exchangeCount (cm w') = 0 /\ isProcessingResponse (cm w') = false
  /\ pendingLLM w' = pendingLLM w /\ now w' = now w.
Proof.
  unfold turn_opened. open_world w. simpl. intros -> ->.
  destruct hdl, win; wsimpl; repeat split.
Qed.

Lemma generate_clock (w : World) :
  now (fst (generateAndSpeakResponse config w)) = now w.
Proof.
  unfold generateAndSpeakResponse. open_world w. destruct lock, win; wsimpl; reflexivity.
Qed.

(** What follows the final transcript in [sendPendingTranscript], and then
    the wake word, when the manager is responding. *)
Lemma wake_word_while_responding (v : World) :
  state (cm v) = responding -> onWakeWordCallback (stt v) = true ->
  let v' := invoke_onWakeWord config
              (invoke_onUserSpeaking false
                 (assign_stt stt_set_isUserSpeaking false
                    (assign_stt stt_set_pendingTranscript "" v))) in
  (state (cm v') = conversation /\ mode (cm v') = Some wake_word
   /\ exchangeCount (cm v') = 0
   /\ isProcessingResponse (cm v') = isProcessingResponse (cm v))
  /\ conversationHistory (cm v') = conversationHistory (cm v)
  /\ pendingLLM v' = pendingLLM v
  /\ (forall e, In e (trace v) -> In e (trace v'))
  /\ pendingTranscript (stt v') = ""
  /\ (exists h, responseTimeoutHandle (cm v') = Some h
                /\ In {| handle := h;
                         due := now v + timeout_delay (conversationResponseTimeout config);
                         callback := ResponseTimeout |} (timers v')).
Proof.
  unfold invoke_onWakeWord, invoke_onUserSpeaking. open_world v. simpl.
  intros -> ->.
  destruct cbU, hdl, win; wsimpl;
    (split; [repeat split|]; split; [reflexivity|]; split; [reflexivity|];
     split; [intros e He; repeat (apply in_or_app; left); exact He|];
     split; [reflexivity|]; eexists; split; [reflexivity|];
     apply in_or_app; right; left; reflexivity).
Qed.

(** An utterance with the wake word, heard while the manager is monitoring
    with the lock free and nothing buffered.  The recognised text is
    committed on the spot, without the wait for silence, and answered: it
    is appended to the history and the language model is called, the first
    exchange of the conversation.  The wake word then puts the manager in
    state 'conversation' with the mode 'wake_word' and sets the exchange
    count back to 0 while the lock is held, so the send-off of the
    conversation counts from the next utterance; and it starts the response
    timer while the answer is still being generated. *)
Theorem wake_word_utterance_is_answered (raw : option string) (w : World)
    (Hs : state (cm w) = monitoring)
    (Hl : isProcessingResponse (cm w) = false)
    (Hp : pendingTranscript (stt w) = "")
    (Hcb : onTranscriptCallback (stt w) = true /\ onWakeWordCallback (stt w) = true)
    (Ht : truthy (recognisedText raw) = true)
    (Hw : wakeWordDetected config (recognisedText raw) = true)
    (Hn : isNoise (recognisedText raw) = false) :
  let w' := onTranscribed config raw w in
  let said := {| role := user; text := recognisedText raw; timestamp := now w |} in
  (state (cm w') = conversation /\ mode (cm w') = Some wake_word
   /\ exchangeCount (cm w') = 0 /\ isProcessingResponse (cm w') = true)
  /\ conversationHistory (cm w') = conversationHistory (cm w) ++ [said]
  /\ (exists id,
        pendingLLM w'
        = pendingLLM w
          ++ [{| gen_id := id;
                 gen_shouldEnd := 1 >=? conversationAutoEndExchanges config |}]
        /\ In (CallLLM id (conversationHistory (cm w) ++ [said])
                 (1 >=? conversationAutoEndExchanges config)) (trace w'))
  /\ pendingTranscript (stt w') = ""
  /\ (exists h, responseTimeoutHandle (cm w') = Some h
                /\ In {| handle := h;
                         due := now w + timeout_delay (conversationResponseTimeout config);
                         callback := ResponseTimeout |} (timers w')).
Proof.
  intros w' said.
  destruct Hcb as [HcbT HcbW].
  set (text := recognisedText raw) in *.
  assert (Htrim : trim text = text) by apply recognisedText_trimmed.
  assert (Hne : text <> "") by (apply truthy_nonempty, Ht).
  pose proof (len_positive _ Hne) as Hlen.
  destruct (fragment_stored_idle text w Hs Hp) as (F1 & F2 & F3 & F4 & F5 & F6).
  set (w3 := fragment_stored text w) in *.
  set (u := emit (EmitTranscript true text (now w3)) w3).
  assert (E : w' = invoke_onWakeWord config
                     (invoke_onUserSpeaking false
                        (assign_stt stt_set_isUserSpeaking false
                           (assign_stt stt_set_pendingTranscript ""
                              (handleFinalTranscript config text u))))).
  { subst w'. rewrite (onTranscribed_stored _ _ Ht). fold text. fold w3.
    rewrite F2. unfold checkWakeWord. rewrite Hw.
    cbv beta delta [andThen]. rewrite F2, Htrim, Ht, Hlen. simpl andb. cbv iota.
    unfold sendPendingTranscript. rewrite F2, Ht, F3, HcbT. simpl negb. simpl orb.
    cbv iota zeta. rewrite Htrim. reflexivity. }
  clearbody w'. subst w'.
  assert (Hu : cm u = cm w /\ now u = now w /\ pendingLLM u = pendingLLM w
               /\ onWakeWordCallback (stt u) = true).
  { subst u. split; [exact F1|]. split; [exact F5|]. split; [exact F6|].
    exact (eq_trans F4 HcbW). }
  destruct Hu as (U1 & U2 & U3 & U4).
  assert (Ha : accepted text u = true).
  { unfold accepted. rewrite Hn, U1, Hl, Hs. reflexivity. }
  assert (Gw : onWakeWordCallback (stt (handleFinalTranscript config text u)) = true).
  { destruct (kept_handleFinalTranscript text u) as (_ & _ & _ & _ & K5 & _).
    rewrite K5. exact U4. }
  rewrite (handleFinalTranscript_accepted _ _ Ha) in *.
  assert (Us : state (cm u) = monitoring) by (rewrite U1; exact Hs).
  assert (Ul : isProcessingResponse (cm u) = false) by (rewrite U1; exact Hl).
  destruct (turn_opened_monitoring text u Us Ul) as (T1 & T2 & T3 & T4 & T5).
  set (u1 := turn_opened config text u) in *.
  pose proof (generate_unlocked u1 T3) as G. cbv zeta in G.
  destruct G as (G1 & G2 & _ & G4 & G5 & G6 & _ & _ & _ & G10).
  pose proof (generate_clock u1) as Gn.
  set (v := fst (generateAndSpeakResponse config u1)) in *.
  destruct (wake_word_while_responding v G2 Gw) as (W1 & W2 & W3 & W4 & W5 & W6).
  cbv zeta in W1, W2, W3, W4, W5, W6.
  set (v' := invoke_onWakeWord config _) in *.
  destruct W1 as (W1a & W1b & W1c & W1d).
  split; [repeat split; try assumption; rewrite W1d; exact G1|].
  split; [rewrite W2, G5, T1, U1, U2; reflexivity|].
  split.
  - exists (nextId u1). split.
    + rewrite W3, G6, T4, U3, T2. reflexivity.
    + apply W4. rewrite G10. rewrite T2, T1, U1, U2.
      apply in_or_app. right. apply in_or_app. right. left. reflexivity.
  - split; [exact W5|].
    destruct W6 as (h & Hh & Hin). exists h. split; [exact Hh|].
    rewrite Gn, T5, U2 in Hin. exact Hin.
Qed.

(** *** The lock is given back *)

(** The handlers of the transcriber keep what the neutral actions and
    [handleFinalTranscript] keep. *)
Lemma transcriber_preserves (P : World -> Prop) :
  (forall w w', same_flight w w' -> P w -> P w') ->
  (forall t, preserves P (handleFinalTranscript config t)) ->
  preserves P (checkTranscriptTimeout config)
  /\ forall raw, preserves P (onTranscribed config raw).
Proof.
  intros Hsf Hft.
  assert (Hn : forall a, neutral a -> preserves P a).
  { intros a Ha w. apply Hsf, Ha. }
  assert (Hsend : preserves P (sendPendingTranscript config)).
  { intros w H. unfold sendPendingTranscript.
    destruct (negb _ || negb _); [exact H|].
    cbv beta zeta delta [andThen].
    apply (Hn _ (neutral_invoke_onUserSpeaking false)).
    apply (Hn _ (neutral_assign_stt _ _)).
    apply (Hn _ (neutral_assign_stt _ _)).
    unfold invoke_onTranscript. cbv beta zeta delta [andThen].
    apply Hft, (Hn _ (neutral_emit _)), H. }
  split.
  - intros w H. unfold checkTranscriptTimeout.
    destruct (negb _ || _); [exact H|].
    destruct (_ >=? _); [apply Hsend|]; exact H.
  - intros raw w H. unfold onTranscribed. cbv zeta.
    destruct (truthy (recognisedText raw)); [|exact H].
    cbv beta zeta delta [andThen].
    unfold checkWakeWord.
    match goal with |- context [wakeWordDetected config ?t] =>
      destruct (wakeWordDetected config t) end.
    + cbv beta zeta delta [andThen].
      apply (Hn _ neutral_invoke_onWakeWord).
      match goal with |- context [if ?c then _ else _] => destruct c end;
        [apply Hsend|];
        apply (Hn _ (neutral_assign_stt _ _)), (Hn _ (neutral_invoke_onUserSpeaking true)),
              (Hn _ (neutral_assign_stt _ _)), (Hn _ (neutral_assign_stt _ _)),
              (Hn _ (neutral_assign_stt _ _)), H.
    + apply (Hn _ (neutral_assign_stt _ _)), (Hn _ (neutral_invoke_onUserSpeaking true)),
            (Hn _ (neutral_assign_stt _ _)), (Hn _ (neutral_assign_stt _ _)),
            (Hn _ (neutral_assign_stt _ _)), H.
Qed.

Lemma never_stuck_same_flight (w w' : World) :
  same_flight w w' -> never_stuck w -> never_stuck w'.
Proof.
  unfold same_flight, never_stuck, in_flight. intros (E1 & E2 & E3) H.
  rewrite E1, E2, E3. exact H.
Qed.

Lemma never_stuck_handleFinalTranscript (t : string) :
  preserves never_stuck (handleFinalTranscript config t).
Proof.
  intros w H. destruct (accepted t w) eqn:Ha.
  - rewrite (handleFinalTranscript_accepted _ _ Ha).
    apply accepted_true in Ha as (_ & Hl & _).
    destruct (turn_opened_lock t w) as (L1 & L2 & L3).
    rewrite <- L1 in Hl.
    destruct (generate_unlocked _ Hl) as (_ & _ & _ & _ & _ & G2 & _).
    unfold never_stuck, in_flight. rewrite G2, length_app. simpl. lia.
  - rewrite (handleFinalTranscript_rejected _ _ Ha). exact H.
Qed.

Ltac unstuck :=
  unfold never_stuck, in_flight in *; wsimpl;
  first [ reflexivity
        | assumption
        | intros H0; exfalso; revert H0; rewrite ?length_app; simpl; lia ].

Lemma never_stuck_run_timer (tm : Timer) : preserves never_stuck (run_timer tm).
Proof.
  intros w H. destruct tm as [h d cb]. unfold run_timer. open_world w.
  destruct cb, st, hdl, win; unstuck.
Qed.

Lemma never_stuck_step (e : Event) : preserves never_stuck (step config e).
Proof.
  destruct (transcriber_preserves never_stuck never_stuck_same_flight
              never_stuck_handleFinalTranscript) as [Hc Ht].
  intros w H. destruct e; unfold step.
  - apply (never_stuck_same_flight w); [apply neutral_onAudioChunk | exact H].
  - apply Hc, H.
  - apply Ht, H.
  - apply (never_stuck_same_flight w); [repeat split | exact H].
  - apply (never_stuck_same_flight w); [repeat split | exact H].
  - apply (never_stuck_same_flight w); [apply neutral_startCalloutConversation | exact H].
  - apply (never_stuck_same_flight w); [repeat split | exact H].
  - apply (never_stuck_same_flight w); [repeat split | exact H].
  - destruct (take_generation id (pendingLLM w)) as [p|]; [|exact H].
    destruct p as [pid pend]. clear H. open_world w.
    destruct pend, tts, win, hdl, st, lock; unstuck.
  - destruct (take_generation id (pendingLLM w)) as [p|]; [|exact H].
    clear H. open_world w. destruct win, hdl; unstuck.
  - destruct (take_speech id (pendingTTS w)) as [p|]; [|exact H].
    destruct p as [pid pend ptext]. clear H. open_world w.
    destruct r, pend, win, hdl, st, lock; unstuck.
  - unfold advance. cbv zeta.
    assert (H' : never_stuck (run_timers (2 * List.length (timers w)) t w)).
    { apply run_timers_invariant; [|exact H].
      intros w0 tm H0 _. apply never_stuck_run_timer, H0. }
    exact H'.
  - apply (never_stuck_same_flight w); [apply (neutral_start e) | exact H].
  - apply (never_stuck_same_flight w); [apply neutral_stop | exact H].
Qed.

Lemma never_stuck_run (es : list Event) (window tts : bool) (t0 : Z) :
  never_stuck (run config es (new_ConversationManager window tts t0)).
Proof.
  assert (H0 : never_stuck (new_ConversationManager window tts t0)).
  { intros _. reflexivity. }
  generalize dependent (new_ConversationManager window tts t0).
  induction es as [|e es IH]; intros w Hw; [exact Hw|].
  simpl. apply IH, never_stuck_step, Hw.
Qed.

(** The lock is always given back.  In every state the orchestrator
    reaches, whatever the language model, the synthesiser, the window and
    the timers did: when no generation and no synthesis is under way the
    lock is free and the state is not 'responding', so every final
    transcript that is not noise is accepted; the manager is never left
    deaf. *)
Theorem lock_never_sticks (es : list Event) (window tts : bool) (t0 : Z) :
  let w := run config es (new_ConversationManager window tts t0) in
  in_flight w = 0%nat ->
  isProcessingResponse (cm w) = false
  /\ state (cm w) <> responding
  /\ forall t, accepted t w = negb (isNoise t).
Proof.
  intros w Hidle.
  pose proof (never_stuck_run es window tts t0 Hidle) as Hl. fold w in Hl.
  destruct (tidy_run es window tts t0) as [Hr _]. fold w in Hr.
  assert (Hs : state (cm w) <> responding).
  { intros Hc. specialize (Hr Hc). congruence. }
  split; [exact Hl|]. split; [exact Hs|].
  intros t. unfold accepted. rewrite Hl.
  destruct (state (cm w)); simpl; rewrite ?andb_true_r; try reflexivity.
  exfalso. apply Hs. reflexivity.
Qed.

(** *** What Goggins says *)

Section Spoken.

Variable G : list string.

Ltac spoken :=
  unfold spoken_from in *; wsimpl;
  match goal with
  | H : Forall _ _ /\ Forall _ _ |- _ =>
      let Ht := fresh "Ht" in let Hp := fresh "Hp" in
      destruct H as [Ht Hp];
      split; [rewrite ?Forall_app; repeat split; try assumption; repeat constructor
             | try assumption]
  end.

Lemma spoken_assign_stt {A} (set : A -> WhisperCppClient -> WhisperCppClient) (v : A) :
  preserves (spoken_from G) (assign_stt set v).
Proof. intros w H. exact H. Qed.

Lemma spoken_enterConversationMode (m : ConversationMode) :
  preserves (spoken_from G) (enterConversationMode config m).
Proof. intros w H. open_world w. destruct hdl, win; spoken. Qed.

Lemma spoken_invoke_onUserSpeaking (b : bool) :
  preserves (spoken_from G) (invoke_onUserSpeaking b).
Proof.
  intros w H. unfold invoke_onUserSpeaking. open_world w.
  destruct cbU, b, st, win; spoken.
Qed.

Lemma spoken_invoke_onWakeWord : preserves (spoken_from G) (invoke_onWakeWord config).
Proof.
  intros w H. unfold invoke_onWakeWord. open_world w.
  destruct cbW, st, hdl, win; spoken.
Qed.

Lemma spoken_turn_opened (t : string) : preserves (spoken_from G) (turn_opened config t).
Proof.
  intros w H. unfold turn_opened. open_world w. destruct st, hdl, win; spoken.
Qed.

Lemma spoken_handleFinalTranscript (t : string) :
  preserves (spoken_from G) (handleFinalTranscript config t).
Proof.
  intros w H. destruct (accepted t w) eqn:Ha.
  - rewrite (handleFinalTranscript_accepted _ _ Ha).
    apply accepted_true in Ha as (_ & Hl & _).
    destruct (turn_opened_lock t w) as (L1 & _).
    rewrite <- L1 in Hl.
    destruct (generate_unlocked _ Hl) as (_ & _ & _ & _ & _ & _ & G7 & _ & _ & G10).
    destruct (spoken_turn_opened t w H) as [Ht Hp].
    unfold spoken_from. rewrite G7, G10. split; [|exact Hp].
    rewrite !Forall_app. split; [exact Ht|]. split; [|repeat constructor].
    destruct (mainWindow (cm (turn_opened config t w))); repeat constructor.
  - rewrite (handleFinalTranscript_rejected _ _ Ha). exact H.
Qed.

Lemma spoken_emit (e : Effect) :
  speaks_from G e -> preserves (spoken_from G) (emit e).
Proof.
  intros He w [Ht Hp]. split; [|exact Hp].
  unfold emit. simpl. rewrite Forall_app. split; [exact Ht|]. constructor; [exact He|constructor].
Qed.

Lemma spoken_sendPendingTranscript : preserves (spoken_from G) (sendPendingTranscript config).
Proof.
  intros w H. unfold sendPendingTranscript.
  destruct (negb _ || negb _); [exact H|].
  cbv beta zeta delta [andThen].
  apply spoken_invoke_onUserSpeaking.
  apply (spoken_assign_stt stt_set_isUserSpeaking).
  apply (spoken_assign_stt stt_set_pendingTranscript).
  unfold invoke_onTranscript. cbv beta zeta delta [andThen].
  apply spoken_handleFinalTranscript, spoken_emit; [exact I | exact H].
Qed.

Lemma spoken_checkTranscriptTimeout : preserves (spoken_from G) (checkTranscriptTimeout config).
Proof.
  intros w H. unfold checkTranscriptTimeout.
  destruct (negb _ || _); [exact H|].
  destruct (_ >=? _); [apply spoken_sendPendingTranscript|]; exact H.
Qed.

Lemma spoken_onTranscribed (raw : option string) :
  preserves (spoken_from G) (onTranscribed config raw).
Proof.
  intros w H.
  destruct (truthy (recognisedText raw)) eqn:Ht;
    [|unfold onTranscribed; cbv zeta; rewrite Ht; exact H].
  rewrite (onTranscribed_stored _ _ Ht).
  assert (Hv : spoken_from G (fragment_stored (recognisedText raw) w)).
  { unfold fragment_stored. cbv zeta.
    apply (spoken_assign_stt stt_set_lastTranscriptTime), spoken_invoke_onUserSpeaking,
      (spoken_assign_stt stt_set_isUserSpeaking),
      (spoken_assign_stt stt_set_lastTranscriptChunkTime),
      (spoken_assign_stt stt_set_pendingTranscript), H. }
  revert Hv. generalize (fragment_stored (recognisedText raw) w). intros v Hv.
  unfold checkWakeWord.
  destruct (wakeWordDetected config _); [|exact Hv].
  cbv beta zeta delta [andThen].
  apply spoken_invoke_onWakeWord.
  destruct (truthy _ && _); [apply spoken_sendPendingTranscript|]; exact Hv.
Qed.

Lemma spoken_run_timer (tm : Timer) : preserves (spoken_from G) (run_timer tm).
Proof.
  intros w H. destruct tm as [h d cb]. unfold run_timer. open_world w.
  destruct cb, st, hdl, win; spoken.
Qed.

Lemma Forall_filter_keep {A : Type} (P : A -> Prop) (f : A -> bool) (l : list A) :
  Forall P l -> Forall P (filter f l).
Proof.
  intros H. apply Forall_forall. intros x Hx. apply filter_In in Hx as [Hx _].
  revert x Hx. apply Forall_forall, H.
Qed.

Lemma spoken_step (e : Event) (w : World) :
  (forall id t ts, e = ResponseGenerated id t ts -> In t G) ->
  spoken_from G w -> spoken_from G (step config e w).
Proof.
  intros He H. destruct e; unfold step.
  - unfold onAudioChunk. destruct (shouldForward w); [|exact H].
    open_world w. destruct strm; spoken.
  - apply spoken_checkTranscriptTimeout, H.
  - apply spoken_onTranscribed, H.
  - exact H.
  - exact H.
  - open_world w. destruct hdl, win; spoken.
  - exact H.
  - exact H.
  - specialize (He id t ts eq_refl).
    destruct (take_generation id (pendingLLM w)) as [p|]; [|exact H].
    destruct p as [pid pend]. open_world w.
    destruct pend, tts, win, hdl, st, lock; spoken;
      try (rewrite Forall_app; split; [assumption|repeat constructor; exact He]);
      exact He.
  - destruct (take_generation id (pendingLLM w)) as [p|]; [|exact H].
    open_world w. destruct win, hdl; spoken.
  - destruct (take_speech id (pendingTTS w)) as [p|] eqn:Hf; [|exact H].
    assert (Hp : In (tts_text p) G).
    { apply find_some in Hf as [Hin _]. destruct H as [_ Hall].
      revert p Hin. apply Forall_forall, Hall. }
    destruct p as [pid pend ptext]. simpl in Hp. clear Hf.
    open_world w.
    destruct r, pend, win, hdl, st, lock; spoken;
      try (apply Forall_filter_keep; assumption); exact Hp.
  - unfold advance. cbv zeta.
    assert (H' : spoken_from G (run_timers (2 * List.length (timers w)) t w)).
    { apply run_timers_invariant; [|exact H].
      intros w0 tm H0 _. apply spoken_run_timer, H0. }
    exact H'.
  - unfold start.
    destruct (voiceListeningEnabled config); [|exact H].
    destruct (micPermissionGranted e); [|exact H].
    open_world w.
    destruct ini, strm, rec, (whisperLoads e), (microphoneStarts e), hdl, win, st;
      wsimpl0; unfold enterConversationMode, setTimeout; spoken.
  - open_world w. destruct strm, hdl, st; spoken.
Qed.

End Spoken.

Lemma generated_texts_app (es es' : list Event) :
  generated_texts (es ++ es') = generated_texts es ++ generated_texts es'.
Proof. unfold generated_texts. apply flat_map_app. Qed.

Lemma spoken_run (G : list string) (es : list Event) (w : World) :
  incl (generated_texts es) G -> spoken_from G w -> spoken_from G (run config es w).
Proof.
  revert w. induction es as [|e es IH]; intros w HG H; [exact H|].
  simpl. apply IH.
  - intros t Ht. apply HG. change (e :: es) with ([e] ++ es).
    rewrite generated_texts_app. apply in_or_app. right. exact Ht.
  - apply spoken_step; [|exact H].
    intros id t ts ->. apply HG. left. reflexivity.
Qed.

(** Goggins says only what the language model wrote.  In every run of the
    orchestrator, every text sent to the window to be spoken, and every
    text handed to the synthesiser, is a text the language model answered
    with earlier in that run. *)
Theorem speaks_only_generated_text (es : list Event) (window tts : bool) (t0 : Z) :
  let w := run config es (new_ConversationManager window tts t0) in
  (forall t audio ts, In (SendConversationSpeak t audio ts) (trace w) ->
                      In t (generated_texts es))
  /\ (forall id t, In (CallTTS id t) (trace w) -> In t (generated_texts es)).
Proof.
  intros w.
  assert (H : spoken_from (generated_texts es) w).
  { apply spoken_run; [apply incl_refl|]. split; constructor. }
  destruct H as [Ht _]. rewrite Forall_forall in Ht.
  split.
  - intros t audio ts Hin. apply (Ht _ Hin).
  - intros id t Hin. apply (Ht _ Hin).
Qed.

(** *** The configuration *)

Lemma numberOr_nonzero (n : option Z) (d : Z) : d <> 0 -> Config.numberOr n d <> 0.
Proof.
  intros Hd. unfold Config.numberOr. destruct n as [v|]; [|exact Hd].
  destruct (Z.eqb_spec v 0); assumption.
Qed.

Lemma includes_empty_text (sub : string) : sub <> "" -> includes "" sub = false.
Proof. destruct sub; [congruence|reflexivity]. Qed.

Lemma toLowerCase_nonempty (s : string) : s <> "" -> toLowerCase s <> "".
Proof. destruct s; [congruence|discriminate]. Qed.

(** The configuration [loadConfig] returns, whatever the environment.  No
    numeric setting is 0: a variable set to 0, like one that is not set or
    is not a number, gives the default, so neither the natural pause nor the
    send-off after a number of exchanges can be switched off that way.  The
    wake word is never empty, so the empty text never holds it.  The voice
    is on unless VOICE_LISTENING_ENABLED is exactly 'false', and the speech
    off unless ENABLE_TTS is exactly 'true'. *)
Theorem loaded_config_settings (env : Config.Env) :
  let c := Config.loadConfig env in
  (interventionThreshold c <> 0 /\ proactiveCooldownMin c <> 0
   /\ proactiveCooldownMax c <> 0 /\ proactiveTriggerDuration c <> 0
   /\ checkInIntervalMin c <> 0 /\ checkInIntervalMax c <> 0
   /\ naturalPauseMs c <> 0 /\ conversationAutoEndExchanges c <> 0
   /\ conversationResponseTimeout c <> 0)
  /\ (forall v, Config.NATURAL_PAUSE_MS env = Some v -> v <> 0 -> naturalPauseMs c = v)
  /\ (forall v, Config.CONVERSATION_AUTO_END_EXCHANGES env = Some v -> v <> 0 ->
                conversationAutoEndExchanges c = v)
  /\ (wakeWord c <> "" /\ wakeWordDetected c "" = false)
  /\ (voiceListeningEnabled c = false <-> Config.VOICE_LISTENING_ENABLED env = Some "false")
  /\ (enableTTS c = true <-> Config.ENABLE_TTS env = Some "true").
Proof.
  intros c. subst c. unfold Config.loadConfig. simpl.
  split; [repeat split; apply numberOr_nonzero; discriminate|].
  split; [|split; [|split; [|split]]].
  - intros v -> Hv. unfold Config.numberOr. destruct (Z.eqb_spec v 0); [contradiction|reflexivity].
  - intros v -> Hv. unfold Config.numberOr. destruct (Z.eqb_spec v 0); [contradiction|reflexivity].
  - assert (Hw : Config.textOr (Config.WAKE_WORD env) "hey goggins" <> "").
    { unfold Config.textOr. destruct (Config.WAKE_WORD env) as [v|]; [|discriminate].
      destruct (truthy v) eqn:E; [apply truthy_nonempty, E | discriminate]. }
    split; [exact Hw|].
    unfold wakeWordDetected. simpl wakeWord.
    apply includes_empty_text, toLowerCase_nonempty, Hw.
  - unfold Config.textIs. destruct (Config.VOICE_LISTENING_ENABLED env) as [v|]; simpl.
    + destruct (String.eqb_spec v "false") as [->|N]; simpl; split; congruence.
    + split; discriminate.
  - unfold Config.textIs. destruct (Config.ENABLE_TTS env) as [v|]; simpl.
    + destruct (String.eqb_spec v "true") as [->|N]; simpl; split; congruence.
    + split; discriminate.
Qed.

(** *** stop(), and a start() that was suspended *)

Ltac deaf_up :=
  unfold deaf, connected in *; wsimpl;
  match goal with H : _ /\ _ |- _ => destruct H as [? ?] end; subst;
  split; [reflexivity | rewrite ?filter_app; simpl; rewrite ?app_nil_r; reflexivity].

Section Deaf.

Variable f : list Effect.

Lemma deaf_enterConversationMode (m : ConversationMode) :
  preserves (deaf f) (enterConversationMode config m).
Proof. intros w H. open_world w. destruct hdl, win; deaf_up. Qed.

Lemma deaf_handleUserSpeaking (b : bool) : preserves (deaf f) (handleUserSpeaking b).
Proof. intros w H. open_world w. destruct b, st, win; deaf_up. Qed.

Lemma deaf_handleWakeWord : preserves (deaf f) (handleWakeWord config).
Proof. intros w H. open_world w. destruct st, hdl, win; deaf_up. Qed.

Lemma deaf_handlePartialTranscript (t : string) :
  preserves (deaf f) (handlePartialTranscript t).
Proof. intros w H. open_world w. destruct st, win; deaf_up. Qed.

Lemma deaf_handleFinalTranscript (t : string) :
  preserves (deaf f) (handleFinalTranscript config t).
Proof.
  intros w H. destruct (accepted t w) eqn:Ha.
  - rewrite (handleFinalTranscript_accepted _ _ Ha).
    apply accepted_true in Ha as (_ & Hl & _).
    unfold generateAndSpeakResponse, turn_opened.
    open_world w. simpl in Hl. subst.
    destruct st, hdl, win; deaf_up.
  - rewrite (handleFinalTranscript_rejected _ _ Ha). exact H.
Qed.

Lemma deaf_assign_stt {A} (set : A -> WhisperCppClient -> WhisperCppClient) (v : A) :
  (forall x s, isInitialized (set x s) = isInitialized s) ->
  preserves (deaf f) (assign_stt set v).
Proof. intros Hset w [H1 H2]. split; [|exact H2]. unfold connected. simpl. rewrite Hset. exact H1. Qed.

Lemma deaf_emit (e : Effect) : is_forward e = false -> preserves (deaf f) (emit e).
Proof.
  intros He w [H1 H2]. split; [exact H1|].
  simpl. rewrite filter_app. simpl. rewrite He, app_nil_r. exact H2.
Qed.

Lemma deaf_invoke_onTranscript (final : bool) (t : string) :
  preserves (deaf f) (invoke_onTranscript config final t).
Proof.
  intros w H. unfold invoke_onTranscript. cbv beta zeta delta [andThen].
  destruct final.
  - apply deaf_handleFinalTranscript, deaf_emit, H. reflexivity.
  - apply deaf_handlePartialTranscript, deaf_emit, H. reflexivity.
Qed.

Lemma deaf_invoke_onUserSpeaking (b : bool) : preserves (deaf f) (invoke_onUserSpeaking b).
Proof.
  intros w H. unfold invoke_onUserSpeaking.
  destruct (onUserSpeakingCallback (stt w)); [|exact H].
  cbv beta zeta delta [andThen]. apply deaf_handleUserSpeaking, deaf_emit, H. reflexivity.
Qed.

Lemma deaf_invoke_onWakeWord : preserves (deaf f) (invoke_onWakeWord config).
Proof.
  intros w H. unfold invoke_onWakeWord.
  destruct (onWakeWordCallback (stt w)); [|exact H].
  cbv beta zeta delta [andThen]. apply deaf_handleWakeWord, deaf_emit, H. reflexivity.
Qed.

Lemma deaf_sendPendingTranscript : preserves (deaf f) (sendPendingTranscript config).
Proof.
  intros w H. unfold sendPendingTranscript.
  destruct (negb _ || negb _); [exact H|].
  cbv beta zeta delta [andThen].
  apply deaf_invoke_onUserSpeaking.
  apply (deaf_assign_stt stt_set_isUserSpeaking); [reflexivity|].
  apply (deaf_assign_stt stt_set_pendingTranscript); [reflexivity|].
  apply deaf_invoke_onTranscript, H.
Qed.

Lemma deaf_checkTranscriptTimeout : preserves (deaf f) (checkTranscriptTimeout config).
Proof.
  intros w H. unfold checkTranscriptTimeout.
  destruct (negb _ || _); [exact H|].
  destruct (_ >=? _); [apply deaf_sendPendingTranscript|]; exact H.
Qed.

Lemma deaf_checkWakeWord (t : string) : preserves (deaf f) (checkWakeWord config t).
Proof.
  intros w H. unfold checkWakeWord.
  destruct (wakeWordDetected config t); [|exact H].
  cbv beta zeta delta [andThen].
  apply deaf_invoke_onWakeWord.
  destruct (truthy _ && _); [apply deaf_sendPendingTranscript|]; exact H.
Qed.

Lemma deaf_onTranscribed (raw : option string) : preserves (deaf f) (onTranscribed config raw).
Proof.
  intros w H. unfold onTranscribed. cbv zeta.
  destruct (truthy (recognisedText raw)); [|exact H].
  cbv beta zeta delta [andThen].
  apply deaf_checkWakeWord.
  apply (deaf_assign_stt stt_set_lastTranscriptTime); [reflexivity|].
  apply deaf_invoke_onUserSpeaking.
  apply (deaf_assign_stt stt_set_isUserSpeaking); [reflexivity|].
  apply (deaf_assign_stt stt_set_lastTranscriptChunkTime); [reflexivity|].
  apply (deaf_assign_stt stt_set_pendingTranscript); [reflexivity|].
  exact H.
Qed.

Lemma deaf_run_timer (tm : Timer) : preserves (deaf f) (run_timer tm).
Proof.
  intros w H. destruct tm as [h d cb]. unfold run_timer. open_world w.
  destruct cb, st, hdl, win; deaf_up.
Qed.

Lemma deaf_advance (t : Z) : preserves (deaf f) (advance t).
Proof.
  intros w H. unfold advance. cbv zeta.
  assert (H' : deaf f (run_timers (2 * List.length (timers w)) t w)).
  { apply run_timers_invariant; [|exact H].
    intros w0 tm H0 _. apply deaf_run_timer, H0. }
  exact H'.
Qed.

(** While the transcriber is disconnected no event but [start()] connects
    it, and nothing is forwarded. *)
Lemma deaf_step (e : Event) :
  (forall env, e <> Start env) -> preserves (deaf f) (step config e).
Proof.
  intros He w H. destruct e; unfold step.
  - unfold onAudioChunk, shouldForward. destruct H as [H1 H2].
    rewrite H1. simpl. split; assumption.
  - apply deaf_checkTranscriptTimeout, H.
  - apply deaf_onTranscribed, H.
  - exact H.
  - exact H.
  - open_world w. destruct hdl, win; deaf_up.
  - exact H.
  - exact H.
  - destruct (take_generation id (pendingLLM w)) as [p|]; [|exact H].
    destruct p as [pid pend]. open_world w.
    destruct pend, tts, win, hdl, st, lock; deaf_up.
  - destruct (take_generation id (pendingLLM w)) as [p|]; [|exact H].
    open_world w. destruct win, hdl; deaf_up.
  - destruct (take_speech id (pendingTTS w)) as [p|]; [|exact H].
    destruct p as [pid pend ptext]. open_world w.
    destruct r, pend, win, hdl, st, lock; deaf_up.
  - apply deaf_advance, H.
  - exfalso. apply (He e). reflexivity.
  - open_world w. destruct strm, hdl; deaf_up.
Qed.

End Deaf.

Lemma deaf_play (f : list Effect) (ms : list SuspendedStart.Moment)
    (s : SuspendedStart.Suspended) :
  forallb SuspendedStart.starts_nothing ms = true ->
  deaf f (SuspendedStart.world s) ->
  deaf f (SuspendedStart.world (SuspendedStart.play config ms s))
  /\ SuspendedStart.awaiting (SuspendedStart.play config ms s) = SuspendedStart.awaiting s.
Proof.
  revert s. induction ms as [|m ms IH]; intros s Hms H; [split; [exact H | reflexivity]|].
  simpl in Hms. apply andb_prop in Hms as [Hm Hms].
  unfold SuspendedStart.play. simpl fold_left.
  fold (SuspendedStart.play config ms (SuspendedStart.moment config m s)).
  destruct m as [e| |]; try discriminate Hm.
  assert (He : forall env, e <> Start env) by (intros env ->; discriminate Hm).
  destruct (IH (SuspendedStart.moment config (SuspendedStart.Happens e) s) Hms) as [I1 I2].
  - simpl. apply deaf_step; assumption.
  - split; [exact I1 | exact I2].
Qed.

(** The event [Start] is a call of [start()] whose continuation follows
    with nothing in between. *)
Lemma start_is_call_and_continuation (e : StartEnv) (w : World) :
  SuspendedStart.world
    (SuspendedStart.play config
       [SuspendedStart.StartCalled e; SuspendedStart.StartResumes 0]
       {| SuspendedStart.world := w; SuspendedStart.awaiting := [] |})
  = step config (Start e) w.
Proof.
  unfold SuspendedStart.play, SuspendedStart.moment, SuspendedStart.start_call,
    SuspendedStart.start_resume, SuspendedStart.connect_resume,
    SuspendedStart.start_continue, step, start, connect.
  simpl fold_left.
  destruct (voiceListeningEnabled config); simpl; [|reflexivity].
  destruct (micPermissionGranted e); simpl; [|reflexivity].
  destruct (isInitialized (stt w)) eqn:Ei; simpl; [reflexivity|].
  destruct (whisperLoads e); reflexivity.
Qed.

(** The continuation of a suspended [start()] changes the world as the
    event [Start] does when it finds the model loaded. *)
Lemma resume_is_start (e : StartEnv) (w : World) :
  voiceListeningEnabled config = true ->
  fst (SuspendedStart.start_resume config e w)
  = if whisperLoads e then step config (Start (SuspendedStart.settled e)) w else w.
Proof.
  intros Hen.
  unfold SuspendedStart.start_resume, SuspendedStart.connect_resume,
    SuspendedStart.start_continue, SuspendedStart.settled, step, start, connect.
  rewrite Hen. simpl.
  destruct (whisperLoads e); [|reflexivity].
  open_world w. destruct ini; reflexivity.
Qed.

Lemma moment_as_events (m : SuspendedStart.Moment) (s : SuspendedStart.Suspended) :
  (SuspendedStart.awaiting s = [] \/ voiceListeningEnabled config = true) ->
  SuspendedStart.world (SuspendedStart.moment config m s)
  = run config (SuspendedStart.as_events config m s) (SuspendedStart.world s)
  /\ (SuspendedStart.awaiting (SuspendedStart.moment config m s) = []
      \/ voiceListeningEnabled config = true).
Proof.
  intros Hinv. destruct m as [e|e|i]; simpl.
  - split; [reflexivity | exact Hinv].
  - unfold SuspendedStart.start_call.
    destruct (voiceListeningEnabled config) eqn:Hen; simpl; [|split; [reflexivity | exact Hinv]].
    destruct (micPermissionGranted e) eqn:Hp; simpl; [|split; [reflexivity | auto]].
    destruct (isInitialized (stt (SuspendedStart.world s))) eqn:Hi; simpl;
      [|split; [reflexivity | auto]].
    split; [|auto].
    unfold SuspendedStart.start_continue, start, connect. rewrite Hen, Hp, Hi. reflexivity.
  - destruct (nth_error (SuspendedStart.awaiting s) i) as [e|] eqn:En; simpl;
      [|split; [reflexivity | exact Hinv]].
    destruct Hinv as [Hinv | Hen];
      [rewrite Hinv in En; destruct i; discriminate En|].
    split; [|right; exact Hen].
    rewrite (resume_is_start e _ Hen). destruct (whisperLoads e); reflexivity.
Qed.

(** Cutting [start()] at its await adds no state.  However calls of
    [start()] are suspended and go on among the other events, the world the
    orchestrator reaches is one that a run of events reaches, with every
    [start()] one step: what holds in every state of a run holds with
    suspended calls of [start()] as well. *)
Theorem suspended_starts_add_no_state (ms : list SuspendedStart.Moment) (w : World) :
  exists es : list Event,
    SuspendedStart.world
      (SuspendedStart.play config ms
         {| SuspendedStart.world := w; SuspendedStart.awaiting := [] |})
    = run config es w.
Proof.
  assert (H : forall ms s,
             (SuspendedStart.awaiting s = [] \/ voiceListeningEnabled config = true) ->
             exists es, SuspendedStart.world (SuspendedStart.play config ms s)
                        = run config es (SuspendedStart.world s)).
  { clear. induction ms as [|m ms IH]; intros s Hinv; [exists []; reflexivity|].
    destruct (moment_as_events m s Hinv) as (E & Hinv').
    destruct (IH _ Hinv') as (es & Hes).
    exists (SuspendedStart.as_events config m s ++ es).
    unfold SuspendedStart.play in *. simpl fold_left. rewrite Hes, E.
    unfold run. rewrite fold_left_app. reflexivity. }
  apply (H ms {| SuspendedStart.world := w; SuspendedStart.awaiting := [] |}).
  left. reflexivity.
Qed.

(** [stop()] from any state: the manager is in 'monitoring' with the
    transcriber disconnected and no response timer held.  It tells the
    window nothing, and it leaves the lock, the suspended generations, the
    mode, the exchange count and the conversation history as they were; a
    second [stop()] changes nothing.  After it, whatever happens (audio,
    the transcriber, timers, callouts, answers of the models, another
    [stop()]), no chunk of the microphone reaches the transcriber for as
    long as [start()] is not called and no suspended [start()] goes on.
    But a [start()] that was suspended at its await when [stop()] ran does
    go on: it connects the transcriber, starts the stream and the
    microphone and enters the conversation, and the next chunk is forwarded
    though [start()] was not called after the [stop()]. *)
Theorem stop_until_start_continues (w : World) :
  let w' := stop w in
  (state (cm w') = monitoring /\ connected w' = false
   /\ isStreaming (stt w') = false /\ isRecording (cm w') = false
   /\ responseTimeoutHandle (cm w') = None)
  /\ (trace w' = trace w /\ same_flight w w'
      /\ mode (cm w') = mode (cm w) /\ exchangeCount (cm w') = exchangeCount (cm w)
      /\ conversationHistory (cm w') = conversationHistory (cm w))
  /\ stop w' = w'
  /\ (forall (waiting : list StartEnv) (ms : list SuspendedStart.Moment),
        forallb SuspendedStart.starts_nothing ms = true ->
        let s := SuspendedStart.play config ms
                   {| SuspendedStart.world := w'; SuspendedStart.awaiting := waiting |} in
        connected (SuspendedStart.world s) = false
        /\ filter is_forward (trace (SuspendedStart.world s)) = filter is_forward (trace w)
        /\ SuspendedStart.awaiting s = waiting)
  /\ (forall (waiting : list StartEnv) (i : nat) (e : StartEnv) (b : Buffer),
        nth_error waiting i = Some e ->
        whisperLoads e = true -> microphoneStarts e = true ->
        isProcessingResponse (cm w) = false -> isPlaybackActive (cm w) = false ->
        let s := SuspendedStart.play config
                   [SuspendedStart.StartResumes i; SuspendedStart.Happens (AudioChunk b)]
                   {| SuspendedStart.world := w'; SuspendedStart.awaiting := waiting |} in
        state (cm (SuspendedStart.world s)) = conversation
        /\ connected (SuspendedStart.world s) = true
        /\ isStreaming (stt (SuspendedStart.world s)) = true
        /\ filter is_forward (trace (SuspendedStart.world s))
           = filter is_forward (trace w) ++ [StreamAudio b]).
Proof.
  intros w'.
  assert (H : (state (cm w') = monitoring /\ connected w' = false
               /\ isStreaming (stt w') = false /\ isRecording (cm w') = false
               /\ responseTimeoutHandle (cm w') = None)
              /\ (trace w' = trace w /\ same_flight w w'
                  /\ mode (cm w') = mode (cm w)
                  /\ exchangeCount (cm w') = exchangeCount (cm w)
                  /\ conversationHistory (cm w') = conversationHistory (cm w))
              /\ stop w' = w').
  { unfold w', same_flight, connected. clear. open_world w.
    destruct strm, hdl; wsimpl; repeat split. }
  destruct H as (H1 & H2 & H3).
  split; [exact H1|]. split; [exact H2|]. split; [exact H3|]. split.
  - intros waiting ms Hms s.
    assert (Hd : deaf (filter is_forward (trace w)) w').
    { split; [apply H1|]. destruct H2 as (-> & _). reflexivity. }
    destruct (deaf_play _ ms {| SuspendedStart.world := w';
                               SuspendedStart.awaiting := waiting |} Hms Hd)
      as ((D1 & D2) & D3).
    split; [exact D1|]. split; [exact D2 | exact D3].
  - intros waiting i e b Hnth Hloads Hmic Hlock Hplay s. subst s w'.
    unfold SuspendedStart.play, SuspendedStart.moment.
    simpl fold_left. cbn [SuspendedStart.awaiting SuspendedStart.world].
    rewrite Hnth. cbn [SuspendedStart.awaiting SuspendedStart.world].
    unfold SuspendedStart.start_resume, SuspendedStart.connect_resume,
      SuspendedStart.start_continue, step.
    rewrite Hloads.
    clear H1 H2 H3 Hnth. revert Hlock Hplay. unfold connected, microphone_start, onAudioChunk,
      shouldForward, connected.
    rewrite Hmic. open_world w. simpl. intros -> ->.
    destruct strm, hdl, win; wsimpl;
      rewrite ?filter_app; simpl; rewrite ?app_nil_r; repeat split.
Qed.

End Properties.


(* ===================================================================== *)
(** ** The properties on concrete runs *)
(* ===================================================================== *)

Lemma C8_witness :
  handleFinalTranscript default_config "ok" listening = listening.
Proof.
  apply (C8_noise_transcript_is_noop default_config "ok" listening).
  right. reflexivity.
Defined.

Lemma C7_witness :
  state (cm (handleUserSpeaking true answering)) = conversation
  /\ exchangeCount (cm (handleUserSpeaking true answering)) = exchangeCount (cm answering).
Proof.
  pose proof (C7_interruption default_config answering eq_refl) as H.
  cbv zeta in H. destruct H as (H1 & H2 & _). split; assumption.
Defined.

(** C7, as stated, fails: after the interruption the lock is still held, so
    the next final transcript is dropped, not processed as the user's turn;
    and without a live window no stop signal is sent at all. *)
Lemma C7_counterexample :
  state (cm answering) = responding
  /\ (let w' := handleUserSpeaking true answering in
      state (cm w') = conversation
      /\ accepted "wait, stop" w' = false
      /\ handleFinalTranscript default_config "wait, stop" w' = w')
  /\ (let w0 := step default_config (WindowChanged false) answering in
      state (cm w0) = responding
      /\ trace (handleUserSpeaking true w0) = trace w0).
Proof. vm_compute. repeat split. Qed.

Lemma C10_witness :
  state (cm listening) = conversation
  /\ mode (cm listening) = Some callout_auto_listen.
Proof.
  pose proof (C10_start_listens_at_once default_config sound_env
                (new_ConversationManager true true 1000) listening eq_refl eq_refl) as H.
  destruct H as (H1 & H2 & _). split; assumption.
Defined.

(** C10, as stated, fails for a call made while the transcriber is
    streaming (the handler of 'voice:toggle-listening' calls [start()] on a
    manager that the monitor has started already).  The user has said
    "I need a break" and the fragment is pending in the transcriber;
    [start()] returns without throwing and the orchestrator is in
    'conversation' with mode 'callout_auto_listen' and count 0, but the
    pending transcript is not cleared: 1.5 s later it is committed as the
    first utterance of the conversation just entered. *)
Lemma C10_counterexample :
  voiceListeningEnabled default_config = true
  /\ heard = run default_config [Start sound_env; Transcribed (Some "I need a break")]
                (new_ConversationManager true true 1000)
  /\ pendingTranscript (stt heard) = "I need a break"
  /\ (let r := start default_config sound_env heard in
      snd r = Returned
      /\ state (cm (fst r)) = conversation
      /\ mode (cm (fst r)) = Some callout_auto_listen
      /\ exchangeCount (cm (fst r)) = 0
      /\ pendingTranscript (stt (fst r)) = "I need a break")
  /\ (let w := run default_config [Start sound_env; Elapse 2500; TranscriptCheck] heard in
      map text (conversationHistory (cm w)) = ["I need a break"]).
Proof. vm_compute. repeat split. Qed.

(** C1.  The lock does not keep generations apart when the grace timer of
    the response timeout runs under one.  The user answers late: the
    utterance is committed at 32600, after the response timer (31000) and
    before its grace timer (33000), and generation 3 starts under the lock.
    The grace timer finds the state 'responding', exits the conversation and
    frees the lock while the call of the language model is still awaited;
    the next utterance is accepted and generation 5 starts: two generations
    are in flight. *)
Lemma C1_overlapping_generations :
  let w1 := run default_config (firstn 5 late_reply) listening in
  let w2 := step default_config (Elapse 33000) w1 in
  let w3 := run default_config late_reply listening in
  (state (cm w1) = responding /\ isProcessingResponse (cm w1) = true
   /\ map gen_id (pendingLLM w1) = [3%nat])
  /\ (state (cm w2) = monitoring /\ isProcessingResponse (cm w2) = false
      /\ map gen_id (pendingLLM w2) = [3%nat])
  /\ w3 = run default_config (skipn 6 late_reply) w2
  /\ map gen_id (pendingLLM w3) = [3%nat; 5%nat]
  /\ in_flight w3 = 2%nat
  /\ generation_calls (trace w3) = 2%nat.
Proof. vm_compute. repeat split. Qed.

Lemma C2_witness :
  let w := run default_config timed_out (new_ConversationManager true true 1000) in
  let w' := run default_config three_turns (step default_config (Callout []) w) in
  in_conversation default_config three_turns (step default_config (Callout []) w) = true
  /\ (exists k : nat,
        Z.of_nat k = conversationAutoEndExchanges default_config
        /\ should_end_flags (trace w')
           = should_end_flags (trace w) ++ repeat false (k - 1) ++ [true])
  /\ conversation_over w'.
Proof.
  cbv zeta.
  assert (Hrun : in_conversation default_config three_turns
                   (step default_config (Callout [])
                      (run default_config timed_out
                           (new_ConversationManager true true 1000))) = true)
    by (vm_compute; reflexivity).
  pose proof (C2_automatic_end default_config timed_out true true 1000
                (Callout []) three_turns eq_refl
                ltac:(vm_compute; repeat split)
                ltac:(vm_compute; discriminate)) as H.
  cbv zeta in H.
  destruct (H eq_refl ltac:(vm_compute; discriminate) Hrun) as (k & Hk & Hlt & Heq).
  split; [exact Hrun|].
  assert (Hidle : idle (run default_config three_turns
                          (step default_config (Callout [])
                             (run default_config timed_out
                                  (new_ConversationManager true true 1000)))))
    by (vm_compute; repeat split).
  destruct (Z.eq_dec (Z.of_nat k) (conversationAutoEndExchanges default_config)) as [E | E].
  - destruct (Heq E) as (Hf & Hover & _).
    split; [exists k; split; [exact E | exact Hf] | exact (Hover Hidle)].
  - exfalso.
    assert (Hlt' : Z.of_nat k < conversationAutoEndExchanges default_config) by lia.
    destruct (Hlt Hlt') as (_ & Hs & _). apply Hs. vm_compute. reflexivity.
Defined.

(** C2, as stated, fails: with the limit at 3, it is the third response that
    is generated with shouldEnd = true; after exactly three completed cycles
    the orchestrator is already back in 'monitoring', and the next response
    opens a new conversation with shouldEnd = false. *)
Lemma C2_counterexample :
  conversationAutoEndExchanges default_config = 3
  /\ (let w := fold_left (fun w x => response_cycle default_config x w)
                         [first_exchange; second_exchange; third_exchange] listening in
      should_end_flags (trace w) = [false; false; true]
      /\ state (cm w) = monitoring
      /\ map gen_shouldEnd (pendingLLM (handleFinalTranscript default_config "one more thing" w))
         = [false]).
Proof. vm_compute. repeat split. Qed.

Lemma C4_witness :
  flushed "I need a break" (step default_config (Elapse 2500) heard)
          (checkTranscriptTimeout default_config (step default_config (Elapse 2500) heard)).
Proof.
  destruct (C4_silence_commit default_config
              [Start sound_env; Transcribed (Some "I need a break"); Elapse 2500]
              true true 1000 eq_refl) as (_ & H & _).
  exact H.
Defined.

(** C5, as stated, fails: when the synthesiser returns null the turn goes on,
    yet nothing of the reply reaches the presentation layer: no
    "conversation:speak" event is sent, with or without audio. *)
Lemma C5_counterexample :
  map tts_text (pendingTTS synthesising) = ["Stay hard"]
  /\ (let w' := step default_config (SpeechSynthesized 3 AudioNull) synthesising in
      state (cm w') = conversation
      /\ isProcessingResponse (cm w') = false
      /\ filter is_speak (trace w') = []
      /\ existsb (delivers_text "Stay hard") (trace w') = false)
  /\ (let ok := step default_config
                  (SpeechSynthesized 3 (AudioReady "data:audio/mp3;base64,AAAA")) synthesising in
      existsb (delivers_text "Stay hard") (trace ok) = true).
Proof. vm_compute. repeat split. Qed.

Lemma C6_witness :
  let w1 := enterConversationMode default_config callout_auto_listen listening in
  state (cm w1) = conversation
  /\ state (cm (run default_config (unanswered_wait ++ [Elapse 33000]) w1)) = monitoring
  /\ conversationHistory (cm (run default_config (unanswered_wait ++ [Elapse 33000]) w1)) = [].
Proof.
  pose proof (C6_timeout_recovery default_config [Start sound_env] true true 1000
                callout_auto_listen unanswered_wait eq_refl
                (conj (proj1 (Z.leb_le 1 30000) eq_refl)
                      (proj1 (Z.leb_le 30000 2147483647) eq_refl))) as H.
  cbv zeta in H. specialize (H ltac:(vm_compute; reflexivity)).
  destruct H as (H1 & H2 & H3 & _).
  cbv zeta. split; [exact H1|]. split; [exact H2 | exact H3].
Defined.

(** C6, as stated, fails for a conversation entered while a response is
    under way or about to be made, as is every conversation that a final
    transcript opens.  The first conversation has timed out at 33000.  The
    utterance "I need a break" is committed at 34500: the orchestrator
    enters 'conversation' (mode auto_detect) and asks for a reply.  No final
    transcript follows.  The reply is spoken at 37000, which arms the
    response timer anew: at 66500, the response timeout and the grace
    period after the entry, the orchestrator is still in 'conversation'
    with its history kept, and it is back in 'monitoring' at 69000 only.
    The same happens when a callout enters the conversation under a
    response. *)
Lemma C6_counterexample :
  let before := run default_config
                  [Elapse 33000; Transcribed (Some "I need a break"); Elapse 34500]
                  listening in
  let entered := step default_config TranscriptCheck before in
  let reply := [Elapse 36000; ResponseGenerated 4 "Stay hard" 36000;
                Elapse 37000; SpeechSynthesized 5 (AudioReady "data:audio/mp3;base64,AAAA")] in
  let late := run default_config (reply ++ [Elapse 66500]) entered in
  conversationResponseTimeout default_config = 30000
  /\ state (cm before) = monitoring
  /\ (In (SendStateChanged conversation (Some auto_detect) 0 true) (trace entered)
      /\ mode (cm entered) = Some auto_detect
      /\ now entered = 34500
      /\ final_transcripts entered = 1%nat)
  /\ (now late = 34500 + 30000 + GRACE_MS
      /\ final_transcripts late = 1%nat
      /\ state (cm late) = conversation
      /\ map text (conversationHistory (cm late)) = ["I need a break"; "Stay hard"])
  /\ state (cm (run default_config (reply ++ [Elapse 68999]) entered)) = conversation
  /\ state (cm (run default_config (reply ++ [Elapse 69000]) entered)) = monitoring
  /\ (let called := enterConversationMode default_config callout_auto_listen answering in
      let spoken := [Elapse 20000; ResponseGenerated 2 "Stay hard" 20000;
                     Elapse 21000;
                     SpeechSynthesized 4 (AudioReady "data:audio/mp3;base64,AAAA")] in
      let late := run default_config (spoken ++ [Elapse 34500]) called in
      state (cm called) = conversation
      /\ now called = 2500
      /\ now late = 2500 + 30000 + GRACE_MS
      /\ final_transcripts late = final_transcripts called
      /\ state (cm late) = conversation).
Proof. vm_compute. repeat split; auto 12. Qed.

Lemma C9_witness :
  ProductivityMonitor.calledOut
    (snd (ProductivityMonitor.captureAndAnalyze default_config
            (sample "YouTube" 8 1010000) called_out_youtube)) = false
  /\ ProductivityMonitor.lastCalledOutApp
       (fst (ProductivityMonitor.captureAndAnalyze default_config
               (sample "YouTube" 8 1010000) called_out_youtube)) = "YouTube".
Proof.
  pose proof (C9_callout_dedup default_config (sample "YouTube" 8 1010000)
                called_out_youtube
                {| primaryActivity := "watching videos"; appGuess := Some "YouTube";
                   taskType := other |}
                eq_refl) as H.
  cbv zeta in H. destruct H as (_ & H & _).
  apply H; [reflexivity | reflexivity | discriminate].
Defined.

(** C9, as stated, fails: YouTube is called out; five seconds later the
    score is 2, but the run stops at the natural pause (the callout was a
    message less than 60 s ago) and the stored identifier stays; YouTube at
    score 8 is then not called out again, within the pause or after it. *)
Lemma C9_counterexample :
  ProductivityMonitor.calledOut
    (snd (ProductivityMonitor.captureAndAnalyze default_config (sample "YouTube" 8 1005000)
            (monitor_run [sample "YouTube" 8 1000000] ProductivityMonitor.started))) = true
  /\ ProductivityMonitor.lastCalledOutApp called_out_youtube = "YouTube"
  /\ (let recovered := monitor_run [sample "Docs" 2 1010000] called_out_youtube in
      ProductivityMonitor.score (sample "Docs" 2 1010000)
      <= interventionThreshold default_config
      /\ ProductivityMonitor.lastCalledOutApp recovered = "YouTube"
      /\ snd (ProductivityMonitor.captureAndAnalyze default_config
                (sample "YouTube" 8 1015000) recovered) = []
      /\ ProductivityMonitor.lastCalledOutApp
           (fst (ProductivityMonitor.captureAndAnalyze default_config
                   (sample "YouTube" 8 1015000) recovered)) = "YouTube"
      /\ ProductivityMonitor.calledOut
           (snd (ProductivityMonitor.captureAndAnalyze default_config
                   (sample "YouTube" 8 1075000) recovered)) = false).
Proof. vm_compute. repeat split. intros H; discriminate H. Qed.

Lemma start_succeeds_witness :
  snd (start default_config sound_env (new_ConversationManager true true 1000)) = Returned.
Proof.
  apply (start_succeeds default_config sound_env (new_ConversationManager true true 1000));
    reflexivity.
Defined.

Lemma C3_witness :
  step default_config (AudioChunk []) answering = answering
  /\ audioBuffer (stt (handleFinalTranscript default_config "I need a break" listening)) = [].
Proof.
  destruct (C3_echo_gate default_config answering [] "I need a break") as (H1 & _).
  destruct (C3_echo_gate default_config listening [] "I need a break") as (_ & H2).
  split.
  - apply H1. right. left. reflexivity.
  - apply H2. reflexivity.
Defined.

Lemma C5_witness :
  state (cm (step default_config (ResponseFailed 2) answering)) = monitoring
  /\ isProcessingResponse (cm (step default_config (ResponseFailed 2) answering)) = false
  /\ state (cm (step default_config (SpeechSynthesized 3 SynthesisThrows) synthesising))
     = conversation.
Proof.
  destruct (C5_provider_failure default_config answering) as (H1 & _).
  destruct (C5_provider_failure default_config synthesising) as (_ & H2).
  specialize (H1 2%nat {| gen_id := 2; gen_shouldEnd := false |} eq_refl).
  specialize (H2 3%nat {| tts_id := 3; tts_shouldEnd := false; tts_text := "Stay hard" |}
                SynthesisThrows "" eq_refl (or_intror eq_refl)).
  cbv zeta in H1, H2.
  destruct H1 as (A1 & A2 & _). destruct H2 as (_ & _ & _ & _ & _ & _ & _ & B & _).
  split; [exact A1|]. split; [exact A2|]. apply B. reflexivity.
Defined.

Lemma accepted_transcript_recorded_witness :
  conversationHistory
    (cm (handleFinalTranscript default_config "I need a break"
           (run default_config [Start sound_env] (new_ConversationManager true true 1000))))
  = conversationHistory
      (cm (run default_config [Start sound_env] (new_ConversationManager true true 1000)))
    ++ [{| role := user; text := "I need a break";
           timestamp := now (run default_config [Start sound_env]
                               (new_ConversationManager true true 1000)) |}].
Proof.
  pose proof (accepted_transcript_recorded default_config [Start sound_env] true true 1000
                "I need a break") as H.
  cbv zeta in H. specialize (H ltac:(vm_compute; reflexivity)).
  destruct H as [H _]. exact H.
Defined.

Lemma lock_never_sticks_witness :
  isProcessingResponse
    (cm (run default_config [Start sound_env; Transcribed (Some "ok")]
           (new_ConversationManager true true 1000))) = false.
Proof.
  pose proof (lock_never_sticks default_config [Start sound_env; Transcribed (Some "ok")]
                true true 1000) as H.
  cbv zeta in H. specialize (H ltac:(vm_compute; reflexivity)).
  destruct H as [H _]. exact H.
Defined.

Lemma natural_pause_after_message_witness :
  monitor_effects default_config within_the_pause
    (ProductivityMonitor.addChatMessage chat_question 1000000 ProductivityMonitor.started) = [].
Proof.
  pose proof (natural_pause_after_message default_config 1000000 within_the_pause
                ltac:(repeat (constructor; [split; vm_compute; reflexivity|]); constructor))
    as [H _].
  destruct (H chat_question ProductivityMonitor.started) as [H1 _]. exact H1.
Defined.

Lemma proactive_cooldown_witness :
  generated ProductivityMonitor.Proactive
    (snd (ProductivityMonitor.captureAndAnalyze default_config (sample "YouTube" 8 1100000)
            (monitor_after default_config [sample "YouTube" 8 1060000]
               (ProductivityMonitor.addChatMessage
                  {| role := goggins; text := "Stay hard"; timestamp := 1000000 |}
                  1000000 ProductivityMonitor.started)))) = false.
Proof.
  pose proof (proactive_cooldown default_config
                ltac:(vm_compute; discriminate) 1000000
                [sample "YouTube" 8 1060000] (sample "YouTube" 8 1100000)
                ltac:(repeat (constructor; [vm_compute; discriminate|]); constructor)
                ltac:(vm_compute; reflexivity)) as [H _].
  exact (H "Stay hard" ProductivityMonitor.started).
Defined.

Lemma proactive_needs_sustained_low_productivity_witness :
  generated ProductivityMonitor.Proactive
    (snd (ProductivityMonitor.captureAndAnalyze default_config (sample "YouTube" 8 1100000)
            (monitor_after default_config [sample "YouTube" 8 1000000]
               ProductivityMonitor.started))) = false.
Proof.
  pose proof (proactive_needs_sustained_low_productivity default_config
                ltac:(vm_compute; reflexivity) 1000000
                [sample "YouTube" 8 1000000] (sample "YouTube" 8 1100000)
                ltac:(repeat (constructor; [vm_compute; discriminate|]); constructor)
                ltac:(vm_compute; reflexivity)) as [H _].
  exact (H ProductivityMonitor.started eq_refl).
Defined.

Lemma check_in_spacing_witness :
  generated ProductivityMonitor.CheckIn
    (snd (ProductivityMonitor.captureAndAnalyze default_config (sample "YouTube" 8 1500000)
            (monitor_after default_config [sample "YouTube" 8 1005000]
               (fst (ProductivityMonitor.captureAndAnalyze default_config
                       (sample "YouTube" 8 1000000) ProductivityMonitor.started)))))
  = false.
Proof.
  pose proof (check_in_spacing default_config 1000000 [sample "YouTube" 8 1005000]
                (sample "YouTube" 8 1000000) (sample "YouTube" 8 1500000)
                ProductivityMonitor.started
                ltac:(vm_compute; reflexivity) eq_refl
                ltac:(repeat (constructor; [vm_compute; discriminate|]); constructor)
                ltac:(vm_compute; reflexivity)) as H.
  cbv zeta in H. destruct H as [_ H]. exact H.
Defined.

Lemma due_check_in_goes_before_callout_witness :
  ProductivityMonitor.calledOut
    (snd (ProductivityMonitor.captureAndAnalyze default_config (sample "YouTube" 8 1000000)
            ProductivityMonitor.started)) = false.
Proof.
  pose proof (due_check_in_goes_before_callout default_config (sample "YouTube" 8 1000000)
                ProductivityMonitor.started
                {| primaryActivity := "watching videos"; appGuess := Some "YouTube";
                   taskType := other |}
                eq_refl ltac:(vm_compute; reflexivity) ltac:(vm_compute; reflexivity)
                ltac:(vm_compute; discriminate)) as H.
  cbv zeta in H. destruct H as [H _]. exact H.
Defined.

Lemma escalation_shortens_cooldown_witness :
  ChatHistory.canSendProactiveMessage 120000 300000 2 200000 ChatHistory.empty
  = (200000 - ChatHistory.lastResponseTime ChatHistory.empty >=? 120000).
Proof.
  pose proof (escalation_shortens_cooldown 120000 300000 ltac:(vm_compute; discriminate)
                200000 ChatHistory.empty) as H.
  cbv zeta in H. destruct H as (_ & H & _).
  exact (H 2 ltac:(vm_compute; discriminate)).
Defined.

Lemma activity_log_ring_buffer_witness :
  ActivityLog.getAll (log_after [logged] (ActivityLog.create ActivityLog.Missing true 1000000))
  = latest 15 (ActivityLog.entries (ActivityLog.create ActivityLog.Missing true 1000000)
               ++ [logged]).
Proof.
  pose proof (activity_log_ring_buffer (ActivityLog.create ActivityLog.Missing true 1000000)
                [logged] ltac:(vm_compute; repeat constructor)) as H.
  cbv zeta in H. destruct H as [H _]. exact H.
Defined.

Lemma coach_history_keeps_latest_witness :
  CoachHistory.getLatest
    (coach_after ([] ++ [(callout_message, 1000000)])
       (CoachHistory.create CoachHistory.Missing true 1000000))
  = Some callout_message.
Proof.
  pose proof (coach_history_keeps_latest
                (CoachHistory.create CoachHistory.Missing true 1000000) []
                callout_message 1000000 ltac:(vm_compute; repeat constructor)) as H.
  cbv zeta in H. destruct H as (_ & H & _). exact H.
Defined.

Lemma failed_scoring_is_silent_witness :
  snd (ProductivityMonitor.captureAndAnalyze default_config (sample "YouTube" 0 1000000)
         ProductivityMonitor.started) = [].
Proof.
  pose proof (failed_scoring_is_silent default_config
                [{| primaryActivity := "watching videos"; appGuess := Some "YouTube";
                    taskType := other |}]
                LlamaClient.Unavailable (sample "YouTube" 0 1000000)
                ProductivityMonitor.started
                ltac:(vm_compute; discriminate) eq_refl) as [_ H].
  destruct (H (or_intror (or_introl eq_refl))) as [_ H1]. exact H1.
Defined.

Lemma wake_word_utterance_is_answered_witness :
  state (cm (onTranscribed default_config (Some "hey goggins I am stuck")
               (new_ConversationManager true true 1000))) = conversation
  /\ mode (cm (onTranscribed default_config (Some "hey goggins I am stuck")
                 (new_ConversationManager true true 1000))) = Some wake_word
  /\ exchangeCount (cm (onTranscribed default_config (Some "hey goggins I am stuck")
                          (new_ConversationManager true true 1000))) = 0
  /\ isProcessingResponse (cm (onTranscribed default_config (Some "hey goggins I am stuck")
                                 (new_ConversationManager true true 1000))) = true.
Proof.
  pose proof (wake_word_utterance_is_answered default_config (Some "hey goggins I am stuck")
                (new_ConversationManager true true 1000)
                eq_refl eq_refl eq_refl (conj eq_refl eq_refl)
                ltac:(vm_compute; reflexivity) ltac:(vm_compute; reflexivity)
                ltac:(vm_compute; reflexivity)) as H.
  cbv zeta in H. destruct H as [H _]. exact H.
Defined.

Lemma responding_only_under_lock_witness :
  isProcessingResponse
    (cm (run default_config
           [Start sound_env; Transcribed (Some "I need a break"); Elapse 2500; TranscriptCheck]
           (new_ConversationManager true true 1000))) = true.
Proof.
  pose proof (responding_only_under_lock default_config
                [Start sound_env; Transcribed (Some "I need a break"); Elapse 2500;
                 TranscriptCheck] true true 1000) as H.
  cbv zeta in H. destruct H as [H _].
  exact (H ltac:(vm_compute; reflexivity)).
Defined.

Lemma one_response_timer_witness :
  responseTimeoutHandle
    (cm (run default_config [Start sound_env] (new_ConversationManager true true 1000)))
  = Some (handle {| handle := 1; due := 31000; callback := ResponseTimeout |}).
Proof.
  pose proof (one_response_timer default_config [Start sound_env] true true 1000) as H.
  cbv zeta in H. destruct H as (_ & H & _).
  exact (H {| handle := 1; due := 31000; callback := ResponseTimeout |}
           ltac:(vm_compute; left; reflexivity)).
Defined.

Lemma one_message_per_run_witness :
  "Close it. Now."
  = ProductivityMonitor.replyText (sample "YouTube" 8 1005000)
  /\ generated ProductivityMonitor.CoachCallout
       (snd (ProductivityMonitor.captureAndAnalyze default_config (sample "YouTube" 8 1005000)
               (monitor_run [sample "YouTube" 8 1000000] ProductivityMonitor.started)))
     = true
  /\ ProductivityMonitor.windowAlive
       (monitor_run [sample "YouTube" 8 1000000] ProductivityMonitor.started) = true.
Proof.
  pose proof (one_message_per_run default_config (sample "YouTube" 8 1005000)
                (monitor_run [sample "YouTube" 8 1000000] ProductivityMonitor.started)) as H.
  cbv zeta in H. destruct H as (_ & _ & H & _).
  exact (H ProductivityMonitor.CoachCallout "Close it. Now."
           ltac:(vm_compute; right; left; reflexivity)).
Defined.

Lemma chat_history_keeps_latest_witness :
  ChatHistory.getTimeSinceLastMessage (snd (chat_question, 1000000))
    (chat_after [(chat_question, 1000000)] ChatHistory.empty) = 0
  /\ JsArray.lastElement
       (ChatHistory.getAll (chat_after [(chat_question, 1000000)] ChatHistory.empty))
     = Some (fst (chat_question, 1000000)).
Proof.
  pose proof (chat_history_keeps_latest [(chat_question, 1000000)]) as H.
  cbv zeta in H. destruct H as (_ & _ & H & _).
  exact (H [] (chat_question, 1000000) eq_refl).
Defined.

Lemma activity_log_entries_since_witness :
  In logged
     (ActivityLog.getEntriesSince 60000 1000500
        (ActivityLog.addEntry logged (ActivityLog.create ActivityLog.Missing true 1000000))).
Proof.
  pose proof (activity_log_entries_since
                (ActivityLog.create ActivityLog.Missing true 1000000) 60000 1000500) as H.
  destruct H as (_ & _ & _ & H & _).
  exact (H logged 1000000 eq_refl ltac:(vm_compute; discriminate)).
Defined.

Lemma coach_history_restart_witness :
  CoachHistory.messages
    (CoachHistory.create
       (CoachHistory.file
          (CoachHistory.addMessage callout_message 1000000
             (CoachHistory.create CoachHistory.Missing true 1000000)))
       true 1000500)
  = CoachHistory.messages
      (CoachHistory.addMessage callout_message 1000000
         (CoachHistory.create CoachHistory.Missing true 1000000)).
Proof.
  pose proof (coach_history_restart
                (CoachHistory.file
                   (CoachHistory.addMessage callout_message 1000000
                      (CoachHistory.create CoachHistory.Missing true 1000000)))
                true 1000500) as H.
  cbv zeta in H. destruct H as (_ & _ & _ & H).
  exact (H (CoachHistory.create CoachHistory.Missing true 1000000) callout_message 1000000
           ltac:(vm_compute; repeat constructor) eq_refl
           ltac:(vm_compute; reflexivity) eq_refl).
Defined.

Lemma user_mood_detection_witness :
  ConversationMemory.userMood
    (ConversationMemory.updateFromUserMessage "I can't do this" [] None None
       (ConversationMemory.initial 1000))
  = ConversationMemory.defeated.
Proof.
  pose proof (user_mood_detection "I can't do this" [] None None
                (ConversationMemory.initial 1000)) as H.
  cbv zeta in H. destruct H as [H _].
  exact (H ltac:(vm_compute; reflexivity)).
Defined.

Lemma conversation_memory_counters_witness :
  let m' := fold_left remember two_turns (ConversationMemory.initial 1000) in
  ConversationMemory.totalExchanges m'
  = ConversationMemory.totalExchanges (ConversationMemory.initial 1000)
    + Z.of_nat (List.length two_turns)
  /\ (exists stored,
        ConversationMemory.lastGogginsMessage
          (ConversationMemory.updateFromGogginsMessage long_reply m') = Some stored
        /\ String.length stored = Nat.min 150 (String.length long_reply)
        /\ String.prefix stored long_reply = true)
  /\ (0 <= ConversationMemory.getSessionDurationMinutes 126000 m'
      /\ 60000 * ConversationMemory.getSessionDurationMinutes 126000 m'
         <= 126000 - ConversationMemory.sessionStartTime (ConversationMemory.initial 1000)
         < 60000 * (ConversationMemory.getSessionDurationMinutes 126000 m' + 1)).
Proof.
  pose proof (conversation_memory_counters two_turns (ConversationMemory.initial 1000)
                long_reply 126000) as H.
  cbv zeta in H. destruct H as (H1 & _ & _ & _ & (stored & Hs & Hlen & Hp & _) & H & _).
  cbv zeta. split; [exact H1|]. split.
  - exists stored. split; [exact Hs|]. split; [exact Hlen | exact Hp].
  - exact (H ltac:(vm_compute; discriminate)).
Defined.


Lemma audio_window_witness :
  (fst (WhisperAudio.processAudioBuffer (Z.to_nat 65536) true three_seconds)
   = [latest (Z.to_nat 32000) (List.concat three_seconds)]
   /\ Z.of_nat (List.length
                  (List.concat (fst (WhisperAudio.processAudioBuffer (Z.to_nat 65536) true
                                       three_seconds))))
      = 32000)
  /\ (fst (WhisperAudio.processAudioBuffer (Z.to_nat 65536) true five_seconds) = five_seconds
      /\ snd (WhisperAudio.processAudioBuffer (Z.to_nat 65536) true five_seconds)
         = WhisperAudio.Failed).
Proof.
  split.
  - pose proof (audio_window (Z.to_nat 65536) three_seconds) as H.
    cbv zeta in H. destruct H as (_ & _ & H & _).
    destruct (H ltac:(vm_compute; discriminate) ltac:(vm_compute; reflexivity)
                ltac:(apply Nat.leb_le; vm_compute; reflexivity))
      as (H1 & H2 & _).
    split; [exact H1 | exact H2].
  - pose proof (audio_window (Z.to_nat 65536) five_seconds) as H.
    cbv zeta in H. destruct H as (_ & _ & _ & H & _).
    destruct (H ltac:(vm_compute; discriminate) ltac:(vm_compute; reflexivity)
                ltac:(apply Nat.ltb_lt; vm_compute; reflexivity))
      as (H1 & H2 & _).
    split; [exact H1 | exact H2].
Defined.

Lemma speaks_only_generated_text_witness :
  In "Stay hard" (generated_texts full_turn).
Proof.
  pose proof (speaks_only_generated_text default_config full_turn true true 1000) as H.
  cbv zeta in H. destruct H as [H _].
  exact (H "Stay hard" "data:audio/mp3;base64,AAAA" 2500
           ltac:(vm_compute; do 7 right; left; reflexivity)).
Defined.

Lemma loaded_config_settings_witness :
  naturalPauseMs (Config.loadConfig short_pause_env) = 30000.
Proof.
  pose proof (loaded_config_settings short_pause_env) as H.
  cbv zeta in H. destruct H as (_ & H & _).
  exact (H 30000 eq_refl ltac:(discriminate)).
Defined.

Lemma stop_until_start_continues_witness :
  (let s := SuspendedStart.play default_config
              [SuspendedStart.Happens (AudioChunk []);
               SuspendedStart.Happens (Callout []);
               SuspendedStart.Happens (Elapse 5000);
               SuspendedStart.Happens (AudioChunk [])]
              {| SuspendedStart.world := stop listening;
                 SuspendedStart.awaiting := [sound_env] |} in
   connected (SuspendedStart.world s) = false
   /\ filter is_forward (trace (SuspendedStart.world s)) = filter is_forward (trace listening)
   /\ SuspendedStart.awaiting s = [sound_env])
  /\ (let s := SuspendedStart.play default_config
                 [SuspendedStart.StartResumes 0; SuspendedStart.Happens (AudioChunk [])]
                 {| SuspendedStart.world := stop listening;
                    SuspendedStart.awaiting := [sound_env] |} in
      state (cm (SuspendedStart.world s)) = conversation
      /\ connected (SuspendedStart.world s) = true
      /\ isStreaming (stt (SuspendedStart.world s)) = true
      /\ filter is_forward (trace (SuspendedStart.world s))
         = filter is_forward (trace listening) ++ [StreamAudio []]).
Proof.
  pose proof (stop_until_start_continues default_config listening) as H.
  cbv zeta in H. destruct H as (_ & _ & _ & H4 & H5).
  split.
  - exact (H4 [sound_env]
              [SuspendedStart.Happens (AudioChunk []);
               SuspendedStart.Happens (Callout []);
               SuspendedStart.Happens (Elapse 5000);
               SuspendedStart.Happens (AudioChunk [])]
              eq_refl).
  - exact (H5 [sound_env] 0%nat sound_env [] eq_refl eq_refl eq_refl
              ltac:(vm_compute; reflexivity) ltac:(vm_compute; reflexivity)).
Defined.
